(* ===== verification/_CoqProject ===== *)
-Q . S2P
Prelude.v
GoBytes.v
GoRuntime.v
GoNet.v
GoText.v
Framing.v
Disco.v
Replay.v
NoiseLib.v
Noisework.v
Transport.v
Keyfile.v
Relay.v
RelayRun.v
PeerSession.v
PeerSafety.v
PeerLoop.v
PeerHandshake.v
Stun.v
Control.v
Protocol.v
Coordinator.v
CoordinatorSafety.v
CoordinatorDemo.v
CoordinatorRun.v
Nat.v
NatSafety.v
NatHistory.v
NatTraffic.v
NatRun.v
Tun.v
TunDevices.v
Agent.v
AgentSafety.v
AgentPeers.v
AgentNet.v
AgentCalls.v
Tunnel.v
Overlay.v
Fallback.v
PingPong.v
AgentDemo.v
AgentControl.v
AgentControlSafety.v
Enrolment.v
EnrolmentDemo.v
CommandLine.v
HttpTest.v
Report.v
ReportSafety.v
ReportReturns.v
Dashboard.v
CommandsDemo.v
