(* ===== verification/Prelude.v ===== *)
(** * meshlink, verified: an overlay network of agents

    The Go program under src/ connects agents over UDP: a coordinator tells them of each
    other, a STUN service tells each its public address, a relay carries what cannot go
    directly, a NAT simulator stands between them in the tests, and a TUN device carries IP
    packets over the encrypted peer sessions. Five commands start these parts (src/cmd/).
    This library models the program's packages (src/internal/) and its commands, and proves
    what they promise, alone and composed.

    ** How the parts interact

    An agent ([Agent]) registers with the coordinator ([Coordinator]) over an encrypted
    control connection ([Control], on the sessions of [Noisework]), learns its address by
    STUN ([Stun]) and gets a peer list ([Protocol]). For every peer it keeps a session
    ([PeerSession]) that establishes itself by a Noise XX handshake over datagrams framed by
    [Framing], on the direct path or over the relay ([Relay], [Disco]); data is guarded by
    the replay window ([Replay]). Behind a NAT box ([Nat]) its datagrams travel in
    envelopes. A TUN bridge routes packets to peers ([Tun], [TunDevices]); [Ping] and
    [ProbeRTT] measure round trips. Long-term keys are kept in a keyfile ([Keyfile]).
    [AgentControl] puts the agent's control connection around it: start, registrations,
    reader loops, queries, close. The commands read their flags ([CommandLine]) and run an
    agent under a status report ([Report]) or a dashboard ([Dashboard]).

    ** Files

    Foundations: this file (results, lists, lengths, the tactics [zbool], [destr], [len_lia]
    and the hint database [mesh]); [GoBytes] (bytes, integers at their width, big-endian
    codecs, strings, [TrimSpace]); [GoRuntime] (time, [io.ReadFull], the unspecified order
    of a map range as the class [RangeOrder]); [GoNet] (net.UDPAddr and its textual form);
    [GoText] (strconv's integers, durations parsed, rounded and printed, floats);
    [NoiseLib] (the interface [NoiseLib] to flynn/noise and x/crypto with its laws
    [NoiseLaws] and [XXLaws], and [Toy], a concrete implementation for the witnesses).

    Components, each with the Go file it models; a definition bears the name of the Go
    function, and its state is a record with the Go struct's fields:
    - [Framing] (internal/record/record.go): [Frame], [Parse], [ReadFrame].
    - [Disco] (internal/disco/disco.go): paths, timing, the role split.
    - [Replay] (internal/peer/replay.go): [replayWindow] on its 64-bit words, refining
      [Spec], the set of accepted nonces.
    - [Noisework], [Transport] (internal/noisework/noisework.go): [Session] with rekeying,
      [Initiator], [Responder]; what is on the wire, what is accepted, loss and reordering,
      forged frames, the handshake. [Keyfile]: [LoadOrCreateKeyfile] as processes that share
      a file, one system call a step.
    - [PeerSession], [PeerSafety], [PeerLoop], [PeerHandshake] (internal/peer/peer.go): a
      [Node] is a [Peer] and the position of its [Run] loop; [node_step] is one critical
      section of one of the goroutines. No panic, authentication, at-most-once delivery, the
      HS1 budget; whole ticks of the loop; establishment in spite of lost messages by the
      ticks of the two loops ([lossy_exchange], [timed]); delivery in order.
    - [Relay] (internal/relay/relay.go): [handlePacket] and its budgets, pins, sweep.
      [RelayRun]: a relay's [Process], the loop of [Run], its watcher and [Close] in steps.
    - [Stun] (internal/stun/stun.go): requests, responses, attributes, the resolver's loop.
    - [Control] (internal/control/control.go): [Initiate], [Accept], [ReadMsg], [WriteMsg].
    - [Protocol] (internal/protocol/protocol.go): [Marshal], [EncodeLine], [ReadLine].
    - [Coordinator], [CoordinatorSafety], [CoordinatorDemo]
      (internal/coordinator/coordinator.go): handlers at their positions [pc], a step being
      one critical section, read or write; [register], [cleanupConn], [broadcast].
      [CoordinatorRun]: a [Process], which is a [Server] with the goroutines of [Run] and
      with [Close] in steps; it refines [Coordinator], and shuts down completely.
    - [Nat], [NatSafety], [NatHistory], [NatTraffic] (internal/nat/nat.go): [Box] with its
      mapping table and sockets; the specification of each behaviour on the history alone.
      [NatRun]: [Running], the box with the readers and the cleanup that [Run] starts.
    - [Tun] (internal/tun/router.go, fake.go, tun.go): [Router], [parseIPv4],
      [BufferDevice]. [TunDevices] (tun_linux.go, tun_darwin.go, tun_other.go): opening a
      device, its request to the kernel, and the frames it reads and writes.
    - [Agent] (internal/agent/agent.go, status.go, tunbridge.go): the agent's state and one
      step per critical section or hand-over of its goroutines; [AgentSafety] (the
      invariant), [AgentPeers] (peer lists), [AgentNet] (with relay, NAT and coordinator),
      [AgentCalls] (what [ProbeRTT] and [Ping] report), [Tunnel] (packets from device to
      device), [Overlay] (from two configurations to that), [Fallback] (and over
      the relay, when nothing arrives directly), [PingPong] (a probe and its
      answer), [AgentDemo] (concrete runs).
    - [AgentControl] (internal/agent/agent.go: [Start], [Run], [setup], [register],
      [ctrlReaderLoop], [QueryCoordinator], [Close]): a [Client] is an [Agent] with its
      control connections and the positions of the goroutines that use them;
      [AgentControlSafety] (invariants, who is heard, the agent inside), [Enrolment] (with
      the coordinator: registration, query, broadcast), [EnrolmentDemo].
    - [CommandLine] (cmd/agent/main.go, cmd/relay, coordinator and natbox): package flag's
      parser, the flags, the checks of [main], the configuration handed on.
    - [Report] (cmd/agent/status.go): [collectStatus] as steps around a client, whose events
      it keeps as a history ([moves]); [fmtDur], the text and the document; [ReportSafety] (what is reported), [ReportReturns] (that it
      returns). [Dashboard] (cmd/agent/tui.go): the loop, the probe gate, header and table.
      [HttpTest] (cmd/httptest/main.go): sizes, the payload file, the
      certificate, the handler, [main] over the files on the disk.
      [CommandsDemo]: concrete runs of all of them.

    ** What the theorems show

    - Safety in every interleaving, from the initial state, whatever arrives: peers
      ([PeerSafety.peer_safety], [at_most_once]), relay ([pin_not_hijacked],
      [relay_budgets]), coordinator ([registry_safe], [name_held], [disconnect_releases]),
      NAT box ([sockets_accounted]), agent ([announced_keys], [agent_tables],
      [datagram_isolated]), its control connection ([coordinator_only], [control_sessions],
      [session_survives]), keyfile ([one_identity]), the commands ([started_checked],
      [status_authentic], [one_probe_per_peer], [serves_only_file], [serves_announced]). Each rests on an invariant that every
      step keeps; the invariants are also where absence of panics comes from.
    - Refinement of a specification: [Accept_refines], [admission_spec], [rtt_history]; [life_refines] (a
      client's life is a run of its agent's own steps), [process_refines] and
      [process_serves].
    - Shutdown: [run_returns], [shutdown_complete], [closed_handler_ends] of the
      coordinator, [run_accounted] and [box_stops] of the NAT box, [relay_stops] of the relay.
    - What gets through: [overlay_forms], [relay_establishes], [handshake_survives_loss], [data_flows], [tunnel_delivers],
      [probe_answered], [relay_path], [door_transparent], [reply_delivered],
      [registration_broadcast], [transport_delivery], [control_stream]; with the
      coordinator [enrols], [query_answered], [broadcast_applied]; and [config_given]: every
      configuration can be given on the command line.
    - Codecs as equivalences with their grammar or round trips, bounds of sizes, budgets
      and nonces, exact conditions of errors, and ends of loops ([broadcast_ends],
      [starter_returns], [old_loop_ends], [status_returns]).
    - What does not hold is proved too, where the code does not do what it says, as lemmas
      with a concrete run or a general statement: [second_name_leaks],
      [peer_list_dropped], [oversized_message_refused], [ReadLine_line], [Close_twice],
      [startup_race], [early_pong_lost], [parseSize_units],
      [ensureFile_spec] (the partial file), [cert_clobbers], [index_page_redirected], [platforms_agree],
      [racing_closes], [straggler], [mapping_after_close].

    ** Conventions

    - Integers are [Z]; where Go's arithmetic can wrap, [u64], [i64] or [byte_of] is written
      out. A function that may return an error returns [res]; a Go panic is [None].
    - Goroutines: a step is what runs under one lock or between two blocking operations; a
      run is any list of steps. A step that does not apply changes nothing.
    - Inputs of a step: the time, fresh randomness, the outcome of reads and writes, which
      branch a select takes, the order of a map range.
    - Shared objects are references into a store: the sessions of a peer and the peers of
      an agent, the connections of the coordinator, the sockets of the NAT box.
    - Fuel: the rekey loop runs at most [maxEpochJump] + 1 times because a larger gap is
      refused; [trim] removes a byte a round; the STUN attribute scan advances at least four
      bytes a round ([Stun.Decode_total] shows the fuel never runs out); a control line is
      read in at most as many buffers as the stream has bytes, as every buffer but the last
      is full ([Protocol.ReadLine_line]); [HttpTest.fill] has a round per MiB of the size and
      one more ([ensureFile_spec] shows that is enough); a duration has at most as many units
      as characters; everything else is structural. A keyfile's user needs at most 68 system
      calls: 3, one for each of at most 64 writes, and the close.

    ** Parameters

    flynn/noise and x/crypto ([NoiseLib] with its laws, [Keyfile.KeyGen]). The law of the XX
    handshake ([XXLaws.xx_run]) is only about two parties that each own the static key they
    send: the public half of a configuration's pair is the one of its private half. The
    theorems that use it ask for [genuine] key pairs, which is what the program runs with
    ([Keyfile.wf_genuine], [Keyfile.loadKeyfile_genuine]); [Toy] refuses anybody else
    ([Toy.impostor_refused]). Also parameters: json.Unmarshal
    ([Protocol.Json], [Agent.PingJson]; Marshal is defined); the resolver's part beyond IPv4
    literals (the argument [other]), netip.ParseAddr (the argument [parse]) and net.ParseIP;
    filepath.Join, SHA-256 and the class [X509] of [HttpTest]; the texts of errors in [Report]; the order
    of map ranges ([RangeOrder]). The theorems' laws about them are hypotheses or classes, and
    the Demo modules instantiate them all.

    ** Not modelled

    - Of the operating systems' TUN devices: the ioctls and the privileges they take; what the
      kernel answers is an input of the step.
    - tview's layout and tcell's event loop and keys; the JSON encoder's text of a float; the
      ranges and headers of http.ServeFile; TLS, and what signing a certificate does with its
      template. Usage texts, logging, and accessors that only read a field.
    - Real time: deadlines and tickers appear as steps that may happen. *)

From stdpp Require Export base tactics option list gmap strings numbers.
From Stdlib Require Export ZArith Lia Sorted.
From Stdlib Require Export Strings.Byte.

#[global] Open Scope Z_scope.

(** ** Go results: a value, or the error the function returned. *)
Inductive res (E A : Type) : Type :=
| Ok (a : A)
| Err (e : E).
Arguments Ok {E A} a.
Arguments Err {E A} e.

#[export] Instance res_ret E : MRet (res E) := fun A a => Ok a.
#[export] Instance res_bind E : MBind (res E) :=
  fun A B f r => match r with Ok a => f a | Err e => Err e end.
#[export] Instance res_fmap E : FMap (res E) :=
  fun A B f r => match r with Ok a => Ok (f a) | Err e => Err e end.
#[export] Instance res_eq_dec E A `{EqDecision E, EqDecision A} : EqDecision (res E A).
Proof. solve_decision. Defined.

Definition is_ok {E A} (r : res E A) : bool :=
  match r with Ok _ => true | Err _ => false end.

Lemma Ok_inj {E A} (a b : A) : @Ok E A a = Ok b -> a = b.
Proof. congruence. Qed.

Lemma res_bind_Ok {E A B} (r : res E A) (f : A -> res E B) b :
  (r ≫= f) = Ok b -> exists a, r = Ok a /\ f a = Ok b.
Proof. destruct r; cbn; [eauto | discriminate]. Qed.

(** ** Lists: Go's [len], and splitting a list at a prefix. *)
Definition len {A} (l : list A) : Z := Z.of_nat (length l).

Lemma len_nonneg {A} (l : list A) : 0 <= len l.
Proof. unfold len; lia. Qed.
Lemma len_nil {A} : len (@nil A) = 0.
Proof. reflexivity. Qed.
Lemma len_cons {A} (x : A) l : len (x :: l) = 1 + len l.
Proof. unfold len; cbn [length]; lia. Qed.
Lemma len_app {A} (l k : list A) : len (l ++ k) = len l + len k.
Proof. unfold len; rewrite length_app; lia. Qed.
Lemma len_zero {A} (l : list A) : len l = 0 -> l = [].
Proof. unfold len; destruct l; cbn; [done | lia]. Qed.
Lemma len_take {A} n (l : list A) :
  0 <= n <= len l -> len (take (Z.to_nat n) l) = n.
Proof. unfold len; rewrite length_take; lia. Qed.
Lemma len_drop {A} n (l : list A) :
  0 <= n <= len l -> len (drop (Z.to_nat n) l) = len l - n.
Proof. unfold len; rewrite length_drop; lia. Qed.

Lemma len_replicate {A} n (x : A) : 0 <= n -> len (replicate (Z.to_nat n) x) = n.
Proof. unfold len; rewrite length_replicate; lia. Qed.
Lemma take_app_len {A} n (l k : list A) : length l = n -> take n (l ++ k) = l.
Proof. intros <-. apply take_app_length. Qed.
Lemma drop_app_len {A} n (l k : list A) : length l = n -> drop n (l ++ k) = k.
Proof. intros <-. apply drop_app_length. Qed.

Lemma take_len_app {A} (l k : list A) : take (Z.to_nat (len l)) (l ++ k) = l.
Proof. unfold len. rewrite Nat2Z.id. apply take_app_length. Qed.
Lemma drop_len_app {A} (l k : list A) : drop (Z.to_nat (len l)) (l ++ k) = k.
Proof. unfold len. rewrite Nat2Z.id. apply drop_app_length. Qed.

Create HintDb mesh.
Create Rewrite HintDb len.
#[export] Hint Resolve len_nonneg : mesh.
#[export] Hint Rewrite @len_nil @len_cons @len_app : len.

(** Lengths to arithmetic, then [lia]. *)
Ltac len_lia :=
  autorewrite with len in *;
  repeat match goal with
    | _ : context [len ?l] |- _ =>
        lazymatch goal with
        | _ : 0 <= len l |- _ => fail
        | _ => pose proof (len_nonneg l)
        end
    | |- context [len ?l] =>
        lazymatch goal with
        | _ : 0 <= len l |- _ => fail
        | _ => pose proof (len_nonneg l)
        end
    end; lia.

(** Case analysis on the innermost scrutinee of the goal, or of a hypothesis. *)
Ltac destr_match t :=
  match t with
  | context [match ?x with _ => _ end] =>
      lazymatch x with
      | context [match _ with _ => _ end] => fail
      | _ => destruct x eqn:?
      end
  end.
Ltac destr := match goal with |- ?g => destr_match g end.
Ltac destr_in H := let t := type of H in destr_match t.

(** Boolean comparisons of [Z] to propositions. *)
Ltac zbool :=
  repeat match goal with
    | H : (_ && _)%bool = true |- _ => apply andb_prop in H as [? ?]
    | H : (_ || _)%bool = false |- _ => apply orb_false_elim in H as [? ?]
    | H : negb _ = true |- _ => apply negb_true_iff in H
    | H : negb _ = false |- _ => apply negb_false_iff in H
    | H : (_ <? _) = true |- _ => apply Z.ltb_lt in H
    | H : (_ <? _) = false |- _ => apply Z.ltb_ge in H
    | H : (_ >? _) = _ |- _ => rewrite Z.gtb_ltb in H
    | H : (_ >=? _) = _ |- _ => rewrite Z.geb_leb in H
    | H : (_ <=? _) = true |- _ => apply Z.leb_le in H
    | H : (_ <=? _) = false |- _ => apply Z.leb_gt in H
    | H : (_ =? _) = true |- _ => apply Z.eqb_eq in H
    | H : (_ =? _) = false |- _ => apply Z.eqb_neq in H
    | H : bool_decide _ = true |- _ => apply bool_decide_eq_true_1 in H
    | H : bool_decide _ = false |- _ => apply bool_decide_eq_false_1 in H
    end.

(** A decidable proposition about concrete values, by evaluation. *)
Ltac by_compute := apply (bool_decide_unpack _); vm_compute; exact I.

(** ** Field updates

    [r <| f := v |>] is the Go assignment [r.f = v] on a value: every other field is
    kept. A record declares its constructor applied to its own projections as its
    [Eta] instance; the setter of a field is derived from it. *)

Class Eta (R : Type) := eta : R -> R.
Class Setter {R E : Type} (proj : R -> E) := upd : (E -> E) -> R -> R.
Arguments upd {R E} proj {_} _ _ /.

Ltac derive_setter :=
  lazymatch goal with
  | |- @Setter ?R ?E ?proj =>
      let f := fresh "f" in let r := fresh "r" in
      intros f r;
      let t := constr:(@eta R _ r) in
      let b := eval hnf in t in
      lazymatch b with
      | context C [proj r] => let b' := context C [f (proj r)] in exact b'
      end
  end.
#[export] Hint Extern 1 (Setter _) => derive_setter : typeclass_instances.

Declare Scope update_scope.
#[global] Open Scope update_scope.
#[warnings="-postfix-notation-not-level-1"]
Notation "r <| f := v |>" := (upd f (fun _ => v) r)
  (at level 12, left associativity, f constr at level 9, v constr at level 200,
   format "r  <| f  :=  v |>") : update_scope.
