(* ===== verification/GoBytes.v ===== *)
(** * Bytes and big-endian integers

    Go's [byte], [uint16], [uint32] and [uint64] values, the conversions between
    them, and [encoding/binary.BigEndian]. Integers are [Z] with the wrap-around
    written out; byte slices are [list byte]. *)

From S2P Require Import Prelude.

(** ** Bytes *)

#[export] Instance byte_eq_dec : EqDecision byte := Byte.byte_eq_dec.

(** [int(b)] for a byte [b]. *)
Definition u8 (b : byte) : Z := Z.of_N (Byte.to_N b).

(** [byte(z)]: conversion keeps the low eight bits. *)
Definition byte_of (z : Z) : byte :=
  match Byte.of_N (Z.to_N (z mod 256)) with Some b => b | None => x00 end.

Lemma u8_range b : 0 <= u8 b < 256.
Proof.
  unfold u8. pose proof (Byte.to_N_bounded b). lia.
Qed.

Lemma u8_byte_of z : u8 (byte_of z) = z mod 256.
Proof.
  unfold u8, byte_of. pose proof (Z.mod_pos_bound z 256 eq_refl) as Hz.
  destruct (Byte.of_N _) as [b|] eqn:E.
  - apply Byte.to_of_N in E. rewrite E. lia.
  - apply Byte.of_N_None_iff in E. lia.
Qed.

Lemma u8_inj a b : u8 a = u8 b -> a = b.
Proof.
  unfold u8. intros H%N2Z.inj.
  pose proof (Byte.of_to_N a) as Ha. pose proof (Byte.of_to_N b) as Hb.
  rewrite H in Ha. congruence.
Qed.

Lemma byte_of_u8 b : byte_of (u8 b) = b.
Proof. apply u8_inj. rewrite u8_byte_of. apply Z.mod_small, u8_range. Qed.

#[export] Instance byte_countable : Countable byte.
Proof.
  refine (inj_countable' Byte.to_N (fun n => default x00 (Byte.of_N n)) _).
  intros b. rewrite Byte.of_to_N. done.
Defined.

(** [a ^ b] on bytes. *)
Definition byte_xor (a b : byte) : byte := byte_of (Z.lxor (u8 a) (u8 b)).

Lemma lxor_range n a b :
  0 <= n -> 0 <= a < 2 ^ n -> 0 <= b < 2 ^ n -> 0 <= Z.lxor a b < 2 ^ n.
Proof.
  intros Hn Ha Hb. assert (0 <= Z.lxor a b) by (apply Z.lxor_nonneg; lia). split; [done|].
  destruct (Z.eq_dec (Z.lxor a b) 0) as [->|Hne]; [lia|].
  assert (Hl : forall c, 0 <= c < 2 ^ n -> c = 0 \/ Z.log2 c < n).
  { intros c Hc. destruct (Z.eq_dec c 0); [by left|right]. apply Z.log2_lt_pow2; lia. }
  destruct (Hl a Ha) as [->|La]; [rewrite Z.lxor_0_l; lia|].
  destruct (Hl b Hb) as [->|Lb]; [rewrite Z.lxor_0_r; lia|].
  apply Z.log2_lt_pow2; [lia|].
  pose proof (Z.log2_lxor a b ltac:(lia) ltac:(lia)). lia.
Qed.

Lemma byte_xor_cancel a k : byte_xor (byte_xor a k) k = a.
Proof.
  apply u8_inj. unfold byte_xor. rewrite !u8_byte_of.
  pose proof (u8_range a). pose proof (u8_range k).
  rewrite (Z.mod_small (Z.lxor (u8 a) (u8 k))) by (apply (lxor_range 8); lia).
  rewrite Z.lxor_assoc, Z.lxor_nilpotent, Z.lxor_0_r. apply Z.mod_small; lia.
Qed.

(** ** Big-endian integers *)

(** [binary.BigEndian.PutUint{16,32,64}], for the width [n] in bytes. *)
Fixpoint be_put (n : nat) (v : Z) : list byte :=
  match n with
  | O => []
  | S m => byte_of (v / 256 ^ Z.of_nat m) :: be_put m v
  end.

(** [binary.BigEndian.Uint{16,32,64}] on a slice of exactly the width. *)
Definition be_get (l : list byte) : Z := fold_left (fun acc b => acc * 256 + u8 b) l 0.

Lemma length_be_put n v : length (be_put n v) = n.
Proof. induction n; cbn; auto. Qed.

Lemma len_be_put n v : len (be_put n v) = Z.of_nat n.
Proof. unfold len. by rewrite length_be_put. Qed.
#[export] Hint Rewrite len_be_put : len.

Lemma be_get_fold l a :
  fold_left (fun acc b => acc * 256 + u8 b) l a = a * 256 ^ len l + be_get l.
Proof.
  unfold be_get. revert a. induction l as [|b l IH]; intros a; cbn [fold_left].
  - rewrite len_nil. lia.
  - rewrite IH, (IH (0 * 256 + u8 b)), len_cons.
    rewrite Z.pow_add_r by (auto with mesh; lia). lia.
Qed.

Lemma be_get_cons b l : be_get (b :: l) = u8 b * 256 ^ len l + be_get l.
Proof. unfold be_get at 1. cbn [fold_left]. rewrite be_get_fold. lia. Qed.

Lemma be_get_range l : 0 <= be_get l < 256 ^ len l.
Proof.
  induction l as [|b l IH]; [by vm_compute|].
  rewrite be_get_cons, len_cons, Z.pow_add_r by (auto with mesh; lia).
  pose proof (u8_range b). nia.
Qed.

Lemma be_get_put n v : be_get (be_put n v) = v mod 256 ^ Z.of_nat n.
Proof.
  induction n as [|n IH]; cbn [be_put].
  - cbn. by rewrite Z.mod_1_r.
  - rewrite be_get_cons, len_be_put, IH, u8_byte_of, Nat2Z.inj_succ, Z.pow_succ_r by lia.
    rewrite (Z.mul_comm 256), Z.rem_mul_r by lia. lia.
Qed.

Lemma be_get_put_small n v : 0 <= v < 256 ^ Z.of_nat n -> be_get (be_put n v) = v.
Proof. intros. rewrite be_get_put. by apply Z.mod_small. Qed.

Lemma be_put_inj n v w :
  be_put n v = be_put n w -> v mod 256 ^ Z.of_nat n = w mod 256 ^ Z.of_nat n.
Proof. intros H%(f_equal be_get). by rewrite !be_get_put in H. Qed.

Lemma be_put_get_shift l v : be_put (length l) (v * 256 ^ len l + be_get l) = l.
Proof.
  revert v. induction l as [|b l IH]; intros v; [done|].
  cbn [length be_put]. change (Z.of_nat (length l)) with (len l).
  pose proof (be_get_range l) as Hr. pose proof (len_nonneg l).
  rewrite be_get_cons, len_cons, Z.pow_add_r by lia.
  f_equal.
  - apply u8_inj. rewrite u8_byte_of.
    replace (v * (256 ^ 1 * 256 ^ len l) + (u8 b * 256 ^ len l + be_get l))
      with (be_get l + (v * 256 + u8 b) * 256 ^ len l) by lia.
    rewrite Z.div_add by lia. rewrite (Z.div_small (be_get l)) by lia.
    rewrite Z.add_0_l, Z.add_comm, Z.mod_add by lia.
    apply Z.mod_small, u8_range.
  - replace (v * (256 ^ 1 * 256 ^ len l) + (u8 b * 256 ^ len l + be_get l))
      with ((v * 256 + u8 b) * 256 ^ len l + be_get l) by lia.
    apply IH.
Qed.

Lemma be_put_get l : be_put (length l) (be_get l) = l.
Proof. apply (be_put_get_shift l 0). Qed.

(** [append(out, byte(v>>8), byte(v))]. *)
Lemma be_put_2 v : be_put 2 v = [byte_of (Z.shiftr v 8); byte_of v].
Proof.
  cbn [be_put]. rewrite Z.shiftr_div_pow2 by lia.
  change (256 ^ Z.of_nat 0) with 1. by rewrite Z.div_1_r.
Qed.

(** ** [uint64] arithmetic *)

Definition u64 (z : Z) : Z := z mod 2 ^ 64.

Lemma u64_small z : 0 <= z < 2 ^ 64 -> u64 z = z.
Proof. apply Z.mod_small. Qed.
Lemma u64_range z : 0 <= u64 z < 2 ^ 64.
Proof. apply Z.mod_pos_bound. lia. Qed.

(** ** Strings as byte sequences *)

Definition bytes_of_string (s : string) : list byte := String.list_byte_of_string s.
Definition string_of_bytes (l : list byte) : string := String.string_of_list_byte l.

Lemma string_bytes s : string_of_bytes (bytes_of_string s) = s.
Proof. apply String.string_of_list_byte_of_string. Qed.
Lemma bytes_string l : bytes_of_string (string_of_bytes l) = l.
Proof. apply String.list_byte_of_string_of_list_byte. Qed.

(** Go's [len(s)] for a string. *)
Definition slen (s : string) : Z := len (bytes_of_string s).

Lemma slen_nonneg s : 0 <= slen s.
Proof. apply len_nonneg. Qed.
#[export] Hint Resolve slen_nonneg : mesh.

Lemma slen_zero s : slen s = 0 -> s = ""%string.
Proof.
  intros H%len_zero. apply (f_equal string_of_bytes) in H.
  by rewrite string_bytes in H.
Qed.

(** ** Trimming space *)

(** The encodings of the characters [unicode.IsSpace] accepts. *)
Definition spaces : list (list byte) :=
  [[x09]; [x0a]; [x0b]; [x0c]; [x0d]; [x20]; [xc2; x85]; [xc2; xa0]; [xe1; x9a; x80]] ++
  map (fun z => [xe2; x80; byte_of z]) [0x80; 0x81; 0x82; 0x83; 0x84; 0x85; 0x86; 0x87; 0x88;
                                        0x89; 0x8a; 0xa8; 0xa9; 0xaf] ++
  [[xe2; x81; x9f]; [xe3; x80; x80]].

(** Removes leading spaces, given their encodings. *)
Fixpoint trim (fuel : nat) (enc : list (list byte)) (l : list byte) : list byte :=
  match fuel with
  | O => l
  | S fuel =>
      match filter (fun s => take (length s) l = s) enc with
      | s :: _ => trim fuel enc (drop (length s) l)
      | [] => l
      end
  end.

(** [bytes.TrimSpace]. *)
Definition TrimSpace (l : list byte) : list byte :=
  let l := trim (length l) spaces l in
  rev (trim (length l) (map (@rev byte) spaces) (rev l)).

(** Bytes that are no part of any space, as those of hexadecimal text. *)
Definition is_graphic (b : byte) : bool := (0x20 <? u8 b) && (u8 b <? 0x80).
Definition graphic (b : byte) : Prop := is_graphic b = true.

Lemma trim_graphic fuel enc l :
  forallb (fun s => match s with [] => false | c :: _ => negb (is_graphic c) end) enc = true ->
  Forall graphic l -> trim fuel enc l = l.
Proof.
  intros He Hl. destruct fuel as [|fuel]; [done|]. cbn [trim].
  destruct (filter _ enc) as [|s enc'] eqn:Ef; [done|]. exfalso.
  assert (Hs : s ∈ filter (fun s => take (length s) l = s) enc) by (rewrite Ef; by left).
  apply list_elem_of_filter in Hs as [E Hs]. apply list_elem_of_In in Hs.
  pose proof (proj1 (List.forallb_forall _ _) He s Hs) as Hc.
  destruct s as [|c s]; [done|]. destruct l as [|b l]; [done|]. injection E as -> _.
  apply Forall_inv in Hl. unfold graphic in Hl. by rewrite Hl in Hc.
Qed.

Lemma TrimSpace_graphic l : Forall graphic l -> TrimSpace l = l.
Proof.
  intros Hl. unfold TrimSpace. rewrite (trim_graphic _ spaces l); [|by vm_compute|done].
  rewrite trim_graphic; [apply rev_involutive|by vm_compute|by apply Forall_rev].
Qed.

(** ** Length-prefixed fields *)

(** A 16-bit length and its field at the front of a packet. *)
Lemma take_prefixed l rest :
  len l < 65536 ->
  let p := be_put 2 (len l) ++ l ++ rest in
  be_get (take 2 p) = len l /\ drop 2 p = l ++ rest.
Proof.
  intros Hl p. unfold p. rewrite be_put_2. cbn [app take drop]. rewrite <- be_put_2.
  split; [|by rewrite drop_0]. rewrite be_get_put_small; [done|].
  pose proof (len_nonneg l). cbn. lia.
Qed.

Lemma prefixed_split p :
  2 <= len p -> p = be_put 2 (be_get (take 2 p)) ++ drop 2 p.
Proof.
  intros Hp. rewrite <- (take_drop 2 p) at 1. f_equal.
  pose proof (be_put_get (take 2 p)) as H.
  rewrite length_take_le in H by (unfold len in Hp; lia). done.
Qed.

(** ** [int] arithmetic *)

(** A 64-bit signed result: two's-complement wrap-around. *)
Definition i64 (z : Z) : Z := (z + 2 ^ 63) mod 2 ^ 64 - 2 ^ 63.

Lemma i64_small z : - 2 ^ 63 <= z < 2 ^ 63 -> i64 z = z.
Proof. intros. unfold i64. rewrite Z.mod_small; lia. Qed.

Lemma i64_add_l a b : i64 (i64 a + b) = i64 (a + b).
Proof.
  unfold i64. replace ((a + 2 ^ 63) mod 2 ^ 64 - 2 ^ 63 + b + 2 ^ 63)
    with ((a + 2 ^ 63) mod 2 ^ 64 + b) by lia.
  rewrite Zplus_mod_idemp_l. do 2 f_equal. lia.
Qed.

Lemma i64_range z : - 2 ^ 63 <= i64 z < 2 ^ 63.
Proof. unfold i64. pose proof (Z.mod_pos_bound (z + 2 ^ 63) (2 ^ 64) ltac:(lia)). lia. Qed.
