(* ===== verification/GoRuntime.v ===== *)
(** * Go runtime pieces: time and stream readers

    [time.Time] and [time.Duration] as nanosecond counts, and the part of [io]
    the program reads streams with ([io.ReadFull] over an [io.Reader]). *)

From S2P Require Import Prelude GoBytes.

(** ** Time

    A [time.Time] is the number of nanoseconds since the zero [time.Time]
    (year 1), so the zero value of the Go type is [0]; a [time.Duration] is an
    [int64] nanosecond count. *)

Abbreviation Time := Z (only parsing).
Abbreviation Duration := Z (only parsing).

Definition minDuration : Duration := - 2 ^ 63.
Definition maxDuration : Duration := 2 ^ 63 - 1.

Definition Microsecond : Duration := 1000.
Definition Millisecond : Duration := 1000 * Microsecond.
Definition Second : Duration := 1000 * Millisecond.
Definition Minute : Duration := 60 * Second.
Definition Hour : Duration := 60 * Minute.

(** [t.Sub(u)]: the difference, saturated to the range of a [Duration]. *)
Definition Sub (t u : Time) : Duration := Z.max minDuration (Z.min maxDuration (t - u)).

(** [t.IsZero()]. *)
Definition IsZero (t : Time) : bool := t =? 0.

Lemma Sub_lt t u d : d <= maxDuration -> minDuration < d -> (Sub t u < d <-> t - u < d).
Proof. unfold Sub, minDuration, maxDuration. lia. Qed.

Lemma Sub_gt t u d : d < maxDuration -> minDuration <= d -> (d < Sub t u <-> d < t - u).
Proof. unfold Sub, minDuration, maxDuration. lia. Qed.

Lemma Sub_geb t u d : minDuration < d <= maxDuration -> (Sub t u >=? d) = (t - u >=? d).
Proof. unfold Sub, minDuration, maxDuration. rewrite !Z.geb_leb. intros.
  destruct (d <=? t - u) eqn:E; zbool; [apply Z.leb_le | apply Z.leb_gt]; lia.
Qed.
Lemma Sub_gtb t u d : minDuration <= d < maxDuration -> (Sub t u >? d) = (t - u >? d).
Proof. unfold Sub, minDuration, maxDuration. rewrite !Z.gtb_ltb. intros.
  destruct (d <? t - u) eqn:E; zbool; [apply Z.ltb_lt | apply Z.ltb_ge]; lia.
Qed.

Lemma Sub_mono t t' u : t <= t' -> Sub t u <= Sub t' u.
Proof. unfold Sub. lia. Qed.

(** ** [io.Reader] and [io.ReadFull]

    A stream is the bytes still to come and the error the reader reports once
    they are exhausted. *)

Inductive io_err := EOF | ErrUnexpectedEOF | IOErr (code : nat).
#[export] Instance io_err_eq_dec : EqDecision io_err.
Proof. solve_decision. Defined.

Record reader := Reader { pending : list byte; at_end : io_err }.

(** [io.ReadFull(r, buf)] with [len(buf) = n]: all [n] bytes, or the error of the
    reader, turned into [ErrUnexpectedEOF] when some bytes had already arrived. *)
Definition ReadFull (n : nat) (r : reader) : res io_err (list byte) * reader :=
  if bool_decide (n <= length (pending r))%nat
  then (Ok (take n (pending r)), Reader (drop n (pending r)) (at_end r))
  else (Err (match pending r, at_end r with
             | _ :: _, EOF => ErrUnexpectedEOF
             | _, e => e
             end), Reader [] (at_end r)).

Lemma ReadFull_app l rest e :
  ReadFull (length l) (Reader (l ++ rest) e) = (Ok l, Reader rest e).
Proof.
  unfold ReadFull; cbn. rewrite bool_decide_eq_true_2 by (rewrite length_app; lia).
  by rewrite take_app_length, drop_app_length.
Qed.

Lemma ReadFull_Ok n r l r' :
  ReadFull n r = (Ok l, r') ->
  pending r = l ++ pending r' /\ length l = n /\ at_end r' = at_end r.
Proof.
  unfold ReadFull. case_bool_decide; intros; simplify_eq/=.
  by rewrite take_drop, length_take, Nat.min_l.
Qed.

Lemma ReadFull_short n r :
  (length (pending r) < n)%nat -> exists e, ReadFull n r = (Err e, Reader [] (at_end r)).
Proof. intros. unfold ReadFull. case_bool_decide; [lia|eauto]. Qed.

(** A truncated stream never ends with a clean [EOF]. *)
Lemma ReadFull_EOF n r r' : ReadFull n r = (Err EOF, r') -> pending r = [].
Proof.
  unfold ReadFull. case_bool_decide; [done|].
  destruct (pending r), (at_end r); intros; simplify_eq; done.
Qed.

(** Go ranges over a map in an unspecified order. *)
Class RangeOrder := {
  ranged : forall {A}, Time -> list A -> list A;
  ranged_perm : forall A (t : Time) (l : list A), ranged t l ≡ₚ l
}.
