(* ===== verification/GoNet.v ===== *)
(** * Network addresses (package net)

    [net.IP] and [net.UDPAddr], their comparison and their textual form, as the
    standard library defines them, and the part of [net.ResolveUDPAddr] that reads
    the textual form of an IPv4 address back. Everything else the resolver accepts
    (IPv6 literals, host names, service names) depends on the host and is a
    parameter of [ResolveUDPAddr]. *)

From S2P Require Import Prelude GoBytes.
From Stdlib Require Import DecimalString DecimalFacts DecimalPos DecimalZ Ascii.

Record UDPAddr := MkUDPAddr { IP : list byte; Port : Z; Zone : string }.
#[export] Instance UDPAddr_eq_dec : EqDecision UDPAddr.
Proof. solve_decision. Defined.

(** ** IP addresses: a 4-byte slice, or a 16-byte slice *)

Definition v4InV6Prefix : list byte := replicate 10 x00 ++ [xff; xff].

Definition To4 (ip : list byte) : option (list byte) :=
  if len ip =? 4 then Some ip
  else if (len ip =? 16) && bool_decide (take 12 ip = v4InV6Prefix) then Some (drop 12 ip)
  else None.

Definition To16 (ip : list byte) : option (list byte) :=
  if len ip =? 4 then Some (v4InV6Prefix ++ ip)
  else if len ip =? 16 then Some ip
  else None.

(** [ip.Equal(x)]: an IPv4 address equals its IPv4-mapped IPv6 form. *)
Definition IP_Equal (ip x : list byte) : bool :=
  if len ip =? len x then bool_decide (ip = x)
  else if (len ip =? 4) && (len x =? 16) then
    bool_decide (take 12 x = v4InV6Prefix) && bool_decide (ip = drop 12 x)
  else if (len ip =? 16) && (len x =? 4) then
    bool_decide (take 12 ip = v4InV6Prefix) && bool_decide (drop 12 ip = x)
  else false.

(** ** Text *)

Open Scope string_scope.

(** [strconv.Itoa]. *)
Definition Itoa (z : Z) : string := NilZero.string_of_int (Z.to_int z).

(** A 16-bit group in lower-case hexadecimal, without leading zeros. *)
Definition hex_char (n : Z) : string :=
  string_of_bytes [byte_of (if (n <? 10)%Z then 48 + n else 87 + n)].

Definition hex_group (v : Z) : string :=
  (if (v >=? 4096)%Z then hex_char (v / 4096) else "") +:+
  (if (v >=? 256)%Z then hex_char (v / 256 mod 16) else "") +:+
  (if (v >=? 16)%Z then hex_char (v / 16 mod 16) else "") +:+
  hex_char (v mod 16).

Definition dotted (ip : list byte) : string :=
  match ip with
  | [a; b; c; d] =>
      Itoa (u8 a) +:+ "." +:+ Itoa (u8 b) +:+ "." +:+ Itoa (u8 c) +:+ "." +:+ Itoa (u8 d)
  | _ => ""
  end.

Fixpoint groups (ip : list byte) : list Z :=
  match ip with
  | a :: b :: ip' => (u8 a * 256 + u8 b)%Z :: groups ip'
  | _ => []
  end.

(** Length of the run of zero groups a list starts with. *)
Fixpoint zeros (gs : list Z) : nat :=
  match gs with
  | g :: gs' => if (g =? 0)%Z then S (zeros gs') else O
  | [] => O
  end.

(** The first longest run of at least two zero groups: start and length. *)
Fixpoint longest_zeros (i : nat) (gs : list Z) (best : nat * nat) : nat * nat :=
  match gs with
  | [] => best
  | _ :: gs' =>
      let l := zeros gs in
      longest_zeros (S i) gs'
        (if bool_decide (2 <= l /\ best.2 < l)%nat then (i, l) else best)
  end.

Definition join_groups (gs : list Z) : string :=
  String.concat ":" (map hex_group gs).

Definition ipv6_string (ip : list byte) : string :=
  let gs := groups ip in
  let '(st, l) := longest_zeros 0 gs (0, 0)%nat in
  if bool_decide (l = 0)%nat then join_groups gs
  else join_groups (take st gs) +:+ "::" +:+ join_groups (drop (st + l) gs).

Fixpoint hexString (l : list byte) : string :=
  match l with
  | [] => ""
  | b :: l' => hex_char (u8 b / 16) +:+ hex_char (u8 b mod 16) +:+ hexString l'
  end.

Definition IP_String (ip : list byte) : string :=
  if (len ip =? 0)%Z then "<nil>"
  else if negb (len ip =? 4)%Z && negb (len ip =? 16)%Z then "?" +:+ hexString ip
  else match To4 ip with
       | Some p4 => dotted p4
       | None => ipv6_string ip
       end.

Fixpoint has_colon (s : string) : bool :=
  match s with
  | "" => false
  | String.String c s' => Ascii.eqb c ":" || has_colon s'
  end.

Definition JoinHostPort (host port : string) : string :=
  if has_colon host then "[" +:+ host +:+ "]:" +:+ port else host +:+ ":" +:+ port.

Definition addr_String (a : UDPAddr) : string :=
  let ip := if (len (IP a) =? 0)%Z then "" else IP_String (IP a) in
  if bool_decide (Zone a = "") then JoinHostPort ip (Itoa (Port a))
  else JoinHostPort (ip +:+ "%" +:+ Zone a) (Itoa (Port a)).

Close Scope string_scope.

Example addr_String_v4 : addr_String (MkUDPAddr [x7f; x00; x00; x01] 19205 "") = "127.0.0.1:19205"%string.
Proof. reflexivity. Qed.
Example addr_String_mapped :
  addr_String (MkUDPAddr (v4InV6Prefix ++ [x0a; x00; x00; x07]) 80 "") = "10.0.0.7:80"%string.
Proof. reflexivity. Qed.
Example addr_String_v6 :
  addr_String (MkUDPAddr [x20; x01; x0d; xb8; x00; x00; x00; x00; x00; x01; x00; x00; x00; x00; x00; x01]
                 443 "") = "[2001:db8::1:0:0:1]:443"%string.
Proof. reflexivity. Qed.
Example addr_String_loopback6 :
  addr_String (MkUDPAddr (replicate 15 x00 ++ [x01]) 1 "") = "[::1]:1"%string.
Proof. reflexivity. Qed.

(** ** Reading an address: [net.ResolveUDPAddr] *)

Fixpoint split_on (c : ascii) (s : string) : list string :=
  match s with
  | EmptyString => [EmptyString]
  | String.String a s' =>
      if Ascii.eqb a c then EmptyString :: split_on c s'
      else match split_on c s' with
           | w :: ws => String.String a w :: ws
           | [] => [String.String a EmptyString]
           end
  end.

(** A decimal number from [0] to [hi] without leading zeros. *)
Definition decimal (hi : Z) (s : string) : option Z :=
  z ← Z.of_int <$> NilZero.int_of_string s;
  if (0 <=? z)%Z && (z <=? hi)%Z && bool_decide (Itoa z = s) then Some z else None.

(** The literal ["a.b.c.d:port"]. The resolver keeps the 16-byte form of the address. *)
Definition parse_v4 (s : string) : option UDPAddr :=
  match split_on ":" s with
  | [h; p] =>
      match split_on "." h with
      | [a; b; c; d] =>
          a ← decimal 255 a; b ← decimal 255 b; c ← decimal 255 c; d ← decimal 255 d;
          port ← decimal 65535 p;
          Some (MkUDPAddr (v4InV6Prefix ++ [byte_of a; byte_of b; byte_of c; byte_of d]) port "")
      | _ => None
      end
  | _ => None
  end.

(** [net.ResolveUDPAddr("udp", s)]: [other] is the host's part of it (IPv6 literals,
    host names, service names). *)
Definition ResolveUDPAddr (other : string -> option UDPAddr) (s : string) : option UDPAddr :=
  match parse_v4 s with
  | Some a => Some a
  | None => other s
  end.

Lemma int_of_Itoa z : NilZero.int_of_string (Itoa z) = Some (Z.to_int z).
Proof.
  unfold Itoa. apply NilZero.isi; destruct z; cbn; try done; intros [= E];
    by apply Unsigned.to_uint_nonnil in E.
Qed.

Lemma decimal_Itoa hi z : 0 <= z <= hi -> decimal hi (Itoa z) = Some z.
Proof.
  intros Hz. unfold decimal. rewrite int_of_Itoa.
  cbn [fmap option_fmap option_map mbind option_bind]. rewrite DecimalZ.of_to.
  rewrite bool_decide_eq_true_2 by done.
  rewrite (proj2 (Z.leb_le 0 z)), (proj2 (Z.leb_le z hi)) by lia. done.
Qed.

(** Characters of a string. *)
Fixpoint has (c : ascii) (s : string) : bool :=
  match s with
  | EmptyString => false
  | String.String a s' => Ascii.eqb a c || has c s'
  end.

#[local] Arguments Ascii.eqb : simpl never.

Lemma split_on_app c s k :
  has c s = false -> split_on c (s +:+ String.String c EmptyString +:+ k) = s :: split_on c k.
Proof.
  induction s as [|a s IH]; simpl; intros H.
  - by rewrite Ascii.eqb_refl.
  - apply orb_false_elim in H as [Ha Hs]. by rewrite Ha, IH.
Qed.
Lemma split_on_none c s : has c s = false -> split_on c s = [s].
Proof.
  induction s as [|a s IH]; simpl; intros H; [done|].
  apply orb_false_elim in H as [Ha Hs]. by rewrite Ha, IH.
Qed.
Lemma has_app c s k : has c (s +:+ k) = has c s || has c k.
Proof. induction s; simpl; [done|]. by rewrite IHs, orb_assoc. Qed.

Definition is_digit (c : ascii) : bool := (48 <=? N_of_ascii c)%N && (N_of_ascii c <=? 57)%N.

Lemma has_uint c d : is_digit c = false -> has c (NilEmpty.string_of_uint d) = false.
Proof.
  intros Hc. induction d; simpl; try done; rewrite IHd, orb_false_r;
    apply Ascii.eqb_neq; intros <-; by vm_compute in Hc.
Qed.
Lemma has_Itoa c z : 0 <= z -> is_digit c = false -> has c (Itoa z) = false.
Proof.
  intros Hz Hc. unfold Itoa. destruct z; try lia.
  - simpl. rewrite orb_false_r. apply Ascii.eqb_neq. intros <-. by vm_compute in Hc.
  - cbn [Z.to_int NilZero.string_of_int]. unfold NilZero.string_of_uint.
    destruct (Pos.to_uint p) eqn:E; try by apply has_uint.
    by apply Unsigned.to_uint_nonnil in E.
Qed.

Lemma has_colon_has s : has_colon s = has ":" s.
Proof. induction s; simpl; [done|]. by rewrite IHs. Qed.

Lemma v4_text (a : UDPAddr) p4 :
  To4 (IP a) = Some p4 -> (len (IP a) =? 0) = false /\ IP_String (IP a) = dotted p4.
Proof.
  intros H4. unfold IP_String. rewrite H4. unfold To4 in H4.
  destruct (len (IP a) =? 4) eqn:E; zbool.
  - rewrite (proj2 (Z.eqb_neq _ _)) by lia. rewrite E. done.
  - destruct (_ && _) eqn:E2; zbool; [|done].
    rewrite (proj2 (Z.eqb_neq (len (IP a)) 0)), (proj2 (Z.eqb_eq (len (IP a)) 16)) by lia.
    done.
Qed.

(** The resolver reads the textual form of an IPv4 address back, in its 16-byte form. *)
Lemma parse_v4_String (a : UDPAddr) p4 :
  To4 (IP a) = Some p4 -> Zone a = ""%string -> 0 <= Port a < 65536 ->
  parse_v4 (addr_String a) = Some (MkUDPAddr (v4InV6Prefix ++ p4) (Port a) "").
Proof.
  intros H4 Hz Hp. assert (Hl : length p4 = 4%nat).
  { unfold To4 in H4. destruct (len (IP a) =? 4) eqn:E; zbool; [injection H4 as <-; unfold len in E; lia|].
    destruct (_ && _) eqn:E2; zbool; [|done]. injection H4 as <-. rewrite length_drop. unfold len in *. lia. }
  destruct (v4_text a p4 H4) as [Hne Hs]. unfold addr_String. rewrite Hne, Hs, Hz, bool_decide_eq_true_2 by done.
  destruct p4 as [|w [|x [|y [|z [|]]]]]; try done. cbn [dotted].
  pose proof (u8_range w). pose proof (u8_range x). pose proof (u8_range y). pose proof (u8_range z).
  unfold JoinHostPort. rewrite has_colon_has.
  assert (Hh : has ":" (Itoa (u8 w) +:+ "." +:+ Itoa (u8 x) +:+ "." +:+ Itoa (u8 y) +:+ "." +:+ Itoa (u8 z)) = false).
  { rewrite !has_app, !has_Itoa by (done || lia). done. }
  rewrite Hh. unfold parse_v4. rewrite (split_on_app ":" _ (Itoa (Port a))) by exact Hh.
  rewrite (split_on_none ":" (Itoa (Port a))) by (by rewrite has_Itoa by (done || lia)).
  rewrite (split_on_app ".") by (by rewrite has_Itoa by (done || lia)).
  rewrite (split_on_app ".") by (by rewrite has_Itoa by (done || lia)).
  rewrite (split_on_app ".") by (by rewrite has_Itoa by (done || lia)).
  rewrite (split_on_none ".") by (by rewrite has_Itoa by (done || lia)).
  rewrite !decimal_Itoa by lia. cbn [mbind option_bind]. by rewrite !byte_of_u8.
Qed.

(** ** Lengths *)

Lemma double_digits d :
  (Decimal.nb_digits (Decimal.Little.double d) <= S (Decimal.nb_digits d) /\
   Decimal.nb_digits (Decimal.Little.succ_double d) <= S (Decimal.nb_digits d))%nat.
Proof. induction d; cbn in *; lia. Qed.

Lemma little_digits p : forall n,
  Z.pos p < 2 ^ Z.of_nat n -> (Decimal.nb_digits (Pos.to_little_uint p) <= n)%nat.
Proof.
  induction p as [p IH|p IH|]; intros [|n] H; try (cbn in H; lia); [| |cbn; lia];
    rewrite Nat2Z.inj_succ, Z.pow_succ_r in H by lia; cbn [Pos.to_little_uint];
    pose proof (double_digits (Pos.to_little_uint p)); specialize (IH n); lia.
Qed.

Lemma slen_cons c s : slen (String.String c s) = 1 + slen s.
Proof. unfold slen, bytes_of_string. cbn [String.list_byte_of_string]. apply len_cons. Qed.

Lemma uint_digits d : slen (NilEmpty.string_of_uint d) = Z.of_nat (Decimal.nb_digits d).
Proof.
  induction d; [done|..]; cbn [NilEmpty.string_of_uint Decimal.nb_digits];
    rewrite slen_cons, IHd; lia.
Qed.

(** A decimal has no more digits than the number has bits. *)
Lemma slen_Itoa z (n : nat) : 0 <= z < 2 ^ Z.of_nat n -> (1 <= n)%nat -> slen (Itoa z) <= Z.of_nat n.
Proof.
  intros Hz Hn. unfold Itoa. destruct z as [|p|p]; [..|lia].
  { change (slen _) with 1. lia. }
  cbn [Z.to_int NilZero.string_of_int]. pose proof (little_digits p n ltac:(lia)) as Hp.
  pose proof (uint_digits (Pos.to_uint p)) as Hu. unfold Pos.to_uint in *. rewrite nb_digits_rev in Hu.
  destruct (Decimal.rev _) eqn:E; cbn [NilZero.string_of_uint] in *; [|rewrite Hu; lia..].
  assert (slen "0" = 1) as -> by reflexivity. lia.
Qed.

Lemma slen_app s t : slen (s +:+ t) = slen s + slen t.
Proof.
  induction s as [|c s IH]; [change (slen t = 0 + slen t); lia|].
  change (String.String c s +:+ t) with (String.String c (s +:+ t)). rewrite !slen_cons, IH. lia.
Qed.

(** The text of an IPv4 address is short. *)
Lemma String_v4_len (a : UDPAddr) p4 :
  To4 (IP a) = Some p4 -> Zone a = ""%string -> 0 <= Port a < 65536 -> slen (addr_String a) <= 64.
Proof.
  intros H4 Hz Hp.
  destruct (v4_text a p4 H4) as [Hne Hs]. unfold addr_String. rewrite Hne, Hs, Hz, bool_decide_eq_true_2 by done.
  assert (Hd : slen (dotted p4) <= 35).
  { destruct p4 as [|w [|x [|y [|z [|]]]]]; try (change (slen (dotted _)) with 0; lia). cbn [dotted].
    rewrite !slen_app. change (slen ".") with 1.
    pose proof (u8_range w). pose proof (u8_range x). pose proof (u8_range y). pose proof (u8_range z).
    assert (H8 : forall b, slen (Itoa (u8 b)) <= 8).
    { intros b. pose proof (u8_range b). apply (slen_Itoa _ 8); [cbn; lia|lia]. }
    pose proof (H8 w). pose proof (H8 x). pose proof (H8 y). pose proof (H8 z). lia. }
  pose proof (slen_Itoa (Port a) 16 ltac:(cbn; lia) ltac:(lia)).
  unfold JoinHostPort. destruct (has_colon _); rewrite !slen_app;
    change (slen ":") with 1; change (slen "[") with 1; change (slen "]:") with 2; lia.
Qed.
