(* ===== verification/GoText.v ===== *)
(** * Numbers, durations and strings as Go reads and prints them

    What the commands (src/cmd/) use of strconv, time and strings: [ParseInt] with its two
    errors, [ParseBool], [Duration_String] and [Round], [ParseDuration], [Cut], the prefix
    and suffix tests. The two floating-point steps of [ParseDuration], and the floats of the
    status document, are the 64-bit floats of the Standard Library's [SpecFloat]. *)

From Stdlib Require Import Floats.SpecFloat Ascii DecimalString DecimalZ DecimalPos DecimalFacts.
From S2P Require Import Prelude GoBytes GoRuntime GoNet.

(** ** Strings *)

Definition char (c : ascii) : Z := Z.of_N (N_of_ascii c).

(** [c | 'x' - 'X']. *)
Definition lower (c : ascii) : Z := Z.lor (char c) 32.

(** [strings.Cut(s, sep)] for a separator of one byte: [None] when it is not in [s]. *)
Fixpoint Cut (c : ascii) (s : string) : option (string * string) :=
  match s with
  | EmptyString => None
  | String.String a s =>
      if Ascii.eqb a c then Some (EmptyString, s)
      else '(x, y) ← Cut c s; Some (String.String a x, y)
  end.

(** [s[:n]] and [s[n:]]. *)
Fixpoint str_take (n : nat) (s : string) : string :=
  match n, s with
  | S n, String.String c s => String.String c (str_take n s)
  | _, _ => EmptyString
  end.
Fixpoint str_drop (n : nat) (s : string) : string :=
  match n, s with
  | S n, String.String _ s => str_drop n s
  | _, s => s
  end.

(** [strings.HasSuffix]. *)
Definition HasSuffix (s suffix : string) : bool :=
  (String.length suffix <=? String.length s)%nat &&
  bool_decide (str_drop (String.length s - String.length suffix) s = suffix).

(** ** [strconv.ParseInt] *)

Inductive num_err := NumSyntax | NumRange.

Definition maxUint64 : Z := 2 ^ 64 - 1.

(** The value of a digit, up to 35. *)
Definition digit_value (c : ascii) : option Z :=
  if is_digit c then Some (char c - 48)
  else if (97 <=? lower c) && (lower c <=? 122) then Some (lower c - 97 + 10)
  else None.

(** The loop of [ParseUint] over the digits, [n] being what was read before; it also says
    whether an underscore was met. *)
Fixpoint read_digits (base0 : bool) (base : Z) (n : Z) (us : bool) (s : string)
    : res num_err (Z * bool) :=
  match s with
  | EmptyString => Ok (n, us)
  | String.String c s =>
      if Ascii.eqb c "_" && base0 then read_digits base0 base n true s
      else match digit_value c with
           | None => Err NumSyntax
           | Some d =>
               if d >=? base then Err NumSyntax
               else if n >=? maxUint64 / base + 1 then Err NumRange
               else let n := u64 (n * base) in
                    let n1 := u64 (n + d) in
                    if (n1 <? n) || (n1 >? maxUint64) then Err NumRange
                    else read_digits base0 base n1 us s
           end
  end.

(** What the scan of [underscoreOK] saw last. *)
Inductive saw := SawStart | SawDigit | SawUnderscore | SawOther.

Fixpoint underscores (hex : bool) (last : saw) (s : string) : bool :=
  match s with
  | EmptyString => match last with SawUnderscore => false | _ => true end
  | String.String c s =>
      if is_digit c || hex && (97 <=? lower c) && (lower c <=? 102) then underscores hex SawDigit s
      else if Ascii.eqb c "_" then
        match last with SawDigit => underscores hex SawUnderscore s | _ => false end
      else match last with SawUnderscore => false | _ => underscores hex SawOther s end
  end.

(** [underscoreOK], on a string without a sign. *)
Definition underscoreOK (s : string) : bool :=
  match s with
  | String.String "0" (String.String c s') =>
      if (lower c =? 98) || (lower c =? 111) || (lower c =? 120)
      then underscores (lower c =? 120) SawDigit s'
      else underscores false SawStart s
  | _ => underscores false SawStart s
  end.

(** The base that base 0 stands for, and the digits. *)
Definition base_prefix (s : string) : Z * string :=
  match s with
  | String.String "0" s1 =>
      match s1 with
      | String.String c (String.String d s2) =>
          if lower c =? 98 then (2, String.String d s2)
          else if lower c =? 111 then (8, String.String d s2)
          else if lower c =? 120 then (16, String.String d s2)
          else (8, s1)
      | _ => (8, s1)
      end
  | _ => (10, s)
  end.

(** [ParseUint(s, base, 64)]; [base] is 0 or from 2 to 36. *)
Definition ParseUint (s : string) (base : Z) : res num_err Z :=
  if bool_decide (s = ""%string) then Err NumSyntax
  else
    let base0 := base =? 0 in
    let '(b, digits) := if base0 then base_prefix s else (base, s) in
    match read_digits base0 b 0 false digits with
    | Err e => Err e
    | Ok (n, us) => if us && negb (underscoreOK s) then Err NumSyntax else Ok n
    end.

(** A sign, and the rest. *)
Definition signed (s : string) : bool * string :=
  match s with
  | String.String "-" s => (true, s)
  | String.String "+" s => (false, s)
  | _ => (false, s)
  end.

(** [ParseInt(s, base, 64)]. *)
Definition ParseInt (s : string) (base : Z) : res num_err Z :=
  if bool_decide (s = ""%string) then Err NumSyntax
  else
    let '(neg, digits) := signed s in
    match ParseUint digits base with
    | Err e => Err e
    | Ok un =>
        if negb neg && (un >=? 2 ^ 63) then Err NumRange
        else if neg && (un >? 2 ^ 63) then Err NumRange
        else Ok (if neg then i64 (- i64 un) else i64 un)
    end.

(** [strconv.ParseBool]. *)
Definition ParseBool (s : string) : option bool :=
  if bool_decide (s ∈ ["1"; "t"; "T"; "true"; "TRUE"; "True"]%string) then Some true
  else if bool_decide (s ∈ ["0"; "f"; "F"; "false"; "FALSE"; "False"]%string) then Some false
  else None.

(** ** [time.Duration] *)

Definition lessThanHalf (x y : Z) : bool := u64 (u64 x + u64 x) <? u64 y.

(** [Duration.Round]. *)
Definition Round (d m : Duration) : Duration :=
  if m <=? 0 then d
  else
    let r := Z.rem d m in
    if d <? 0 then
      let r := i64 (- r) in
      if lessThanHalf r m then i64 (d + r)
      else let d1 := i64 (i64 (d - m) + r) in
           if d1 <? d then d1 else minDuration
    else if lessThanHalf r m then i64 (d - r)
    else let d1 := i64 (i64 (d + m) - r) in
         if d1 >? d then d1 else maxDuration.

(** [fmtFrac]: the fraction of [v / 10 ^ prec] in front of [tail], without the zeros at its
    end and without its point when it is zero; and [v / 10 ^ prec]. *)
Fixpoint fmtFrac (prec : nat) (print : bool) (v : Z) (tail : string) : string * Z :=
  match prec with
  | O => ((if print then String.String "." tail else tail), v)
  | S prec =>
      let digit := v mod 10 in
      let print := print || negb (digit =? 0) in
      fmtFrac prec print (v / 10)
        (if print then String.String (ascii_of_N (Z.to_N (digit + 48))) tail else tail)
  end.

(** The two bytes of the micro sign. *)
Definition micro : string := string_of_bytes [xc2; xb5].

(** [Duration.String]. *)
Definition Duration_String (d : Duration) : string :=
  let u := u64 d in
  let neg := d <? 0 in
  let u := if neg then u64 (- u) else u in
  let text :=
    if u <? Second then
      if u =? 0 then "0s"%string
      else
        let '(prec, suffix) :=
          if u <? Microsecond then (0%nat, "ns"%string)
          else if u <? Millisecond then (3%nat, (micro +:+ "s")%string)
          else (6%nat, "ms"%string) in
        let '(tail, v) := fmtFrac prec false u suffix in
        (Itoa v +:+ tail)%string
    else
      let '(tail, u) := fmtFrac 9 false u "s" in
      let text := (Itoa (u mod 60) +:+ tail)%string in
      let u := u / 60 in
      if u >? 0 then
        let text := (Itoa (u mod 60) +:+ "m" +:+ text)%string in
        let u := u / 60 in
        if u >? 0 then (Itoa u +:+ "h" +:+ text)%string else text
      else text in
  if neg then String.String "-" text else text.

(** ** 64-bit floats *)

Definition float_of_int (z : Z) : spec_float := binary_normalize 53 1024 z 0 false.
Definition fmul (x y : spec_float) : spec_float := SFmul 53 1024 x y.
Definition fdiv (x y : spec_float) : spec_float := SFdiv 53 1024 x y.
Definition fadd (x y : spec_float) : spec_float := SFadd 53 1024 x y.

(** [uint64(f)] for an [f] that is in range. *)
Definition trunc (f : spec_float) : Z :=
  match f with
  | S754_finite false m e => if 0 <=? e then Z.pos m * 2 ^ e else Z.pos m / 2 ^ (- e)
  | _ => 0
  end.

(** [time.ParseDuration] *)

(** [leadingInt]. *)
Fixpoint leadingInt (x : Z) (s : string) : option (Z * string) :=
  match s with
  | String.String c s' =>
      if is_digit c then
        if x >? 2 ^ 63 / 10 then None
        else let x := u64 (u64 (x * 10) + (char c - 48)) in
             if x >? 2 ^ 63 then None else leadingInt x s'
      else Some (x, s)
  | EmptyString => Some (x, s)
  end.

(** [leadingFraction]. *)
Fixpoint leadingFraction (x : Z) (scale : spec_float) (overflow : bool) (s : string)
    : Z * spec_float * string :=
  match s with
  | String.String c s' =>
      if is_digit c then
        if overflow || (x >? (2 ^ 63 - 1) / 10) then leadingFraction x scale true s'
        else let y := u64 (u64 (x * 10) + (char c - 48)) in
             if y >? 2 ^ 63 then leadingFraction x scale true s'
             else leadingFraction y (fmul scale (float_of_int 10)) false s'
      else (x, scale, s)
  | EmptyString => (x, scale, s)
  end.

(** The unit: all up to a point or a digit. *)
Fixpoint unit_text (s : string) : string * string :=
  match s with
  | String.String c s' =>
      if Ascii.eqb c "." || is_digit c then (EmptyString, s)
      else let '(u, rest) := unit_text s' in (String.String c u, rest)
  | EmptyString => (EmptyString, s)
  end.

(** [unitMap]; the micro sign comes in its two encodings. *)
Definition unitMap (u : string) : option Z :=
  if bool_decide (u = "ns"%string) then Some 1
  else if bool_decide (u ∈ ["us"; (micro +:+ "s"); (string_of_bytes [xce; xbc] +:+ "s")]%string)
  then Some Microsecond
  else if bool_decide (u = "ms"%string) then Some Millisecond
  else if bool_decide (u = "s"%string) then Some Second
  else if bool_decide (u = "m"%string) then Some Minute
  else if bool_decide (u = "h"%string) then Some Hour
  else None.

(** The loop; every round takes a unit, so the length of the text is fuel enough. *)
Fixpoint read_units (fuel : nat) (d : Z) (s : string) : option Z :=
  match fuel, s with
  | _, EmptyString => Some d
  | O, _ => None
  | S fuel, String.String c _ =>
      if negb (Ascii.eqb c "." || is_digit c) then None
      else
        '(v, s1) ← leadingInt 0 s;
        let pre := negb (String.length s =? String.length s1)%nat in
        let '(f, scale, post, s2) :=
          match s1 with
          | String.String "." s1 =>
              let '(f, scale, s2) := leadingFraction 0 (float_of_int 1) false s1 in
              (f, scale, negb (String.length s1 =? String.length s2)%nat, s2)
          | _ => (0, float_of_int 1, false, s1)
          end in
        if negb pre && negb post then None
        else
          let '(u, s3) := unit_text s2 in
          if bool_decide (u = ""%string) then None
          else
            un ← unitMap u;
            if v >? 2 ^ 63 / un then None
            else
              let v := u64 (v * un) in
              let v := if f >? 0
                       then u64 (v + trunc (fmul (float_of_int f) (fdiv (float_of_int un) scale)))
                       else v in
              if (f >? 0) && (v >? 2 ^ 63) then None
              else
                let d := u64 (d + v) in
                if d >? 2 ^ 63 then None else read_units fuel d s3
  end.

Definition ParseDuration (s : string) : option Duration :=
  let '(neg, s) := signed s in
  if bool_decide (s = "0"%string) then Some 0
  else if bool_decide (s = ""%string) then None
  else
    d ← read_units (String.length s) 0 s;
    if neg then Some (i64 (- i64 d)) else if d >? 2 ^ 63 - 1 then None else Some d.

(** ** What they compute *)

Example durations :
  map Duration_String [0; 999; 1500; -2300000; 1000000000; 90061000000000; minDuration]
  = ["0s"; "999ns"; (string_of_bytes [x31; x2e; x35; xc2; xb5; x73]); "-2.3ms"; "1s"; "25h1m1s";
     "-2562047h47m16.854775808s"]%string.
Proof. vm_compute. reflexivity. Qed.

Example durations_read :
  map ParseDuration ["1.5h"; "-300ms"; "1h15m30.918273645s"; "0"; ".5s"; "3"; "9223372036854775808ns"]%string
  = [Some 5400000000000; Some (-300000000); Some 4530918273645; Some 0; Some 500000000; None; None].
Proof. vm_compute. reflexivity. Qed.

Example numbers_read :
  map (fun s => ParseInt s 0) ["0x1F"; "-0b101"; "017"; "1_000"; "1__0"; "9223372036854775808"; ""; "0"; "+7"; "-9223372036854775808"]%string
  = [Ok 31; Ok (-5); Ok 15; Ok 1000; Err NumSyntax; Err NumRange; Err NumSyntax; Ok 0; Ok 7; Ok (- 2 ^ 63)].
Proof. vm_compute. reflexivity. Qed.

(** ** Reading back a printed number *)

#[local] Arguments Ascii.eqb : simpl never.

(** The value of decimal digits behind [n]. *)
Fixpoint uval (n : Z) (d : Decimal.uint) : Z :=
  match d with
  | Decimal.Nil => n
  | Decimal.D0 d => uval (10 * n + 0) d
  | Decimal.D1 d => uval (10 * n + 1) d
  | Decimal.D2 d => uval (10 * n + 2) d
  | Decimal.D3 d => uval (10 * n + 3) d
  | Decimal.D4 d => uval (10 * n + 4) d
  | Decimal.D5 d => uval (10 * n + 5) d
  | Decimal.D6 d => uval (10 * n + 6) d
  | Decimal.D7 d => uval (10 * n + 7) d
  | Decimal.D8 d => uval (10 * n + 8) d
  | Decimal.D9 d => uval (10 * n + 9) d
  end.

Lemma uval_acc d : forall p, uval (Z.pos p) d = Z.pos (Pos.of_uint_acc d p).
Proof. induction d; intros p; cbn [uval Pos.of_uint_acc]; [done|..]; rewrite <- IHd; f_equal; lia. Qed.

Lemma uval_of_uint d : uval 0 d = Z.of_N (Pos.of_uint d).
Proof. induction d; cbn [uval Pos.of_uint]; try done; apply (uval_acc d). Qed.

Lemma uval_ge d : forall n, 0 <= n -> n <= uval n d.
Proof. induction d; intros n Hn; cbn [uval]; [lia|..]; (etrans; [|apply IHd]); lia. Qed.

Lemma digit_step base0 d n us (k : Z) (c : ascii) s :
  is_digit c = true -> digit_value c = Some k -> Ascii.eqb c "_" = false ->
  0 <= k < 10 -> 0 <= n -> 10 * n + k <= uval (10 * n + k) d -> uval (10 * n + k) d < 2 ^ 63 ->
  read_digits base0 10 n us (String.String c s) = read_digits base0 10 (10 * n + k) us s.
Proof.
  intros _ Hd Hu Hk Hn Hle Hlt. cbn [read_digits]. rewrite Hu, Hd. cbn [andb].
  destruct (k >=? 10) eqn:E1; zbool; [lia|].
  change (maxUint64 / 10 + 1) with 1844674407370955162.
  destruct (n >=? 1844674407370955162) eqn:E2; zbool; [lia|].
  rewrite (u64_small (n * 10)), u64_small by lia. unfold maxUint64.
  destruct (_ || _) eqn:E3; zbool; [lia|]. f_equal. lia.
Qed.

Lemma read_uint base0 us d : forall n, 0 <= n -> uval n d < 2 ^ 63 ->
  read_digits base0 10 n us (NilEmpty.string_of_uint d) = Ok (uval n d, us).
Proof.
  induction d; intros n Hn Hlt; cbn [NilEmpty.string_of_uint]; [done|..]; cbn [uval] in Hlt |- *;
    match type of Hlt with uval (10 * n + ?k) _ < _ =>
      rewrite (digit_step base0 d n us k);
        [apply IHd; [lia|exact Hlt]|reflexivity|reflexivity|reflexivity|lia|lia|apply uval_ge; lia|exact Hlt]
    end.
Qed.

Lemma to_uint_head p d : Pos.to_uint p <> Decimal.D0 d.
Proof.
  intros E. pose proof (Unsigned.of_to p) as H. rewrite E in H. cbn [Pos.of_uint] in H.
  pose proof (Unsigned.to_of d) as H1. rewrite H in H1. cbn [N.to_uint] in H1. rewrite E in H1.
  unfold Decimal.unorm in H1. destruct (Decimal.nzhead d) as [|d'|d'|d'|d'|d'|d'|d'|d'|d'|d'] eqn:Ez; try done.
  - apply (Unsigned.to_uint_nonzero p). rewrite E. by injection H1 as ->.
  - by apply nzhead_nonzero in Ez.
Qed.

Lemma uval_to_uint p : uval 0 (Pos.to_uint p) = Z.pos p.
Proof. by rewrite uval_of_uint, Unsigned.of_to. Qed.

(** The text of a positive number: its first digit is not zero. *)
Lemma positive_text p :
  exists c s, NilZero.string_of_uint (Pos.to_uint p) = String.String c s /\
    NilEmpty.string_of_uint (Pos.to_uint p) = String.String c s /\ c <> "0"%char /\
    is_digit c = true.
Proof.
  pose proof (to_uint_head p) as H0. pose proof (Unsigned.to_uint_nonnil p) as Hn.
  destruct (Pos.to_uint p) as [|d|d|d|d|d|d|d|d|d|d]; [done|by destruct (H0 d)|..];
    (eexists _, _; split_and!; [reflexivity|reflexivity|done|reflexivity]).
Qed.

Lemma base_prefix_plain c s : c <> "0"%char -> base_prefix (String.String c s) = (10, String.String c s).
Proof. intros H. destruct c as [[] [] [] [] [] [] [] []]; try reflexivity. by destruct H. Qed.

Lemma ParseUint_positive p base : base = 0 \/ base = 10 -> Z.pos p < 2 ^ 63 ->
  ParseUint (NilZero.string_of_uint (Pos.to_uint p)) base = Ok (Z.pos p).
Proof.
  intros Hb Hp. destruct (positive_text p) as (c & s & -> & E & Hc & _).
  unfold ParseUint. rewrite bool_decide_eq_false_2 by done.
  assert (H : (if base =? 0 then base_prefix (String.String c s) else (base, String.String c s))
              = (10, String.String c s)).
  { destruct Hb as [->| ->]; [by apply base_prefix_plain|done]. }
  rewrite H, <- E, read_uint by (rewrite ?uval_to_uint; lia).
  by rewrite uval_to_uint.
Qed.

Lemma signed_plain c s : is_digit c = true -> signed (String.String c s) = (false, String.String c s).
Proof. destruct c as [[] [] [] [] [] [] [] []]; done. Qed.

(** What [Itoa] prints, [ParseInt] reads. *)
Lemma ParseInt_Itoa (z base : Z) : base = 0 \/ base = 10 -> - 2 ^ 63 < z < 2 ^ 63 -> ParseInt (Itoa z) base = Ok z.
Proof.
  intros Hb Hz. destruct z as [|p|p].
  - by destruct Hb as [->| ->].
  - unfold Itoa. cbn [Z.to_int NilZero.string_of_int]. unfold ParseInt.
    destruct (positive_text p) as (c & s & E & _ & _ & Hd).
    pose proof (ParseUint_positive p base Hb ltac:(lia)) as H. rewrite E in H |- *.
    rewrite bool_decide_eq_false_2, signed_plain, H by done. cbn [negb andb].
    destruct (_ >=? _) eqn:E1; zbool; [lia|]. by rewrite i64_small by lia.
  - unfold Itoa. cbn [Z.to_int NilZero.string_of_int]. unfold ParseInt.
    rewrite bool_decide_eq_false_2 by done. cbn [signed].
    rewrite (ParseUint_positive p base Hb) by lia. cbn [negb andb].
    destruct (_ >? _) eqn:E1; zbool; [lia|]. by rewrite (i64_small (Z.pos p)), i64_small by lia.
Qed.

(** Whole numbers of nanoseconds, as a duration flag reads them. *)
Lemma leadingInt_uint d rest : forall n, 0 <= n -> uval n d < 2 ^ 63 ->
  match rest with EmptyString => True | String.String c _ => is_digit c = false end ->
  leadingInt n (NilEmpty.string_of_uint d +:+ rest) = Some (uval n d, rest).
Proof.
  intros n Hn Hlt Hrest. revert n Hn Hlt.
  assert (Hnil : forall n, leadingInt n rest = Some (n, rest)).
  { intros n. destruct rest as [|c rest]; [done|]. cbn [leadingInt]. by rewrite Hrest. }
  induction d; intros n Hn Hlt; cbn [NilEmpty.string_of_uint]; [apply Hnil|..]; cbn [uval] in Hlt |- *;
    match type of Hlt with uval (10 * n + ?k) ?d < _ =>
      pose proof (uval_ge d (10 * n + k) ltac:(lia)) as Hge;
      match goal with |- leadingInt n (String.String ?c ?x +:+ rest) = _ =>
        change (leadingInt n (String.String c x +:+ rest))
          with (if n >? 2 ^ 63 / 10 then None
                else let x' := u64 (u64 (n * 10) + k) in
                     if x' >? 2 ^ 63 then None else leadingInt x' (x +:+ rest))
      end;
      change (2 ^ 63 / 10) with 922337203685477580; cbv zeta;
      destruct (n >? 922337203685477580) eqn:E1; zbool; [lia|];
      rewrite (u64_small (n * 10)), u64_small by lia;
      destruct (_ >? 2 ^ 63) eqn:E2; zbool; [lia|];
      replace (n * 10 + k) with (10 * n + k) by lia; apply IHd; [lia|exact Hlt]
    end.
Qed.

(** A positive number of nanoseconds, behind its sign. *)
Lemma read_nanoseconds p : Z.pos p < 2 ^ 63 ->
  let s := NilZero.string_of_uint (Pos.to_uint p) +:+ "ns" in
  s <> "0"%string /\ s <> ""%string /\ read_units (String.length s) 0 s = Some (Z.pos p).
Proof.
  intros Hp s. unfold s. destruct (positive_text p) as (c & x & -> & E & Hc & Hd).
  pose proof (leadingInt_uint (Pos.to_uint p) "ns" 0 ltac:(lia)) as HL.
  rewrite uval_to_uint, E in HL. specialize (HL Hp eq_refl).
  change (String.String c x +:+ "ns") with (String.String c (x +:+ "ns")) in *.
  split_and!; [by intros [= -> _]|done|].
  assert (Hl : (String.length (x +:+ "ns") = String.length x + 2)%nat).
  { clear. induction x as [|a x IH]; [done|]. change (String.String a x +:+ "ns") with (String.String a (x +:+ "ns")).
    cbn [String.length]. by rewrite IH. }
  cbn [String.length read_units]. rewrite Hd, orb_true_r, HL. cbn [negb mbind option_bind String.length].
  rewrite Hl. replace (S (String.length x + 2) =? 2)%nat with false by (symmetry; apply Nat.eqb_neq; lia).
  change (unit_text "ns") with ("ns"%string, ""%string). change (0 >? 0) with false.
  cbv beta iota zeta delta [andb negb mbind option_bind].
  change (bool_decide ("ns"%string = ""%string)) with false. change (unitMap "ns") with (Some 1).
  cbv beta iota. change (2 ^ 63 / 1) with (2 ^ 63).
  rewrite Z.mul_1_r, Z.add_0_l, (u64_small (Z.pos p)), (u64_small (Z.pos p)) by lia.
  destruct (Z.pos p >? 2 ^ 63) eqn:E1; zbool; [lia|]. by destruct (String.length x + 2)%nat.
Qed.

Lemma ParseDuration_ns (z : Z) : - 2 ^ 63 < z < 2 ^ 63 -> ParseDuration (Itoa z +:+ "ns") = Some z.
Proof.
  intros Hz. unfold ParseDuration. destruct z as [|p|p]; [by vm_compute| |];
    destruct (read_nanoseconds p ltac:(lia)) as (H1 & H2 & H3).
  - unfold Itoa. cbn [Z.to_int NilZero.string_of_int].
    destruct (positive_text p) as (c & x & E & _ & _ & Hd). rewrite E in *.
    change (String.String c x +:+ "ns") with (String.String c (x +:+ "ns")) in *.
    rewrite signed_plain, !bool_decide_eq_false_2, H3 by done. cbn [mbind option_bind].
    by destruct (_ >? _) eqn:E1; zbool; [lia|].
  - unfold Itoa. cbn [Z.to_int NilZero.string_of_int].
    change (String.String "-" ?x +:+ "ns") with (String.String "-" (x +:+ "ns")). cbn [signed].
    rewrite !bool_decide_eq_false_2, H3 by done. cbn [mbind option_bind].
    by rewrite (i64_small (Z.pos p)), i64_small by lia.
Qed.

(** ** Rounding *)

(** Away from the ends of the range, [Round d m] is the multiple of [m] nearest to [d]; of
    two that are equally near the one away from zero. *)
Lemma Round_nearest (d m : Duration) : 0 < m < 2 ^ 62 -> - 2 ^ 62 < d < 2 ^ 62 ->
  Round d m mod m = 0 /\ 2 * Z.abs (Round d m - d) <= m /\
  (2 * Z.abs (Round d m - d) = m -> Z.abs d < Z.abs (Round d m)).
Proof.
  intros Hm Hd. unfold Round, lessThanHalf. destruct (m <=? 0) eqn:E0; zbool; [lia|].
  pose proof (Z.quot_rem' d m) as Hqr. pose proof (Z.rem_bound_abs d m ltac:(lia)) as Hb.
  destruct (d <? 0) eqn:Es; zbool.
  - assert (Hr : - m < Z.rem d m <= 0).
    { pose proof (Z.rem_nonpos d m ltac:(lia) ltac:(lia)). lia. }
    rewrite (i64_small (- Z.rem d m)) by lia. set (r := - Z.rem d m).
    assert (Hdm : d = m * (Z.quot d m) - r) by (unfold r; lia).
    assert (Hr' : 0 <= r < m) by (unfold r; lia). clearbody r.
    rewrite !(u64_small r), (u64_small m), u64_small by lia.
    destruct (r + r <? m) eqn:E1; zbool.
    + rewrite i64_small by lia. split_and!; [|lia|lia].
      apply Z.mod_divide; [lia|]. exists (Z.quot d m). lia.
    + rewrite (i64_small (d - m)), i64_small by lia. destruct (_ <? d) eqn:E2; zbool; [|lia].
      split_and!; [|lia|lia]. apply Z.mod_divide; [lia|]. exists (Z.quot d m - 1). lia.
  - assert (Hr : 0 <= Z.rem d m < m).
    { pose proof (Z.rem_nonneg d m ltac:(lia) ltac:(lia)). lia. }
    set (r := Z.rem d m) in *.
    rewrite !(u64_small r), (u64_small m), u64_small by lia.
    destruct (r + r <? m) eqn:E1; zbool.
    + rewrite i64_small by lia. split_and!; [|lia|lia]. apply Z.mod_divide; [lia|]. exists (Z.quot d m). lia.
    + rewrite (i64_small (d + m)), i64_small by lia. destruct (_ >? d) eqn:E2; zbool; [|lia].
      split_and!; [|lia|lia]. apply Z.mod_divide; [lia|]. exists (Z.quot d m + 1). lia.
Qed.
