(* ===== verification/Framing.v ===== *)
(** * Data-plane framing (internal/record/record.go)

    One UDP datagram is one frame [[1B type][2B length BE][payload]]. The
    definitions are those of the package: [Frame], [Parse] and the stream reader
    [ReadFrame]; a panic of [Frame] is [None]. *)

From S2P Require Import Prelude GoBytes GoRuntime.

Definition TypeHS1 : byte := x01.
Definition TypeHS2 : byte := x02.
Definition TypeHS3 : byte := x03.
Definition TypeProbe : byte := x04.
Definition TypeData : byte := x05.
Definition TypeRelay : byte := x07.

Definition HeaderLen : Z := 3.
Definition maxPayloadLen : Z := 65535.

Inductive parse_err := ErrTooShort | ErrOversized | ErrTrailing.
#[export] Instance parse_err_eq_dec : EqDecision parse_err.
Proof. solve_decision. Defined.

(** [None] is the panic on a payload the length field cannot represent. *)
Definition Frame (t : byte) (payload : list byte) : option (list byte) :=
  if len payload >? maxPayloadLen then None
  else Some (t :: be_put 2 (len payload) ++ payload).

Definition Parse (datagram : list byte) : res parse_err (byte * list byte) :=
  if len datagram <? HeaderLen then Err ErrTooShort
  else
    let t := nth 0 datagram x00 in
    let n := be_get (take 2 (drop 1 datagram)) in
    if n >? len datagram - HeaderLen then Err ErrOversized
    else if len datagram >? HeaderLen + n then Err ErrTrailing
    else Ok (t, take (Z.to_nat n) (drop 3 datagram)).

Inductive readframe_err := ReadHeader (e : io_err) | ReadPayload (e : io_err).
#[export] Instance readframe_err_eq_dec : EqDecision readframe_err.
Proof. solve_decision. Defined.

Definition ReadFrame (r : reader) : res readframe_err (byte * list byte) * reader :=
  match ReadFull 3 r with
  | (Err e, r1) => (Err (ReadHeader e), r1)
  | (Ok hdr, r1) =>
      let t := nth 0 hdr x00 in
      let n := be_get (take 2 (drop 1 hdr)) in
      match ReadFull (Z.to_nat n) r1 with
      | (Err e, r2) => (Err (ReadPayload e), r2)
      | (Ok payload, r2) => (Ok (t, payload), r2)
      end
  end.

(** Reading [k] frames one after the other, stopping at the first error. *)
Fixpoint ReadFrames (k : nat) (r : reader) : list (byte * list byte) * reader :=
  match k with
  | O => ([], r)
  | S k' =>
      match ReadFrame r with
      | (Ok f, r1) => let '(fs, r2) := ReadFrames k' r1 in (f :: fs, r2)
      | (Err _, r1) => ([], r1)
      end
  end.

(** ** Lemmas *)

Lemma Frame_Some (t : byte) (p d : list byte) :
  Frame t p = Some d <-> len p <= maxPayloadLen /\ d = t :: be_put 2 (len p) ++ p.
Proof.
  unfold Frame. destruct (len p >? maxPayloadLen) eqn:E; zbool.
  - split; [done|]. intros [? _]. lia.
  - split; [intros [= <-]; done | intros [_ ->]; done].
Qed.

Lemma Frame_len (t : byte) (p d : list byte) : Frame t p = Some d -> len d = HeaderLen + len p.
Proof. intros [_ ->]%Frame_Some. unfold HeaderLen. len_lia. Qed.

Lemma be_get_len2 (p : list byte) : len p <= maxPayloadLen -> be_get (be_put 2 (len p)) = len p.
Proof. intros. apply be_get_put_small. unfold maxPayloadLen in *. cbn. len_lia. Qed.

(** A datagram with a full header, as its three header bytes and the rest. *)
Lemma header_split (d : list byte) :
  HeaderLen <= len d -> exists t a b p, d = t :: a :: b :: p.
Proof.
  unfold HeaderLen. destruct d as [|t [|a [|b p]]]; intros; try (exfalso; len_lia). eauto.
Qed.

Lemma Parse_cases (t a b : byte) (p : list byte) :
  Parse (t :: a :: b :: p) =
  if be_get [a; b] >? len p then Err ErrOversized
  else if len p >? be_get [a; b] then Err ErrTrailing
  else Ok (t, p).
Proof.
  unfold Parse, HeaderLen. rewrite !len_cons.
  destruct (_ <? 3) eqn:E; zbool; [len_lia|]. clear E.
  cbn [nth take drop]. rewrite !drop_0, take_0.
  replace (1 + (1 + (1 + len p)) - 3) with (len p) by lia.
  destruct (be_get [a; b] >? len p) eqn:E1; [done|].
  replace (1 + (1 + (1 + len p)) >? 3 + be_get [a; b]) with (len p >? be_get [a; b]) by lia.
  destruct (len p >? be_get [a; b]) eqn:E2; [done|]. zbool.
  replace (be_get [a; b]) with (len p) by lia.
  unfold len. rewrite Nat2Z.id. by rewrite firstn_all.
Qed.

Lemma be_put2_get a b : be_put 2 (be_get [a; b]) = [a; b].
Proof. apply (be_put_get [a; b]). Qed.

(** [Parse] inverts [Frame], and accepts nothing else. *)
Lemma Parse_Ok_Frame (t : byte) (p d : list byte) :
  Parse d = Ok (t, p) <-> Frame t p = Some d.
Proof.
  rewrite Frame_Some. split.
  - intros H. destruct (Z.ltb_spec (len d) HeaderLen).
    { unfold Parse in H. rewrite (proj2 (Z.ltb_lt _ _)) in H by done. done. }
    destruct (header_split d) as (t' & a & b & q & ->); [done|].
    rewrite Parse_cases in H. repeat destr_in H; zbool; simplify_eq.
    pose proof (be_get_range [a; b]) as Hr. change (256 ^ len [a; b]) with 65536 in Hr.
    replace (len p) with (be_get [a; b]) by lia. rewrite be_put2_get.
    unfold maxPayloadLen. split; [lia|done].
  - intros [Hp ->]. pose proof (be_get_len2 p Hp) as Hg.
    destruct (be_put 2 (len p)) as [|a [|b [|]]] eqn:E;
      try (apply (f_equal length) in E; rewrite length_be_put in E; done).
    cbn [app]. rewrite Parse_cases, Hg, Z.gtb_ltb, Z.ltb_irrefl. done.
Qed.

(** ** Theorems *)

(** Framing is a bijection between the pairs [(t, payload)] that fit a frame
    and the well-formed datagrams: [Parse] accepts a datagram with result
    [(t, payload)] exactly when [Frame] builds that datagram from it. *)
Theorem Parse_Frame_iff (t : byte) (p d : list byte) :
  Parse d = Ok (t, p) <-> Frame t p = Some d.
Proof. apply Parse_Ok_Frame. Qed.

(** The error [Parse] reports names what is wrong with the datagram: shorter
    than a header, a length field promising more bytes than are present, or bytes
    after the payload; and these are the only failures. *)
Theorem Parse_error_spec (d : list byte) :
  (Parse d = Err ErrTooShort <-> len d < HeaderLen) /\
  (Parse d = Err ErrOversized <->
     HeaderLen <= len d /\ len d < HeaderLen + be_get (take 2 (drop 1 d))) /\
  (Parse d = Err ErrTrailing <->
     HeaderLen <= len d /\ HeaderLen + be_get (take 2 (drop 1 d)) < len d).
Proof.
  unfold Parse.
  destruct (len d <? HeaderLen) eqn:E1; zbool; [split_and!; split; try done; lia|].
  destruct (be_get _ >? _) eqn:E2; zbool; [split_and!; split; try done; lia|].
  destruct (len d >? _) eqn:E3; zbool; split_and!; split; try done; lia.
Qed.

Lemma ReadFrame_Frame t p d rest e :
  Frame t p = Some d ->
  ReadFrame (Reader (d ++ rest) e) = (Ok (t, p), Reader rest e).
Proof.
  intros [Hp ->]%Frame_Some. pose proof (be_get_len2 p Hp) as Hg. unfold ReadFrame.
  change ((t :: be_put 2 (len p) ++ p) ++ rest) with
    ((t :: be_put 2 (len p)) ++ p ++ rest).
  pose proof (ReadFull_app (t :: be_put 2 (len p)) (p ++ rest) e) as H.
  cbn [length] in H. rewrite length_be_put in H. rewrite app_assoc in H. rewrite app_assoc.
  rewrite H. cbn [nth drop]. rewrite take_ge by (rewrite drop_0, length_be_put; lia).
  rewrite drop_0, Hg. unfold len. rewrite Nat2Z.id, ReadFull_app. done.
Qed.

(** The stream reader inverts framing: a stream made of the frames of [fs],
    one after the other and followed by anything, is read back as exactly [fs],
    leaving what follows untouched. *)
Theorem ReadFrames_concat (fs : list (byte * list byte)) (ds : list (list byte))
    (rest : list byte) (e : io_err)
    (Hds : Forall2 (fun f d => Frame f.1 f.2 = Some d) fs ds) :
  ReadFrames (length fs) (Reader (concat ds ++ rest) e) = (fs, Reader rest e).
Proof.
  induction Hds as [|[t p] d fs ds Hd Hds IH]; [done|].
  cbn [length ReadFrames concat]. rewrite <- app_assoc.
  rewrite (ReadFrame_Frame t p d _ e Hd), IH. done.
Qed.

Example ReadFrames_concat_witness :
  ReadFrames 2 (Reader ([x05; x00; x01; xff] ++ [x04; x00; x00] ++ [x09]) EOF)
  = ([(x05, [xff]); (x04, [])], Reader [x09] EOF).
Proof.
  apply (ReadFrames_concat [(x05, [xff]); (x04, [])] [[x05; x00; x01; xff]; [x04; x00; x00]]
           [x09] EOF).
  repeat constructor.
Defined.
