(* ===== verification/Disco.v ===== *)
(** * Path selection policy (internal/disco/disco.go)

    The path enumeration, the timing constants and the deterministic role split. *)

From S2P Require Import Prelude GoBytes GoRuntime.

Inductive Path := PathNone | PathDirect | PathRelay.
#[export] Instance Path_eq_dec : EqDecision Path.
Proof. solve_decision. Defined.

Definition Path_String (p : Path) : string :=
  match p with
  | PathDirect => "direct"
  | PathRelay => "relay"
  | PathNone => "none"
  end.

Definition ProbeInterval : Duration := 500 * Millisecond.
Definition DirectAttempt : Duration := 3 * Second.
Definition RelayAttempt : Duration := 3 * Second.
Definition KeepaliveInterval : Duration := 10 * Second.
Definition ReestablishInterval : Duration := 10 * Second.
Definition HS1ResendInterval : Duration := 500 * Millisecond.

(** Go's [<] on strings is the byte-wise lexicographic order. *)
Definition RoleIsInitiator (myID peerID : string) : bool := String.ltb myID peerID.

Lemma string_ltb_antisym (a b : string) :
  a <> b -> String.ltb a b = negb (String.ltb b a).
Proof.
  intros Hne. unfold String.ltb. rewrite (String.compare_antisym b a).
  destruct (String.compare a b) eqn:E; [|done..].
  apply String.compare_eq_iff in E. done.
Qed.

Lemma RoleIsInitiator_asym (a b : string) :
  RoleIsInitiator a b = true -> RoleIsInitiator b a = false.
Proof.
  unfold RoleIsInitiator, String.ltb. rewrite (String.compare_antisym b a).
  by destruct (String.compare a b).
Qed.

(** Two peers with distinct names agree on the roles without exchanging
    anything: exactly one of them computes that it is the initiator. *)
Theorem RoleIsInitiator_split (a b : string) (Hne : a <> b) :
  RoleIsInitiator a b = negb (RoleIsInitiator b a).
Proof. by apply string_ltb_antisym. Qed.

Example RoleIsInitiator_split_witness :
  "a"%string <> "b"%string /\ RoleIsInitiator "a" "b" = negb (RoleIsInitiator "b" "a").
Proof. split; [discriminate | apply (RoleIsInitiator_split "a" "b"); discriminate]. Defined.
