(* ===== verification/Replay.v ===== *)
(** * The replay window (internal/peer/replay.go)

    The sliding bitmap that admits each DATA nonce at most once. [Check],
    [Commit], [Accept] and [advance] are the methods of [replayWindow] on the
    word array, with an out-of-range index (a Go panic) as [None]; [Spec] is the
    promise: the set of nonces accepted so far and its maximum. *)

From S2P Require Import Prelude GoBytes.

Definition replayWindowSizeBits : Z := 2048.

Record replayWindow := ReplayWindow {
  size : Z;
  wmax : Z;        (* highest accepted nonce; 0 means none accepted yet *)
  start : Z;       (* lowest nonce the bitmap currently tracks *)
  bits : list Z;   (* []uint64 *)
  zeroSeen : bool
}.

Definition newReplayWindow (size : Z) : replayWindow :=
  ReplayWindow size 0 0 (replicate (Z.to_nat (u64 (size + 63) / 64)) 0) false.

Definition windowStart (max size : Z) : Z :=
  if max >=? size then u64 (u64 (max - size) + 1) else 0.

Definition setBit (bits : list Z) (idx : Z) : option (list Z) :=
  v ← bits !! Z.to_nat (idx / 64);
  Some (<[Z.to_nat (idx / 64) := Z.lor v (Z.shiftl 1 (idx mod 64))]> bits).

Definition getBit (bits : list Z) (idx : Z) : option bool :=
  v ← bits !! Z.to_nat (idx / 64);
  Some (negb (Z.land v (Z.shiftl 1 (idx mod 64)) =? 0)).

Definition clear (bits : list Z) : list Z := replicate (length bits) 0.

(** One iteration of the word loop of [advance], at word [wi]; [nw] is the
    destination slice. *)
Definition shift_step (bits : list Z) (dw : nat) (db : Z) (nw : list Z) (wi : nat) : list Z :=
  let v := default 0 (bits !! wi) in
  if db =? 0 then <[(wi - dw)%nat := v]> nw
  else if v =? 0 then nw
  else
    let nw1 := <[(wi - dw)%nat := Z.lor (default 0 (nw !! (wi - dw)%nat)) (Z.shiftr v db)]> nw in
    if bool_decide (1 <= wi - dw)%nat
    then <[(wi - dw - 1)%nat :=
             Z.lor (default 0 (nw1 !! (wi - dw - 1)%nat)) (u64 (Z.shiftl v (64 - db)))]> nw1
    else nw1.

Definition shift_words (bits : list Z) (shift : Z) : list Z :=
  let dw := Z.to_nat (shift / 64) in
  let db := shift mod 64 in
  foldl (shift_step bits dw db) (replicate (length bits) 0) (seq dw (length bits - dw)).

Definition advance (w : replayWindow) (nonce : Z) : replayWindow :=
  let newStart := windowStart nonce (size w) in
  let shift := u64 (newStart - start w) in
  let bits' := if shift >? 0
               then if shift >=? size w then clear (bits w) else shift_words (bits w) shift
               else bits w in
  ReplayWindow (size w) nonce newStart bits' (zeroSeen w).

Definition Check (w : replayWindow) (nonce : Z) : option bool :=
  if nonce =? 0 then Some (negb (zeroSeen w))
  else if wmax w =? 0 then Some true
  else if nonce >? wmax w then Some true
  else if nonce <? start w then Some false
  else negb <$> getBit (bits w) (u64 (nonce - start w)).

Definition Commit (w : replayWindow) (nonce : Z) : option replayWindow :=
  if nonce =? 0 then Some (ReplayWindow (size w) (wmax w) (start w) (bits w) true)
  else if wmax w =? 0 then
    let st := windowStart nonce (size w) in
    b ← setBit (clear (bits w)) (u64 (nonce - st));
    Some (ReplayWindow (size w) nonce st b (zeroSeen w))
  else
    let w1 := if nonce >? wmax w then advance w nonce else w in
    b ← setBit (bits w1) (u64 (nonce - start w1));
    Some (ReplayWindow (size w1) (wmax w1) (start w1) b (zeroSeen w1)).

Definition Accept (w : replayWindow) (nonce : Z) : option (bool * replayWindow) :=
  fresh ← Check w nonce;
  if (fresh : bool) then w' ← Commit w nonce; Some (true, w') else Some (false, w).

(** A run of [Accept] over the nonces of the frames received in a session: the
    nonces that were let through, in order. *)
Fixpoint accept_run (w : replayWindow) (ns : list Z) : option (list Z * replayWindow) :=
  match ns with
  | [] => Some ([], w)
  | n :: ns' =>
      '(ok, w1) ← Accept w n;
      '(acc, w2) ← accept_run w1 ns';
      Some ((if (ok : bool) then n :: acc else acc), w2)
  end.

(** ** Specification: what the window promises *)
Module Spec.
(** The nonces accepted so far, and the highest of them. *)
Record state := State { seen : gset Z; top : Z }.

Definition init : state := State ∅ 0.

(** A nonce is fresh when it was never accepted and has not fallen out of the
    [size] nonces ending at the highest one; nonce 0 is exempt from the age
    limit. *)
Definition fresh (size : Z) (s : state) (n : Z) : Prop :=
  (n ∉ seen s) /\ (n = 0 \/ top s < n + size).

#[export] Instance fresh_dec size s n : Decision (fresh size s n).
Proof. unfold fresh. apply _. Defined.

Definition commit (s : state) (n : Z) : state := State ({[n]} ∪ seen s) (Z.max (top s) n).

Fixpoint run (size : Z) (s : state) (ns : list Z) : list Z * state :=
  match ns with
  | [] => ([], s)
  | n :: ns' =>
      if bool_decide (fresh size s n)
      then let '(acc, s') := run size (commit s n) ns' in (n :: acc, s')
      else run size s ns'
  end.
End Spec.

(** ** Words and bits *)

(** Bit [i] of the bitmap, read as one long little-endian word. *)
Definition wbit (ws : list Z) (i : Z) : bool :=
  Z.testbit (default 0 (ws !! Z.to_nat (i / 64))) (i mod 64).

Definition words_ok (ws : list Z) : Prop := Forall (fun v => 0 <= v < 2 ^ 64) ws.

Lemma word_at ws i : words_ok ws -> 0 <= default 0 (ws !! i) < 2 ^ 64.
Proof.
  intros H. destruct (ws !! i) eqn:E; cbn; [|lia].
  by apply (Forall_lookup_1 _ _ _ _ H E).
Qed.

Lemma word_high v j : 0 <= v < 2 ^ 64 -> 64 <= j -> Z.testbit v j = false.
Proof.
  intros Hv Hj. rewrite <- (Z.mod_small v (2 ^ 64)) by lia.
  by apply Z.mod_pow2_bits_high.
Qed.

Lemma word_ext_range v :
  0 <= v -> (forall j, 64 <= j -> Z.testbit v j = false) -> v < 2 ^ 64.
Proof.
  intros Hv Hj. destruct (Z.eq_dec v 0) as [->|]; [lia|].
  apply Z.log2_lt_pow2; [lia|]. destruct (Z.lt_ge_cases (Z.log2 v) 64) as [|Hge]; [done|].
  specialize (Hj _ Hge). rewrite Z.bit_log2 in Hj; [done | lia].
Qed.

Lemma lor_range a b : 0 <= a < 2 ^ 64 -> 0 <= b < 2 ^ 64 -> 0 <= Z.lor a b < 2 ^ 64.
Proof.
  intros. assert (0 <= Z.lor a b) by (apply Z.lor_nonneg; lia). split; [done|].
  apply word_ext_range; [done|]. intros j Hj. rewrite Z.lor_spec, !word_high; done.
Qed.

Lemma shiftr_range a d : 0 <= a < 2 ^ 64 -> 0 <= d -> 0 <= Z.shiftr a d < 2 ^ 64.
Proof.
  intros. rewrite Z.shiftr_div_pow2 by lia. split; [apply Z.div_pos; lia|].
  apply Z.div_lt_upper_bound; [lia|]. assert (1 <= 2 ^ d) by lia. nia.
Qed.

Lemma bit_range j : 0 <= j < 64 -> 0 <= Z.shiftl 1 j < 2 ^ 64.
Proof.
  intros. rewrite Z.shiftl_1_l. split; [lia|]. apply Z.pow_lt_mono_r; lia.
Qed.

Lemma testbit_bit j k : 0 <= j -> Z.testbit (Z.shiftl 1 j) k = bool_decide (k = j).
Proof.
  intros. rewrite Z.shiftl_1_l. case_bool_decide as E.
  - subst. by apply Z.pow2_bits_true.
  - by apply Z.pow2_bits_false.
Qed.

Lemma land_bit v j : 0 <= j -> negb (Z.land v (Z.shiftl 1 j) =? 0) = Z.testbit v j.
Proof.
  intros Hj. destruct (Z.testbit v j) eqn:E.
  - apply negb_true_iff, Z.eqb_neq. intros H.
    assert (Z.testbit (Z.land v (Z.shiftl 1 j)) j = true) as C.
    { rewrite Z.land_spec, E, testbit_bit by done. by rewrite bool_decide_eq_true_2. }
    by rewrite H, Z.bits_0 in C.
  - apply negb_false_iff, Z.eqb_eq. apply Z.bits_inj'. intros k Hk.
    rewrite Z.land_spec, testbit_bit, Z.bits_0 by done.
    case_bool_decide; [subst; by rewrite E | by rewrite andb_false_r].
Qed.

(** The index of bit [i] in an array of [l] words. *)
Lemma bit_index i l : 0 <= i < 64 * Z.of_nat l -> (Z.to_nat (i / 64) < l)%nat.
Proof. intros. assert (i / 64 < Z.of_nat l) by (apply Z.div_lt_upper_bound; lia).
  assert (0 <= i / 64) by (apply Z.div_pos; lia). lia. Qed.

Lemma getBit_wbit ws i :
  0 <= i < 64 * Z.of_nat (length ws) -> getBit ws i = Some (wbit ws i).
Proof.
  intros Hi. unfold getBit, wbit. pose proof (bit_index _ _ Hi) as Hl.
  apply lookup_lt_is_Some_2 in Hl as [v Hv]. rewrite Hv. cbn.
  rewrite land_bit by (apply Z.mod_pos_bound; lia). done.
Qed.

Lemma setBit_wbit ws i :
  words_ok ws -> 0 <= i < 64 * Z.of_nat (length ws) ->
  exists ws', setBit ws i = Some ws' /\ words_ok ws' /\ length ws' = length ws /\
    forall k, 0 <= k -> wbit ws' k = bool_decide (k = i) || wbit ws k.
Proof.
  intros Hok Hi. unfold setBit. pose proof (bit_index _ _ Hi) as Hl.
  pose proof (Z.mod_pos_bound i 64 ltac:(lia)) as Hm.
  destruct (lookup_lt_is_Some_2 _ _ Hl) as [v Hv]. rewrite Hv. cbn.
  eexists. split_and!; [done | | apply length_insert | ].
  - apply Forall_insert; [done|]. apply lor_range; [|by apply bit_range].
    by apply (Forall_lookup_1 _ _ _ _ Hok Hv).
  - intros k Hk. unfold wbit. rewrite list_lookup_insert.
    pose proof (Z.mod_pos_bound k 64 ltac:(lia)) as Hmk.
    pose proof (Z.div_mod k 64 ltac:(lia)). pose proof (Z.div_mod i 64 ltac:(lia)).
    assert (0 <= i / 64) by (apply Z.div_pos; lia).
    assert (0 <= k / 64) by (apply Z.div_pos; lia).
    case_decide as E.
    + destruct E as [E _]. rewrite <- E, Hv. cbn. rewrite Z.lor_spec, testbit_bit by lia.
      rewrite orb_comm. f_equal. apply bool_decide_ext. lia.
    + rewrite bool_decide_eq_false_2; [done|]. intros ->. tauto.
Qed.

Lemma wbit_clear ws i : wbit (clear ws) i = false.
Proof.
  unfold wbit, clear. destruct (replicate _ _ !! _) eqn:E; cbn; [|apply Z.bits_0].
  apply lookup_replicate in E as [-> _]. apply Z.bits_0.
Qed.

Lemma words_ok_clear ws : words_ok (clear ws).
Proof. apply Forall_replicate. lia. Qed.

(** ** The word loop of [advance] *)

(** What the first [m] iterations leave in word [k] of the destination. *)
Definition contrib (ws : list Z) (dw : nat) (db : Z) (m k : nat) : Z :=
  let W i := default 0 (ws !! i) in
  if db =? 0 then (if bool_decide (k < m)%nat then W (dw + k)%nat else 0)
  else Z.lor (if bool_decide (k < m)%nat then Z.shiftr (W (dw + k)%nat) db else 0)
             (if bool_decide (S k < m)%nat
              then u64 (Z.shiftl (W (dw + S k)%nat) (64 - db)) else 0).

Lemma u64_0 : u64 0 = 0.
Proof. reflexivity. Qed.

Lemma shift_step_length ws dw db nw wi : length (shift_step ws dw db nw wi) = length nw.
Proof. unfold shift_step. repeat destr; by rewrite ?length_insert. Qed.

(** What iteration [dw + m] adds to word [k]. *)
Definition addend (ws : list Z) (dw : nat) (db : Z) (m k : nat) : Z :=
  let v := default 0 (ws !! (dw + m)%nat) in
  if bool_decide (k = m) then Z.shiftr v db
  else if bool_decide (S k = m) then u64 (Z.shiftl v (64 - db)) else 0.

Lemma shift_step_lookup ws dw db m (nw : list Z) k :
  db <> 0 -> (m < length nw)%nat -> (k < length nw)%nat ->
  shift_step ws dw db nw (dw + m) !! k
  = Some (Z.lor (default 0 (nw !! k)) (addend ws dw db m k)).
Proof.
  intros Hdb Hm Hk. unfold shift_step, addend.
  replace (dw + m - dw)%nat with m by lia. rewrite (proj2 (Z.eqb_neq db 0)) by done.
  set (v := default 0 (ws !! (dw + m)%nat)).
  destruct (lookup_lt_is_Some_2 nw k Hk) as [x Hx].
  destruct (v =? 0) eqn:Ev; zbool.
  { rewrite Ev, Z.shiftr_0_l, Z.shiftl_0_l, u64_0, Hx. cbn.
    repeat case_bool_decide; by rewrite Z.lor_0_r. }
  rewrite (bool_decide_decide (1 <= m)%nat).
  destruct (decide (1 <= m)%nat); rewrite !list_lookup_insert, ?length_insert.
  - repeat (case_bool_decide || case_decide); try lia; subst; rewrite ?Hx; cbn;
      rewrite ?Z.lor_0_r; try done.
    rewrite Nat.sub_0_r. by rewrite Hx.
  - repeat (case_bool_decide || case_decide); try lia; subst; rewrite ?Hx; cbn;
      rewrite ?Z.lor_0_r; done.
Qed.

Lemma contrib_S ws dw db m k :
  db <> 0 -> contrib ws dw db (S m) k = Z.lor (contrib ws dw db m k) (addend ws dw db m k).
Proof.
  intros Hdb. unfold contrib, addend. rewrite (proj2 (Z.eqb_neq db 0)) by done.
  destruct (decide (k = m)) as [->|]; [|destruct (decide (S k = m)) as [<-|]];
    repeat (case_bool_decide; try lia); rewrite ?Z.lor_0_r, ?Z.lor_0_l; done.
Qed.

(** One iteration extends the contribution of every word. *)
Lemma shift_step_contrib ws dw db m nw :
  (dw + m < length ws)%nat -> length nw = length ws ->
  (forall k, (k < length ws)%nat -> nw !! k = Some (contrib ws dw db m k)) ->
  forall k, (k < length ws)%nat ->
    shift_step ws dw db nw (dw + m) !! k = Some (contrib ws dw db (S m) k).
Proof.
  intros Hm Hlen Hnw k Hk. destruct (decide (db = 0)) as [->|Hdb].
  - unfold shift_step, contrib in *. cbn in *. replace (dw + m - dw)%nat with m by lia.
    rewrite list_lookup_insert. case_decide as E.
    + destruct E as [-> _]. by rewrite bool_decide_eq_true_2 by lia.
    + rewrite Hnw by done. do 2 case_bool_decide; done || lia.
  - rewrite shift_step_lookup by lia. by rewrite Hnw, contrib_S.
Qed.

Lemma shift_loop_contrib ws dw db m nw0 :
  nw0 = replicate (length ws) 0 -> (dw + m <= length ws)%nat ->
  let nw := foldl (shift_step ws dw db) nw0 (seq dw m) in
  length nw = length ws /\
  forall k, (k < length ws)%nat -> nw !! k = Some (contrib ws dw db m k).
Proof.
  intros -> Hm. induction m as [|m IH].
  - cbn [seq foldl]. split; [by rewrite length_replicate|]. intros k Hk.
    rewrite lookup_replicate_2 by done. unfold contrib.
    repeat (case_bool_decide; try lia). by destruct (db =? 0).
  - destruct IH as [Hl IH]; [lia|]. rewrite seq_S, foldl_app. cbn [foldl].
    split; [by rewrite shift_step_length|].
    apply shift_step_contrib; [lia | done | done].
Qed.

(** Bit [j] of a word assembled from the high part of [a] and the low part of [b]. *)
Lemma testbit_splice a b db j :
  0 <= a < 2 ^ 64 -> 0 < db < 64 -> 0 <= j < 64 ->
  Z.testbit (Z.lor (Z.shiftr a db) (u64 (Z.shiftl b (64 - db)))) j =
  if j + db <? 64 then Z.testbit a (j + db) else Z.testbit b (j + db - 64).
Proof.
  intros Ha Hdb Hj. unfold u64.
  rewrite Z.lor_spec, Z.shiftr_spec, Z.mod_pow2_bits_low, Z.shiftl_spec by lia.
  destruct (j + db <? 64) eqn:E; zbool.
  - rewrite (Z.testbit_neg_r b) by lia. apply orb_false_r.
  - rewrite (word_high a) by lia. cbn. f_equal. lia.
Qed.

(** The loop moves the whole bitmap down by [shift] bits. *)
Lemma shift_words_spec ws shift :
  words_ok ws -> 0 <= shift -> shift / 64 <= len ws ->
  words_ok (shift_words ws shift) /\ length (shift_words ws shift) = length ws /\
  forall i, 0 <= i -> wbit (shift_words ws shift) i = wbit ws (i + shift).
Proof.
  intros Hok Hs Hdw. unfold shift_words, len in *.
  assert (0 <= shift / 64) by (apply Z.div_pos; lia).
  pose proof (Z.mod_pos_bound shift 64 ltac:(lia)) as Hdb.
  pose proof (Z.div_mod shift 64 ltac:(lia)) as Es.
  set (dw := Z.to_nat (shift / 64)) in *. set (db := shift mod 64) in *.
  assert (Hdwl : (dw <= length ws)%nat) by lia.
  destruct (shift_loop_contrib ws dw db (length ws - dw) _ eq_refl ltac:(lia)) as [Hl Hk].
  set (nw := foldl _ _ _) in *.
  assert (Hc : forall k, contrib ws dw db (length ws - dw) k =
    if db =? 0 then default 0 (ws !! (dw + k)%nat)
    else Z.lor (Z.shiftr (default 0 (ws !! (dw + k)%nat)) db)
               (u64 (Z.shiftl (default 0 (ws !! (dw + S k)%nat)) (64 - db)))).
  { intros k. unfold contrib.
    repeat case_bool_decide; try done;
      rewrite ?(lookup_ge_None_2 ws (dw + k)), ?(lookup_ge_None_2 ws (dw + S k)) by lia;
      cbn; rewrite ?Z.shiftr_0_l, ?Z.shiftl_0_l; done. }
  split_and!; [ | done | ].
  - apply Forall_lookup_2. intros k v Hv. pose proof (lookup_lt_Some _ _ _ Hv).
    rewrite Hk in Hv by lia. injection Hv as <-. rewrite Hc.
    destruct (db =? 0); [by apply word_at|].
    apply lor_range; [apply shiftr_range; [by apply word_at | lia] | apply u64_range].
  - intros i Hi. unfold wbit.
    pose proof (Z.mod_pos_bound i 64 ltac:(lia)) as Hj.
    pose proof (Z.div_mod i 64 ltac:(lia)) as Ei.
    assert (0 <= i / 64) by (apply Z.div_pos; lia).
    set (k := Z.to_nat (i / 64)) in *. set (j := i mod 64) in *.
    assert (Hnw : default 0 (nw !! k) = contrib ws dw db (length ws - dw) k).
    { destruct (decide (k < length ws)%nat) as [|Hge]; [by rewrite Hk|].
      rewrite lookup_ge_None_2 by lia. rewrite Hc.
      rewrite !(lookup_ge_None_2 ws) by lia. cbn. rewrite Z.shiftr_0_l, Z.shiftl_0_l. by destruct (db =? 0). }
    rewrite Hnw, Hc. destruct (db =? 0) eqn:E0; zbool.
    + replace ((i + shift) / 64) with (Z.of_nat (dw + k))
        by (apply (Z.div_unique _ _ _ j); lia).
      replace ((i + shift) mod 64) with j by (apply (Z.mod_unique _ _ (Z.of_nat (dw + k))); lia).
      by rewrite Nat2Z.id.
    + rewrite testbit_splice by (try apply word_at; done || lia).
      destruct (j + db <? 64) eqn:E; zbool.
      * replace ((i + shift) / 64) with (Z.of_nat (dw + k))
          by (apply (Z.div_unique _ _ _ (j + db)); lia).
        replace ((i + shift) mod 64) with (j + db)
          by (apply (Z.mod_unique _ _ (Z.of_nat (dw + k))); lia).
        by rewrite Nat2Z.id.
      * replace ((i + shift) / 64) with (Z.of_nat (dw + S k))
          by (apply (Z.div_unique _ _ _ (j + db - 64)); lia).
        replace ((i + shift) mod 64) with (j + db - 64)
          by (apply (Z.mod_unique _ _ (Z.of_nat (dw + S k))); lia).
        by rewrite Nat2Z.id.
Qed.

(** ** The window represents the specification state *)

Record Repr (sz : Z) (w : replayWindow) (s : Spec.state) : Prop := {
  r_size : size w = sz;
  r_size_range : 0 < sz < 2 ^ 63;
  r_len : length (bits w) = Z.to_nat ((sz + 63) / 64);
  r_words : words_ok (bits w);
  r_max : wmax w = Spec.top s;
  r_max_range : 0 <= Spec.top s < 2 ^ 64;
  r_start : start w = windowStart (wmax w) sz;
  r_zero : zeroSeen w = bool_decide (0 ∈ Spec.seen s);
  r_seen : forall n, n ∈ Spec.seen s -> 0 <= n <= Spec.top s;
  r_bits : forall i, 0 <= i ->
    wbit (bits w) i = bool_decide (i + start w <> 0 /\ i + start w ∈ Spec.seen s)
}.

Lemma windowStart_eq max size :
  0 <= max < 2 ^ 64 -> 0 < size -> windowStart max size = Z.max 0 (max - size + 1).
Proof.
  intros. unfold windowStart. destruct (max >=? size) eqn:E; zbool; [|lia].
  rewrite (u64_small (max - size)) by lia. rewrite u64_small by lia. lia.
Qed.

Lemma words_cover sz (ws : list Z) :
  0 < sz -> length ws = Z.to_nat ((sz + 63) / 64) -> sz <= 64 * Z.of_nat (length ws).
Proof.
  intros ? ->. pose proof (Z.div_mod (sz + 63) 64 ltac:(lia)).
  pose proof (Z.mod_pos_bound (sz + 63) 64 ltac:(lia)).
  assert (0 <= (sz + 63) / 64) by (apply Z.div_pos; lia). lia.
Qed.

(** Inside a representation, the position of a tracked nonce is a valid index. *)
Lemma Repr_index sz w s n :
  Repr sz w s -> start w <= n <= Spec.top s ->
  u64 (n - start w) = n - start w /\ 0 <= n - start w < 64 * Z.of_nat (length (bits w)).
Proof.
  intros [Hsz Hr Hlen _ Hm Hmr Hst _ _ _] Hn.
  pose proof (words_cover sz (bits w) ltac:(lia) Hlen).
  rewrite windowStart_eq in Hst by lia. split; [apply u64_small|]; lia.
Qed.

Lemma Repr_init sz : 0 < sz < 2 ^ 63 -> Repr sz (newReplayWindow sz) Spec.init.
Proof.
  intros Hsz. unfold newReplayWindow. rewrite u64_small by lia.
  split; cbn [size wmax start bits zeroSeen Spec.seen Spec.top Spec.init]; try done.
  - by rewrite length_replicate.
  - apply Forall_replicate. lia.
  - by rewrite windowStart_eq by lia; lia.
  - intros i Hi. pose proof (wbit_clear (replicate (Z.to_nat ((sz + 63) / 64)) 0) i) as H.
    unfold clear in H. rewrite length_replicate in H. rewrite H.
    rewrite bool_decide_eq_false_2; [done|]. intros [_ []%not_elem_of_empty].
Qed.

Lemma Check_spec sz w s n :
  Repr sz w s -> 0 <= n < 2 ^ 64 -> Check w n = Some (bool_decide (Spec.fresh sz s n)).
Proof.
  intros R Hn. pose proof R as [Hsz Hszr Hlen Hok Hm Hmr Hst Hz Hseen Hb].
  unfold Check, Spec.fresh. destruct (n =? 0) eqn:E0; zbool.
  { subst. rewrite Hz. f_equal. rewrite <- bool_decide_not. apply bool_decide_ext. tauto. }
  rewrite windowStart_eq in Hst by lia.
  assert (Hns : Spec.top s < n -> n ∉ Spec.seen s) by (intros ? ?%Hseen; lia).
  destruct (wmax w =? 0) eqn:E1; zbool.
  { rewrite bool_decide_eq_true_2; [done|]. split; [apply Hns|]; lia. }
  destruct (n >? wmax w) eqn:E2; zbool.
  { rewrite bool_decide_eq_true_2; [done|]. split; [apply Hns|]; lia. }
  destruct (n <? start w) eqn:E3; zbool.
  { rewrite bool_decide_eq_false_2; [done|]. lia. }
  destruct (Repr_index _ _ _ n R ltac:(lia)) as [Hu Hi].
  rewrite Hu, getBit_wbit by done. cbn. rewrite Hb by lia.
  replace (n - start w + start w) with n by lia. f_equal.
  rewrite <- bool_decide_not. apply bool_decide_ext. split; [intros H; split; [|lia]|]; tauto.
Qed.

(** Setting the bit of a nonce that is inside the window. *)
Lemma Repr_setBit sz w s n :
  Repr sz w s -> 0 < n -> start w <= n <= Spec.top s ->
  exists b, setBit (bits w) (u64 (n - start w)) = Some b /\
    Repr sz (ReplayWindow (size w) (wmax w) (start w) b (zeroSeen w))
         (Spec.State ({[n]} ∪ Spec.seen s) (Spec.top s)).
Proof.
  intros R Hpos Hn. destruct (Repr_index _ _ _ n R Hn) as [Hu Hi].
  destruct R as [Hsz Hszr Hlen Hok Hm Hmr Hst Hz Hseen Hb].
  destruct (setBit_wbit (bits w) (n - start w) Hok Hi) as (b & Hset & Hok' & Hlen' & Hb').
  exists b. rewrite Hu. split; [done|]. split; cbn; try done.
  - by rewrite Hlen'.
  - rewrite Hz. apply bool_decide_ext. rewrite elem_of_union, elem_of_singleton.
    intuition lia.
  - intros m [->%elem_of_singleton|?%Hseen]%elem_of_union; lia.
  - intros i Hi'. rewrite Hb', Hb by done. rewrite <- bool_decide_or.
    apply bool_decide_ext. rewrite elem_of_union, elem_of_singleton. intuition lia.
Qed.

(** Sliding forward keeps exactly the nonces still covered. *)
Lemma Repr_advance sz w s n :
  Repr sz w s -> Spec.top s < n < 2 ^ 64 -> 0 < Spec.top s ->
  Repr sz (advance w n) (Spec.State (Spec.seen s) n).
Proof.
  intros [Hsz Hszr Hlen Hok Hm Hmr Hst Hz Hseen Hb] Hn Hpos.
  unfold advance. rewrite Hsz. pose proof (words_cover sz (bits w) ltac:(lia) Hlen) as Hcov.
  rewrite windowStart_eq in Hst by lia.
  pose proof (windowStart_eq n sz ltac:(lia) ltac:(lia)) as Hns.
  set (ns := windowStart n sz) in *. rewrite (u64_small (ns - start w)) by lia.
  set (sh := ns - start w). assert (Hsh : 0 <= sh) by lia.
  set (b := if sh >? 0 then _ else _).
  assert (Hbits : words_ok b /\ length b = length (bits w) /\ forall i, 0 <= i ->
      wbit b i = bool_decide (i + ns <> 0 /\ i + ns ∈ Spec.seen s)).
  { unfold b. destruct (sh >? 0) eqn:E; zbool.
    - destruct (sh >=? sz) eqn:E2; zbool.
      + split_and!; [apply words_ok_clear | apply length_replicate|].
        intros i Hi. rewrite wbit_clear, bool_decide_eq_false_2; [done|].
        intros [_ ?%Hseen]. lia.
      + assert (sh / 64 <= len (bits w)) by (unfold len; apply Z.div_le_upper_bound; lia).
        destruct (shift_words_spec (bits w) sh Hok Hsh) as (H1 & H2 & H3); [done|].
        split_and!; [done..|]. intros i Hi. rewrite H3, Hb by lia.
        by replace (i + sh + start w) with (i + ns) by lia.
    - split_and!; [done..|]. intros i Hi. rewrite Hb by done.
      by replace (start w) with ns by lia. }
  destruct Hbits as (H1 & H2 & H3).
  split; cbn [size wmax start bits zeroSeen Spec.seen Spec.top]; try done; try lia.
  intros m ?%Hseen. lia.
Qed.

Lemma Repr_zero sz w s :
  Repr sz w s ->
  Repr sz (ReplayWindow (size w) (wmax w) (start w) (bits w) true) (Spec.commit s 0).
Proof.
  intros [Hsz Hszr Hlen Hok Hm Hmr Hst Hz Hseen Hb].
  unfold Spec.commit. rewrite Z.max_l by lia. split; cbn; try done.
  - symmetry. apply bool_decide_eq_true_2, elem_of_union_l, elem_of_singleton. done.
  - intros m [->%elem_of_singleton|?%Hseen]%elem_of_union; lia.
  - intros i Hi. rewrite Hb by done. apply bool_decide_ext.
    rewrite elem_of_union, elem_of_singleton. intuition lia.
Qed.

(** Before the first non-zero nonce the bitmap is empty, so clearing it and
    moving the window anywhere keeps the representation. *)
Lemma Repr_first sz w s n :
  Repr sz w s -> Spec.top s = 0 -> 0 < n < 2 ^ 64 ->
  Repr sz (ReplayWindow (size w) n (windowStart n (size w)) (clear (bits w)) (zeroSeen w))
       (Spec.State (Spec.seen s) n).
Proof.
  intros [Hsz Hszr Hlen Hok Hm Hmr Hst Hz Hseen Hb] Htop Hn. rewrite Hsz.
  split; cbn [size wmax start bits zeroSeen Spec.seen Spec.top]; try done; try lia.
  - unfold clear. by rewrite length_replicate.
  - apply words_ok_clear.
  - intros m ?%Hseen. lia.
  - intros i Hi. rewrite wbit_clear, bool_decide_eq_false_2; [done|].
    intros [? ?%Hseen]. lia.
Qed.

Lemma Commit_spec sz w s n :
  Repr sz w s -> 0 <= n < 2 ^ 64 -> Spec.fresh sz s n ->
  exists w', Commit w n = Some w' /\ Repr sz w' (Spec.commit s n).
Proof.
  intros R Hn [Hf Hage]. pose proof R as [Hsz Hszr _ _ Hm Hmr Hst _ _ _].
  rewrite windowStart_eq in Hst by lia. unfold Commit.
  destruct (n =? 0) eqn:E0; zbool; [subst; eauto using Repr_zero|].
  destruct (wmax w =? 0) eqn:E1; zbool.
  - pose proof (Repr_first sz w s n R ltac:(lia) ltac:(lia)) as R1.
    edestruct (Repr_setBit _ _ _ n R1) as (b & Hset & R2);
      [lia | cbn; rewrite Hsz, windowStart_eq; lia |].
    cbn in Hset, R2. rewrite Hset. cbn. eexists; split; [done|].
    unfold Spec.commit. by rewrite Z.max_r by lia.
  - destruct (n >? wmax w) eqn:E2; zbool.
    + pose proof (Repr_advance sz w s n R ltac:(lia) ltac:(lia)) as R1.
      edestruct (Repr_setBit _ _ _ n R1) as (b & Hset & R2);
        [lia | cbn; rewrite Hsz, windowStart_eq; lia |].
      rewrite Hset. cbn. eexists; split; [done|].
      unfold Spec.commit. by rewrite Z.max_r by lia.
    + destruct (Repr_setBit sz w s n R) as (b & Hset & R2); [lia | lia |].
      rewrite Hset. cbn. eexists; split; [done|].
      unfold Spec.commit. by rewrite Z.max_l by lia.
Qed.

Lemma Accept_spec sz w s n :
  Repr sz w s -> 0 <= n < 2 ^ 64 ->
  exists w', Accept w n = Some (bool_decide (Spec.fresh sz s n), w') /\
    Repr sz w' (if bool_decide (Spec.fresh sz s n) then Spec.commit s n else s).
Proof.
  intros R Hn. unfold Accept. rewrite (Check_spec sz w s n R Hn). cbn.
  case_bool_decide as Hf; [|eauto].
  destruct (Commit_spec sz w s n R Hn Hf) as (w' & -> & R'). cbn. eauto.
Qed.

Lemma accept_run_spec sz w s ns :
  Repr sz w s -> Forall (fun n => 0 <= n < 2 ^ 64) ns ->
  exists w', accept_run w ns = Some ((Spec.run sz s ns).1, w') /\
    Repr sz w' (Spec.run sz s ns).2.
Proof.
  intros R Hns. revert w s R. induction Hns as [|n ns Hn Hns IH]; intros w s R; cbn; [eauto|].
  destruct (Accept_spec sz w s n R Hn) as (w1 & -> & R1). cbn.
  destruct (IH w1 _ R1) as (w2 & -> & R2). cbn. exists w2.
  revert R2. destruct (bool_decide (Spec.fresh sz s n));
    [destruct (Spec.run sz (Spec.commit s n) ns)|]; done.
Qed.

Lemma foldr_max_nonneg (l : list Z) : 0 <= foldr Z.max 0 l.
Proof. induction l; cbn; lia. Qed.

Lemma foldr_max_start (t n : Z) (l : list Z) :
  Z.max (Z.max t n) (foldr Z.max (Z.max t n) l) = Z.max t (Z.max n (foldr Z.max t l)).
Proof. induction l as [|a l IH]; cbn in *; lia. Qed.

(** What a specification run accepts, and the state it ends in. *)
Lemma Spec_run_accepted sz s ns :
  (forall n, n ∈ (Spec.run sz s ns).1 -> n ∉ Spec.seen s) /\
  NoDup (Spec.run sz s ns).1 /\
  Spec.seen (Spec.run sz s ns).2 = list_to_set (Spec.run sz s ns).1 ∪ Spec.seen s /\
  Spec.top (Spec.run sz s ns).2 = Z.max (Spec.top s) (foldr Z.max (Spec.top s) (Spec.run sz s ns).1).
Proof.
  revert s. induction ns as [|n ns IH]; intros s; cbn.
  - split_and!; [by intros ? ?%not_elem_of_nil | constructor | by rewrite union_empty_l_L | lia].
  - case_bool_decide as Hf; [|apply IH].
    destruct (IH (Spec.commit s n)) as (Hnew & Hnd & Hseen & Htop).
    destruct (Spec.run sz (Spec.commit s n) ns) as [acc s'] eqn:E. cbn in *.
    split_and!.
    + intros m [->|Hm]%elem_of_cons; [apply Hf|].
      intros ?. apply (Hnew m Hm). by apply elem_of_union_r.
    + constructor; [|done]. intros Hm. apply (Hnew n Hm). by apply elem_of_union_l, elem_of_singleton.
    + by rewrite Hseen, union_assoc_L, (union_comm_L _ {[n]}).
    + rewrite Htop. apply foldr_max_start.
Qed.

(** [C36] The bitmap implements the promise: from any window that represents the
    set of nonces accepted so far, [Accept] neither panics nor loses the
    representation, and lets a nonce through exactly when the specification calls
    it fresh. *)
Theorem Accept_refines (sz : Z) (w : replayWindow) (s : Spec.state) (n : Z)
    (R : Repr sz w s) (Hn : 0 <= n < 2 ^ 64) :
  exists w', Accept w n = Some (bool_decide (Spec.fresh sz s n), w') /\
    Repr sz w' (if bool_decide (Spec.fresh sz s n) then Spec.commit s n else s).
Proof. by apply Accept_spec. Qed.

Example Accept_refines_witness :
  exists w', Accept (newReplayWindow 2048) 5 = Some (true, w') /\
    Repr 2048 w' (Spec.commit Spec.init 5).
Proof.
  apply (Accept_refines 2048 (newReplayWindow 2048) Spec.init 5).
  - apply Repr_init. lia.
  - lia.
Defined.

(** Over a whole session, starting from a new window, the accepted nonces
    are pairwise distinct (no frame is let through twice), and what the window
    then says of a further nonce is decided by the accepted ones alone: it is
    admitted exactly when it was not accepted before and is not [sz] or more
    below the highest accepted nonce (nonce 0 is never too old). *)
Theorem accept_run_exact (sz : Z) (ns : list Z) (Hsz : 0 < sz < 2 ^ 63)
    (Hns : Forall (fun n => 0 <= n < 2 ^ 64) ns) :
  exists acc w, accept_run (newReplayWindow sz) ns = Some (acc, w) /\ NoDup acc /\
    forall n, 0 <= n < 2 ^ 64 ->
      Check w n = Some (bool_decide ((n ∉ acc) /\ (n = 0 \/ foldr Z.max 0 acc < n + sz))).
Proof.
  destruct (accept_run_spec sz _ _ ns (Repr_init sz Hsz) Hns) as (w & Hrun & R).
  destruct (Spec_run_accepted sz Spec.init ns) as (_ & Hnd & Hseen & Htop).
  eexists _, w. split_and!; [done..|]. intros n Hn. rewrite (Check_spec sz w _ n R Hn).
  f_equal. apply bool_decide_ext. unfold Spec.fresh. rewrite Hseen, Htop. cbn.
  rewrite Z.max_r by apply foldr_max_nonneg.
  rewrite union_empty_r_L, elem_of_list_to_set. done.
Qed.

Example accept_run_exact_witness :
  exists acc w, accept_run (newReplayWindow 64) [1; 2; 2; 200; 3; 199; 200] = Some (acc, w) /\
    NoDup acc /\
    forall n, 0 <= n < 2 ^ 64 ->
      Check w n = Some (bool_decide ((n ∉ acc) /\ (n = 0 \/ foldr Z.max 0 acc < n + 64))).
Proof.
  apply (accept_run_exact 64 [1; 2; 2; 200; 3; 199; 200]); [lia|].
  by_compute.
Defined.

(** Every earlier nonce of the list is less than [sz] above every later one. *)
Definition reordered_within (sz : Z) (ns : list Z) : Prop :=
  StronglySorted (fun m n => m < n + sz) ns.

Lemma Spec_run_all sz s ns :
  NoDup ns -> reordered_within sz ns ->
  (forall n, n ∈ ns -> (n ∉ Spec.seen s) /\ Spec.top s < n + sz) ->
  (Spec.run sz s ns).1 = ns.
Proof.
  intros Hnd. revert s. induction Hnd as [|n ns Hn Hnd IH]; intros s Hord Hs; [done|].
  apply StronglySorted_inv in Hord as [Hord Hle].
  cbn. destruct (Hs n) as [Hf1 Hf2]; [by left|].
  rewrite bool_decide_eq_true_2 by (split; [done|by right]).
  destruct (Spec.run sz (Spec.commit s n) ns) as [acc s'] eqn:E. cbn. f_equal.
  change acc with ((acc, s').1). rewrite <- E. apply IH; [done|].
  intros m Hm. destruct (Hs m) as [Hm1 Hm2]; [by right|]. split.
  - assert (m <> n) by (intros ->; done). cbn.
    rewrite not_elem_of_union, not_elem_of_singleton. done.
  - apply list_elem_of_lookup in Hm as [j Hj].
    pose proof (Forall_lookup_1 _ _ _ _ Hle Hj). cbn in *. lia.
Qed.

(** No honest frame is dropped for reordering: when distinct nonces arrive in
    any order in which no nonce is overtaken by one [sz] or more above it, every
    one of them is accepted. *)
Theorem accept_run_reorder (sz : Z) (ns : list Z) (Hsz : 0 < sz < 2 ^ 63)
    (Hns : Forall (fun n => 0 <= n < 2 ^ 64) ns) (Hnd : NoDup ns)
    (Hord : reordered_within sz ns) :
  exists w, accept_run (newReplayWindow sz) ns = Some (ns, w).
Proof.
  destruct (accept_run_spec sz _ _ ns (Repr_init sz Hsz) Hns) as (w & Hrun & _).
  rewrite Spec_run_all in Hrun; [eauto | done | done |].
  intros n [k Hk]%list_elem_of_lookup. pose proof (Forall_lookup_1 _ _ _ _ Hns Hk).
  split; [apply not_elem_of_empty | cbn in *; lia].
Qed.

Example accept_run_reorder_witness :
  exists w, accept_run (newReplayWindow 4) [2; 0; 3; 1; 6; 5; 4] = Some ([2; 0; 3; 1; 6; 5; 4], w).
Proof.
  apply (accept_run_reorder 4 [2; 0; 3; 1; 6; 5; 4]).
  - lia.
  - by_compute.
  - by_compute.
  - unfold reordered_within. repeat (constructor; [|by_compute]). constructor.
Defined.
