(* ===== verification/NoiseLib.v ===== *)
(** * The interface to github.com/flynn/noise and x/crypto/curve25519

    Both packages are outside the repository, so what the program uses of them is
    an interface: [NoiseLib] lists the operations, [NoiseLaws] what their
    documentation promises and internal/noisework relies on. [Toy] is a concrete
    implementation of both, on which the witnesses of the theorems evaluate. *)

From S2P Require Import Prelude GoBytes.

(** The role and inputs of a handshake: [noise.Config] with pattern XX and the
    meshlink cipher suite; [cfg_entropy] stands for what crypto/rand supplies. *)
Record Config := {
  cfg_initiator : bool;
  cfg_prologue : list byte;
  cfg_private : list byte;
  cfg_public : list byte;
  cfg_entropy : list byte
}.

Class NoiseLib := {
  CipherState : Type;
  HandshakeState : Type;
  SetNonce : CipherState -> Z -> CipherState;
  UnsafeKey : CipherState -> list byte;
  UnsafeNewCipherState : list byte -> Z -> CipherState;
  Rekey : CipherState -> CipherState;
  (** The plaintext or ciphertext, or [None] for an error; the advanced state. *)
  CS_Encrypt : CipherState -> list byte -> option (list byte) * CipherState;
  CS_Decrypt : CipherState -> list byte -> option (list byte) * CipherState;
  NewHandshakeState : Config -> option HandshakeState;
  (** The message, and the two cipher states once the handshake is complete. *)
  HS_WriteMessage :
    HandshakeState -> option (list byte * option (CipherState * CipherState)) * HandshakeState;
  HS_ReadMessage :
    HandshakeState -> list byte -> option (option (CipherState * CipherState)) * HandshakeState;
  HS_PeerStatic : HandshakeState -> list byte;
  HS_ChannelBinding : HandshakeState -> list byte;
  (** [curve25519.ScalarBaseMult] on a 32-byte scalar. *)
  ScalarBaseMult : list byte -> list byte
}.

(** [noise.MaxNonce]: the AEAD operations refuse a nonce above it. *)
Definition noiseMaxNonce : Z := 2 ^ 64 - 2.

(** Size of the ChaCha20-Poly1305 tag. *)
Definition tagLen : Z := 16.

Class NoiseLaws (L : NoiseLib) := {
  (** the AEAD and the rekey function of the cipher suite *)
  seal : list byte -> Z -> list byte -> list byte;
  open : list byte -> Z -> list byte -> option (list byte);
  rekeyed : list byte -> list byte;

  open_seal k n p : open k n (seal k n p) = Some p;
  open_canonical k n c p : open k n c = Some p -> c = seal k n p;
  len_seal k n p : len (seal k n p) = len p + tagLen;

  key_SetNonce c n : UnsafeKey (SetNonce c n) = UnsafeKey c;
  key_New k n : UnsafeKey (UnsafeNewCipherState k n) = k;
  key_Rekey c : UnsafeKey (Rekey c) = rekeyed (UnsafeKey c);

  encrypt_at c n p : 0 <= n <= noiseMaxNonce ->
    exists c', CS_Encrypt (SetNonce c n) p = (Some (seal (UnsafeKey c) n p), c') /\
      UnsafeKey c' = UnsafeKey c;
  decrypt_at c n ct : 0 <= n <= noiseMaxNonce ->
    exists c', CS_Decrypt (SetNonce c n) ct = (open (UnsafeKey c) n ct, c') /\
      UnsafeKey c' = UnsafeKey c
}.

(** The static key pair of a configuration is genuine: the public key is the one
    of the private scalar. [noise.Config] takes the two halves apart and the
    library sends the public one and computes with the private one. *)
Definition cfg_genuine {L : NoiseLib} (c : Config) : Prop :=
  cfg_public c = ScalarBaseMult (cfg_private c).

(** The XX handshake between an initiator and a responder that share the
    prologue and each own the static key they send (Noise, sections 7.5 and 9: the
    pattern authenticates the static keys, so it completes only between owners):
    three messages, after which both hold the same pair of transport keys, the
    other's static key and the same channel binding. Nothing is promised of a
    party whose private key does not belong to the public key it sends. *)
Class XXLaws (L : NoiseLib) := {
  xx_run ci cr hi hr :
    cfg_initiator ci = true -> cfg_initiator cr = false ->
    cfg_prologue ci = cfg_prologue cr -> cfg_genuine ci -> cfg_genuine cr ->
    NewHandshakeState ci = Some hi -> NewHandshakeState cr = Some hr ->
    exists m1 hi1 hr1 m2 hr2 hi2 m3 a b hi3 a' b' hr3,
      HS_WriteMessage hi = (Some (m1, None), hi1) /\
      HS_ReadMessage hr m1 = (Some None, hr1) /\
      HS_WriteMessage hr1 = (Some (m2, None), hr2) /\
      HS_ReadMessage hi1 m2 = (Some None, hi2) /\
      HS_WriteMessage hi2 = (Some (m3, Some (a, b)), hi3) /\
      HS_ReadMessage hr2 m3 = (Some (Some (a', b')), hr3) /\
      UnsafeKey a = UnsafeKey a' /\ UnsafeKey b = UnsafeKey b' /\
      HS_PeerStatic hi2 = cfg_public cr /\ HS_PeerStatic hi3 = cfg_public cr /\
      HS_PeerStatic hr3 = cfg_public ci /\
      HS_ChannelBinding hi3 = HS_ChannelBinding hr3;
  xx_new c :
    len (cfg_private c) = 32 -> len (cfg_public c) = 32 -> len (cfg_entropy c) = 32 ->
    exists h, NewHandshakeState c = Some h;
  (** the public key of a 32-byte scalar is 32 bytes long *)
  xx_public_len k : len k = 32 -> len (ScalarBaseMult k) = 32;
  (** a Noise message is at most 65535 bytes long *)
  xx_msg_len h m o h' : HS_WriteMessage h = (Some (m, o), h') -> len m <= 65535;
  (** the remote's static key comes from its messages *)
  xx_write_peer h m o h' : HS_WriteMessage h = (Some (m, o), h') -> HS_PeerStatic h' = HS_PeerStatic h
}.

(** ** A concrete implementation

    Keys are byte strings, the tag spells out the key and the nonce (padded to 16
    bytes), and the transport keys are the transcript of the three messages. The
    public key of a scalar is the scalar with a bit of every byte flipped; a party
    shows that it owns its static key by sending what it derives from its private
    one beside it, and a message whose two halves differ is refused. *)
Module Toy.

Record cs := CS { ckey : list byte; cnonce : Z }.

Definition pad16 (l : list byte) : list byte := take 16 (l ++ replicate 16 x00).

Definition tag (k : list byte) (n : Z) : list byte := pad16 (be_put 8 n ++ k).

Definition tseal (k : list byte) (n : Z) (p : list byte) : list byte := tag k n ++ p.

Definition topen (k : list byte) (n : Z) (c : list byte) : option (list byte) :=
  if bool_decide (take 16 c = tag k n) then Some (drop 16 c) else None.

Definition trekeyed (k : list byte) : list byte := x52 :: k.

Definition enc (c : cs) (p : list byte) : option (list byte) * cs :=
  if cnonce c <=? noiseMaxNonce
  then (Some (tseal (ckey c) (cnonce c) p), CS (ckey c) (cnonce c + 1))
  else (None, c).

Definition dec (c : cs) (ct : list byte) : option (list byte) * cs :=
  if cnonce c <=? noiseMaxNonce
  then (topen (ckey c) (cnonce c) ct,
        CS (ckey c) (if topen (ckey c) (cnonce c) ct is Some _ then cnonce c + 1 else cnonce c))
  else (None, c).

Record hs := HS {
  conf : Config;
  step : nat;
  transcript : list byte;
  peer : list byte
}.

Definition split (h : list byte) : cs * cs := (CS (x01 :: h) 0, CS (x02 :: h) 0).

Definition base (k : list byte) : list byte := map (fun b => byte_xor b x10) k.

#[local] Arguments base : simpl never.

(** The static key and the proof of its possession. *)
Definition static (c : Config) : list byte := cfg_public c ++ base (cfg_private c).

Definition owned (m : list byte) : bool := bool_decide (take 32 m = take 32 (drop 32 m)).

(** Messages: [e], [s, e], [s], where [e] is the entropy; each is appended to the
    transcript. A message written or read out of turn is an error. *)
Definition write (h : hs) : option (list byte * option (cs * cs)) * hs :=
  let c := conf h in
  let m := match cfg_initiator c with
           | true => match step h with O => cfg_entropy c | _ => static c end
           | false => static c ++ cfg_entropy c
           end in
  let t := transcript h ++ m in
  if len m <=? 65535 then
    match cfg_initiator c, step h with
    | true, 0%nat => (Some (m, None), HS c 1 t (peer h))
    | false, 1%nat => (Some (m, None), HS c 2 t (peer h))
    | true, 2%nat => (Some (m, Some (split t)), HS c 3 t (peer h))
    | _, _ => (None, h)
    end
  else (None, h).

Definition read (h : hs) (m : list byte) : option (option (cs * cs)) * hs :=
  let c := conf h in
  match cfg_initiator c, step h with
  | false, 0%nat => (Some None, HS c 1 (transcript h ++ m) (peer h))
  | true, 1%nat =>
      if (len m <? 64) || negb (owned m) then (None, h)
      else (Some None, HS c 2 (transcript h ++ m) (take 32 m))
  | false, 2%nat =>
      if (len m =? 64) && owned m
      then (Some (Some (split (transcript h ++ m))), HS c 3 (transcript h ++ m) (take 32 m))
      else (None, h)
  | _, _ => (None, h)
  end.

Definition new (c : Config) : option hs :=
  if (len (cfg_private c) =? 32) && (len (cfg_public c) =? 32) && (len (cfg_entropy c) =? 32)
  then Some (HS c 0 (cfg_prologue c) []) else None.

#[export] Instance lib : NoiseLib := {|
  CipherState := cs;
  HandshakeState := hs;
  SetNonce c n := CS (ckey c) n;
  UnsafeKey := ckey;
  UnsafeNewCipherState := CS;
  Rekey c := CS (trekeyed (ckey c)) (cnonce c);
  CS_Encrypt := enc;
  CS_Decrypt := dec;
  NewHandshakeState := new;
  HS_WriteMessage := write;
  HS_ReadMessage := read;
  HS_PeerStatic := peer;
  HS_ChannelBinding := transcript;
  ScalarBaseMult := base
|}.

Lemma length_tag k n : length (tag k n) = 16%nat.
Proof.
  unfold tag, pad16. rewrite length_take, !length_app, length_replicate. lia.
Qed.

#[export] Instance laws : NoiseLaws lib.
Proof.
  refine {| seal := tseal; open := topen; rekeyed := trekeyed |}; try done.
  - intros. unfold topen, tseal. rewrite <- (length_tag k n).
    rewrite take_app_length, drop_app_length. by rewrite bool_decide_eq_true_2.
  - intros k n c p. unfold topen, tseal. case_bool_decide as E; intros; simplify_eq.
    rewrite <- E. by rewrite take_drop.
  - intros. unfold tseal, tagLen. rewrite len_app. unfold len. rewrite length_tag. lia.
  - intros c n p Hn. cbn. unfold enc. cbn.
    rewrite (proj2 (Z.leb_le _ _)) by lia. eexists; split; done.
  - intros c n ct Hn. cbn. unfold dec. cbn.
    rewrite (proj2 (Z.leb_le _ _)) by lia. eexists; split; done.
Defined.

Lemma len_base k : len (base k) = len k.
Proof. unfold len, base. by rewrite length_map. Qed.

Lemma owned_static pub prv rest : len prv = 32 -> pub = base prv ->
  take 32 (pub ++ base prv ++ rest) = pub /\ owned (pub ++ base prv ++ rest) = true.
Proof.
  intros Hv ->. pose proof (len_base prv) as Hb.
  assert (Hl : length (base prv) = 32%nat) by (unfold len in *; lia).
  unfold owned. rewrite <- Hl, take_app_length, drop_app_length, take_app_length.
  by rewrite bool_decide_eq_true_2.
Qed.

#[export] Instance xx : XXLaws lib.
Proof.
  split.
  - intros [bi pi vi ui ei] [br pr vr ur er] hi hr; cbn. intros -> -> -> Gi Gr Hni Hnr.
    unfold cfg_genuine in *; cbn in Gi, Gr.
    unfold new in *; cbn in *. repeat destr_in Hni; repeat destr_in Hnr; zbool; simplify_eq.
    destruct (owned_static (base vi) vi []) as [Ti Oi]; [done..|].
    destruct (owned_static (base vr) vr er) as [Tr Or]; [done..|].
    rewrite app_nil_r in Ti, Oi. rewrite !len_base in *.
    assert (He : (len ei <=? 65535) = true) by (apply Z.leb_le; lia).
    assert (Hu : (len (base vi ++ base vi) <=? 65535) = true)
      by (apply Z.leb_le; rewrite len_app, len_base; lia).
    assert (Hu' : (len (base vi ++ base vi) =? 64) = true)
      by (apply Z.eqb_eq; rewrite len_app, len_base; lia).
    assert (Hr : (len (base vr ++ base vr ++ er) <=? 65535) = true)
      by (apply Z.leb_le; rewrite !len_app, len_base; lia).
    assert (Hr' : (len (base vr ++ base vr ++ er) <? 64) = false)
      by (apply Z.ltb_ge; rewrite !len_app, len_base; pose proof (len_nonneg er); lia).
    do 13 eexists. split; [unfold write; cbn; rewrite He; done|]. split; [done|].
    split; [unfold write, static; cbn; rewrite <- app_assoc, Hr; done|].
    split; [unfold read; cbn; rewrite Hr', Or; done|].
    split; [unfold write, static; cbn; rewrite Hu; done|].
    split; [unfold read; cbn; rewrite Hu', Oi; done|].
    cbn. by rewrite Ti, Tr.
  - intros c Hv Hu He. cbn. unfold new. rewrite Hv, Hu, He. eauto.
  - intros k Hk. cbn. by rewrite len_base.
  - intros h m o h' H. cbn in H. unfold write in H.
    destruct (len _ <=? 65535) eqn:E; [|done]. zbool.
    repeat destr_in H; simplify_eq; done.
  - intros h m o h' H. cbn in H. unfold write in H. repeat destr_in H; by simplify_eq.
Defined.

(** An initiator that reads the message of a party whose private key is not the
    one of the public key it sends refuses it, as the real library does. *)
Example impostor_refused h c e : cfg_initiator (conf h) = true -> step h = 1%nat ->
  len (cfg_public c) = 32 -> len (cfg_private c) = 32 -> ~ cfg_genuine (L := lib) c ->
  read h (static c ++ e) = (None, h).
Proof.
  intros Hi Hs Hu Hv Hg. unfold read. rewrite Hi, Hs. cbn [negb].
  assert (Ho : owned (static c ++ e) = false).
  { apply bool_decide_eq_false_2. intros E. apply Hg. unfold cfg_genuine; cbn.
    pose proof (len_base (cfg_private c)) as Hb.
    assert (L1 : length (cfg_public c) = 32%nat) by (unfold len in Hu; lia).
    assert (L2 : length (base (cfg_private c)) = 32%nat) by (unfold len in *; lia).
    unfold static in E. rewrite <- app_assoc in E. rewrite <- L1 in E at 1 3.
    rewrite take_app_length, drop_app_length, <- L2, take_app_length in E. done. }
  by rewrite Ho, orb_true_r.
Qed.
End Toy.
