(* ===== verification/Noisework.v ===== *)
(** * Noise sessions and handshake machines (internal/noisework/noisework.go)

    Keys and their hexadecimal form, the transport [Session] with its explicit
    nonces and deterministic rekeying, and the [Initiator] and [Responder] role
    machines. The cipher and the handshake pattern are the parameter [NoiseLib].

    A Go method takes its receiver's state and returns the result with the state
    after the call. The role machines hand out pointers to a [Session] that they
    go on to fill in, so sessions live in a [heap] and a [*Session] is an index. *)

From S2P Require Import Prelude GoBytes GoRuntime NoiseLib.

Definition KeySize : Z := 32.

Definition maxUDPPayload : Z := 65507.
Definition frameHeader : Z := 3.
Definition nonceLen : Z := 8.
Definition aeadTag : Z := 16.
Definition maxPlaintextLen : Z := maxUDPPayload - frameHeader - nonceLen - aeadTag.

Definition DefaultRekeyEvery : Z := 2 ^ 20.
Definition maxEpochJump : Z := 64.
Definition MaxNonce : Z := 2 ^ 64 - 1 - 1.

Inductive Phase := phaseStart | phaseMessage1 | phaseMessage2 | phaseComplete.
#[export] Instance Phase_eq_dec : EqDecision Phase.
Proof. solve_decision. Defined.

(** ** Keys *)

Record Keypair := MkKeypair { Public : list byte; Private : list byte }.

(** [encoding/hex]. *)
Definition hex_digit (n : Z) : byte := byte_of (if n <? 10 then 48 + n else 87 + n).

Definition hex_value (b : byte) : option Z :=
  let c := u8 b in
  if (48 <=? c) && (c <=? 57) then Some (c - 48)
  else if (97 <=? c) && (c <=? 102) then Some (c - 87)
  else if (65 <=? c) && (c <=? 70) then Some (c - 55)
  else None.

Fixpoint hex_encode (l : list byte) : list byte :=
  match l with
  | [] => []
  | b :: l' => hex_digit (u8 b / 16) :: hex_digit (u8 b mod 16) :: hex_encode l'
  end.

Inductive hex_err := HexInvalidByte (b : byte) | HexErrLength.

Fixpoint hex_decode (l : list byte) : res hex_err (list byte) :=
  match l with
  | [] => Ok []
  | [p] => match hex_value p with None => Err (HexInvalidByte p) | Some _ => Err HexErrLength end
  | p :: q :: l' =>
      match hex_value p, hex_value q with
      | None, _ => Err (HexInvalidByte p)
      | _, None => Err (HexInvalidByte q)
      | Some a, Some b => r ← hex_decode l'; Ok (byte_of (a * 16 + b) :: r)
      end
  end.

Definition EncodeToString (l : list byte) : string := string_of_bytes (hex_encode l).
Definition DecodeString (s : string) : res hex_err (list byte) := hex_decode (bytes_of_string s).

Definition PublicHex (k : Keypair) : string := EncodeToString (Public k).

Inductive key_err := KeyHexLength (n : Z) | KeyHexInvalid (e : hex_err) | KeyDecodedLength (n : Z).

Definition ParsePublicKeyHex (s : string) : res key_err (list byte) :=
  if negb (slen s =? KeySize * 2) then Err (KeyHexLength (slen s))
  else match DecodeString s with
       | Err e => Err (KeyHexInvalid e)
       | Ok b => if negb (len b =? KeySize) then Err (KeyDecodedLength (len b)) else Ok b
       end.

Inductive keypair_err := InvalidPrivateKeyLength.

Definition keypairFromPrivate {L : NoiseLib} (priv : list byte) : res keypair_err Keypair :=
  if negb (len priv =? KeySize) then Err InvalidPrivateKeyLength
  else Ok (MkKeypair (ScalarBaseMult priv) priv).

(** ** Transport sessions *)

Section Session.
Context {L : NoiseLib}.

Record Session := MkSession {
  peerStatic : list byte;
  channelBinding : list byte;
  send : option CipherState;
  recv : option CipherState;
  sendCount : Z;      (* nonce of the next send *)
  recvCount : Z;      (* expected nonce for the in-order Decrypt form *)
  sendEpoch : Z;      (* rekeys already applied to send *)
  recvEpoch : Z;      (* rekeys already applied to recv *)
  rekeyEvery : Z;     (* message count between key rotations (0 = default) *)
  started : Time      (* field [start]: when the handshake completed *)
}.

(** [&Session{rekeyEvery: r}]. *)
Definition newSession (r : Z) : Session := MkSession [] [] None None 0 0 0 0 r 0.

Definition set_send (s : Session) (c : CipherState) (epoch count : Z) : Session :=
  MkSession (peerStatic s) (channelBinding s) (Some c) (recv s) count (recvCount s)
    epoch (recvEpoch s) (rekeyEvery s) (started s).

Definition set_recv (s : Session) (c : CipherState) (epoch count : Z) : Session :=
  MkSession (peerStatic s) (channelBinding s) (send s) (Some c) (sendCount s) count
    (sendEpoch s) epoch (rekeyEvery s) (started s).

Inductive sess_err :=
| NotReady
| NonceExhausted
| RekeyJump (nonce : Z)
| EncryptFailed
| DecryptFailed
| BehindEpoch (nonce : Z).

Definition epochOf (nonce rekeyEvery : Z) : Z :=
  nonce / (if rekeyEvery =? 0 then DefaultRekeyEvery else rekeyEvery).

(** The loop of [rekeySendTo]. A gap of more than [maxEpochJump] is refused by
    the first iteration and a smaller one takes that many, so
    [maxEpochJump + 1] iterations are enough. *)
Fixpoint rekey_loop (fuel : nat) (c : CipherState) (epoch ep : Z) : bool * CipherState * Z :=
  match fuel with
  | O => (false, c, epoch)
  | S fuel' =>
      if epoch <? ep then
        if ep - epoch >? maxEpochJump then (false, c, epoch)
        else rekey_loop fuel' (Rekey c) (epoch + 1) ep
      else (true, c, epoch)
  end.

Definition rekeySendTo (s : Session) (c : CipherState) (nonce : Z) : bool * CipherState * Z :=
  rekey_loop (S (Z.to_nat maxEpochJump)) c (sendEpoch s) (epochOf nonce (rekeyEvery s)).

Definition Send (s : Session) (plaintext : list byte)
    : res sess_err (Z * list byte) * Session :=
  match send s with
  | None => (Err NotReady, s)
  | Some c =>
      if sendCount s >? MaxNonce then (Err NonceExhausted, s)
      else
        let '(ok, c1, epoch) := rekeySendTo s c (sendCount s) in
        let s1 := set_send s c1 epoch (sendCount s) in
        if negb ok then (Err (RekeyJump (sendCount s)), s1)
        else
          match CS_Encrypt (SetNonce c1 (sendCount s)) plaintext with
          | (None, c2) => (Err EncryptFailed, set_send s c2 epoch (sendCount s))
          | (Some ct, c2) =>
              (Ok (sendCount s, ct), set_send s c2 epoch (u64 (sendCount s + 1)))
          end
  end.

Definition Encrypt (s : Session) (plaintext : list byte) : res sess_err (list byte) * Session :=
  match Send s plaintext with
  | (Ok (_, ct), s') => (Ok ct, s')
  | (Err e, s') => (Err e, s')
  end.

Definition DecryptAt (s : Session) (nonce : Z) (ciphertext : list byte)
    : res sess_err (list byte) * Session :=
  match recv s with
  | None => (Err NotReady, s)
  | Some c =>
      if nonce >? MaxNonce then (Err NonceExhausted, s)
      else
        let ep := epochOf nonce (rekeyEvery s) in
        if ep =? recvEpoch s then
          match CS_Decrypt (SetNonce c nonce) ciphertext with
          | (None, c1) => (Err DecryptFailed, set_recv s c1 (recvEpoch s) (recvCount s))
          | (Some pt, c1) => (Ok pt, set_recv s c1 (recvEpoch s) (recvCount s))
          end
        else if ep <? recvEpoch s then (Err (BehindEpoch nonce), s)
        else if ep - recvEpoch s >? maxEpochJump then (Err (RekeyJump nonce), s)
        else
          let jump := Z.to_nat (ep - recvEpoch s) in
          let cand := Nat.iter jump Rekey (UnsafeNewCipherState (UnsafeKey c) 0) in
          match CS_Decrypt (SetNonce cand nonce) ciphertext with
          | (None, _) => (Err DecryptFailed, s)
          | (Some pt, _) =>
              (Ok pt, set_recv s (SetNonce (Nat.iter jump Rekey c) (nonce + 1)) ep (recvCount s))
          end
  end.

Definition Decrypt (s : Session) (ciphertext : list byte)
    : res sess_err (list byte) * Session :=
  match recv s with
  | None => (Err NotReady, s)
  | Some _ =>
      let n := recvCount s in
      if n >? MaxNonce then (Err NonceExhausted, s)
      else match DecryptAt s n ciphertext with
           | (Err e, s1) => (Err e, s1)
           | (Ok pt, s1) =>
               (Ok pt, MkSession (peerStatic s1) (channelBinding s1) (send s1) (recv s1)
                         (sendCount s1) (u64 (n + 1)) (sendEpoch s1) (recvEpoch s1)
                         (rekeyEvery s1) (started s1))
           end
  end.

Definition PeerStatic (s : Session) : list byte := peerStatic s.
Definition ChannelBinding (s : Session) : list byte := channelBinding s.
Definition MaxPlaintextLen (s : Session) : Z := maxPlaintextLen.
Definition Age (s : Session) (now : Time) : Duration :=
  if IsZero (started s) then 0 else Sub now (started s).
End Session.

(** ** Handshake role machines *)

Arguments Session L : clear implicits.

Abbreviation heap L := (list (Session L)).
Abbreviation ptr := nat.

Section Handshake.
Context {L : NoiseLib}.

(** A new session, at the next free location. *)
Definition alloc (h : heap L) (s : Session L) : ptr * heap L := (length h, h ++ [s]).

Inductive hs_err :=
| HsClosed
| HsPhase (got want : Phase)
| HsLibrary
| HsStaticMismatch
| HsNoCipherStates
| HsInvalidKeypair
| HsInvalidPeerStatic (n : Z).

Record Initiator := MkInitiator {
  i_hs : option HandshakeState;
  i_expected : list byte;
  i_session : option ptr;
  i_phase : Phase
}.

Record Responder := MkResponder {
  r_hs : option HandshakeState;
  r_session : option ptr;
  r_phase : Phase
}.

Definition keypair_ok (k : Keypair) : bool :=
  (len (Private k) =? KeySize) && (len (Public k) =? KeySize).

(** A key pair whose public key belongs to its private one, as [keypairFromPrivate] and
    [GenerateKeypair], the only makers of key pairs, leave it; the constructors of the
    two roles look at the lengths alone. *)
Definition genuine (k : Keypair) : Prop :=
  keypair_ok k = true /\ Public k = ScalarBaseMult (Private k).

Definition NewInitiator (myStatic : Keypair) (peerStatic prologue entropy : list byte)
    : res hs_err Initiator :=
  if negb (keypair_ok myStatic) then Err HsInvalidKeypair
  else if negb (len peerStatic =? KeySize) then Err (HsInvalidPeerStatic (len peerStatic))
  else match NewHandshakeState (Build_Config true prologue (Private myStatic) (Public myStatic)
                                  entropy) with
       | None => Err HsLibrary
       | Some hs => Ok (MkInitiator (Some hs) peerStatic None phaseStart)
       end.

Definition Message1 (i : Initiator) : res hs_err (list byte) * Initiator :=
  match i_hs i with
  | None => (Err HsClosed, i)
  | Some hs =>
      if negb (bool_decide (i_phase i = phaseStart))
      then (Err (HsPhase (i_phase i) phaseStart), i)
      else match HS_WriteMessage hs with
           | (None, hs') =>
               (Err HsLibrary, MkInitiator (Some hs') (i_expected i) (i_session i) (i_phase i))
           | (Some (msg, _), hs') =>
               (Ok msg, MkInitiator (Some hs') (i_expected i) (i_session i) phaseMessage1)
           end
  end.

Definition ReadMessage2 (h : heap L) (i : Initiator) (msg2 : list byte)
    : res hs_err ptr * Initiator * heap L :=
  match i_hs i with
  | None => (Err HsClosed, i, h)
  | Some hs =>
      if negb (bool_decide (i_phase i = phaseMessage1))
      then (Err (HsPhase (i_phase i) phaseMessage1), i, h)
      else match HS_ReadMessage hs msg2 with
           | (None, hs') =>
               (Err HsLibrary, MkInitiator (Some hs') (i_expected i) (i_session i) (i_phase i), h)
           | (Some _, hs') =>
               if negb (bool_decide (HS_PeerStatic hs' = i_expected i))
               then (Err HsStaticMismatch,
                     MkInitiator (Some hs') (i_expected i) (i_session i) (i_phase i), h)
               else
                 let '(p, h') := alloc h (newSession DefaultRekeyEvery) in
                 (Ok p, MkInitiator (Some hs') (i_expected i) (Some p) phaseMessage2, h')
           end
  end.

(** [WriteMessage3] fills in the session [ReadMessage2] returned. *)
Definition WriteMessage3 (now : Time) (h : heap L) (i : Initiator)
    : res hs_err (list byte) * Initiator * heap L :=
  match i_hs i with
  | None => (Err HsClosed, i, h)
  | Some hs =>
      if negb (bool_decide (i_phase i = phaseMessage2))
      then (Err (HsPhase (i_phase i) phaseMessage2), i, h)
      else match HS_WriteMessage hs with
           | (None, hs') =>
               (Err HsLibrary, MkInitiator (Some hs') (i_expected i) (i_session i) (i_phase i), h)
           | (Some (_, None), hs') =>
               (Err HsNoCipherStates,
                MkInitiator (Some hs') (i_expected i) (i_session i) (i_phase i), h)
           | (Some (msg, Some (sendCs, recvCs)), hs') =>
               let '(p, h1) := match i_session i with
                               | Some p => (p, h)
                               | None => alloc h (newSession DefaultRekeyEvery)
                               end in
               let fill (s : Session L) :=
                 MkSession (HS_PeerStatic hs') (HS_ChannelBinding hs') (Some sendCs) (Some recvCs)
                   (sendCount s) (recvCount s) (sendEpoch s) (recvEpoch s) (rekeyEvery s) now in
               (Ok msg, MkInitiator (Some hs') (i_expected i) (Some p) phaseComplete,
                alter fill p h1)
           end
  end.

Definition NewResponder (myStatic : Keypair) (prologue entropy : list byte)
    : res hs_err Responder :=
  if negb (keypair_ok myStatic) then Err HsInvalidKeypair
  else match NewHandshakeState (Build_Config false prologue (Private myStatic) (Public myStatic)
                                  entropy) with
       | None => Err HsLibrary
       | Some hs => Ok (MkResponder (Some hs) None phaseStart)
       end.

Definition ReadMessage1 (r : Responder) (msg1 : list byte) : res hs_err unit * Responder :=
  match r_hs r with
  | None => (Err HsClosed, r)
  | Some hs =>
      if negb (bool_decide (r_phase r = phaseStart))
      then (Err (HsPhase (r_phase r) phaseStart), r)
      else match HS_ReadMessage hs msg1 with
           | (None, hs') => (Err HsLibrary, MkResponder (Some hs') (r_session r) (r_phase r))
           | (Some _, hs') => (Ok tt, MkResponder (Some hs') (r_session r) phaseMessage1)
           end
  end.

Definition Message2 (r : Responder) : res hs_err (list byte) * Responder :=
  match r_hs r with
  | None => (Err HsClosed, r)
  | Some hs =>
      if negb (bool_decide (r_phase r = phaseMessage1))
      then (Err (HsPhase (r_phase r) phaseMessage1), r)
      else match HS_WriteMessage hs with
           | (None, hs') => (Err HsLibrary, MkResponder (Some hs') (r_session r) (r_phase r))
           | (Some (msg, _), hs') => (Ok msg, MkResponder (Some hs') (r_session r) phaseMessage2)
           end
  end.

(** The first cipher state of the split carries initiator-to-responder data. *)
Definition ReadMessage3 (now : Time) (h : heap L) (r : Responder) (msg3 : list byte)
    : res hs_err ptr * Responder * heap L :=
  match r_hs r with
  | None => (Err HsClosed, r, h)
  | Some hs =>
      if negb (bool_decide (r_phase r = phaseMessage2))
      then (Err (HsPhase (r_phase r) phaseMessage2), r, h)
      else match HS_ReadMessage hs msg3 with
           | (None, hs') => (Err HsLibrary, MkResponder (Some hs') (r_session r) (r_phase r), h)
           | (Some None, hs') =>
               (Err HsNoCipherStates, MkResponder (Some hs') (r_session r) (r_phase r), h)
           | (Some (Some (initSend, initRecv)), hs') =>
               let '(p, h') :=
                 alloc h (MkSession (HS_PeerStatic hs') (HS_ChannelBinding hs') (Some initRecv)
                            (Some initSend) 0 0 0 0 DefaultRekeyEvery now) in
               (Ok p, MkResponder (Some hs') (Some p) phaseComplete, h')
           end
  end.
End Handshake.

Arguments Initiator L : clear implicits.
Arguments Responder L : clear implicits.

(** ** Keys: lemmas and the round trip *)

Lemma genuine_public {L : NoiseLib} k : genuine k -> len (Public k) = KeySize.
Proof. unfold genuine, keypair_ok. intros [H _]. zbool. done. Qed.

Lemma hex_value_digit n : 0 <= n < 16 -> hex_value (hex_digit n) = Some n.
Proof.
  intros H.
  assert (Hn : n ∈ [0;1;2;3;4;5;6;7;8;9;10;11;12;13;14;15]).
  { rewrite !elem_of_cons. lia. }
  repeat (apply elem_of_cons in Hn as [->|Hn]; [reflexivity|]). by apply not_elem_of_nil in Hn.
Qed.

Lemma hex_decode_encode l : hex_decode (hex_encode l) = Ok l.
Proof.
  induction l as [|b l IH]; cbn [hex_encode hex_decode]; [done|].
  pose proof (u8_range b). pose proof (Z.div_mod (u8 b) 16 ltac:(lia)).
  pose proof (Z.mod_pos_bound (u8 b) 16 ltac:(lia)).
  rewrite !hex_value_digit, IH by (try split; try apply Z.div_pos;
    try apply Z.div_lt_upper_bound; lia).
  cbn. f_equal. f_equal. rewrite <- (byte_of_u8 b) at 3. f_equal. lia.
Qed.

Lemma len_hex_encode l : len (hex_encode l) = 2 * len l.
Proof. induction l as [|b l IH]; [done|]. cbn [hex_encode]. len_lia. Qed.

(** The hexadecimal form of a public key, which is what the control plane
    distributes and the operator pins, reads back as the same 32 bytes. *)
Theorem ParsePublicKeyHex_PublicHex (k : Keypair) (Hk : len (Public k) = KeySize) :
  ParsePublicKeyHex (PublicHex k) = Ok (Public k).
Proof.
  unfold ParsePublicKeyHex, PublicHex, DecodeString, EncodeToString, slen.
  rewrite bytes_string, len_hex_encode, Hk, hex_decode_encode. cbn [negb].
  by rewrite Hk.
Qed.

Example ParsePublicKeyHex_PublicHex_witness :
  ParsePublicKeyHex (PublicHex (MkKeypair (replicate 32 xab) [])) = Ok (replicate 32 xab).
Proof. apply (ParsePublicKeyHex_PublicHex (MkKeypair (replicate 32 xab) [])). reflexivity. Defined.

(** ** Epochs *)

Lemma epochOf_eq r : 0 <= r -> exists R, 0 < R /\ forall n, epochOf n r = n / R.
Proof.
  intros. unfold epochOf, DefaultRekeyEvery.
  destruct (Z.eqb_spec r 0); [exists (2 ^ 20) | exists r]; split; done || lia.
Qed.

Lemma epochOf_nonneg n r : 0 <= r -> 0 <= n -> 0 <= epochOf n r.
Proof.
  intros Hr Hn. destruct (epochOf_eq r Hr) as (R & HR & E). rewrite E. apply Z.div_pos; lia.
Qed.

Lemma epochOf_0 r : epochOf 0 r = 0.
Proof. unfold epochOf. by destruct (r =? 0). Qed.

Lemma epochOf_succ n r :
  0 <= r -> 0 <= n -> epochOf n r <= epochOf (n + 1) r <= epochOf n r + 1.
Proof.
  intros Hr Hn. destruct (epochOf_eq r Hr) as (R & HR & E). rewrite !E.
  split; [apply Z.div_le_mono; lia|].
  transitivity ((n + 1 * R) / R); [apply Z.div_le_mono; lia|]. rewrite Z.div_add; lia.
Qed.

(** ** Session invariants

    [epoch_key k0 e] is the key after [e] rotations of [k0]. A sender holds the key
    of the epoch of its last message, which its next message leaves by one rotation
    at most; a receiver holds the key of the newest epoch it has seen. *)

Section Transport.
Context {L : NoiseLib} {W : NoiseLaws L}.
Implicit Types s : Session L.

Definition epoch_key (k0 : list byte) (e : Z) : list byte := Nat.iter (Z.to_nat e) rekeyed k0.

Record SendInv (k0 : list byte) (s : Session L) : Prop := {
  si_key : exists c, send s = Some c /\ UnsafeKey c = epoch_key k0 (sendEpoch s);
  si_count : 0 <= sendCount s <= MaxNonce + 1;
  si_every : 0 <= rekeyEvery s;
  si_epoch : 0 <= sendEpoch s <= epochOf (sendCount s) (rekeyEvery s) /\
             epochOf (sendCount s) (rekeyEvery s) <= sendEpoch s + 1
}.

Record RecvInv (k0 : list byte) (s : Session L) : Prop := {
  ri_key : exists c, recv s = Some c /\ UnsafeKey c = epoch_key k0 (recvEpoch s);
  ri_every : 0 <= rekeyEvery s;
  ri_epoch : 0 <= recvEpoch s
}.

(** What the sender puts on the wire as message [n]. *)
Definition sealed (k0 : list byte) (every n : Z) (p : list byte) : list byte :=
  seal (epoch_key k0 (epochOf n every)) n p.

Lemma key_iter c j : UnsafeKey (Nat.iter j Rekey c) = Nat.iter j rekeyed (UnsafeKey c).
Proof. induction j as [|j IH]; [done|]. by rewrite !Nat.iter_succ, key_Rekey, IH. Qed.

Lemma epoch_key_add k0 e j :
  0 <= e -> Nat.iter j rekeyed (epoch_key k0 e) = epoch_key k0 (e + Z.of_nat j).
Proof.
  intros. unfold epoch_key. rewrite Z2Nat.inj_add, Nat2Z.id, Nat.add_comm by lia.
  by rewrite Nat.iter_add.
Qed.

(** The loop performs the whole gap when it is small enough, and nothing at all
    otherwise. *)
Lemma rekey_loop_spec fuel c epoch ep :
  epoch <= ep -> (Z.to_nat maxEpochJump < fuel)%nat ->
  rekey_loop fuel c epoch ep =
  if ep - epoch >? maxEpochJump then (false, c, epoch)
  else (true, Nat.iter (Z.to_nat (ep - epoch)) Rekey c, ep).
Proof.
  intros Hle Hf. destruct (ep - epoch >? maxEpochJump) eqn:E; zbool.
  - destruct fuel; [lia|]. cbn. rewrite (proj2 (Z.ltb_lt _ _)), (proj2 (Z.gtb_lt _ _)) by
      (unfold maxEpochJump in *; lia). done.
  - assert (Hfuel : (Z.to_nat (ep - epoch) < fuel)%nat) by (unfold maxEpochJump in *; lia).
    clear Hf. revert c epoch Hle E Hfuel.
    induction fuel as [|fuel IH]; intros c epoch Hle E Hfuel; [lia|]. cbn [rekey_loop].
    destruct (epoch <? ep) eqn:E1; zbool.
    + destruct (ep - epoch >? maxEpochJump) eqn:E2; zbool; [lia|].
      rewrite IH by lia. replace (Z.to_nat (ep - epoch)) with (S (Z.to_nat (ep - (epoch + 1))))
        by lia. by rewrite Nat.iter_succ_r.
    + replace epoch with ep by lia. by rewrite Z.sub_diag.
Qed.

Lemma Send_spec k0 s p :
  SendInv k0 s -> sendCount s <= MaxNonce ->
  exists c e, Send s p =
    (Ok (sendCount s, sealed k0 (rekeyEvery s) (sendCount s) p),
     set_send s c e (sendCount s + 1)) /\
    SendInv k0 (set_send s c e (sendCount s + 1)).
Proof.
  intros [(c & Hc & Hk) Hn Hr He] Hmax. unfold Send, rekeySendTo. rewrite Hc.
  destruct (sendCount s >? MaxNonce) eqn:E; zbool; [lia|].
  set (n := sendCount s) in *. set (ep := epochOf n (rekeyEvery s)) in *.
  rewrite rekey_loop_spec by (unfold maxEpochJump; lia).
  destruct (ep - sendEpoch s >? maxEpochJump) eqn:E1; zbool; [unfold maxEpochJump in *; lia|].
  cbn [negb].
  set (c1 := Nat.iter _ Rekey c).
  assert (Hk1 : UnsafeKey c1 = epoch_key k0 ep).
  { unfold c1. rewrite key_iter, Hk, epoch_key_add by lia. f_equal. lia. }
  destruct (encrypt_at c1 n p) as (c2 & -> & Hk2);
    [unfold MaxNonce, noiseMaxNonce in *; lia|].
  exists c2, ep. rewrite u64_small by (unfold MaxNonce in *; lia).
  unfold sealed. fold n ep. rewrite Hk1. split; [done|].
  split; cbn.
  - exists c2. by rewrite Hk2, Hk1.
  - unfold MaxNonce in *; lia.
  - done.
  - pose proof (epochOf_succ n (rekeyEvery s) Hr ltac:(lia)).
    pose proof (epochOf_nonneg n (rekeyEvery s) Hr ltac:(lia)). unfold ep. lia.
Qed.

Lemma Send_exhausted k0 s p :
  SendInv k0 s -> MaxNonce < sendCount s -> Send s p = (Err NonceExhausted, s).
Proof.
  intros [(c & Hc & _) _ _ _] H. unfold Send. rewrite Hc.
  by rewrite (proj2 (Z.gtb_lt _ _)) by done.
Qed.

(** The frames a list of messages puts on the wire; a failing [Send] emits
    nothing. *)
Fixpoint send_run s (ps : list (list byte)) : list (Z * list byte) * Session L :=
  match ps with
  | [] => ([], s)
  | p :: ps' =>
      let '(r, s1) := Send s p in
      let '(fs, s2) := send_run s1 ps' in
      ((match r with Ok f => f :: fs | Err _ => fs end), s2)
  end.

(** Message [i] of [ps] goes out with nonce [n + i], until the nonces run out. *)
Fixpoint frames_from (k0 : list byte) (every n : Z) (ps : list (list byte))
    : list (Z * list byte) :=
  match ps with
  | [] => []
  | p :: ps' =>
      if n <=? MaxNonce then (n, sealed k0 every n p) :: frames_from k0 every (n + 1) ps' else []
  end.

Lemma send_run_spec k0 s ps :
  SendInv k0 s ->
  (send_run s ps).1 = frames_from k0 (rekeyEvery s) (sendCount s) ps /\
  SendInv k0 (send_run s ps).2.
Proof.
  revert s. induction ps as [|p ps IH]; intros s I; cbn; [done|].
  destruct (Z.leb_spec (sendCount s) MaxNonce) as [Hle|Hgt].
  - destruct (Send_spec k0 s p I Hle) as (c & e & -> & I').
    destruct (IH _ I') as [E I2]. destruct (send_run _ ps) as [fs s2]. cbn in *.
    by rewrite E.
  - rewrite (Send_exhausted k0 s p I Hgt). destruct (IH _ I) as [E I2].
    destruct (send_run s ps) as [fs s2]. cbn in *. rewrite E. split; [|done].
    destruct ps; cbn; [done|]. by rewrite (proj2 (Z.leb_gt _ _)).
Qed.

Lemma frames_from_bounds k0 every n ps f :
  f ∈ frames_from k0 every n ps -> n <= f.1 <= MaxNonce.
Proof.
  revert n. induction ps as [|p ps IH]; intros n; cbn; [by intros ?%not_elem_of_nil|].
  destruct (Z.leb_spec n MaxNonce); [|by intros ?%not_elem_of_nil].
  intros [->|H']%elem_of_cons; cbn; [lia|]. specialize (IH _ H'). lia.
Qed.

Lemma frames_from_nodup k0 every n ps : NoDup (frames_from k0 every n ps).*1.
Proof.
  revert n. induction ps as [|p ps IH]; intros n; cbn; [constructor|].
  destruct (n <=? MaxNonce); cbn; [|constructor]. constructor; [|apply IH].
  intros ([m c] & E & H)%list_elem_of_fmap. cbn in E. subst m.
  apply frames_from_bounds in H. cbn in H. lia.
Qed.

Lemma frames_from_lookup k0 every n ps i f :
  frames_from k0 every n ps !! i = Some f ->
  exists p, ps !! i = Some p /\ n + Z.of_nat i <= MaxNonce /\
    f = (n + Z.of_nat i, sealed k0 every (n + Z.of_nat i) p).
Proof.
  revert n i. induction ps as [|p ps IH]; intros n i; cbn; [done|].
  destruct (Z.leb_spec n MaxNonce); [|done]. destruct i as [|i]; cbn.
  - intros [= <-]. rewrite Z.add_0_r. eauto.
  - intros (q & Hq & Hle & ->)%IH. exists q.
    replace (n + 1 + Z.of_nat i) with (n + Z.of_nat (S i)) in * by lia. done.
Qed.

(** The exact condition under which a frame is opened. *)
Lemma DecryptAt_Ok k0 s n ct p :
  RecvInv k0 s -> 0 <= n ->
  (DecryptAt s n ct).1 = Ok p <->
  n <= MaxNonce /\ recvEpoch s <= epochOf n (rekeyEvery s) <= recvEpoch s + maxEpochJump /\
    ct = sealed k0 (rekeyEvery s) n p.
Proof.
  intros [(c & Hc & Hk) Hr He] Hn. unfold DecryptAt, sealed. rewrite Hc.
  set (ep := epochOf n (rekeyEvery s)). unfold maxEpochJump.
  assert (Hopen : forall k, open k n ct = Some p <-> ct = seal k n p).
  { intros k. split; [apply open_canonical | intros ->; apply open_seal]. }
  destruct (n >? MaxNonce) eqn:E; zbool; [split; [done|lia]|].
  assert (Hnn : 0 <= n <= noiseMaxNonce) by (unfold MaxNonce, noiseMaxNonce in *; lia).
  destruct (ep =? recvEpoch s) eqn:E1; zbool.
  - rewrite E1. destruct (decrypt_at c n ct Hnn) as (c' & -> & Hk'). rewrite Hk, <- Hopen.
    destruct (open _ n ct) as [q|]; cbn; [|split; [done | by intros (_ & _ & ?)]].
    split; [intros [= <-]; split_and!; done || lia | by intros (_ & _ & [= <-])].
  - destruct (ep <? recvEpoch s) eqn:E2; zbool; [split; [done|lia]|].
    destruct (ep - recvEpoch s >? 64) eqn:E3; zbool; [split; [done|lia]|].
    set (cand := Nat.iter _ _ _). destruct (decrypt_at cand n ct Hnn) as (c' & -> & Hk').
    assert (Hcand : UnsafeKey cand = epoch_key k0 ep).
    { unfold cand. rewrite key_iter, key_New, Hk, epoch_key_add by lia. f_equal. lia. }
    rewrite Hcand, <- Hopen.
    destruct (open _ n ct) as [q|]; cbn; [|split; [done | by intros (_ & _ & ?)]].
    split; [intros [= <-]; split_and!; done || lia | by intros (_ & _ & [= <-])].
Qed.

(** A frame that opens moves the receiver to its epoch, and nothing else. *)
Lemma DecryptAt_Ok_state k0 s n ct p :
  RecvInv k0 s -> 0 <= n -> (DecryptAt s n ct).1 = Ok p ->
  exists c, (DecryptAt s n ct).2 = set_recv s c (epochOf n (rekeyEvery s)) (recvCount s) /\
    RecvInv k0 (DecryptAt s n ct).2.
Proof.
  intros I Hn Hok. pose proof (proj1 (DecryptAt_Ok k0 s n ct p I Hn) Hok) as (Hmax & Hep & _).
  destruct I as [(c & Hc & Hk) Hr He]. unfold DecryptAt in *. rewrite Hc in *.
  set (ep := epochOf n (rekeyEvery s)) in *. unfold maxEpochJump in *.
  destruct (n >? MaxNonce) eqn:E; zbool; [lia|].
  assert (Hnn : 0 <= n <= noiseMaxNonce) by (unfold MaxNonce, noiseMaxNonce in *; lia).
  destruct (ep =? recvEpoch s) eqn:E1; zbool.
  - destruct (decrypt_at c n ct Hnn) as (c' & Hd & Hk'). rewrite Hd in *.
    destruct (open _ n ct); [|done]. exists c'. cbn. rewrite E1. split; [done|].
    split; [exists c'; split; [done | by rewrite Hk', Hk] | done | done].
  - destruct (ep <? recvEpoch s) eqn:E2; zbool; [lia|].
    destruct (ep - recvEpoch s >? 64) eqn:E3; zbool; [lia|].
    destruct (CS_Decrypt _ ct) as [[pt|] c2]; [|done]. eexists. cbn. split; [done|].
    split; cbn; [|done|lia]. eexists; split; [done|].
    rewrite key_SetNonce, key_iter, Hk, epoch_key_add by lia. f_equal. lia.
Qed.

(** Sessions the receiver cannot tell apart: everything agrees except the nonce
    position of the receiving cipher state, which is set before each use. *)
Definition recv_equiv (s s' : Session L) : Prop :=
  UnsafeKey <$> recv s = UnsafeKey <$> recv s' /\
  recvCount s = recvCount s' /\ recvEpoch s = recvEpoch s' /\ rekeyEvery s = rekeyEvery s' /\
  send s = send s' /\ sendCount s = sendCount s' /\ sendEpoch s = sendEpoch s' /\
  peerStatic s = peerStatic s' /\ channelBinding s = channelBinding s' /\
  started s = started s'.

#[export] Instance recv_equiv_equivalence : Equivalence recv_equiv.
Proof.
  unfold recv_equiv. split; red.
  - intros x; split_and!; done.
  - intros x y (? & ? & ? & ? & ? & ? & ? & ? & ? & ?); split_and!; by symmetry.
  - intros x y z (? & ? & ? & ? & ? & ? & ? & ? & ? & ?)
      (? & ? & ? & ? & ? & ? & ? & ? & ? & ?); split_and!; by etransitivity.
Qed.

Lemma decrypt_same_key c c' n ct :
  0 <= n <= noiseMaxNonce -> UnsafeKey c = UnsafeKey c' ->
  (CS_Decrypt (SetNonce c n) ct).1 = (CS_Decrypt (SetNonce c' n) ct).1 /\
  UnsafeKey (CS_Decrypt (SetNonce c n) ct).2 = UnsafeKey c.
Proof.
  intros Hn Hk. destruct (decrypt_at c n ct Hn) as (d & -> & Hd).
  destruct (decrypt_at c' n ct Hn) as (d' & -> & Hd'). cbn. by rewrite Hd, Hk.
Qed.

(** What a frame yields depends only on the equivalence class. *)
Lemma DecryptAt_equiv s s' n ct :
  0 <= n -> recv_equiv s s' -> (DecryptAt s n ct).1 = (DecryptAt s' n ct).1.
Proof.
  intros Hn (Hrecv & _ & He & Hr & _). unfold DecryptAt. rewrite <- He, <- Hr.
  destruct (recv s) as [c|], (recv s') as [c'|]; cbn in Hrecv; [|done..].
  injection Hrecv as Hkey.
  destruct (n >? MaxNonce) eqn:E; zbool; [done|].
  assert (Hnn : 0 <= n <= noiseMaxNonce) by (unfold MaxNonce, noiseMaxNonce in *; lia).
  destruct (_ =? _).
  - destruct (decrypt_same_key c c' n ct Hnn) as [E1 _]; [done|].
    destruct (CS_Decrypt (SetNonce c n) ct) as [[?|] ?],
      (CS_Decrypt (SetNonce c' n) ct) as [[?|] ?]; cbn in *; simplify_eq; done.
  - destruct (_ <? _); [done|]. destruct (_ >? _); [done|].
    rewrite Hkey. by destruct (CS_Decrypt _ ct) as [[?|] ?].
Qed.

(** A frame that does not open leaves an equivalent session. *)
Lemma DecryptAt_Err_equiv s n ct e :
  0 <= n -> (DecryptAt s n ct).1 = Err e -> recv_equiv (DecryptAt s n ct).2 s.
Proof.
  intros Hn. unfold DecryptAt. destruct (recv s) as [c|] eqn:Hc; [|done].
  destruct (n >? MaxNonce) eqn:E; zbool; [done|].
  assert (Hnn : 0 <= n <= noiseMaxNonce) by (unfold MaxNonce, noiseMaxNonce in *; lia).
  destruct (_ =? _); [|repeat destr; done].
  destruct (decrypt_same_key c c n ct Hnn eq_refl) as [_ Hk].
  destruct (CS_Decrypt _ ct) as [[?|] c']; [done|]. intros _. unfold recv_equiv; cbn in *.
  rewrite Hc. cbn. rewrite Hk. done.
Qed.
End Transport.

(** ** The role machines, step by step, when the library succeeds *)

Section Steps.
Context {L : NoiseLib}.
Implicit Types h : heap L.

Lemma Message1_ok hs hs' m o e p :
  HS_WriteMessage hs = (Some (m, o), hs') ->
  Message1 (MkInitiator (Some hs) e p phaseStart) = (Ok m, MkInitiator (Some hs') e p phaseMessage1).
Proof. intros H. unfold Message1; cbn [i_hs i_phase i_expected i_session]. by rewrite H. Qed.

Lemma ReadMessage1_ok hs hs' m o p :
  HS_ReadMessage hs m = (Some o, hs') ->
  ReadMessage1 (MkResponder (Some hs) p phaseStart) m
  = (Ok tt, MkResponder (Some hs') p phaseMessage1).
Proof. intros H. unfold ReadMessage1; cbn [r_hs r_phase r_session]. by rewrite H. Qed.

Lemma Message2_ok hs hs' m o p :
  HS_WriteMessage hs = (Some (m, o), hs') ->
  Message2 (MkResponder (Some hs) p phaseMessage1)
  = (Ok m, MkResponder (Some hs') p phaseMessage2).
Proof. intros H. unfold Message2; cbn [r_hs r_phase r_session]. by rewrite H. Qed.

Lemma ReadMessage2_read h hs hs' m o e p :
  HS_ReadMessage hs m = (Some o, hs') ->
  ReadMessage2 h (MkInitiator (Some hs) e p phaseMessage1) m =
  if bool_decide (HS_PeerStatic hs' = e)
  then (Ok (length h), MkInitiator (Some hs') e (Some (length h)) phaseMessage2,
        h ++ [newSession DefaultRekeyEvery])
  else (Err HsStaticMismatch, MkInitiator (Some hs') e p phaseMessage1, h).
Proof.
  intros H. unfold ReadMessage2; cbn [i_hs i_phase i_expected i_session]. rewrite H.
  rewrite (bool_decide_eq_true_2 (phaseMessage1 = phaseMessage1)) by done.
  by destruct (bool_decide (HS_PeerStatic hs' = e)).
Qed.

(** The session [WriteMessage3] completes. *)
Definition filled (hs : HandshakeState) (a b : CipherState) (now : Time) (s : Session L)
    : Session L :=
  MkSession (HS_PeerStatic hs) (HS_ChannelBinding hs) (Some a) (Some b)
    (sendCount s) (recvCount s) (sendEpoch s) (recvEpoch s) (rekeyEvery s) now.

Lemma WriteMessage3_ok now h hs hs' m a b e p :
  HS_WriteMessage hs = (Some (m, Some (a, b)), hs') ->
  WriteMessage3 now h (MkInitiator (Some hs) e (Some p) phaseMessage2) =
  (Ok m, MkInitiator (Some hs') e (Some p) phaseComplete, alter (filled hs' a b now) p h).
Proof.
  intros H. unfold WriteMessage3; cbn [i_hs i_phase i_expected i_session]. by rewrite H.
Qed.

Lemma ReadMessage3_ok now h hs hs' m a b p :
  HS_ReadMessage hs m = (Some (Some (a, b)), hs') ->
  ReadMessage3 now h (MkResponder (Some hs) p phaseMessage2) m =
  (Ok (length h), MkResponder (Some hs') (Some (length h)) phaseComplete,
   h ++ [MkSession (HS_PeerStatic hs') (HS_ChannelBinding hs') (Some b) (Some a) 0 0 0 0
           DefaultRekeyEvery now]).
Proof. intros H. unfold ReadMessage3; cbn [r_hs r_phase r_session]. by rewrite H. Qed.
End Steps.
