(* ===== verification/Transport.v ===== *)
(** * Theorems on the Noise sessions and handshakes (internal/noisework)

    What a sender puts on the wire, what a receiver accepts, loss and reordering,
    forged frames, the in-order form the control plane uses, and the handshake as
    a whole. *)

From S2P Require Import Prelude GoBytes GoRuntime NoiseLib Noisework.

(** ** Runs *)

Section Runs.
Context {L : NoiseLib}.

(** The results of opening frames in the order in which they arrive. *)
Fixpoint recv_run (s : Session L) (ds : list (Z * list byte))
    : list (res sess_err (list byte)) * Session L :=
  match ds with
  | [] => ([], s)
  | (n, ct) :: ds' =>
      let '(r, s1) := DecryptAt s n ct in
      let '(rs, s2) := recv_run s1 ds' in (r :: rs, s2)
  end.

(** The in-order forms, as the control connection uses them. *)
Fixpoint encrypt_run (s : Session L) (ps : list (list byte))
    : list (res sess_err (list byte)) * Session L :=
  match ps with
  | [] => ([], s)
  | p :: ps' =>
      let '(r, s1) := Encrypt s p in
      let '(rs, s2) := encrypt_run s1 ps' in (r :: rs, s2)
  end.

Fixpoint decrypt_run (s : Session L) (cts : list (list byte))
    : list (res sess_err (list byte)) * Session L :=
  match cts with
  | [] => ([], s)
  | ct :: cts' =>
      let '(r, s1) := Decrypt s ct in
      let '(rs, s2) := decrypt_run s1 cts' in (r :: rs, s2)
  end.

(** A handshake between two peers, message by message, the way
    internal/control and internal/peer drive it: the two sessions, in the heap of
    each side. *)
Definition run_handshake (now : Time) (kI kR : Keypair) (expected prologue eI eR : list byte)
    (hI hR : heap L) : option ((ptr * heap L) * (ptr * heap L)) :=
  match NewInitiator kI expected prologue eI, NewResponder kR prologue eR with
  | Ok i, Ok r =>
      match Message1 i with
      | (Ok m1, i) =>
      match ReadMessage1 r m1 with
      | (Ok _, r) =>
      match Message2 r with
      | (Ok m2, r) =>
      match ReadMessage2 hI i m2 with
      | (Ok pI, i, hI) =>
      match WriteMessage3 now hI i with
      | (Ok m3, i, hI) =>
      match ReadMessage3 now hR r m3 with
      | (Ok pR, r, hR) => Some ((pI, hI), (pR, hR))
      | _ => None end | _ => None end | _ => None end | _ => None end | _ => None end
      | _ => None end
  | _, _ => None
  end.

(** The epochs of successive frames never go back, and advance by at most the
    jump the receiver follows. *)
Fixpoint epochs_follow (every e : Z) (ns : list Z) : Prop :=
  match ns with
  | [] => True
  | n :: ns' =>
      e <= epochOf n every <= e + maxEpochJump /\ epochs_follow every (epochOf n every) ns'
  end.
End Runs.

(** ** Sending *)

Section Sending.
Context {L : NoiseLib} {W : NoiseLaws L}.

(** Whatever a peer sends, message [i] leaves with nonce [sendCount + i]
    sealed under the key of that nonce's epoch, until the nonces are exhausted;
    after that nothing leaves. So no nonce is ever used for two messages. *)
Theorem send_run_frames (k0 : list byte) (s : Session L) (ps : list (list byte))
    (I : SendInv k0 s) :
  (send_run s ps).1 = frames_from k0 (rekeyEvery s) (sendCount s) ps /\
  NoDup (send_run s ps).1.*1.
Proof.
  destruct (send_run_spec k0 s ps I) as [-> _]. split; [done | apply frames_from_nodup].
Qed.
End Sending.

(** ** Receiving *)

Section Receiving.
Context {L : NoiseLib} {W : NoiseLaws L}.
Implicit Types s r : Session L.

(** A receiver opens exactly what the sender sealed: [DecryptAt] returns [p]
    if and only if the nonce is in range, its epoch is the receiver's or at most
    [maxEpochJump] ahead, and the ciphertext is [p] sealed at that nonce under that
    epoch's key. *)
Theorem DecryptAt_Ok_iff (k0 : list byte) s (n : Z) (ct p : list byte)
    (I : RecvInv k0 s) (Hn : 0 <= n) :
  (DecryptAt s n ct).1 = Ok p <->
  n <= MaxNonce /\ recvEpoch s <= epochOf n (rekeyEvery s) <= recvEpoch s + maxEpochJump /\
    ct = sealed k0 (rekeyEvery s) n p.
Proof. by apply DecryptAt_Ok. Qed.

(** [C38] A frame that fails to open is invisible: the sending half is untouched,
    the receiving key, epoch and counter are those from before, and every later
    frame gets the result it would have got without it. In particular a forged
    nonce can not advance the one-way epoch keys. *)
Theorem forged_frame_invisible s (n : Z) (ct : list byte) (e : sess_err)
    (Hn : 0 <= n) (Herr : (DecryptAt s n ct).1 = Err e) :
  recv_equiv (DecryptAt s n ct).2 s /\
  forall n' ct', 0 <= n' ->
    (DecryptAt (DecryptAt s n ct).2 n' ct').1 = (DecryptAt s n' ct').1.
Proof.
  pose proof (DecryptAt_Err_equiv s n ct e Hn Herr) as Heq. split; [done|].
  intros n' ct' Hn'. by apply DecryptAt_equiv.
Qed.

Lemma recv_run_spec k0 every r ds ps :
  RecvInv k0 r -> rekeyEvery r = every ->
  Forall2 (fun d p => 0 <= d.1 <= MaxNonce /\ d.2 = sealed k0 every d.1 p) ds ps ->
  epochs_follow every (recvEpoch r) ds.*1 ->
  (recv_run r ds).1 = Ok <$> ps.
Proof.
  intros I Hr Hds. revert r I Hr.
  induction Hds as [|[n ct] p ds ps [Hn Hct] Hds IH]; intros r I Hr Hep; [done|].
  cbn in *. destruct Hep as [He Hep].
  assert (Hok : (DecryptAt r n ct).1 = Ok p).
  { apply (DecryptAt_Ok k0); [done | lia |]. rewrite Hr. split_and!; done || lia. }
  destruct (DecryptAt_Ok_state k0 r n ct p I ltac:(lia) Hok) as (c & Hs & I').
  destruct (DecryptAt r n ct) as [o r1]. cbn in *. subst o r1. rewrite Hr in I' |- *.
  specialize (IH _ I' Hr Hep). cbn in IH. destruct (recv_run _ ds). cbn in *. by rewrite IH.
Qed.

(** [C37] Delivery under loss and reordering: of the messages [ps] a peer sends,
    any choice of frames, in any order and with any of them missing, is opened to
    the messages they carry, as long as the epochs of the arriving frames never
    go back and never jump more than [maxEpochJump] ahead. *)
Theorem transport_delivery (k0 : list byte) s r (ps : list (list byte)) (idx : list nat)
    (ds : list (Z * list byte))
    (Is : SendInv k0 s) (Ir : RecvInv k0 r) (Hevery : rekeyEvery r = rekeyEvery s)
    (Hds : mapM ((send_run s ps).1 !!.) idx = Some ds)
    (Hep : epochs_follow (rekeyEvery s) (recvEpoch r) ds.*1) :
  exists qs, mapM (ps !!.) idx = Some qs /\ (recv_run r ds).1 = Ok <$> qs.
Proof.
  destruct (send_run_spec k0 s ps Is) as [E _]. rewrite E in Hds.
  assert (H : exists qs, mapM (ps !!.) idx = Some qs /\
    Forall2 (fun d p => 0 <= d.1 <= MaxNonce /\ d.2 = sealed k0 (rekeyEvery s) d.1 p) ds qs).
  { clear Hep E. apply mapM_Some in Hds.
    induction Hds as [|i d idx ds Hd Hds (qs & Hqs & IH)]; [by exists []|].
    destruct (frames_from_lookup _ _ _ _ _ _ Hd) as (p & Hp & Hmax & ->).
    exists (p :: qs). cbn. rewrite Hp, Hqs. cbn. split; [done|]. constructor; [|done].
    cbn. pose proof (si_count _ _ Is). split; [lia|done]. }
  destruct H as (qs & Hqs & HF). exists qs. split; [done|]. by eapply recv_run_spec.
Qed.

(** ** The in-order form *)

Record InOrder (k0 : list byte) (s r : Session L) : Prop := {
  io_send : SendInv k0 s;
  io_recv : RecvInv k0 r;
  io_every : rekeyEvery r = rekeyEvery s;
  io_count : recvCount r = sendCount s;
  io_epoch : recvEpoch r <= epochOf (recvCount r) (rekeyEvery r) <= recvEpoch r + maxEpochJump
}.

Lemma InOrder_step k0 s r p :
  InOrder k0 s r -> sendCount s <= MaxNonce ->
  exists ct s' r', Encrypt s p = (Ok ct, s') /\ Decrypt r ct = (Ok p, r') /\
    InOrder k0 s' r' /\ sendCount s' = sendCount s + 1.
Proof.
  intros [Is Ir He Hc Hep] Hmax.
  destruct (Send_spec k0 s p Is Hmax) as (c & e & HS & Is').
  pose proof (si_count _ _ Is) as Hcount. pose proof (si_every _ _ Is) as Hevery.
  exists (sealed k0 (rekeyEvery s) (sendCount s) p). unfold Encrypt, Decrypt. rewrite HS.
  assert (Hok : (DecryptAt r (recvCount r)
                   (sealed k0 (rekeyEvery s) (sendCount s) p)).1 = Ok p).
  { apply (DecryptAt_Ok k0); [done | lia |]. rewrite He, Hc in *. split_and!; done || lia. }
  destruct (ri_key _ _ Ir) as (cr & Hrecv & _). rewrite Hrecv.
  destruct (recvCount r >? MaxNonce) eqn:E; zbool; [lia|].
  destruct (DecryptAt_Ok_state k0 r (recvCount r) _ p Ir ltac:(lia) Hok) as (c' & Hs & Ir').
  destruct (DecryptAt r _ _) as [o r1]. cbn in Hok, Hs, Ir'. subst o.
  do 2 eexists. split; [done|]. split; [done|].
  rewrite u64_small by (unfold MaxNonce in *; lia).
  pose proof (epochOf_succ (recvCount r) (rekeyEvery r) ltac:(lia) ltac:(lia)).
  split; [|done]. subst r1. destruct Ir' as [Hk' Hr' He'].
  split; cbn in *; [done | by split | done | lia | unfold maxEpochJump in *; lia].
Qed.

(** Sending leaves the receiving half as it is, and receiving the sending half. *)
Lemma Encrypt_recv s p :
  recv (Encrypt s p).2 = recv s /\ recvCount (Encrypt s p).2 = recvCount s /\
  recvEpoch (Encrypt s p).2 = recvEpoch s /\ rekeyEvery (Encrypt s p).2 = rekeyEvery s.
Proof.
  unfold Encrypt, Send. destruct (send s); [|done]. destruct (_ >? _); [done|].
  destruct (rekeySendTo _ _ _) as [[[] ?] ?]; cbn [negb]; [|done].
  by destruct (CS_Encrypt _ _) as [[]].
Qed.

Lemma Decrypt_send s ct :
  send (Decrypt s ct).2 = send s /\ sendCount (Decrypt s ct).2 = sendCount s /\
  sendEpoch (Decrypt s ct).2 = sendEpoch s /\ rekeyEvery (Decrypt s ct).2 = rekeyEvery s.
Proof. unfold Decrypt, DecryptAt. repeat (destr; cbn [fst snd]); simplify_eq/=; done. Qed.

Lemma InOrder_Encrypt k0 s r p : InOrder k0 s r -> InOrder k0 s (Encrypt r p).2.
Proof.
  intros [Is [R1 R2 R3] He Hc Hep]. destruct (Encrypt_recv r p) as (E1 & E2 & E3 & E4).
  constructor; [done|constructor|..]; by rewrite ?E1, ?E2, ?E3, ?E4.
Qed.

Lemma InOrder_Decrypt k0 s r ct : InOrder k0 s r -> InOrder k0 (Decrypt s ct).2 r.
Proof.
  intros [[S1 S2 S3 S4] Ir He Hc Hep]. destruct (Decrypt_send s ct) as (E1 & E2 & E3 & E4).
  constructor; [constructor|..]; by rewrite ?E1, ?E2, ?E3, ?E4.
Qed.

(** The control channel is a faithful ordered stream: whatever one side
    encrypts, up to the exhaustion of the nonces, the other decrypts in order to the
    same messages. *)
Theorem inorder_roundtrip (k0 : list byte) s r (ps : list (list byte))
    (I : InOrder k0 s r) (Hmax : sendCount s + len ps <= MaxNonce + 1) :
  exists cts, (encrypt_run s ps).1 = Ok <$> cts /\ (decrypt_run r cts).1 = Ok <$> ps.
Proof.
  revert s r I Hmax. induction ps as [|p ps IH]; intros s r I Hmax; [by exists []|].
  destruct (InOrder_step k0 s r p I) as (ct & s' & r' & HE & HD & I' & Hc); [len_lia|].
  destruct (IH s' r' I') as (cts & E1 & E2); [len_lia|].
  exists (ct :: cts). cbn. rewrite HE, HD.
  destruct (encrypt_run s' ps), (decrypt_run r' cts). cbn in *. by rewrite E1, E2.
Qed.
End Receiving.

(** ** The handshake *)

Section Handshakes.
Context {L : NoiseLib} {W : NoiseLaws L} {X : XXLaws L}.

Lemma NewInitiator_ok k expected prologue e :
  keypair_ok k = true -> len expected = KeySize -> len e = 32 ->
  exists hs, NewHandshakeState (Build_Config true prologue (Private k) (Public k) e) = Some hs /\
    NewInitiator k expected prologue e = Ok (MkInitiator (Some hs) expected None phaseStart).
Proof.
  intros Hk He Hent. unfold NewInitiator. rewrite Hk, He. unfold keypair_ok in Hk. zbool.
  destruct (xx_new (Build_Config true prologue (Private k) (Public k) e)) as [hs Hhs];
    [done..|]. exists hs. rewrite Hhs. done.
Qed.

Lemma NewResponder_ok k prologue e :
  keypair_ok k = true -> len e = 32 ->
  exists hs, NewHandshakeState (Build_Config false prologue (Private k) (Public k) e) = Some hs /\
    NewResponder k prologue e = Ok (MkResponder (Some hs) None phaseStart).
Proof.
  intros Hk Hent. unfold NewResponder. rewrite Hk. unfold keypair_ok in Hk. zbool.
  destruct (xx_new (Build_Config false prologue (Private k) (Public k) e)) as [hs Hhs];
    [done..|]. exists hs. rewrite Hhs. done.
Qed.

(** What one side sends under, the other receives under. *)
Definition paired (s r : Session L) : Prop := exists k0, InOrder k0 s r.

Lemma paired_fresh (s r : Session L) a b :
  send s = Some a -> recv r = Some b -> UnsafeKey a = UnsafeKey b ->
  sendCount s = 0 -> sendEpoch s = 0 -> rekeyEvery s = DefaultRekeyEvery ->
  recvCount r = 0 -> recvEpoch r = 0 -> rekeyEvery r = DefaultRekeyEvery ->
  paired s r.
Proof.
  intros Ha Hb Hk H1 H2 H3 H4 H5 H6. exists (UnsafeKey a).
  assert (Hd : 0 <= DefaultRekeyEvery) by done.
  split; [split|split|..]; rewrite ?H1, ?H2, ?H3, ?H4, ?H5, ?H6, ?epochOf_0; try done.
  - exists a. split; [done|reflexivity].
  - exists b. split; [done|]. by rewrite <- Hk.
Qed.

(** The machines of both sides over the three messages, from empty heaps. *)
Lemma xx_machines (kA kB : Keypair) (prologue rA rB : list byte) (tA tB : Time) :
  genuine kA -> genuine kB -> len rA = 32 -> len rB = 32 ->
  exists m1 i0 i1 m2 r0 r1 r2 m3 i2 i3 r3 sA sB,
    NewInitiator kA (Public kB) prologue rA = Ok i0 /\ Message1 i0 = (Ok m1, i1) /\
    NewResponder kB prologue rB = Ok r0 /\ ReadMessage1 r0 m1 = (Ok tt, r1) /\
    Message2 r1 = (Ok m2, r2) /\
    ReadMessage2 [] i1 m2 = (Ok 0%nat, i2, [newSession (L := L) DefaultRekeyEvery]) /\
    WriteMessage3 tA [newSession (L := L) DefaultRekeyEvery] i2 = (Ok m3, i3, [sA]) /\
    ReadMessage3 tB [] r2 m3 = (Ok 0%nat, r3, [sB]) /\
    len m1 <= 65535 /\ len m2 <= 65535 /\ len m3 <= 65535 /\
    PeerStatic sA = Public kB /\ PeerStatic sB = Public kA /\
    ChannelBinding sA = ChannelBinding sB /\ paired sA sB /\ paired sB sA /\
    sendCount sA = 0 /\ sendCount sB = 0.
Proof.
  intros GkA GkB HrA HrB. pose proof (genuine_public _ GkB) as Hpub.
  destruct GkA as [HkA GA], GkB as [HkB GB].
  destruct (NewInitiator_ok kA (Public kB) prologue rA HkA Hpub HrA) as (hi & Hhi & HI).
  destruct (NewResponder_ok kB prologue rB HkB HrB) as (hr & Hhr & HR).
  pose proof (fun H1 H2 H3 H4 H5 => xx_run _ _ _ _ H1 H2 H3 H4 H5 Hhi Hhr) as Hrun.
  destruct (Hrun eq_refl eq_refl eq_refl GA GB)
    as (m1 & hi1 & hr1 & m2 & hr2 & hi2 & m3 & c & d & hi3 & c' & d' & hr3 &
        W1 & R1 & W2 & R2 & W3 & R3 & Kc & Kd & P2 & P3 & PR & CB).
  do 13 eexists. split; [exact HI|]. split; [apply (Message1_ok _ _ _ _ _ _ W1)|].
  split; [exact HR|]. split; [apply (ReadMessage1_ok _ _ _ _ _ R1)|].
  split; [apply (Message2_ok _ _ _ _ _ W2)|].
  split; [rewrite (ReadMessage2_read _ _ _ _ _ _ _ R2), bool_decide_eq_true_2 by done; done|].
  split; [etransitivity; [apply (WriteMessage3_ok _ _ _ _ _ _ _ _ _ W3)|reflexivity]|].
  split; [etransitivity; [apply (ReadMessage3_ok _ _ _ _ _ _ _ _ R3)|reflexivity]|].
  split; [by eapply xx_msg_len|]. split; [by eapply xx_msg_len|]. split; [by eapply xx_msg_len|].
  split; [exact P3|]. split; [exact PR|]. split; [exact CB|].
  split_and!; try done; eapply paired_fresh; done.
Qed.

(** A handshake between peers that know each other's keys, each owning its own, completes: both
    sides get a session, each names the other's static key, both agree on the
    channel binding, and what either sends the other receives. *)
Theorem handshake_pairs (now : Time) (kI kR : Keypair) (prologue eI eR : list byte)
    (hI hR : heap L)
    (GkI : genuine kI) (GkR : genuine kR)
    (HeI : len eI = 32) (HeR : len eR = 32) :
  exists pI hI' pR hR' sI sR,
    run_handshake now kI kR (Public kR) prologue eI eR hI hR = Some ((pI, hI'), (pR, hR')) /\
    hI' !! pI = Some sI /\ hR' !! pR = Some sR /\
    PeerStatic sI = Public kR /\ PeerStatic sR = Public kI /\
    ChannelBinding sI = ChannelBinding sR /\
    paired sI sR /\ paired sR sI.
Proof.
  pose proof (genuine_public _ GkR) as Hpub. destruct GkI as [HkI GI], GkR as [HkR GR].
  destruct (NewInitiator_ok kI (Public kR) prologue eI HkI Hpub HeI) as (hi & Hhi & HI).
  destruct (NewResponder_ok kR prologue eR HkR HeR) as (hr & Hhr & HR).
  pose proof (fun H1 H2 H3 H4 H5 => xx_run _ _ _ _ H1 H2 H3 H4 H5 Hhi Hhr) as Hrun.
  destruct (Hrun eq_refl eq_refl eq_refl GI GR)
    as (m1 & hi1 & hr1 & m2 & hr2 & hi2 & m3 & a & b & hi3 & a' & b' & hr3 &
        W1 & R1 & W2 & R2 & W3 & R3 & Ka & Kb & P2 & P3 & PR & CB).
  unfold run_handshake. rewrite HI, HR.
  rewrite (Message1_ok _ _ _ _ _ _ W1), (ReadMessage1_ok _ _ _ _ _ R1),
    (Message2_ok _ _ _ _ _ W2), (ReadMessage2_read _ _ _ _ _ _ _ R2),
    bool_decide_eq_true_2, (WriteMessage3_ok _ _ _ _ _ _ _ _ _ W3),
    (ReadMessage3_ok _ _ _ _ _ _ _ _ R3) by done.
  do 6 eexists. split; [done|].
  split; [rewrite list_lookup_alter_eq, lookup_app_r, Nat.sub_diag by lia; reflexivity|].
  split; [rewrite lookup_app_r, Nat.sub_diag by lia; reflexivity|].
  cbn. split_and!; try done; eapply paired_fresh; cbn; done.
Qed.

(** [C39] An initiator that expected another key gets no session: a responder that
    runs the protocol faithfully with a key pair of its own, whose public key is not the
    expected one, completes the library's part of message 2, and its static key is
    checked before anything is allocated, so the handshake with an impostor stops with
    [HsStaticMismatch] there. (One that sends the expected key without owning it is
    stopped inside the library.) *)
Theorem handshake_impostor (kI kR : Keypair) (expected prologue eI eR : list byte)
    (h : heap L)
    (GkI : genuine kI) (GkR : genuine kR)
    (HeI : len eI = 32) (HeR : len eR = 32)
    (Hexp : len expected = KeySize) (Hne : Public kR <> expected) :
  exists i r m1 i1 r1 m2 r2 i2,
    NewInitiator kI expected prologue eI = Ok i /\ NewResponder kR prologue eR = Ok r /\
    Message1 i = (Ok m1, i1) /\ ReadMessage1 r m1 = (Ok tt, r1) /\
    Message2 r1 = (Ok m2, r2) /\
    ReadMessage2 h i1 m2 = (Err HsStaticMismatch, i2, h).
Proof.
  destruct GkI as [HkI GI], GkR as [HkR GR].
  destruct (NewInitiator_ok kI expected prologue eI HkI Hexp HeI) as (hi & Hhi & HI).
  destruct (NewResponder_ok kR prologue eR HkR HeR) as (hr & Hhr & HR).
  pose proof (fun H1 H2 H3 H4 H5 => xx_run _ _ _ _ H1 H2 H3 H4 H5 Hhi Hhr) as Hrun.
  destruct (Hrun eq_refl eq_refl eq_refl GI GR)
    as (m1 & hi1 & hr1 & m2 & hr2 & hi2 & m3 & a & b & hi3 & a' & b' & hr3 &
        W1 & R1 & W2 & R2 & W3 & R3 & Ka & Kb & P2 & P3 & PR & CB).
  do 8 eexists. split; [exact HI|]. split; [exact HR|].
  split; [apply (Message1_ok _ _ _ _ _ _ W1)|].
  split; [apply (ReadMessage1_ok _ _ _ _ _ R1)|].
  split; [apply (Message2_ok _ _ _ _ _ W2)|].
  rewrite (ReadMessage2_read _ _ _ _ _ _ _ R2), P2. by rewrite bool_decide_eq_false_2.
Qed.
End Handshakes.

(** ** Witnesses, on the concrete cipher *)

#[local] Existing Instances Toy.lib Toy.laws Toy.xx.

Module Demo.
Definition key : list byte := replicate 32 x07.

Definition sender : Session Toy.lib :=
  MkSession (L := Toy.lib) [] [] (Some (Toy.CS key 0)) None 0 0 0 0 2 0.
Definition receiver : Session Toy.lib :=
  MkSession (L := Toy.lib) [] [] None (Some (Toy.CS key 0)) 0 0 0 0 2 0.

Lemma sender_inv : SendInv key sender.
Proof. split; cbn; [by eexists | done.. ]. Qed.
Lemma receiver_inv : RecvInv key receiver.
Proof. split; cbn; [by eexists | done.. ]. Qed.

Definition kI := MkKeypair (replicate 32 x0a) (replicate 32 x1a).
Definition kR := MkKeypair (replicate 32 x0b) (replicate 32 x1b).
Definition entropy := replicate 32 x33.
End Demo.

Example send_run_frames_witness :
  (send_run Demo.sender [[x01]; [x02]; [x03]]).1
    = frames_from Demo.key 2 0 [[x01]; [x02]; [x03]] /\
  NoDup (send_run Demo.sender [[x01]; [x02]; [x03]]).1.*1.
Proof.
  apply (send_run_frames Demo.key Demo.sender [[x01]; [x02]; [x03]]), Demo.sender_inv.
Defined.

Example DecryptAt_Ok_iff_witness :
  (DecryptAt Demo.receiver 5 (sealed Demo.key 2 5 [xaa])).1 = Ok [xaa] <->
  5 <= MaxNonce /\ 0 <= epochOf 5 2 <= 0 + maxEpochJump /\
    sealed Demo.key 2 5 [xaa] = sealed Demo.key 2 5 [xaa].
Proof.
  apply (DecryptAt_Ok_iff Demo.key Demo.receiver 5 _ [xaa] Demo.receiver_inv). lia.
Defined.

Example forged_frame_invisible_witness :
  recv_equiv (DecryptAt Demo.receiver 100 [x00]).2 Demo.receiver /\
  forall n' ct', 0 <= n' ->
    (DecryptAt (DecryptAt Demo.receiver 100 [x00]).2 n' ct').1 = (DecryptAt Demo.receiver n' ct').1.
Proof.
  apply (forged_frame_invisible Demo.receiver 100 [x00] DecryptFailed); [lia | vm_compute; done].
Defined.

(** Messages 1, 0 and 4 of five arrive, in that order: two epochs are crossed. *)
Example transport_delivery_witness :
  exists qs, mapM ([[x01]; [x02]; [x03]; [x04]; [x05]] !!.) [1%nat; 0%nat; 4%nat] = Some qs /\
    (recv_run Demo.receiver
       (omap ((send_run Demo.sender [[x01]; [x02]; [x03]; [x04]; [x05]]).1 !!.)
          [1%nat; 0%nat; 4%nat])).1 = Ok <$> qs.
Proof.
  apply (transport_delivery Demo.key Demo.sender Demo.receiver _ [1%nat; 0%nat; 4%nat] _
           Demo.sender_inv Demo.receiver_inv).
  - reflexivity.
  - vm_compute. reflexivity.
  - vm_compute. repeat split; discriminate.
Defined.

Example inorder_roundtrip_witness :
  exists cts, (encrypt_run Demo.sender [[x01]; [x02]; [x03]]).1 = Ok <$> cts /\
    (decrypt_run Demo.receiver cts).1 = Ok <$> [[x01]; [x02]; [x03]].
Proof.
  apply (inorder_roundtrip Demo.key Demo.sender Demo.receiver [[x01]; [x02]; [x03]]).
  - split; [apply Demo.sender_inv | apply Demo.receiver_inv | done | done | cbn].
    vm_compute. split; discriminate.
  - vm_compute. discriminate.
Defined.

Example handshake_pairs_witness :
  exists pI hI' pR hR' sI sR,
    run_handshake (L := Toy.lib) 1 Demo.kI Demo.kR (Public Demo.kR) [x99] Demo.entropy Demo.entropy
      [] [] = Some ((pI, hI'), (pR, hR')) /\
    hI' !! pI = Some sI /\ hR' !! pR = Some sR /\
    PeerStatic sI = Public Demo.kR /\ PeerStatic sR = Public Demo.kI /\
    ChannelBinding sI = ChannelBinding sR /\ paired sI sR /\ paired sR sI.
Proof.
  apply (handshake_pairs (L := Toy.lib) 1 Demo.kI Demo.kR [x99] Demo.entropy Demo.entropy [] []);
    by split.
Defined.

Example handshake_impostor_witness :
  exists i r m1 i1 r1 m2 r2 i2,
    NewInitiator (L := Toy.lib) Demo.kI (Public Demo.kI) [x99] Demo.entropy = Ok i /\
    NewResponder Demo.kR [x99] Demo.entropy = Ok r /\
    Message1 i = (Ok m1, i1) /\ ReadMessage1 r m1 = (Ok tt, r1) /\
    Message2 r1 = (Ok m2, r2) /\
    ReadMessage2 [] i1 m2 = (Err HsStaticMismatch, i2, []).
Proof.
  apply (handshake_impostor (L := Toy.lib) Demo.kI Demo.kR (Public Demo.kI) [x99]
           Demo.entropy Demo.entropy []); try by split. discriminate.
Defined.
