(* ===== verification/Keyfile.v ===== *)
(** * The keyfile (src/internal/noisework/noisework.go)

    Loading a node's long-term key, or creating it on the first start. Several processes
    may start with the same path at once, so [LoadOrCreateKeyfile] is a state machine per
    process over one shared file: a step is one system call. *)

From S2P Require Import Prelude GoBytes GoRuntime NoiseLib Noisework.

(** [noise.DH25519.GenerateKeypair]: the key pair made of what crypto/rand supplies, or
    an error. *)
Class KeyGen {L : NoiseLib} := {
  DH_GenerateKeypair : list byte -> option Keypair;
  generated rnd kp : DH_GenerateKeypair rnd = Some kp ->
    len (Private kp) = KeySize /\ Public kp = ScalarBaseMult (Private kp)
}.

(** The errors of package os that the code tells apart. *)
Inductive file_err := ErrNotExist | ErrExist | OtherErr.

Inductive keyfile_err :=
| PathRequired
| Read_ (e : file_err) | CorruptHex (e : hex_err) | CorruptLength (n : Z) | CorruptKey (e : keypair_err)
| Generate_ | Create_ (e : file_err) | Persist
| NeverReadable.

(** [errors.Is(err, os.ErrNotExist)] and [errors.Is(err, os.ErrExist)]. *)
Definition isNotExist (e : keyfile_err) : bool :=
  match e with Read_ ErrNotExist | Create_ ErrNotExist => true | _ => false end.
Definition isExist (e : keyfile_err) : bool :=
  match e with Read_ ErrExist | Create_ ErrExist => true | _ => false end.

Section Keyfile.
Context {L : NoiseLib} {K : KeyGen}.

Definition GenerateKeypair (rnd : list byte) : res keyfile_err Keypair :=
  match DH_GenerateKeypair rnd with
  | None => Err Generate_
  | Some kp => Ok kp
  end.

(** [loadKeyfile], given what [os.ReadFile] returns. *)
Definition loadKeyfile (data : res file_err (list byte)) : res keyfile_err Keypair :=
  match data with
  | Err e => Err (Read_ e)
  | Ok data =>
      match hex_decode (TrimSpace data) with
      | Err e => Err (CorruptHex e)
      | Ok priv =>
          if negb (len priv =? KeySize) then Err (CorruptLength (len priv))
          else match keypairFromPrivate priv with
               | Err e => Err (CorruptKey e)
               | Ok kp => Ok kp
               end
      end
  end.

(** ** Processes *)

(** Where a process is in [LoadOrCreateKeyfile]. *)
Inductive pc :=
| Loading                                  (* before its first [loadKeyfile] *)
| Generating                               (* in [createKeyfile] *)
| Opening (kp : Keypair)
| Writing (kp : Keypair) (rest : list byte)
| Closing (kp : Keypair)
| Retrying (i : nat)                       (* before round [i] of the retry loop *)
| Done (r : res keyfile_err Keypair).

Record Sys := MkSys { file : option (list byte); procs : gmap nat pc }.
#[export] Instance Sys_eta : Eta Sys := fun s => MkSys (file s) (procs s).

Definition LoadOrCreateKeyfile (path : string) : pc :=
  if bool_decide (path = ""%string) then Done (Err PathRequired) else Loading.

(** [os.ReadFile]: [ok] says whether the disk works. *)
Definition ReadFile (ok : bool) (f : option (list byte)) : res file_err (list byte) :=
  if negb ok then Err OtherErr else match f with None => Err ErrNotExist | Some d => Ok d end.

Definition retries : nat := 20.

(** What the system call of a step comes to: whether it works, the random bytes it
    supplies, how many bytes it writes. *)
Record env := MkEnv { works : bool; rnd : list byte; wrote : nat }.

(** A step of one process, and the file after it. The file only grows, so what
    [os.ReadFile] gathers is what the file holds at its last read. A write of no bytes is
    an error ([io.ErrUnexpectedEOF]). *)
Definition proc_step (f : option (list byte)) (p : pc) (e : env) : option (list byte) * pc :=
  match p with
  | Loading =>
      (f, match loadKeyfile (ReadFile (works e) f) with
          | Ok kp => Done (Ok kp)
          | Err err => if negb (isNotExist err) then Done (Err err) else Generating
          end)
  | Generating =>
      (f, match GenerateKeypair (rnd e) with
          | Err err => Done (Err err)                 (* neither nil nor ErrExist *)
          | Ok kp => Opening kp
          end)
  | Opening kp =>                                     (* O_CREATE|O_EXCL *)
      match (if negb (works e) then Err OtherErr
             else match f with Some _ => Err ErrExist | None => Ok tt end) with
      | Err err =>
          (f, if negb (isExist (Create_ err)) then Done (Err (Create_ err)) else Retrying 0)
      | Ok _ => (Some [], Writing kp (hex_encode (Private kp)))
      end
  | Writing kp rest =>
      let f := (fun d => d ++ take (wrote e) rest) <$> f in
      if negb (works e) || Nat.eqb (wrote e) 0 then (f, Done (Err Persist))
      else match drop (wrote e) rest with
           | [] => (f, Closing kp)
           | rest => (f, Writing kp rest)
           end
  | Closing kp => (f, if negb (works e) then Done (Err Persist) else Done (Ok kp))
  | Retrying i =>
      (f, match loadKeyfile (ReadFile (works e) f) with
          | Ok kp => Done (Ok kp)
          | Err err =>
              if negb (isNotExist err) then Done (Err err)
              else if (S i <? retries)%nat then Retrying (S i) else Done (Err NeverReadable)
          end)
  | Done r => (f, Done r)
  end.

(** Process [e.1] takes a step. *)
Definition step (s : Sys) (e : nat * env) : Sys :=
  match procs s !! e.1 with
  | None => s
  | Some p => let '(f, p) := proc_step (file s) p e.2 in MkSys f (<[e.1 := p]> (procs s))
  end.

Definition run (s : Sys) (es : list (nat * env)) : Sys := fold_left step es s.

(** [n] processes started with one path, and what is there at first. *)
Definition started (path : string) (n : nat) (f : option (list byte)) : Sys :=
  MkSys f (list_to_map (map (fun i => (i, LoadOrCreateKeyfile path)) (seq 0 n))).

(** ** What a keyfile holds *)

Lemma graphic_hex l : Forall graphic (hex_encode l).
Proof.
  induction l as [|b l IH]; cbn [hex_encode]; [constructor|].
  pose proof (u8_range b). pose proof (Z.mod_pos_bound (u8 b) 16 ltac:(lia)).
  assert (Hd : forall n, 0 <= n < 16 -> graphic (hex_digit n)).
  { intros n Hn. unfold graphic, is_graphic, hex_digit. rewrite u8_byte_of.
    destruct (n <? 10) eqn:E; zbool; rewrite Z.mod_small by lia; apply andb_true_intro; split;
      apply Z.ltb_lt; lia. }
  repeat constructor; [| |done]; apply Hd; [|lia]. split; [apply Z.div_pos|apply Z.div_lt_upper_bound]; lia.
Qed.

Lemma len_hex_decode : forall n l p, (length l <= n)%nat -> hex_decode l = Ok p -> len l = 2 * len p.
Proof.
  induction n as [|n IH]; intros [|a [|b l]] p Hn H; cbn in *; try lia; try (by injection H as <-);
    try (by destruct (hex_value a)).
  destruct (hex_value a); [|done]. destruct (hex_value b); [|done].
  destruct (hex_decode l) as [q|] eqn:E; [|done]. cbn in H. apply Ok_inj in H as <-.
  rewrite !len_cons, (IH l q) by (done || lia). lia.
Qed.

(** A key pair as [GenerateKeypair] makes it. *)
Definition wf (kp : Keypair) : Prop :=
  len (Private kp) = KeySize /\ Public kp = ScalarBaseMult (Private kp).

Lemma GenerateKeypair_wf r kp : GenerateKeypair r = Ok kp -> wf kp.
Proof.
  unfold GenerateKeypair. destruct (DH_GenerateKeypair r) eqn:E; [|done].
  intros H. apply Ok_inj in H as <-. by apply generated in E.
Qed.

(** What is generated and what is loaded is genuine: the handshakes' theorems apply to
    every key pair a node runs with. *)
Lemma wf_genuine {X : XXLaws L} kp : wf kp -> genuine kp.
Proof.
  intros [Hl Hp]. split; [|done]. unfold keypair_ok. rewrite Hp.
  by rewrite Hl, xx_public_len.
Qed.

Lemma loadKeyfile_genuine {X : XXLaws L} d k : loadKeyfile (Ok d) = Ok k -> genuine k.
Proof.
  intros H. apply wf_genuine. unfold loadKeyfile in H. repeat destr_in H; try done.
  apply Ok_inj in H as <-. unfold keypairFromPrivate in *.
  match goal with H : context [negb (len ?p =? KeySize)] |- _ =>
    destruct (len p =? KeySize) eqn:E; [|done]; cbn in H; apply Ok_inj in H as <- end.
  zbool. by split.
Qed.

Lemma load_whole kp : wf kp -> loadKeyfile (Ok (hex_encode (Private kp))) = Ok kp.
Proof.
  intros [Hl Hp]. unfold loadKeyfile. rewrite TrimSpace_graphic by apply graphic_hex.
  rewrite hex_decode_encode. unfold keypairFromPrivate. rewrite Hl. cbn. rewrite <- Hp. by destruct kp.
Qed.

(** A file that is not complete holds no key. *)
Lemma load_part w rest kp k :
  wf kp -> w ++ rest = hex_encode (Private kp) -> rest <> [] -> loadKeyfile (Ok w) <> Ok k.
Proof.
  intros [Hl _] E Hr H. pose proof (graphic_hex (Private kp)) as Hg. rewrite <- E in Hg.
  apply Forall_app in Hg as [Hg _]. unfold loadKeyfile in H. rewrite TrimSpace_graphic in H by done.
  destruct (hex_decode w) as [p|] eqn:Ed; [|done]. apply (len_hex_decode (length w)) in Ed; [|done].
  destruct (len p =? KeySize) eqn:Ep; cbn [negb] in H; [|done]. zbool.
  apply (f_equal len) in E. rewrite len_app, len_hex_encode in E.
  destruct rest; [done|]. rewrite len_cons in E. pose proof (len_nonneg rest). lia.
Qed.

(** ** The invariant *)

(** What a process knows of the file. *)
Definition knows (f : option (list byte)) (p : pc) : Prop :=
  match p with
  | Loading | Generating | Done (Err _) => True
  | Opening kp => wf kp
  | Writing kp rest => wf kp /\ rest <> [] /\ exists w, f = Some w /\ w ++ rest = hex_encode (Private kp)
  | Closing kp => wf kp /\ f = Some (hex_encode (Private kp))
  | Retrying _ => f <> None
  | Done (Ok k) => exists d, f = Some d /\ loadKeyfile (Ok d) = Ok k
  end.

Definition is_writing (p : pc) : Prop := match p with Writing _ _ => True | _ => False end.

Definition Inv (s : Sys) : Prop :=
  (forall i p, procs s !! i = Some p -> knows (file s) p) /\
  (forall i j p q, procs s !! i = Some p -> procs s !! j = Some q ->
     is_writing p -> is_writing q -> i = j).

Lemma hex_nonempty kp : wf kp -> hex_encode (Private kp) <> [].
Proof. intros [Hl _]. by destruct (Private kp). Qed.

Lemma ReadFile_Ok f ok k :
  loadKeyfile (ReadFile ok f) = Ok k -> exists d, f = Some d /\ loadKeyfile (Ok d) = Ok k.
Proof. unfold ReadFile. destruct ok, f as [d|]; cbn [negb]; intros H; try done. by exists d. Qed.

(** A step only changes the file of a process that creates or writes it; then nobody
    else holds a key yet. *)
Lemma proc_step_knows f p e f' p' :
  knows f p -> proc_step f p e = (f', p') ->
  knows f' p' /\ (is_writing p' -> is_writing p \/ f = None) /\
  (f' = f \/ f = None \/ is_writing p).
Proof.
  intros Hk H. destruct p as [| |kp|kp rest|kp|i|r]; cbn [proc_step] in H.
  - injection H as <- <-. destruct (loadKeyfile _) as [k|err] eqn:E.
    + split; [by apply (ReadFile_Ok f (works e))|]. split; [done|by left].
    + destruct (negb _); (split; [done|]; split; [done|by left]).
  - injection H as <- <-. destruct (GenerateKeypair _) as [k|] eqn:E.
    + apply GenerateKeypair_wf in E. split; [done|]. split; [done|by left].
    + split; [done|]. split; [done|by left].
  - destruct (works e); cbn [negb] in H.
    + destruct f as [d|]; cbn in H; injection H as <- <-.
      * split; [done|]. split; [done|by left].
      * split; [|split; [by right|by right; left]]. split; [done|]. split; [by apply hex_nonempty|].
        by exists [].
    + injection H as <- <-. split; [done|]. split; [done|by left].
  - destruct Hk as (Hwf & Hr & w & -> & Hw). cbn in H.
    assert (Hc : forall q, knows (Some (w ++ take (wrote e) rest)) q ->
              knows (Some (w ++ take (wrote e) rest)) q /\
              (is_writing q -> is_writing (Writing kp rest) \/ Some w = None) /\
              (Some (w ++ take (wrote e) rest) = Some w \/ Some w = None \/ is_writing (Writing kp rest))).
    { intros q Hq. split; [done|]. split; [by left|by right; right]. }
    destruct (_ || _); [injection H as <- <-; by apply Hc|].
    destruct (drop (wrote e) rest) as [|b l] eqn:Ed; injection H as <- <-; apply Hc.
    + split; [done|]. f_equal. rewrite <- Hw. f_equal.
      by rewrite <- (take_drop (wrote e) rest) at 2; rewrite Ed, app_nil_r.
    + split; [done|]. split; [done|]. eexists. split; [done|].
      rewrite <- app_assoc, <- Ed, take_drop. exact Hw.
  - destruct Hk as [Hwf ->]. injection H as <- <-. destruct (works e); cbn [negb];
      (split; [|split; [done|by left]]); [|done]. eexists. split; [done|]. by apply load_whole.
  - injection H as <- <-. destruct (loadKeyfile _) as [k|err] eqn:E.
    + split; [by apply (ReadFile_Ok f (works e))|]. split; [done|by left].
    + destruct (negb _); [split; [done|]; split; [done|by left]|].
      destruct (_ <? _)%nat; (split; [done|]; split; [done|by left]).
  - injection H as <- <-. split; [done|]. split; [done|by left].
Qed.

(** What the others know survives the step. *)
Lemma knows_stable f p e f' p' q :
  knows f p -> proc_step f p e = (f', p') -> (is_writing p -> ~ is_writing q) ->
  knows f q -> knows f' q.
Proof.
  intros Hp H Hx Hq. destruct (proc_step_knows f p e f' p' Hp H) as (_ & _ & [->|[->|Hw]]); [done| |].
  - destruct q as [| |kq|kq rq|kq|i|[k|]]; try done.
    + by destruct Hq as (_ & _ & w & ? & _).
    + by destruct Hq.
    + by destruct Hq as (d & ? & _).
  - destruct p as [| |kp|kp rest| | |]; try done. destruct Hp as (Hwf & Hr & w & -> & E).
    assert (Hf : f' <> None).
    { cbn in H. destruct (_ || _); [by injection H as <- _|].
      destruct (drop _ _); by injection H as <- _. }
    destruct q as [| |kq|kq rq|kq|i|[k|]]; try done.
    + by destruct (Hx Hw).
    + destruct Hq as [[Hlq _] [= ->]]. exfalso. destruct Hwf as [Hl _].
      apply (f_equal len) in E. rewrite len_app, !len_hex_encode in E.
      destruct rest; [done|]. rewrite len_cons in E. pose proof (len_nonneg rest). lia.
    + destruct Hq as (d & [= <-] & Hd). by destruct (load_part w rest kp k Hwf E Hr).
Qed.

Lemma keyfile_step_Inv s e : Inv s -> Inv (step s e).
Proof.
  intros [Ik Iw]. unfold step. destruct (procs s !! e.1) as [p|] eqn:Ep; [|by split].
  destruct (proc_step (file s) p e.2) as [f' p'] eqn:E.
  pose proof (Ik _ _ Ep) as Kp. destruct (proc_step_knows _ _ _ _ _ Kp E) as (Kp' & Hw & _).
  assert (Hno : file s = None -> forall j q, procs s !! j = Some q -> ~ is_writing q).
  { intros Hn j q Hq Wq. pose proof (Ik j q Hq) as Kq. destruct q; try done.
    destruct Kq as (_ & _ & w & ? & _). congruence. }
  split; cbn.
  - intros i q H. apply lookup_insert_Some in H as [[<- <-]|[Hne H]]; [exact Kp'|].
    eapply knows_stable; [exact Kp|exact E| |by apply (Ik i q H)].
    intros Wp Wq. apply Hne. by apply (Iw _ _ p q).
  - intros i j q q' Hi Hj Wi Wj.
    apply lookup_insert_Some in Hi as [[<- <-]|[Hi' Hi]], Hj as [[<- <-]|[Hj' Hj]]; [done| | |by apply (Iw i j q q')].
    + destruct (Hw Wi) as [Wp|Hn]; [by apply (Iw _ _ p q')|by destruct (Hno Hn j q')].
    + destruct (Hw Wj) as [Wp|Hn]; [by apply (Iw _ _ q p)|by destruct (Hno Hn i q)].
Qed.

Lemma keyfile_run_Inv es : forall s, Inv s -> Inv (run s es).
Proof. induction es as [|e es IH]; intros s I; [done|]. apply IH. by apply keyfile_step_Inv. Qed.

Lemma started_procs path n f i p :
  procs (started path n f) !! i = Some p -> p = LoadOrCreateKeyfile path.
Proof.
  intros H. cbn in H. apply elem_of_list_to_map_2, list_elem_of_fmap in H as (j & [= _ ->] & _). done.
Qed.

Lemma started_Inv path n f : Inv (started path n f).
Proof.
  split.
  - intros i p ->%started_procs. unfold LoadOrCreateKeyfile. by destruct (bool_decide _).
  - intros i j p q ->%started_procs _ Hp _. unfold LoadOrCreateKeyfile in Hp. by destruct (bool_decide _).
Qed.

(** ** One identity *)

Lemma done_step s e i r :
  procs s !! i = Some (Done r) -> procs (step s e) !! i = Some (Done r).
Proof.
  intros H. unfold step. destruct (procs s !! e.1) as [p|] eqn:E; [|done].
  destruct (proc_step (file s) p e.2) as [f' p'] eqn:Es. cbn.
  destruct (decide (e.1 = i)) as [Ei|Hne]; [|by rewrite lookup_insert_ne].
  rewrite Ei in E |- *. rewrite lookup_insert_eq. rewrite H in E. injection E as <-. cbn in Es. by injection Es as _ <-.
Qed.

Lemma done_run es i r : forall s,
  procs s !! i = Some (Done r) -> procs (run s es) !! i = Some (Done r).
Proof. induction es as [|e es IH]; intros s H; [done|]. apply IH. by apply done_step. Qed.

(** A file that is there and that nobody writes stays as it is. *)
Lemma run_unchanged d es : forall s,
  Inv s -> file s = Some d -> (forall i p, procs s !! i = Some p -> ~ is_writing p) ->
  file (run s es) = Some d.
Proof.
  induction es as [|e es IH]; intros s I Hf Hw; [done|].
  assert (Hs : file (step s e) = Some d /\ forall i p, procs (step s e) !! i = Some p -> ~ is_writing p).
  { unfold step. destruct (procs s !! e.1) as [p|] eqn:E; [|done].
    destruct (proc_step (file s) p e.2) as [f' p'] eqn:Es.
    destruct (proc_step_knows _ _ _ _ _ (proj1 I _ _ E) Es) as (_ & Hp & Hc). cbn. split.
    - destruct Hc as [->|[|Wp]]; [done|congruence|by destruct (Hw _ _ E)].
    - intros i q H. apply lookup_insert_Some in H as [[_ <-]|[_ H]]; [|by apply (Hw i)].
      intros Wp. destruct (Hp Wp) as [Wq|]; [by apply (Hw _ _ E)|congruence]. }
  destruct Hs. apply IH; [by apply keyfile_step_Inv|done..].
Qed.

(** [C35] A first start cannot fork the node's identity: whatever starts with one path, however
    their system calls interleave, fail or are cut short, a keyfile that is there is never
    changed; a process that returns a key returns the one that the file then holds, and
    holds from then on; so all of them return the same key. *)
Theorem one_identity (path : string) (n : nat) (f : option (list byte)) (es : list (nat * env)) :
  let s := run (started path n f) es in
  (forall d, f = Some d -> file s = Some d) /\
  (forall i k es', procs s !! i = Some (Done (Ok k)) ->
     exists d, file (run s es') = Some d /\ loadKeyfile (Ok d) = Ok k) /\
  (forall i j k k', procs s !! i = Some (Done (Ok k)) -> procs s !! j = Some (Done (Ok k')) -> k = k').
Proof.
  intros s. pose proof (started_Inv path n f) as I0. pose proof (keyfile_run_Inv es _ I0) as I.
  assert (Hk : forall i k es', procs s !! i = Some (Done (Ok k)) ->
            exists d, file (run s es') = Some d /\ loadKeyfile (Ok d) = Ok k).
  { intros i k es' H. exact (proj1 (keyfile_run_Inv es' s I) i (Done (Ok k)) (done_run es' i _ s H)). }
  split_and!; [|exact Hk|].
  - intros d ->. apply run_unchanged; [exact I0|done|]. intros i p ->%started_procs.
    unfold LoadOrCreateKeyfile. by destruct (bool_decide _); intros [].
  - intros i j k k' Hi Hj. destruct (Hk i k [] Hi) as (d & Hd & Hl), (Hk j k' [] Hj) as (d' & Hd' & Hl').
    rewrite Hd in Hd'. injection Hd' as <-. rewrite Hl in Hl'. by apply Ok_inj in Hl'.
Qed.

(** ** Every start ends *)

(** The system calls a process has left at most. *)
Definition left (p : pc) : Z :=
  match p with
  | Loading => 68 | Generating => 67 | Opening _ => 66
  | Writing _ rest => 1 + len rest
  | Closing _ => 1
  | Retrying i => 1 + Z.of_nat (retries - 1 - i)
  | Done _ => 0
  end.

Definition steps_of (i : nat) (es : list (nat * env)) : Z := len (filter (fun e => e.1 = i) es).

Lemma proc_step_left f p e f' p' :
  knows f p -> proc_step f p e = (f', p') -> left p' = 0 \/ left p' + 1 <= left p.
Proof.
  intros Hk H. destruct p as [| |kp|kp rest|kp|i|r]; cbn [proc_step] in H; try (injection H as _ <-).
  - destruct (loadKeyfile _); [by left|]. destruct (negb _); [by left|right; cbn; lia].
  - destruct (GenerateKeypair _); [right; cbn; lia|by left].
  - destruct Hk as [Hl _]. unfold KeySize in Hl.
    destruct (if negb (works e) then _ else _); injection H as _ <-.
    + right. cbn. rewrite len_hex_encode, Hl. lia.
    + destruct (negb _); [by left|right; cbn; lia].
  - destruct Hk as (_ & Hr & _). destruct rest as [|b0 rest]; [done|]. pose proof (len_nonneg rest).
    destruct (wrote e) as [|m].
    { rewrite orb_true_r in H. injection H as _ <-. by left. }
    rewrite orb_false_r in H. destruct (negb _); [injection H as _ <-; by left|]. cbn [drop] in H.
    pose proof (len_nonneg (drop m rest)). pose proof (take_drop m rest) as E. apply (f_equal len) in E.
    rewrite len_app in E. pose proof (len_nonneg (take m rest)).
    destruct (drop m rest) as [|b l]; injection H as _ <-; right; cbn [left]; rewrite ?len_cons in *; lia.
  - destruct (negb _); by left.
  - destruct (loadKeyfile _); [by left|]. destruct (negb _); [by left|].
    destruct (S i <? retries)%nat eqn:E; [|by left]. apply Nat.ltb_lt in E. right. cbn [left]. lia.
  - by left.
Qed.

Lemma left_nonneg p : 0 <= left p.
Proof. destruct p; cbn [left]; try lia. pose proof (len_nonneg rest). lia. Qed.

Lemma left_done p : left p = 0 -> exists r, p = Done r.
Proof.
  destruct p; cbn [left]; try lia; [pose proof (len_nonneg rest); lia|by eexists].
Qed.

(** Every process returns: 68 of its own system calls are enough, whatever the others do
    in between. *)
Theorem starter_returns (path : string) (n : nat) (f : option (list byte)) (es : list (nat * env))
    (i : nat) (Hi : (i < n)%nat) (Hsteps : 68 <= steps_of i es) :
  exists r, procs (run (started path n f) es) !! i = Some (Done r).
Proof.
  assert (H : forall es s p, Inv s -> procs s !! i = Some p ->
            exists p', procs (run s es) !! i = Some p' /\ (left p' = 0 \/ left p' + steps_of i es <= left p)).
  { clear. induction es as [|e es IH]; intros s p I Hp; cbn [run fold_left].
    { exists p. split; [done|]. right. change (steps_of i []) with 0. lia. }
    assert (Hs : exists p', procs (step s e) !! i = Some p' /\
              (left p' = 0 \/ left p' + (if decide (e.1 = i) then 1 else 0) <= left p)).
    { unfold step. destruct (decide (e.1 = i)) as [->|Hne].
      - rewrite Hp. destruct (proc_step _ p e.2) as [f' p'] eqn:Es. exists p'. cbn.
        rewrite lookup_insert_eq. split; [done|]. exact (proc_step_left _ _ _ _ _ (proj1 I _ _ Hp) Es).
      - exists p. split; [|right; lia]. destruct (procs s !! e.1); [|done].
        destruct (proc_step _ _ _). cbn. by rewrite lookup_insert_ne. }
    destruct Hs as (p1 & Hp1 & Hl). destruct (IH (step s e) p1 (keyfile_step_Inv _ _ I) Hp1) as (p2 & Hp2 & Hl2).
    exists p2. split; [exact Hp2|]. unfold steps_of in *.
    destruct (decide (e.1 = i)); [rewrite filter_cons_True, len_cons by done|rewrite filter_cons_False by done];
      [|pose proof (left_nonneg p); lia].
    destruct Hl2 as [|Hl2]; [by left|]. destruct Hl as [Hl|Hl]; [|right; lia].
    destruct (left_done _ Hl) as [r ->]. left. rewrite (done_run es i r _ Hp1) in Hp2. by injection Hp2 as <-. }
  destruct (H es (started path n f) (LoadOrCreateKeyfile path)) as (p & Hp & Hl).
  - apply started_Inv.
  - cbn. apply elem_of_list_to_map_1; [rewrite map_map, map_id; apply NoDup_seq|].
    apply list_elem_of_fmap. exists i. split; [done|]. apply elem_of_seq. lia.
  - assert (left (LoadOrCreateKeyfile path) <= 68) by (unfold LoadOrCreateKeyfile; destruct (bool_decide _); cbn; lia).
    pose proof (left_nonneg p).
    destruct (left_done p) as [r ->]; [lia|]. by exists r.
Qed.
End Keyfile.

(** ** Two first starts at once *)

#[local] Existing Instances Toy.lib.

Module Demo.
(** Key generation that takes the random bytes for the private key. *)
Definition generate (r : list byte) : option Keypair :=
  if bool_decide (len r = KeySize) then Some (MkKeypair (ScalarBaseMult r) r) else None.
Lemma generate_ok r kp :
  generate r = Some kp -> len (Private kp) = KeySize /\ Public kp = ScalarBaseMult (Private kp).
Proof. unfold generate. case_bool_decide; [|done]. by intros [= <-]. Qed.
#[local] Instance keygen : KeyGen := {| DH_GenerateKeypair := generate; generated := generate_ok |}.

(** System calls that work; a write takes 40 bytes. *)
Definition io (x : Z) : env := MkEnv true (replicate 32 (byte_of x)) 40.
Definition system : Sys := started "key" 2 None.

(** Both find no file and make a key; the second to open it takes the first one's. *)
Definition both : list (nat * env) :=
  [(0%nat, io 1); (1%nat, io 2); (0%nat, io 1); (1%nat, io 2)] ++ replicate 4 (0%nat, io 1) ++
  replicate 2 (1%nat, io 2).

Example both_agree :
  let k := MkKeypair (ScalarBaseMult (replicate 32 x01)) (replicate 32 x01) in
  procs (run system both) !! 0%nat = Some (Done (Ok k)) /\
  procs (run system both) !! 1%nat = Some (Done (Ok k)).
Proof. vm_compute. done. Qed.

(** But one that looks while the file is created and not yet written takes it for
    corrupt, and gives up: the retry loop is only for a file that is missing. *)
Example startup_race :
  procs (run system (replicate 3 (0%nat, io 1) ++ [(1%nat, io 2)])) !! 1%nat
  = Some (Done (Err (CorruptLength 0))).
Proof. vm_compute. done. Qed.
End Demo.

Example starter_returns_witness :
  exists r, procs (run (K := Demo.keygen) Demo.system (replicate 68 (1%nat, Demo.io 2))) !! 1%nat
            = Some (Done r).
Proof. apply (starter_returns (K := Demo.keygen) "key" 2 None _ 1%nat); [lia|by vm_compute]. Defined.
