(* ===== verification/Relay.v ===== *)
(** * The UDP relay server (src/internal/relay/relay.go)

    The wrapping codec [WrapPacket]/[ParsePacket], the fixed-window rate budgets
    [take]/[takeGlobal], the sweep, and the packet handler [handlePacket] with the
    receive loop [Run] around it. [time.Now], the result of the socket write and the
    listener are inputs of the handlers. The handler is only called by the receive
    loop, one packet at a time, so a run of the server is a sequence of handler
    calls. *)

From S2P Require Import Prelude GoBytes GoRuntime GoNet.

Definition Magic : byte := x52.
Definition MaxNameLen : Z := 64.
Definition MaxHeaderLen : Z := 1 + 2 + MaxNameLen + 2 + MaxNameLen.

Inductive relay_err :=
| ErrEmptyName | ErrNameTooLong | ErrShortPacket | ErrBadMagic | ErrTruncated
| NameEmpty | NameTooLong        (* the errors of [validateName] *)
| AddrRequired | BindFailed | NotUDP (* the errors of [New] *).
#[export] Instance relay_err_eq_dec : EqDecision relay_err.
Proof. solve_decision. Defined.

(** ** Configuration *)

Record Config := MkConfig {
  Addr : option UDPAddr;
  PinGrace : Duration;
  MaxPPS : Z;
  MaxBytesPS : Z;
  NameQuotaBytes : Z;
  GlobalMaxPPS : Z;
  GlobalMaxBytesPS : Z }.

Definition fillDefaults (c : Config) : Config :=
  {| Addr := Addr c;
     PinGrace := if PinGrace c =? 0 then 30 * Second else PinGrace c;
     MaxPPS := if MaxPPS c =? 0 then 300 else MaxPPS c;
     MaxBytesPS := if MaxBytesPS c =? 0 then Z.shiftl 128 10 else MaxBytesPS c;
     NameQuotaBytes := if NameQuotaBytes c =? 0 then Z.shiftl 256 10 else NameQuotaBytes c;
     GlobalMaxPPS := if GlobalMaxPPS c =? 0 then 5000 else GlobalMaxPPS c;
     GlobalMaxBytesPS :=
       if GlobalMaxBytesPS c =? 0 then Z.shiftl 8 20 else GlobalMaxBytesPS c |}.

(** ** State *)

Record pin := MkPin { addr : option UDPAddr; lastSeen : Time }.
Record counter := MkCounter { start : Time; count : Z }.

Record Stats := MkStats {
  Wrapped : Z; Forwarded : Z; Dropped : Z; PinnedDropped : Z; RateLimited : Z }.

Record Server := MkServer {
  cfg : Config;
  pins : gmap string pin;
  srcRate : gmap string counter;
  srcBytes : gmap string counter;
  nameBytes : gmap string counter;
  globalRate : counter;
  globalBytes : counter;
  lastSweep : Time;
  stats : Stats;
  closed : bool }.

Definition with_pins (s : Server) p : Server :=
  MkServer (cfg s) p (srcRate s) (srcBytes s) (nameBytes s) (globalRate s)
    (globalBytes s) (lastSweep s) (stats s) (closed s).
Definition with_srcRate (s : Server) m : Server :=
  MkServer (cfg s) (pins s) m (srcBytes s) (nameBytes s) (globalRate s)
    (globalBytes s) (lastSweep s) (stats s) (closed s).
Definition with_srcBytes (s : Server) m : Server :=
  MkServer (cfg s) (pins s) (srcRate s) m (nameBytes s) (globalRate s)
    (globalBytes s) (lastSweep s) (stats s) (closed s).
Definition with_nameBytes (s : Server) m : Server :=
  MkServer (cfg s) (pins s) (srcRate s) (srcBytes s) m (globalRate s)
    (globalBytes s) (lastSweep s) (stats s) (closed s).
Definition with_globalRate (s : Server) c : Server :=
  MkServer (cfg s) (pins s) (srcRate s) (srcBytes s) (nameBytes s) c
    (globalBytes s) (lastSweep s) (stats s) (closed s).
Definition with_globalBytes (s : Server) c : Server :=
  MkServer (cfg s) (pins s) (srcRate s) (srcBytes s) (nameBytes s) (globalRate s)
    c (lastSweep s) (stats s) (closed s).
Definition with_stats (s : Server) st : Server :=
  MkServer (cfg s) (pins s) (srcRate s) (srcBytes s) (nameBytes s) (globalRate s)
    (globalBytes s) (lastSweep s) st (closed s).

Definition emptyStats : Stats := MkStats 0 0 0 0 0.

(** [New]: [listen] is [net.ListenPacket("udp", _)] followed by the type assertion. *)
Inductive listen_result := ListenErr | ListenOther | ListenUDP.

Definition New (listen : string -> listen_result) (c : Config) : res relay_err Server :=
  match Addr c with
  | None => Err AddrRequired
  | Some a =>
      let c := fillDefaults c in
      match listen (addr_String a) with
      | ListenErr => Err BindFailed
      | ListenOther => Err NotUDP
      | ListenUDP =>
          Ok (MkServer c ∅ ∅ ∅ ∅ (MkCounter 0 0) (MkCounter 0 0) 0 emptyStats false)
      end
  end.

(** ** Addresses *)

Definition addrEqual (a b : option UDPAddr) : bool :=
  match a, b with
  | Some a, Some b =>
      if negb (Port a =? Port b) || negb (IP_Equal (IP a) (IP b)) then false
      else bool_decide (Zone a = Zone b)
  | None, None => true
  | _, _ => false
  end.

Definition cloneAddr (a : option UDPAddr) : option UDPAddr :=
  match a with
  | None => None
  | Some a => Some (MkUDPAddr (IP a) (Port a) (Zone a))
  end.

(** [UDPAddr.String], which accepts a nil receiver. *)
Definition ptr_String (a : option UDPAddr) : string :=
  match a with None => "<nil>"%string | Some a => addr_String a end.

(** ** The wrapping codec *)

Definition validateName (id : string) : res relay_err () :=
  if bool_decide (id = ""%string) then Err NameEmpty
  else if slen id >? MaxNameLen then Err NameTooLong
  else Ok ().

Definition WrapPacket (srcID dstID : string) (frame : list byte)
    : res relay_err (list byte) :=
  _ ← validateName srcID;
  _ ← validateName dstID;
  Ok ([Magic] ++ be_put 2 (slen srcID) ++ bytes_of_string srcID
        ++ be_put 2 (slen dstID) ++ bytes_of_string dstID ++ frame).

Definition ParsePacket (pkt : list byte)
    : res relay_err (string * string * list byte) :=
  if len pkt <? 1 + 2 + 1 + 2 + 1 then Err ErrShortPacket
  else if negb (bool_decide (hd x00 pkt = Magic)) then Err ErrBadMagic
  else
    let p := drop 1 pkt in
    let srcLen := be_get (take 2 p) in
    let p := drop 2 p in
    if srcLen =? 0 then Err ErrEmptyName
    else if srcLen >? MaxNameLen then Err ErrNameTooLong
    else if len p <? srcLen + 2 then Err ErrTruncated
    else
      let srcID := string_of_bytes (take (Z.to_nat srcLen) p) in
      let p := drop (Z.to_nat srcLen) p in
      let dstLen := be_get (take 2 p) in
      let p := drop 2 p in
      if dstLen =? 0 then Err ErrEmptyName
      else if dstLen >? MaxNameLen then Err ErrNameTooLong
      else if len p <? dstLen then Err ErrTruncated
      else
        let dstID := string_of_bytes (take (Z.to_nat dstLen) p) in
        Ok (srcID, dstID, drop (Z.to_nat dstLen) p).

(** ** Budgets *)

(** [Server.take] on the map [m]: whether the draw was granted, and the map. *)
Definition take_key (m : gmap string counter) (key : string) (amount cap : Z) (now : Time)
    : bool * gmap string counter :=
  if cap <=? 0 then (true, m)
  else
    let fresh :=
      let eff := if amount >? cap then cap else amount in
      (amount <=? cap, <[key := MkCounter now eff]> m) in
    match m !! key with
    | None => fresh
    | Some c =>
        if Sub now (start c) >=? Second then fresh
        else if i64 (count c + amount) >? cap then (false, m)
        else (true, <[key := MkCounter (start c) (i64 (count c + amount))]> m)
    end.

Definition takeGlobal (c : counter) (amount cap : Z) (now : Time) : bool * counter :=
  if cap <=? 0 then (true, c)
  else if Sub now (start c) >=? Second then
    let eff := if amount >? cap then cap else amount in
    (amount <=? cap, MkCounter now eff)
  else if i64 (count c + amount) >? cap then (false, c)
  else (true, MkCounter (start c) (i64 (count c + amount))).

(** ** The sweep *)

Definition stale_counter (now : Time) (c : counter) : bool :=
  Sub now (start c) >? 2 * Second.

Definition sweep_counters (now : Time) (m : gmap string counter) : gmap string counter :=
  filter (fun kc => stale_counter now kc.2 = false) m.

Definition stale_pin (grace : Duration) (now : Time) (p : pin) : bool :=
  Sub now (lastSeen p) >? i64 (2 * grace).

Definition sweep_pins (grace : Duration) (now : Time) (m : gmap string pin)
    : gmap string pin :=
  filter (fun kp => stale_pin grace now kp.2 = false) m.

Definition maybeSweep (s : Server) (now : Time) : Server :=
  if bool_decide (size (srcRate s) + size (srcBytes s) + size (nameBytes s)
                  + size (pins s) <= 4096)%nat then s
  else if Sub now (lastSweep s) <? Second then s
  else
    {| cfg := cfg s;
       pins := sweep_pins (PinGrace (cfg s)) now (pins s);
       srcRate := sweep_counters now (srcRate s);
       srcBytes := sweep_counters now (srcBytes s);
       nameBytes := sweep_counters now (nameBytes s);
       globalRate := globalRate s; globalBytes := globalBytes s;
       lastSweep := now; stats := stats s; closed := closed s |}.

(** ** Counters of the statistics ([uint64]) *)

Definition incForwarded (s : Server) : Server :=
  let t := stats s in
  with_stats s (MkStats (Wrapped t) (u64 (Forwarded t + 1)) (Dropped t)
                  (PinnedDropped t) (RateLimited t)).
Definition incDropped (s : Server) : Server :=
  let t := stats s in
  with_stats s (MkStats (Wrapped t) (Forwarded t) (u64 (Dropped t + 1))
                  (PinnedDropped t) (RateLimited t)).
Definition incPinnedDropped (s : Server) : Server :=
  let t := stats s in
  with_stats s (MkStats (Wrapped t) (Forwarded t) (Dropped t)
                  (u64 (PinnedDropped t + 1)) (RateLimited t)).
Definition incRateLimited (s : Server) : Server :=
  let t := stats s in
  with_stats s (MkStats (Wrapped t) (Forwarded t) (Dropped t)
                  (PinnedDropped t) (u64 (RateLimited t + 1))).
Definition incWrapped (s : Server) : Server :=
  let t := stats s in
  with_stats s (MkStats (u64 (Wrapped t + 1)) (Forwarded t) (Dropped t)
                  (PinnedDropped t) (RateLimited t)).

(** ** The packet handler *)

(** A datagram written to the socket. *)
Abbreviation sent := (option UDPAddr * list byte)%type (only parsing).

(** The two global draws, the second one only when the first was granted. *)
Definition draw_global (s : Server) (n : Z) (now : Time) : bool * Server :=
  let '(ok, c) := takeGlobal (globalRate s) 1 (GlobalMaxPPS (cfg s)) now in
  let s := with_globalRate s c in
  if negb ok then (false, s)
  else
    let '(ok, c) := takeGlobal (globalBytes s) n (GlobalMaxBytesPS (cfg s)) now in
    (ok, with_globalBytes s c).

(** The pin check of the source name: [None] when the packet is a hijack attempt. *)
Definition check_pin (s : Server) (srcID : string) (a : option UDPAddr) (now : Time)
    : option Server :=
  match pins s !! srcID with
  | Some p =>
      if addrEqual (addr p) a then
        Some (with_pins s (<[srcID := MkPin (addr p) now]> (pins s)))
      else if Sub now (lastSeen p) >? PinGrace (cfg s) then
        Some (with_pins s (<[srcID := MkPin a now]> (pins s)))
      else None
  | None => Some (with_pins s (<[srcID := MkPin a now]> (pins s)))
  end.

(** The two per-source draws. *)
Definition draw_source (s : Server) (key : string) (n : Z) (now : Time) : bool * Server :=
  let '(ok, m) := take_key (srcRate s) key 1 (MaxPPS (cfg s)) now in
  let s := with_srcRate s m in
  if negb ok then (false, s)
  else
    let '(ok, m) := take_key (srcBytes s) key n (MaxBytesPS (cfg s)) now in
    (ok, with_srcBytes s m).

(** [handlePacket]: the new state, and the datagram handed to [WriteToUDP]; [wrote]
    says whether that write succeeded. *)
Definition handlePacket (s : Server) (now : Time) (wrote : bool)
    (pkt : list byte) (src : option UDPAddr) : Server * option sent :=
  match ParsePacket pkt with
  | Err _ => (incDropped s, None)
  | Ok (srcID, dstID, frame) =>
      let a := cloneAddr src in
      let s := maybeSweep s now in
      let '(ok, s) := draw_global s (len pkt) now in
      if negb ok then (incRateLimited s, None)
      else
        match check_pin s srcID a now with
        | None => (incPinnedDropped s, None)
        | Some s =>
            let srcKey := ptr_String a in
            let '(ok, s) := draw_source s srcKey (len pkt) now in
            if negb ok then (incRateLimited s, None)
            else
              let s := incWrapped s in
              match pins s !! dstID with
              | None => (incDropped s, None)
              | Some dst =>
                  let '(ok, m) := take_key (nameBytes s) dstID (len frame)
                                    (NameQuotaBytes (cfg s)) now in
                  let s := with_nameBytes s m in
                  if negb ok then (incRateLimited s, None)
                  else
                    let dstAddr := cloneAddr (addr dst) in
                    match WrapPacket srcID dstID frame with
                    | Err _ => (incDropped s, None)
                    | Ok fwd =>
                        if wrote then (incForwarded s, Some (dstAddr, fwd))
                        else (incDropped s, Some (dstAddr, fwd))
                    end
              end
        end
  end.

(** ** The receive loop *)

(** What one [ReadFromUDP] of the loop returned. *)
Inductive read_event :=
| ReadErr (closing : bool)  (* an error; [closing]: the socket is closed or the context done *)
| Packet (now : Time) (wrote : bool) (pkt : list byte) (src : option UDPAddr).

Fixpoint Run (s : Server) (evs : list read_event) : Server * list sent :=
  match evs with
  | [] => (s, [])
  | ReadErr true :: _ => (s, [])
  | ReadErr false :: evs => Run (incDropped s) evs
  | Packet now wrote pkt src :: evs =>
      let '(s, o) := handlePacket s now wrote pkt src in
      let '(s, os) := Run s evs in
      (s, option_list o ++ os)
  end.

(** [Close]: whether this call closed the socket. *)
Definition Close (s : Server) : bool * Server :=
  if closed s then (false, s)
  else (true, MkServer (cfg s) (pins s) (srcRate s) (srcBytes s) (nameBytes s)
                (globalRate s) (globalBytes s) (lastSweep s) (stats s) true).

(** ** The codec *)

Lemma validateName_Ok id : validateName id = Ok () <-> 0 < slen id <= MaxNameLen.
Proof.
  unfold validateName. split.
  - case_bool_decide as Hid; [done|].
    destruct (slen id >? MaxNameLen) eqn:E; zbool; [done|]. intros _.
    pose proof (slen_nonneg id). split; [|lia].
    destruct (Z.eq_dec (slen id) 0) as [?%slen_zero|]; [done|lia].
  - intros [H1 H2]. rewrite bool_decide_eq_false_2 by (intros ->; by vm_compute in H1).
    destruct (slen id >? MaxNameLen) eqn:E; zbool; [lia|done].
Qed.

Lemma WrapPacket_Ok s d f pkt :
  WrapPacket s d f = Ok pkt <->
  0 < slen s <= MaxNameLen /\ 0 < slen d <= MaxNameLen /\
  pkt = [Magic] ++ be_put 2 (slen s) ++ bytes_of_string s
          ++ be_put 2 (slen d) ++ bytes_of_string d ++ f.
Proof.
  unfold WrapPacket. rewrite <- !validateName_Ok. split.
  - intros ([] & ? & ([] & ? & [= <-])%res_bind_Ok)%res_bind_Ok. done.
  - intros (-> & -> & ->). done.
Qed.

Lemma WrapPacket_len s d f pkt : WrapPacket s d f = Ok pkt -> len pkt <= len f + MaxHeaderLen.
Proof.
  intros (Hs & Hd & ->)%WrapPacket_Ok. unfold slen, MaxHeaderLen, MaxNameLen in *. len_lia.
Qed.

(** [ParsePacket] inverts [WrapPacket], and accepts nothing else. *)
Lemma ParsePacket_Ok_Wrap (pkt f : list byte) (s d : string) :
  ParsePacket pkt = Ok (s, d, f) <-> WrapPacket s d f = Ok pkt.
Proof.
  rewrite WrapPacket_Ok. unfold ParsePacket, MaxNameLen. split.
  - destruct pkt as [|m p]; [done|]. cbn [hd drop]. rewrite !drop_0, len_cons.
    repeat destr; intros [= <- <- <-]; zbool; try done. subst m.
    set (sl := be_get (take 2 p)) in *. set (q := drop 2 p) in *.
    set (p2 := drop (Z.to_nat sl) q) in *.
    set (dl := be_get (take 2 p2)) in *. set (r := drop 2 p2) in *.
    pose proof (be_get_range (take 2 p)). pose proof (be_get_range (take 2 p2)).
    assert (len q = len p - 2) by (apply (len_drop 2); lia).
    assert (len p2 = len q - sl) by (apply len_drop; lia).
    unfold slen. rewrite !bytes_string, !len_take by (unfold r in *; lia).
    split_and!; try lia. f_equal.
    rewrite (prefixed_split p) at 1 by lia. cbn [app]. do 2 f_equal. fold sl q.
    rewrite <- (take_drop (Z.to_nat sl) q) at 1. fold p2. rewrite <- ?app_assoc. f_equal.
    rewrite (prefixed_split p2) at 1 by lia. fold dl r. f_equal.
    by rewrite take_drop.
  - intros (Hs & Hd & ->). unfold slen in *.
    set (ls := bytes_of_string s) in *. set (ld := bytes_of_string d) in *.
    cbn [hd drop app]. rewrite drop_0.
    destruct (take_prefixed ls (be_put 2 (len ld) ++ ld ++ f) ltac:(lia)) as [E1 E2].
    destruct (take_prefixed ld f ltac:(lia)) as [E3 E4].
    rewrite E1, E2, drop_len_app, E3, E4, take_len_app, take_len_app, drop_len_app.
    unfold ls, ld. rewrite !string_bytes. fold ls ld.
    rewrite bool_decide_eq_true_2 by done. cbn [negb].
    repeat destr; zbool; try done; len_lia.
Qed.

(** The relay header is a bijection: [ParsePacket] accepts a packet with result
    [(src, dst, frame)] exactly when [WrapPacket] builds that packet from them. *)
Theorem ParsePacket_WrapPacket_iff (pkt f : list byte) (s d : string) :
  ParsePacket pkt = Ok (s, d, f) <-> WrapPacket s d f = Ok pkt.
Proof. apply ParsePacket_Ok_Wrap. Qed.

(** ** Budgets: a potential argument

    [pot t0 t1 cap o] bounds what the budget with counter [o] can still grant
    between [t0] and [t1]. *)

Definition counter_ok (now : Time) (cap : Z) (c : counter) : Prop :=
  0 <= count c <= cap /\ start c <= now.

Definition pot (t0 t1 cap : Z) (o : option counter) : Z :=
  let fresh := cap * ((t1 - t0) / Second + 1) in
  match o with
  | None => fresh
  | Some c =>
      if t0 - start c <? Second then cap - count c + cap * ((t1 - start c) / Second)
      else fresh
  end.

(** A draw from an optional counter: what [take] does at its key. *)
Definition draw (o : option counter) (amount cap now : Z) : bool * counter :=
  match o with
  | Some c => takeGlobal c amount cap now
  | None => (amount <=? cap, MkCounter now (if amount >? cap then cap else amount))
  end.

Lemma take_key_draw m k amount cap now :
  0 < cap ->
  take_key m k amount cap now =
    ((draw (m !! k) amount cap now).1, <[k := (draw (m !! k) amount cap now).2]> m).
Proof.
  intros Hc. unfold take_key, draw, takeGlobal.
  destruct (cap <=? 0) eqn:E; zbool; [lia|].
  destruct (m !! k) as [c|] eqn:Hk; [|done].
  destruct (_ >=? _); [done|]. destruct (_ >? cap); cbn; [|done].
  by rewrite insert_id.
Qed.

Lemma div_second_le a b : a <= b -> a / Second <= b / Second.
Proof. apply Z.div_le_mono. reflexivity. Qed.
Lemma div_second_shift a b : a + Second <= b -> a / Second + 1 <= b / Second.
Proof.
  intros. replace (a / Second + 1) with ((a + 1 * Second) / Second) by (apply Z.div_add; done).
  apply div_second_le. lia.
Qed.

Lemma pot_mono t0 t0' t1 cap o :
  t0 <= t0' -> 0 <= cap -> (forall c, o = Some c -> count c <= cap) ->
  pot t0' t1 cap o <= pot t0 t1 cap o.
Proof.
  intros Ht Hc Ho. unfold pot.
  pose proof (div_second_le (t1 - t0') (t1 - t0) ltac:(lia)).
  destruct o as [c|]; [|nia]. specialize (Ho c eq_refl).
  destruct (t0' - start c <? Second) eqn:E1, (t0 - start c <? Second) eqn:E2; zbool; try nia.
  pose proof (div_second_shift (t1 - t0') (t1 - start c) ltac:(lia)). nia.
Qed.

(** What can be granted over a window is at most one cap per second begun, plus
    what is left of the second under way. *)
Lemma pot_window t0 t1 cap o :
  t0 <= t1 -> 0 < cap -> (forall c, o = Some c -> counter_ok t0 cap c) ->
  pot t0 t1 cap o <= cap * ((t1 - t0) / Second + 2).
Proof.
  intros Ht Hc Ho. unfold pot. destruct o as [c|]; [|nia].
  destruct (Ho c eq_refl). destruct (_ <? _) eqn:E; zbool; [|nia].
  pose proof (div_second_le (t1 - start c) (t1 - t0 + 1 * Second) ltac:(lia)) as Hd.
  rewrite Z.div_add in Hd by done. nia.
Qed.

Lemma draw_pot o amount cap t0 now t1 :
  0 < cap < 2 ^ 62 -> 0 <= amount < 2 ^ 62 -> t0 <= now <= t1 ->
  (forall c, o = Some c -> counter_ok t0 cap c) ->
  let '(ok, c') := draw o amount cap now in
  counter_ok now cap c' /\
  (if ok then amount else 0) + pot now t1 cap (Some c') <= pot t0 t1 cap o.
Proof.
  intros Hc Ha Ht Ho.
  pose proof (pot_mono t0 now t1 cap o ltac:(lia) ltac:(lia)
                ltac:(intros c Hcc; apply (Ho c Hcc))) as Hm.
  assert (Hfresh : forall c : counter,
    counter_ok now cap (MkCounter now (if amount >? cap then cap else amount)) /\
    (if amount <=? cap then amount else 0)
      + pot now t1 cap (Some (MkCounter now (if amount >? cap then cap else amount)))
      <= cap * ((t1 - now) / Second + 1)).
  { intros _. unfold counter_ok, pot; cbn [count start]. rewrite Z.sub_diag.
    change (0 <? Second) with true. cbv iota.
    destruct (amount >? cap) eqn:E1, (amount <=? cap) eqn:E2; zbool; lia. }
  destruct o as [c|]; cbn [draw].
  2:{ destruct (Hfresh (MkCounter 0 0)) as [H1 H2]. split; [exact H1|].
      change (pot now t1 cap None) with (cap * ((t1 - now) / Second + 1)) in Hm. lia. }
  destruct (Ho c eq_refl) as [Hcnt Hst]. unfold takeGlobal.
  destruct (cap <=? 0) eqn:E0; zbool; [lia|]. rewrite Sub_geb by done.
  destruct (_ >=? Second) eqn:E1; zbool.
  - destruct (Hfresh c) as [H1 H2]. split; [exact H1|].
    replace (pot now t1 cap (Some c)) with (cap * ((t1 - now) / Second + 1)) in Hm; [lia|].
    cbn [pot]. destruct (now - start c <? Second) eqn:E2; zbool; [lia|done].
  - rewrite i64_small by lia. unfold counter_ok.
    clear Hfresh. destruct (count c + amount >? cap) eqn:E2; zbool;
      (split; [cbn; lia|]); [lia|].
    cbn [pot start count] in Hm |- *.
    destruct (now - start c <? Second) eqn:E3; zbool; lia.
Qed.

Lemma sweep_pot now t1 cap c :
  0 < cap -> 0 <= count c <= cap -> stale_counter now c = true ->
  pot now t1 cap None = pot now t1 cap (Some c).
Proof.
  intros Hc Hcnt. unfold stale_counter. rewrite Sub_gtb by done. intros Hs; zbool.
  cbn [pot]. destruct (_ <? _) eqn:E; zbool; [unfold Second, Millisecond, Microsecond in *; lia|done].
Qed.

Lemma take_key_pot m k k' amount cap now t1 :
  0 < cap < 2 ^ 62 -> 0 <= amount < 2 ^ 62 -> now <= t1 ->
  (forall c, m !! k' = Some c -> counter_ok now cap c) ->
  let '(ok, m') := take_key m k amount cap now in
  (forall c, m' !! k' = Some c -> counter_ok now cap c) /\
  (if ok && bool_decide (k = k') then amount else 0) + pot now t1 cap (m' !! k')
    <= pot now t1 cap (m !! k').
Proof.
  intros Hc Ha Ht Hok. rewrite take_key_draw by lia. destruct (decide (k = k')) as [<-|Hne].
  - pose proof (draw_pot (m !! k) amount cap now now t1 Hc Ha ltac:(lia) Hok) as Hd.
    destruct (draw _ _ _ _) as [ok c']. cbn [fst snd]. rewrite lookup_insert_eq.
    rewrite bool_decide_eq_true_2, andb_true_r by done. destruct Hd as [Hd1 Hd2].
    split; [intros c [= <-]; exact Hd1 | exact Hd2].
  - rewrite lookup_insert_ne by done. rewrite bool_decide_eq_false_2, andb_false_r by done.
    split; [exact Hok | lia].
Qed.

(** *** The five budgets of the server *)

Inductive budget :=
| GlobalPackets | GlobalBytes
| SourcePackets (key : string) | SourceBytes (key : string)
| NameQuota (name : string).

Definition budget_cap (b : budget) (c : Config) : Z :=
  match b with
  | GlobalPackets => GlobalMaxPPS c
  | GlobalBytes => GlobalMaxBytesPS c
  | SourcePackets _ => MaxPPS c
  | SourceBytes _ => MaxBytesPS c
  | NameQuota _ => NameQuotaBytes c
  end.

Definition budget_counter (b : budget) (s : Server) : option counter :=
  match b with
  | GlobalPackets => Some (globalRate s)
  | GlobalBytes => Some (globalBytes s)
  | SourcePackets k => srcRate s !! k
  | SourceBytes k => srcBytes s !! k
  | NameQuota n => nameBytes s !! n
  end.

(** What forwarding the packet [pkt] received from [src] costs a budget. *)
Definition budget_cost (b : budget) (pkt : list byte) (src : option UDPAddr) : Z :=
  match ParsePacket pkt with
  | Err _ => 0
  | Ok (_, dst, frame) =>
      match b with
      | GlobalPackets => 1
      | GlobalBytes => len pkt
      | SourcePackets k => if bool_decide (ptr_String (cloneAddr src) = k) then 1 else 0
      | SourceBytes k => if bool_decide (ptr_String (cloneAddr src) = k) then len pkt else 0
      | NameQuota n => if bool_decide (dst = n) then len frame else 0
      end
  end.

Definition budget_ok (b : budget) (now : Time) (s : Server) : Prop :=
  forall c, budget_counter b s = Some c -> counter_ok now (budget_cap b (cfg s)) c.

(** One stage of the handler at time [now] charges at most [w] to budget [b]. *)
Definition stage (b : budget) (now t1 w : Z) (s s' : Server) : Prop :=
  cfg s' = cfg s /\
  (budget_ok b now s ->
   budget_ok b now s' /\
   w + pot now t1 (budget_cap b (cfg s)) (budget_counter b s')
     <= pot now t1 (budget_cap b (cfg s)) (budget_counter b s)).

Lemma stage_same b now t1 s s' :
  cfg s' = cfg s -> budget_counter b s' = budget_counter b s -> stage b now t1 0 s s'.
Proof.
  intros Hcfg Hb. split; [done|]. unfold budget_ok. rewrite Hcfg, Hb. intros H.
  split; [exact H | lia].
Qed.

Lemma stage_trans b now t1 w1 w2 s1 s2 s3 :
  stage b now t1 w1 s1 s2 -> stage b now t1 w2 s2 s3 -> stage b now t1 (w1 + w2) s1 s3.
Proof.
  intros [E1 H1] [E2 H2]. split; [congruence|]. intros Hok.
  destruct (H1 Hok) as [Hok2 ?]. destruct (H2 Hok2) as [Hok3 Hp].
  rewrite E1 in Hp. split; [exact Hok3 | lia].
Qed.

Section Stages.
Context (b : budget) (now t1 : Z) (s : Server).
Hypothesis (Hcap : 0 < budget_cap b (cfg s) < 2 ^ 62) (Ht : now <= t1).

Lemma sweep_counters_stage (m : gmap string counter) k cap :
  0 < cap -> (forall c, m !! k = Some c -> counter_ok now cap c) ->
  (forall c, sweep_counters now m !! k = Some c -> counter_ok now cap c) /\
  pot now t1 cap (sweep_counters now m !! k) <= pot now t1 cap (m !! k).
Proof.
  intros Hc Hok. unfold sweep_counters. rewrite map_lookup_filter.
  destruct (m !! k) as [c|]; simpl mbind; [|split; [done|lia]].
  destruct (Hok c eq_refl) as [Hcnt ?].
  destruct (stale_counter now c) eqn:Hs.
  - rewrite option_guard_False by (cbn; congruence).
    split; [done|]. change (None ≫= _) with (@None counter). rewrite (sweep_pot now t1 cap c) by done. lia.
  - rewrite option_guard_True by done.
    change (Some _ ≫= _) with (Some c). split; [intros ? [= <-]; by apply Hok | lia].
Qed.

Lemma maybeSweep_stage : stage b now t1 0 s (maybeSweep s now).
Proof.
  unfold maybeSweep. destruct (bool_decide _); [by apply stage_same|].
  destruct (Sub _ _ <? _); [by apply stage_same|]. split; [done|]. unfold budget_ok.
  destruct b; cbn [budget_counter budget_cap cfg globalRate globalBytes srcRate srcBytes nameBytes] in *;
    intros Hok; try (split; [exact Hok | lia]);
    destruct (sweep_counters_stage _ _ _ (proj1 Hcap) Hok); (split; [done | lia]).
Qed.

Lemma check_pin_stage srcID a s' : check_pin s srcID a now = Some s' -> stage b now t1 0 s s'.
Proof.
  unfold check_pin. intros H. repeat destr_in H; simplify_eq; by apply stage_same.
Qed.

Lemma draw_global_stage n ok s' :
  0 <= n < 2 ^ 62 -> draw_global s n now = (ok, s') ->
  stage b now t1 (if ok then match b with GlobalPackets => 1 | GlobalBytes => n | _ => 0 end
                  else 0) s s'.
Proof.
  intros Hn. unfold draw_global.
  pose proof (draw_pot (Some (globalRate s)) 1 (GlobalMaxPPS (cfg s)) now now t1) as H1.
  pose proof (draw_pot (Some (globalBytes s)) n (GlobalMaxBytesPS (cfg s)) now now t1) as H2.
  cbn [draw] in H1, H2.
  destruct (takeGlobal (globalRate s) _ _ _) as [ok1 c1].
  change (globalBytes (with_globalRate s c1)) with (globalBytes s).
  change (cfg (with_globalRate s c1)) with (cfg s).
  destruct (takeGlobal (globalBytes s) _ _ _) as [ok2 c2].
  destruct b; cbn [budget_cap] in Hcap;
    destruct ok1; cbn [negb]; intros [= <- <-];
    try (destruct ok2; by apply stage_same); try by apply stage_same.
  all: split; [done|]; unfold budget_ok;
    cbn [budget_counter budget_cap with_globalRate with_globalBytes globalRate globalBytes cfg].
  1,2: intros Hok; destruct (H1 Hcap ltac:(lia) ltac:(lia) Hok) as [G1 G2];
       split; [intros ? [= <-]; exact G1 | destruct ok2; lia].
  intros Hok; destruct (H2 Hcap Hn ltac:(lia) Hok) as [G1 G2];
    split; [intros ? [= <-]; exact G1 | destruct ok2; lia].
Qed.

Lemma draw_source_stage key n ok s' :
  0 <= n < 2 ^ 62 -> draw_source s key n now = (ok, s') ->
  stage b now t1 (if ok then match b with
                             | SourcePackets k => if bool_decide (key = k) then 1 else 0
                             | SourceBytes k => if bool_decide (key = k) then n else 0
                             | _ => 0 end
                  else 0) s s'.
Proof.
  intros Hn. unfold draw_source.
  pose proof (fun k => take_key_pot (srcRate s) key k 1 (MaxPPS (cfg s)) now t1) as H1.
  pose proof (fun k => take_key_pot (srcBytes s) key k n (MaxBytesPS (cfg s)) now t1) as H2.
  destruct (take_key (srcRate s) _ _ _ _) as [ok1 c1].
  change (srcBytes (with_srcRate s c1)) with (srcBytes s).
  change (cfg (with_srcRate s c1)) with (cfg s).
  destruct (take_key (srcBytes s) _ _ _ _) as [ok2 c2].
  destruct b; cbn [budget_cap] in Hcap;
    destruct ok1; cbn [negb]; intros [= <- <-];
    try (destruct ok2; by apply stage_same); try by apply stage_same.
  all: split; [done|]; unfold budget_ok;
    cbn [budget_counter budget_cap with_srcRate with_srcBytes srcRate srcBytes cfg].
  1,2: intros Hok; destruct (H1 _ Hcap ltac:(lia) Ht Hok) as [G1 G2];
       split; [exact G1 | destruct ok2; cbn [andb] in G2; repeat case_bool_decide; lia].
  intros Hok; destruct (H2 _ Hcap Hn Ht Hok) as [G1 G2];
    split; [exact G1 | destruct ok2; cbn [andb] in G2; repeat case_bool_decide; lia].
Qed.

Lemma draw_name_stage name n ok m :
  0 <= n < 2 ^ 62 -> take_key (nameBytes s) name n (NameQuotaBytes (cfg s)) now = (ok, m) ->
  stage b now t1 (if ok then match b with
                             | NameQuota k => if bool_decide (name = k) then n else 0
                             | _ => 0 end
                  else 0) s (with_nameBytes s m).
Proof.
  intros Hn Htk.
  pose proof (fun k => take_key_pot (nameBytes s) name k n (NameQuotaBytes (cfg s)) now t1) as H1.
  rewrite Htk in H1. destruct b; try (destruct ok; by apply stage_same).
  split; [done|]; unfold budget_ok;
    cbn [budget_counter budget_cap with_nameBytes nameBytes cfg] in *.
  intros Hok; destruct (H1 _ Hcap Hn Ht Hok) as [G1 G2];
    split; [exact G1 | destruct ok; cbn [andb] in G2; repeat case_bool_decide; lia].
Qed.
End Stages.

(** *** One packet, then a run *)

Definition is_Some_b {A} (o : option A) : bool :=
  match o with Some _ => true | None => false end.

Lemma ParsePacket_len pkt s d f : ParsePacket pkt = Ok (s, d, f) -> len f <= len pkt.
Proof. intros (_ & _ & ->)%ParsePacket_Ok_Wrap%WrapPacket_Ok. len_lia. Qed.

Lemma stage_le b now t1 w w' s s' :
  stage b now t1 w s s' -> w' <= w -> stage b now t1 w' s s'.
Proof.
  intros [Hc H] Hw. split; [exact Hc|]. intros Hok. destruct (H Hok). split; [done|lia].
Qed.

(** A stage followed by an update of the statistics. *)
Lemma stage_stats b now t1 w w' s s' st :
  stage b now t1 w s s' -> w' <= w -> stage b now t1 w' s (with_stats s' st).
Proof.
  intros H Hw. apply (stage_le _ _ _ (w + 0)); [|lia].
  apply (stage_trans _ _ _ _ _ _ _ _ H). apply stage_same; [done|by destruct b].
Qed.

Ltac peel H E :=
  match type of H with
  | (let '(_, _) := ?e in _) = _ => destruct e as [? ?] eqn:E
  end.
Ltac cap_of S := rewrite (proj1 S); first [assumption | done].
Ltac costs b := cbn [is_Some_b]; destruct b; repeat case_bool_decide; lia.

Lemma handlePacket_stage b now t1 s wrote pkt src s' o :
  0 < budget_cap b (cfg s) < 2 ^ 62 -> now <= t1 -> len pkt <= 65536 ->
  handlePacket s now wrote pkt src = (s', o) ->
  stage b now t1 (if is_Some_b o then budget_cost b pkt src else 0) s s'.
Proof.
  intros Hcap Ht Hlen. unfold handlePacket, budget_cost.
  destruct (ParsePacket pkt) as [[[srcID dstID] frame]|] eqn:Hp.
  2:{ intros [= <- <-]. apply (stage_stats _ _ _ 0); [by apply stage_same|cbn [is_Some_b]; lia]. }
  pose proof (ParsePacket_len _ _ _ _ Hp). pose proof (len_nonneg frame).
  pose proof (len_nonneg pkt).
  intros Hh. pose proof (maybeSweep_stage b now t1 s Hcap) as S1.
  set (sA := maybeSweep s now) in *. peel Hh E.
  apply (draw_global_stage b now t1) in E; [|cap_of S1|lia..].
  pose proof (stage_trans _ _ _ _ _ _ _ _ S1 E) as S2. clear S1 E.
  destruct b0; cbn [negb] in Hh.
  2:{ simplify_eq. eapply stage_stats; [exact S2|cbn [is_Some_b]; lia]. }
  destruct (check_pin _ _ _ _) as [sC|] eqn:E.
  2:{ simplify_eq. eapply stage_stats; [exact S2|costs b]. }
  apply (check_pin_stage b now t1) in E.
  pose proof (stage_trans _ _ _ _ _ _ _ _ S2 E) as S3. clear S2 E.
  peel Hh E. apply (draw_source_stage b now t1) in E; [|cap_of S3|lia..].
  pose proof (stage_trans _ _ _ _ _ _ _ _ S3 E) as S4. clear S3 E.
  destruct b0; cbn [negb] in Hh.
  2:{ simplify_eq. eapply stage_stats; [exact S4|costs b]. }
  pose proof (stage_stats _ _ _ _ _ _ _ (stats (incWrapped s1)) S4 (Z.le_refl _)) as S5.
  change (with_stats s1 (stats (incWrapped s1))) with (incWrapped s1) in S5. clear S4.
  set (s2 := incWrapped s1) in *.
  destruct (pins s2 !! dstID) as [dst|].
  2:{ simplify_eq. eapply stage_stats; [exact S5|costs b]. }
  peel Hh E. apply (draw_name_stage b now t1) in E; [|cap_of S5|lia..].
  pose proof (stage_trans _ _ _ _ _ _ _ _ S5 E) as S6. clear S5 E.
  destruct b0; cbn [negb] in Hh.
  2:{ simplify_eq. eapply stage_stats; [exact S6|costs b]. }
  destruct (WrapPacket _ _ _); [destruct wrote|];
    simplify_eq; (eapply stage_stats; [exact S6|cbn [is_Some_b]; costs b]).
Qed.

(** The packets a run forwards, with the address each came from. *)
Fixpoint forwarded (s : Server) (evs : list read_event) : list (list byte * option UDPAddr) :=
  match evs with
  | [] => []
  | ReadErr true :: _ => []
  | ReadErr false :: evs => forwarded (incDropped s) evs
  | Packet now wrote pkt src :: evs =>
      let '(s, o) := handlePacket s now wrote pkt src in
      if is_Some_b o then (pkt, src) :: forwarded s evs else forwarded s evs
  end.

(** Events whose packets arrive in time order between [t0] and [t1] and fit the
    receive buffer. *)
Fixpoint timed (t0 t1 : Time) (evs : list read_event) : Prop :=
  match evs with
  | [] => t0 <= t1
  | ReadErr _ :: evs => timed t0 t1 evs
  | Packet now _ pkt _ :: evs => t0 <= now /\ len pkt <= 65536 /\ timed now t1 evs
  end.

Lemma timed_le t0 t1 evs : timed t0 t1 evs -> t0 <= t1.
Proof.
  revert t0. induction evs as [|[|now ? ? ?] evs IH]; cbn; intros t0 H; [done|auto|].
  destruct H as (? & _ & ?%IH). lia.
Qed.

Definition total_cost (b : budget) (l : list (list byte * option UDPAddr)) : Z :=
  fold_right (fun x acc => budget_cost b x.1 x.2 + acc) 0 l.

Lemma budget_ok_mono b t t' s : t <= t' -> budget_ok b t s -> budget_ok b t' s.
Proof. intros Ht H c Hc. destruct (H c Hc). split; [done|lia]. Qed.

Lemma pot_nonneg t0 t1 cap o :
  t0 <= t1 -> 0 <= cap -> (forall c, o = Some c -> counter_ok t0 cap c) -> 0 <= pot t0 t1 cap o.
Proof.
  intros Ht Hc Ho. unfold pot. pose proof (Z.div_pos (t1 - t0) Second ltac:(lia) eq_refl).
  destruct o as [c|]; [|nia]. destruct (Ho c eq_refl).
  pose proof (Z.div_pos (t1 - start c) Second ltac:(lia) eq_refl).
  destruct (_ <? _); nia.
Qed.

Lemma run_budget b evs : forall t0 t1 s,
  timed t0 t1 evs -> 0 < budget_cap b (cfg s) < 2 ^ 62 -> budget_ok b t0 s ->
  total_cost b (forwarded s evs) <= pot t0 t1 (budget_cap b (cfg s)) (budget_counter b s) /\
  (budget_ok b t1 (Run s evs).1) /\ cfg (Run s evs).1 = cfg s.
Proof.
  induction evs as [|[[]|now wrote pkt src] evs IH]; cbn [timed forwarded Run]; intros t0 t1 s Ht Hcap Hok.
  - split_and!; [|by eapply budget_ok_mono|done].
    cbn. apply pot_nonneg; [done|lia|exact Hok].
  - pose proof (timed_le _ _ _ Ht). split_and!; [|by eapply budget_ok_mono|done].
    cbn. apply pot_nonneg; [done|lia|exact Hok].
  - specialize (IH t0 t1 (incDropped s) Ht Hcap).
    replace (budget_counter b (incDropped s)) with (budget_counter b s) in IH by (by destruct b).
    apply IH. intros c Hc. apply Hok. rewrite <- Hc. by destruct b.
  - destruct Ht as (Ht0 & Hlen & Ht). pose proof (timed_le _ _ _ Ht) as Ht1.
    destruct (handlePacket s now wrote pkt src) as [s' o] eqn:Hh.
    destruct (handlePacket_stage b now t1 s wrote pkt src s' o Hcap Ht1 Hlen Hh) as [Hcfg Hst].
    destruct (Hst (budget_ok_mono _ _ _ _ Ht0 Hok)) as [Hok' Hpot].
    specialize (IH now t1 s' Ht ltac:(by rewrite Hcfg) Hok'). rewrite Hcfg in IH.
    destruct (Run s' evs) as [s'' os]. cbn [fst] in *. destruct IH as (IH1 & IH2 & IH3).
    split_and!; [|done|congruence].
    pose proof (pot_mono t0 now t1 (budget_cap b (cfg s)) (budget_counter b s) Ht0 ltac:(lia)
                  ltac:(intros c Hc; apply (Hok c Hc))).
    destruct o; cbn [is_Some_b total_cost fold_right fst snd] in *; unfold total_cost in *; lia.
Qed.

(** [C10] Budgets bound the relay's work: whatever packets arrived before, over any
    window [t0, t1] of a run of a server made by [New] the packets and bytes that are
    forwarded in total, from one source address, and to one destination name are at
    most the configured cap times the seconds the window touches. *)
Theorem relay_budgets (listen : string -> listen_result) (c : Config) (s0 : Server)
    (pre evs : list read_event) (t0 t1 : Time) (b : budget)
    (Hnew : New listen c = Ok s0)
    (Hpre : timed 0 t0 pre) (Hevs : timed t0 t1 evs)
    (Hcap : 0 < budget_cap b (cfg s0) < 2 ^ 62) :
  total_cost b (forwarded (Run s0 pre).1 evs)
    <= budget_cap b (cfg s0) * ((t1 - t0) / Second + 2).
Proof.
  assert (Hok0 : budget_ok b 0 s0).
  { unfold New in Hnew. repeat destr_in Hnew; simplify_eq. intros c0 Hc0.
    destruct b; cbn in Hc0; simplify_eq; (split; [cbn in *; lia|done]). }
  destruct (run_budget b pre 0 t0 s0 Hpre Hcap Hok0) as (_ & Hok & Hcfg).
  rewrite <- Hcfg in Hcap |- *.
  destruct (run_budget b evs t0 t1 _ Hevs Hcap Hok) as (H & _ & _).
  etransitivity; [exact H|]. apply pot_window; [by eapply timed_le | lia | exact Hok].
Qed.

(** ** Pins *)

Lemma IP_Equal_refl ip : IP_Equal ip ip = true.
Proof. unfold IP_Equal. rewrite Z.eqb_refl. by apply bool_decide_eq_true_2. Qed.

Lemma addrEqual_refl a : addrEqual a a = true.
Proof.
  destruct a as [a|]; [|done]. cbn. rewrite Z.eqb_refl, IP_Equal_refl. cbn.
  by apply bool_decide_eq_true_2.
Qed.

Lemma cloneAddr_id a : cloneAddr a = a.
Proof. by destruct a as [[]|]. Qed.

Lemma draw_global_pins s n now ok s' :
  draw_global s n now = (ok, s') -> pins s' = pins s /\ cfg s' = cfg s /\ stats s' = stats s.
Proof. unfold draw_global. intros H. repeat destr_in H; by simplify_eq. Qed.

Lemma draw_source_pins s key n now ok s' :
  draw_source s key n now = (ok, s') -> pins s' = pins s /\ cfg s' = cfg s /\ stats s' = stats s.
Proof. unfold draw_source. intros H. repeat destr_in H; by simplify_eq. Qed.

Lemma check_pin_spec s srcID a now s' :
  check_pin s srcID a now = Some s' ->
  cfg s' = cfg s /\ stats s' = stats s /\
  exists q, pins s' = <[srcID := q]> (pins s) /\ lastSeen q = now /\
            addrEqual (addr q) a = true.
Proof.
  unfold check_pin. intros H.
  repeat destr_in H; simplify_eq; (split; [done|split; [done|]]); eexists;
    (split; [reflexivity|]); cbn; (split; [done|]); first [done | apply addrEqual_refl].
Qed.

Lemma maybeSweep_same s now :
  cfg (maybeSweep s now) = cfg s /\ stats (maybeSweep s now) = stats s.
Proof. unfold maybeSweep. by repeat destr. Qed.

(** A swept pin was idle for longer than twice the grace period. *)
Lemma maybeSweep_pin s now n p :
  pins s !! n = Some p -> Sub now (lastSeen p) <= i64 (2 * PinGrace (cfg s)) ->
  pins (maybeSweep s now) !! n = Some p.
Proof.
  intros Hp Hs. unfold maybeSweep. repeat destr; try done. cbn. unfold sweep_pins.
  apply map_lookup_filter_Some. split; [done|]. cbn. unfold stale_pin.
  rewrite Z.gtb_ltb. apply Z.ltb_ge. done.
Qed.

(** What a forwarded datagram is, and what the pins then say. *)
Lemma handlePacket_case (s s' : Server) (now : Time) (wrote : bool)
    (pkt fwd : list byte) (src a : option UDPAddr)
    (H : handlePacket s now wrote pkt src = (s', Some (a, fwd))) :
  fwd = pkt /\
  exists srcID dstID frame p q,
    ParsePacket pkt = Ok (srcID, dstID, frame) /\
    pins s' !! dstID = Some p /\ addr p = a /\
    pins s' !! srcID = Some q /\ lastSeen q = now /\ addrEqual (addr q) src = true.
Proof.
  unfold handlePacket in H.
  destruct (ParsePacket pkt) as [[[srcID dstID] frame]|] eqn:Hp; [|done].
  peel H E1. apply draw_global_pins in E1 as (P1 & _).
  destruct b; cbn [negb] in H; [|done].
  destruct (check_pin _ _ _ _) as [sC|] eqn:E2; [|done].
  apply check_pin_spec in E2 as (_ & _ & q & P2 & Hq1 & Hq2).
  peel H E3. apply draw_source_pins in E3 as (P3 & _).
  destruct b; cbn [negb] in H; [|done].
  change (pins (incWrapped s1)) with (pins s1) in H. rewrite P3, P2 in H.
  destruct (<[_:=_]> _ !! dstID) as [dst|] eqn:Hd; [|done].
  peel H E4. destruct b; cbn [negb] in H; [|done].
  pose proof Hp as Hw. apply ParsePacket_Ok_Wrap in Hw. rewrite Hw in H.
  rewrite cloneAddr_id in Hq2, H.
  split; [by destruct wrote; simplify_eq|].
  exists srcID, dstID, frame, dst, q.
  assert (pins s' = pins s1 /\ a = addr dst) as [-> ->] by (destruct wrote; by simplify_eq).
  rewrite P3, P2, lookup_insert_eq. done.
Qed.

(** What the relay sends: a datagram leaves the relay only if it is a
    well-formed packet, and then it is the received packet byte for byte, sent to the
    address the destination name is pinned to, while the source name is pinned to an
    endpoint equal to the sender's. *)
Theorem handlePacket_forwards (s s' : Server) (now : Time) (wrote : bool)
    (pkt fwd : list byte) (src a : option UDPAddr)
    (H : handlePacket s now wrote pkt src = (s', Some (a, fwd))) :
  fwd = pkt /\
  exists srcID dstID frame p q,
    ParsePacket pkt = Ok (srcID, dstID, frame) /\
    pins s' !! dstID = Some p /\ addr p = a /\
    pins s' !! srcID = Some q /\ lastSeen q = now /\ addrEqual (addr q) src = true.
Proof. by apply (handlePacket_case s s' now wrote). Qed.

(** The pin of [n] while nobody equal to its owner sends. *)
Lemma handlePacket_foreign s now wrote pkt src s' o n p :
  0 < PinGrace (cfg s) < 2 ^ 62 ->
  pins s !! n = Some p -> lastSeen p <= now <= lastSeen p + PinGrace (cfg s) ->
  (forall d f, ParsePacket pkt = Ok (n, d, f) -> addrEqual (addr p) src = false) ->
  handlePacket s now wrote pkt src = (s', o) ->
  cfg s' = cfg s /\ pins s' !! n = Some p /\
  (is_Some_b o = true -> forall d f, ParsePacket pkt <> Ok (n, d, f)).
Proof.
  intros Hg Hp Hnow Hfor H.
  assert (Hp1 : pins (maybeSweep s now) !! n = Some p).
  { apply maybeSweep_pin; [done|]. rewrite i64_small by lia. unfold Sub, minDuration. lia. }
  destruct (maybeSweep_same s now) as [C1 _].
  unfold handlePacket in H. rewrite cloneAddr_id in H.
  destruct (ParsePacket pkt) as [[[srcID dstID] frame]|] eqn:Hpp; [|by simplify_eq].
  peel H E1. apply draw_global_pins in E1 as (P1 & C2 & _). rewrite <- P1 in Hp1.
  assert (C3 : cfg s0 = cfg s) by congruence. clear C1 C2 P1.
  destruct b; cbn [negb] in H; [|by simplify_eq].
  destruct (decide (srcID = n)) as [->|Hne].
  { unfold check_pin in H. rewrite Hp1, (Hfor _ _ eq_refl), C3 in H.
    rewrite Sub_gtb in H by (unfold minDuration, maxDuration; lia).
    destruct (_ >? _) eqn:E; zbool; [lia|]. simplify_eq. done. }
  destruct (check_pin _ _ _ _) as [sC|] eqn:E2; [|by simplify_eq].
  apply check_pin_spec in E2 as (C4 & _ & q & P2 & _).
  peel H E3. apply draw_source_pins in E3 as (P3 & C5 & _).
  assert (cfg s' = cfg s1 /\ pins s' = pins s1) as [-> ->]
    by (repeat destr_in H; by simplify_eq).
  split; [congruence|]. split; [rewrite P3, P2, lookup_insert_ne; done|].
  intros _ d f Heq. congruence.
Qed.

(** Packets claiming the source name [n] from endpoints other than [a] only. *)
Definition foreign (n : string) (a : option UDPAddr) (evs : list read_event) : Prop :=
  Forall (fun e => match e with
                   | ReadErr _ => True
                   | Packet _ _ pkt src =>
                       forall d f, ParsePacket pkt = Ok (n, d, f) -> addrEqual a src = false
                   end) evs.

(** [C11] A fresh pin cannot be hijacked: while a name's pin has been used within the
    last [PinGrace], no sequence of packets from other endpoints, whatever they claim
    and however many they are, moves or refreshes the pin, and none of the packets
    claiming that name is forwarded. *)
Theorem pin_not_hijacked (n : string) (p : pin) (evs : list read_event) (s : Server)
    (t1 : Time)
    (Hgrace : 0 < PinGrace (cfg s) < 2 ^ 62)
    (Hpin : pins s !! n = Some p)
    (Htime : timed (lastSeen p) t1 evs) (Hfresh : t1 <= lastSeen p + PinGrace (cfg s))
    (Hforeign : foreign n (addr p) evs) :
  pins (Run s evs).1 !! n = Some p /\
  Forall (fun x => forall d f, ParsePacket x.1 <> Ok (n, d, f)) (forwarded s evs).
Proof.
  assert (Hle : lastSeen p <= lastSeen p) by lia. revert Hle Htime.
  generalize (lastSeen p) at 2 3 as t0. intros t0 Hle Htime.
  revert s t0 Hgrace Hpin Hle Htime Hfresh.
  induction Hforeign as [|e evs He _ IH]; intros s t0 Hgrace Hpin Hle Htime Hfresh; [done|].
  destruct e as [[]|now wrote pkt src]; cbn [Run forwarded timed] in *; [done|by apply (IH (incDropped s) t0)|].
  destruct Htime as (? & _ & Ht). pose proof (timed_le _ _ _ Ht).
  destruct (handlePacket s now wrote pkt src) as [s' o] eqn:Hh.
  destruct (handlePacket_foreign s now wrote pkt src s' o n p) as (Hc & Hp' & Ho); try done; [lia|].
  destruct (IH s' now) as [H1 H2]; rewrite ?Hc; try done; [lia|].
  destruct (Run s' evs) as [s'' os]. split; [exact H1|].
  destruct o; cbn [is_Some_b] in *; [|exact H2]. constructor; [by apply Ho|exact H2].
Qed.

(** ** Statistics *)

Definition outcomes (t : Stats) : Z :=
  Forwarded t + Dropped t + PinnedDropped t + RateLimited t.

(** The events a run handles: those before the read that ends it. *)
Fixpoint handled (evs : list read_event) : Z :=
  match evs with
  | [] | ReadErr true :: _ => 0
  | _ :: evs => 1 + handled evs
  end.

Lemma u64_cong a b : u64 a = u64 b <-> exists k, a = b + k * 2 ^ 64.
Proof.
  unfold u64. split.
  - intros H. exists (a / 2 ^ 64 - b / 2 ^ 64).
    pose proof (Z.div_mod a (2 ^ 64)). pose proof (Z.div_mod b (2 ^ 64)). lia.
  - intros [k ->]. by rewrite Z.mod_add.
Qed.

Lemma u64_mod z : exists k, u64 z = z + k * 2 ^ 64.
Proof. apply u64_cong. unfold u64. by rewrite Z.mod_mod. Qed.

Lemma inc_outcomes s f :
  (f = incForwarded \/ f = incDropped \/ f = incPinnedDropped \/ f = incRateLimited) ->
  u64 (outcomes (stats (f s))) = u64 (outcomes (stats s) + 1).
Proof.
  intros Hf. apply u64_cong. destruct_or! Hf; subst f;
    unfold outcomes; cbn;
    match goal with |- context [u64 ?z] => destruct (u64_mod z) as [k ->] end; exists k; lia.
Qed.

Lemma outcomes_eq s s' : stats s' = stats s -> outcomes (stats s') = outcomes (stats s).
Proof. by intros ->. Qed.

Lemma handlePacket_outcomes s now wrote pkt src :
  u64 (outcomes (stats (handlePacket s now wrote pkt src).1))
  = u64 (outcomes (stats s) + 1).
Proof.
  unfold handlePacket. destruct (ParsePacket pkt) as [[[srcID dstID] frame]|];
    [|apply inc_outcomes; tauto].
  rewrite <- (outcomes_eq _ _ (proj2 (maybeSweep_same s now))).
  destruct (draw_global _ _ _) as [ok sB] eqn:E1. apply draw_global_pins in E1 as (_ & _ & E1).
  rewrite <- (outcomes_eq _ _ E1).
  destruct ok; cbn [negb]; [|apply inc_outcomes; tauto].
  destruct (check_pin _ _ _ _) as [sC|] eqn:E2; [|apply inc_outcomes; tauto].
  apply check_pin_spec in E2 as (_ & E2 & _). rewrite <- (outcomes_eq _ _ E2).
  destruct (draw_source _ _ _ _) as [ok sD] eqn:E3. apply draw_source_pins in E3 as (_ & _ & E3).
  rewrite <- (outcomes_eq _ _ E3).
  destruct ok; cbn [negb]; [|apply inc_outcomes; tauto].
  change (outcomes (stats sD)) with (outcomes (stats (incWrapped sD))).
  destruct (_ !! dstID); [|apply inc_outcomes; tauto].
  destruct (take_key _ _ _ _ _) as [ok m].
  change (outcomes (stats (incWrapped sD)))
    with (outcomes (stats (with_nameBytes (incWrapped sD) m))).
  destruct ok; cbn [negb]; [|apply inc_outcomes; tauto].
  destruct (WrapPacket _ _ _); [destruct wrote|]; apply inc_outcomes; tauto.
Qed.

(** Every datagram is accounted for exactly once: over any run, the four outcome
    counters (forwarded, dropped, pinned-dropped, rate-limited) together advance by
    the number of reads handled, up to the wrap-around of [uint64]. *)
Theorem stats_conservation (evs : list read_event) (s : Server) :
  u64 (outcomes (stats (Run s evs).1)) = u64 (outcomes (stats s) + handled evs).
Proof.
  revert s. induction evs as [|[[]|now wrote pkt src] evs IH]; intros s; cbn [Run handled].
  1,2: by rewrite Z.add_0_r.
  - rewrite IH. destruct (proj1 (u64_cong _ _) (inc_outcomes s incDropped ltac:(tauto))) as [k ->].
    apply u64_cong. exists k. lia.
  - pose proof (handlePacket_outcomes s now wrote pkt src) as Hh.
    destruct (handlePacket s now wrote pkt src) as [s' o].
    specialize (IH s'). destruct (Run s' evs) as [s'' os]. cbn [fst] in *. rewrite IH.
    destruct (proj1 (u64_cong _ _) Hh) as [k ->]. apply u64_cong. exists k. lia.
Qed.

(** ** Witnesses *)

Module Demo.

Definition lo (port : Z) : option UDPAddr := Some (MkUDPAddr [x7f; x00; x00; x01] port "").
Definition conf : Config := MkConfig (lo 0) 0 2 0 10 0 0.
Definition srv : Server :=
  match New (fun _ => ListenUDP) conf with
  | Ok s => s
  | Err _ => MkServer conf ∅ ∅ ∅ ∅ (MkCounter 0 0) (MkCounter 0 0) 0 emptyStats true
  end.
Definition wrap (s d : string) (f : list byte) : list byte :=
  match WrapPacket s d f with Ok p => p | Err _ => [] end.
Definition T0 : Time := 1000 * Second.
Definition pre : list read_event :=
  [Packet T0 true (wrap "alice" "bob" [x01]) (lo 1001);
   Packet T0 true (wrap "bob" "alice" [x02]) (lo 1002)].
Definition hijack : list read_event :=
  [Packet (T0 + Second) true (wrap "alice" "bob" [x03]) (lo 6666);
   ReadErr false;
   Packet (T0 + 2 * Second) true (wrap "bob" "alice" [x04; x05]) (lo 1002)].
End Demo.
Import Demo.

Example forwarded_demo :
  (Run (Run srv pre).1 hijack).2 = [(lo 1001, wrap "bob" "alice" [x04; x05])].
Proof. reflexivity. Qed.

Example relay_budgets_witness :
  total_cost (NameQuota "alice") (forwarded (Run srv pre).1 hijack) = 2 /\
  total_cost (NameQuota "alice") (forwarded (Run srv pre).1 hijack) <= 10 * (2 + 2).
Proof.
  split; [reflexivity|].
  apply (relay_budgets (fun _ => ListenUDP) conf srv pre hijack T0 (T0 + 2 * Second)
           (NameQuota "alice")); first [reflexivity | now (vm_compute; repeat split)].
Defined.

Example handlePacket_forwards_witness :
  exists s', handlePacket (Run srv pre).1 (T0 + 2 * Second) true (wrap "bob" "alice" [x04; x05])
    (lo 1002) = (s', Some (lo 1001, wrap "bob" "alice" [x04; x05])) /\
  exists srcID dstID frame p q,
    ParsePacket (wrap "bob" "alice" [x04; x05]) = Ok (srcID, dstID, frame) /\
    pins s' !! dstID = Some p /\ addr p = lo 1001 /\
    pins s' !! srcID = Some q /\ lastSeen q = T0 + 2 * Second /\
    addrEqual (addr q) (lo 1002) = true.
Proof.
  eexists. split; [vm_compute; reflexivity|].
  eapply (proj2 (handlePacket_forwards (Run srv pre).1 _ (T0 + 2 * Second) true
                   (wrap "bob" "alice" [x04; x05]) (wrap "bob" "alice" [x04; x05])
                   (lo 1002) (lo 1001) _)).
  Unshelve. vm_compute. reflexivity.
Defined.

Example pin_not_hijacked_witness :
  pins (Run (Run srv pre).1 hijack).1 !! "alice"%string = Some (MkPin (lo 1001) T0) /\
  Forall (fun x => forall d f, ParsePacket x.1 <> Ok ("alice"%string, d, f))
    (forwarded (Run srv pre).1 hijack).
Proof.
  apply (pin_not_hijacked "alice" (MkPin (lo 1001) T0) hijack (Run srv pre).1
           (T0 + 2 * Second)); try (now (vm_compute; repeat split)).
  - repeat constructor; intros d f H; vm_compute in H; simplify_eq; reflexivity.
Defined.
