(* ===== verification/RelayRun.v ===== *)
(** * The relay's process: [Run] and [Close] (src/internal/relay/relay.go)

    [Run] starts a goroutine that watches its context and [closeCh], and then reads and
    handles one datagram after the other; [Close] runs once, in two steps, and the others
    that call it wait for its end. Whatever their interleaving, the server's state is the
    one of [Relay.Run] over what the loop has read: the theorems about it are theorems
    about the process.

    A turn of the loop is a read, or the handling of what it has read; the result of the
    read, the clock and the outcome of a write on the open socket are inputs. *)

From S2P Require Import Prelude GoBytes GoRuntime GoNet.
From S2P Require Import Relay.

(** Where [closeOnce]'s function is. *)
Inductive once_pos :=
| Idle
| AtSignal                    (* before [close(s.closeCh)] *)
| AtConn                      (* before [s.conn.Close()] *)
| Finished.

Inductive watcher_pos := Watching | Closing | Gone.

Inductive loop_pos :=
| AtRead
| Holding (pkt : list byte) (src : option UDPAddr)
| Returned.

(** [once] and [listening] stand for the server's flag [closed], which is not used here. *)
Record Process := MkProcess {
  srv : Server;
  ctx : bool;
  closeCh : bool;
  listening : bool;            (* [s.conn] is open *)
  once : once_pos;
  watcher : watcher_pos;
  loop : loop_pos
}.
#[export] Instance Process_eta : Eta Process := fun p =>
  MkProcess (srv p) (ctx p) (closeCh p) (listening p) (once p) (watcher p) (loop p).
Implicit Types p : Process.

(** ** [Close] *)

Definition close_step p : Process :=
  match once p with
  | Idle | Finished => p
  | AtSignal => p <| closeCh := true |> <| once := AtConn |>
  | AtConn => p <| listening := false |> <| once := Finished |>
  end.

Definition close_call p : Process :=
  match once p with Idle => p <| once := AtSignal |> | _ => p end.

(** ** The goroutines *)

(** The watcher's [select]; [cancel] is the branch it takes when both are ready. *)
Definition watch_turn (cancel : bool) p : Process :=
  match watcher p with
  | Watching =>
      if ctx p && (cancel || negb (closeCh p)) then p <| watcher := Closing |>
      else if closeCh p then p <| watcher := Gone |> else p
  | Closing => match once p with Finished => p <| watcher := Gone |> | _ => close_call p end
  | Gone => p
  end.

Definition loop_turn (r : option (list byte * option UDPAddr)) (now : Time) (wrote : bool) p
    : Process * list sent :=
  match loop p with
  | AtRead =>
      if listening p then
        match r with
        | Some (pkt, src) => (p <| loop := Holding pkt src |>, [])
        | None => if ctx p then (p <| loop := Returned |>, [])
                  else (p <| srv := incDropped (srv p) |>, [])
        end
      else (p <| loop := Returned |>, [])
  | Holding pkt src =>
      let '(s, o) := handlePacket (srv p) now (wrote && listening p) pkt src in
      (p <| srv := s |> <| loop := AtRead |>, option_list o)
  | Returned => (p, [])
  end.

Inductive revent :=
| RCancel
| RClose                      (* someone else calls [Close] *)
| RCloser                     (* whoever runs [closeOnce]'s function *)
| RWatch (cancel : bool)
| RLoop (r : option (list byte * option UDPAddr)) (now : Time) (wrote : bool).

Definition rstep p (e : revent) : Process * list sent :=
  match e with
  | RCancel => (p <| ctx := true |>, [])
  | RClose => (close_call p, [])
  | RCloser => (close_step p, [])
  | RWatch cancel => (watch_turn cancel p, [])
  | RLoop r now wrote => loop_turn r now wrote p
  end.

Fixpoint rrun p (es : list revent) : Process * list sent :=
  match es with
  | [] => (p, [])
  | e :: es => let '(p, os) := rstep p e in let '(p, os') := rrun p es in (p, os ++ os')
  end.

(** [Run] has just been called on a server. *)
Definition running (s : Server) : Process := MkProcess s false false true Idle Watching AtRead.

(** ** The process serves *)

(** The loop has read a datagram. *)
Definition was_read (es : list revent) (pkt : list byte) (src : option UDPAddr) : Prop :=
  exists now wrote, RLoop (Some (pkt, src)) now wrote ∈ es.

Lemma Run_after evs : forall s s' s'' os os' evs', Forall (fun ev => ev <> ReadErr true) evs ->
  Run s evs = (s', os) -> Run s' evs' = (s'', os') -> Run s (evs ++ evs') = (s'', os ++ os').
Proof.
  induction evs as [|e evs IH]; intros s s' s'' os os' evs' F E E'.
  { by injection E as <- <-. }
  pose proof (Forall_inv F) as He. apply Forall_inv_tail in F.
  destruct e as [[|]|now wrote pkt src]; [done| |]; cbn [app Run] in E |- *; [by eapply IH|].
  destruct (handlePacket s now wrote pkt src) as [s1 o1]. destruct (Run s1 evs) as [s2 os2] eqn:E2.
  injection E as <- <-. by rewrite (IH s1 s2 s'' os2 os' evs' F E2 E'), app_assoc.
Qed.

(** One event of the process is at most one of the loop's. *)
Lemma rstep_reads p e p' os : rstep p e = (p', os) ->
  exists evs, Run (srv p) evs = (srv p', os) /\ Forall (fun ev => ev <> ReadErr true) evs /\
    (forall now wrote pkt src, Packet now wrote pkt src ∈ evs -> loop p = Holding pkt src) /\
    (forall pkt src, loop p' = Holding pkt src ->
       loop p = Holding pkt src \/ exists now wrote, e = RLoop (Some (pkt, src)) now wrote).
Proof.
  assert (Hq : forall q, srv q = srv p -> loop q = loop p -> (q, []) = (p', os) ->
    exists evs, Run (srv p) evs = (srv p', os) /\ Forall (fun ev => ev <> ReadErr true) evs /\
      (forall now wrote pkt src, Packet now wrote pkt src ∈ evs -> loop p = Holding pkt src) /\
      (forall pkt src, loop p' = Holding pkt src ->
         loop p = Holding pkt src \/ exists now wrote, e = RLoop (Some (pkt, src)) now wrote)).
  { intros q Es El [= <- <-]. exists []. split; [cbn; by rewrite Es|]. split; [done|].
    split; [by intros ???? ?%elem_of_nil|]. intros pkt src H. left. by rewrite <- El. }
  destruct e as [| | |cancel|r now wrote]; cbn [rstep].
  - by apply Hq.
  - apply Hq; unfold close_call; by destruct (once p).
  - apply Hq; unfold close_step; by destruct (once p).
  - apply Hq; unfold watch_turn, close_call; repeat destr; done.
  - unfold loop_turn. destruct (loop p) as [|pkt src|] eqn:El.
    + destruct (listening p); [|by intros [= <- <-]; exists []; split_and!; try done; intros ???? ?%elem_of_nil].
      destruct r as [[pkt src]|]; [|destruct (ctx p)]; intros [= <- <-].
      * exists []. split_and!; try done; [by intros ???? ?%elem_of_nil|].
        intros ?? [= <- <-]. right. by eexists _, _.
      * exists []. split_and!; try done. by intros ???? ?%elem_of_nil.
      * exists [ReadErr false]. split_and!; try done; [by repeat constructor| |cbn; by rewrite El].
        by intros ???? [?|?%elem_of_nil]%elem_of_cons.
    + destruct (handlePacket (srv p) now (wrote && listening p) pkt src) as [s o] eqn:Eh. intros [= <- <-].
      exists [Packet now (wrote && listening p) pkt src]. cbn. rewrite Eh. split_and!; try done.
      * by rewrite app_nil_r.
      * by repeat constructor.
      * intros ???? [[= _ _ <- <-]|?%elem_of_nil]%elem_of_cons; done.
    + intros [= <- <-]. exists []. split_and!; try done; [by intros ???? ?%elem_of_nil|]. rewrite El. done.
Qed.

Lemma rrun_reads es : forall p p' os, rrun p es = (p', os) ->
  exists evs, Run (srv p) evs = (srv p', os) /\ Forall (fun ev => ev <> ReadErr true) evs /\
    (forall now wrote pkt src, Packet now wrote pkt src ∈ evs ->
       loop p = Holding pkt src \/ was_read es pkt src).
Proof.
  induction es as [|e es IH]; intros p p' os E; cbn [rrun] in E.
  { injection E as <- <-. exists []. split_and!; try done. by intros ???? ?%elem_of_nil. }
  destruct (rstep p e) as [p1 os1] eqn:E1. destruct (rrun p1 es) as [p2 os2] eqn:E2. injection E as <- <-.
  destruct (rstep_reads _ _ _ _ E1) as (evs1 & R1 & F1 & H1 & N1).
  destruct (IH _ _ _ E2) as (evs2 & R2 & F2 & H2). exists (evs1 ++ evs2).
  split; [by eapply Run_after|]. split; [by apply Forall_app|].
  intros now wrote pkt src [Hin|Hin]%elem_of_app; [left; by eapply H1|].
  destruct (H2 _ _ _ _ Hin) as [Hl|(n & w & Hw)].
  - destruct (N1 _ _ Hl) as [|(n & w & ->)]; [by left|right]. exists n, w. by left.
  - right. exists n, w. by right.
Qed.

(** Any interleaving of the loop, the watcher, [Close] and its callers does to the server
    what [Relay.Run] does over reads the loop made, and sends what it sends. *)
Theorem process_serves (s : Server) (es : list revent) (p : Process) (os : list sent)
    (Hrun : rrun (running s) es = (p, os)) :
  exists evs, Run s evs = (srv p, os) /\
    forall now wrote pkt src, Packet now wrote pkt src ∈ evs -> was_read es pkt src.
Proof.
  destruct (rrun_reads es _ _ _ Hrun) as (evs & E & _ & H). exists evs. split; [exact E|].
  intros now wrote pkt src Hin. by destruct (H _ _ _ _ Hin).
Qed.

(** ** The process ends *)

Record Base p : Prop := {
  ba_signal : closeCh p = match once p with AtConn | Finished => true | _ => false end;
  ba_conn : listening p = match once p with Finished => false | _ => true end;
  ba_gone : watcher p = Gone -> closeCh p = true;
  ba_closing : watcher p = Closing -> ctx p = true
}.

Lemma Base_running s : Base (running s).
Proof. by constructor. Qed.

Lemma Base_step p e p' os : Base p -> rstep p e = (p', os) -> Base p'.
Proof.
  intros [B1 B2 B3 B4] E. destruct e as [| | |cancel|r now wrote]; cbn [rstep] in E.
  - injection E as <- <-. by constructor.
  - injection E as <- <-. unfold close_call. destruct (once p) eqn:Eo; constructor; cbn; rewrite ?Eo; done.
  - injection E as <- <-. unfold close_step. destruct (once p) eqn:Eo; constructor; cbn; rewrite ?Eo; done.
  - injection E as <- <-. unfold watch_turn, close_call. destruct (watcher p) eqn:Ew.
    + destruct (ctx p) eqn:Ec; destruct (closeCh p) eqn:Eh; destruct cancel; cbn; constructor; cbn; rewrite ?Ew; congruence.
    + destruct (once p) eqn:Eo; constructor; cbn; rewrite ?Eo, ?Ew; try done; intros _; by rewrite B1.
    + constructor; rewrite ?Ew; done.
  - unfold loop_turn in E. destruct (loop p) as [|pkt src|].
    + destruct (if listening p then _ else _) as [q os1] eqn:Eq. injection E as <- <-.
      assert (H : closeCh q = closeCh p /\ listening q = listening p /\ once q = once p /\ watcher q = watcher p /\ ctx q = ctx p).
      { revert Eq. destruct (listening p) eqn:El; [destruct r as [[??]|]; [|destruct (ctx p) eqn:Ec]|]; by intros [= <- <-]. }
      destruct H as (H1 & H2 & H3 & H4 & H5). constructor; rewrite ?H1, ?H2, ?H3, ?H4, ?H5; done.
    + destruct (handlePacket _ _ _ _ _). injection E as <- <-. by constructor.
    + injection E as <- <-. by constructor.
Qed.

Lemma Base_run es : forall p p' os, Base p -> rrun p es = (p', os) -> Base p'.
Proof.
  induction es as [|e es IH]; intros p p' os B E; cbn [rrun] in E; [by injection E as <- <-|].
  destruct (rstep p e) as [p1 os1] eqn:E1. destruct (rrun p1 es) as [p2 os2] eqn:E2. injection E as <- <-.
  apply (IH p1 p2 os2); [by apply (Base_step p e p1 os1)|done].
Qed.

(** The turns the loop and the watcher have left once [Close] has run. *)
Definition loop_left p : nat := match loop p with Returned => 0 | AtRead => 1 | Holding _ _ => 2 end.
Definition watch_left p : nat := match watcher p with Gone => 0 | Closing => 1 | Watching => 2 end.
Definition loop_count (e : revent) : bool := match e with RLoop _ _ _ => true | _ => false end.
Definition watch_count (e : revent) : bool := match e with RWatch _ => true | _ => false end.
Definition turns (f : revent -> bool) (es : list revent) : nat := length (List.filter f es).

Lemma relay_winding_step p e p' os : Base p -> once p = Finished -> rstep p e = (p', os) ->
  once p' = Finished /\
  (loop_left p' <= loop_left p - (if loop_count e then 1 else 0))%nat /\
  (watch_left p' <= watch_left p - (if watch_count e then 1 else 0))%nat.
Proof.
  intros B O E. pose proof (ba_conn p B) as Hl. pose proof (ba_signal p B) as Hc. rewrite O in Hl, Hc.
  destruct e as [| | |cancel|r now wrote]; cbn [rstep] in E; unfold loop_left, watch_left.
  - injection E as <- <-. cbn. split_and!; [done|lia|lia].
  - injection E as <- <-. unfold close_call. rewrite O. cbn. split_and!; [done|lia|lia].
  - injection E as <- <-. unfold close_step. rewrite O. cbn. split_and!; [done|lia|lia].
  - injection E as <- <-. unfold watch_turn. rewrite Hc, O. destruct (watcher p) eqn:Ew; cbn.
    + destruct (ctx p && _); cbn; split_and!; (done || lia).
    + split_and!; (done || lia).
    + rewrite Ew. split_and!; (done || lia).
  - unfold loop_turn in E. rewrite Hl, andb_false_r in E. destruct (loop p) eqn:Ep.
    + injection E as <- <-. cbn. split_and!; (done || lia).
    + destruct (handlePacket _ _ _ _ _). injection E as <- <-. cbn. split_and!; (done || lia).
    + injection E as <- <-. rewrite Ep. cbn. split_and!; (done || lia).
Qed.

Lemma relay_winding_run es : forall p p' os, Base p -> once p = Finished -> rrun p es = (p', os) ->
  once p' = Finished /\ (loop_left p' <= loop_left p - turns loop_count es)%nat /\
  (watch_left p' <= watch_left p - turns watch_count es)%nat.
Proof.
  unfold turns. induction es as [|e es IH]; intros p p' os B O E; cbn [rrun List.filter] in *.
  { injection E as <- <-. cbn. split_and!; [done|lia|lia]. }
  destruct (rstep p e) as [p1 os1] eqn:E1. destruct (rrun p1 es) as [p2 os2] eqn:E2. injection E as <- <-.
  destruct (relay_winding_step p e p1 os1 B O E1) as (O1 & L1 & W1).
  destruct (IH p1 p2 os2 (Base_step _ _ _ _ B E1) O1 E2) as (O2 & L2 & W2).
  split; [done|]. destruct (loop_count e), (watch_count e); cbn [length]; lia.
Qed.

Definition next (o : once_pos) : once_pos :=
  match o with Idle => Idle | AtSignal => AtConn | AtConn | Finished => Finished end.
Lemma relay_close_once p : once (close_step p) = next (once p).
Proof. unfold close_step. destruct (once p) eqn:E; cbn; by rewrite ?E. Qed.

Lemma close_call_once p : once (close_call p) <> Idle.
Proof. unfold close_call. destruct (once p) eqn:E; cbn; congruence. Qed.

Lemma watch_keeps cancel p : once p <> Idle -> once (watch_turn cancel p) <> Idle.
Proof.
  intros H. unfold watch_turn, close_call. destruct (watcher p); [|by destruct (once p) eqn:E; cbn; congruence|done].
  destruct (ctx p && _); [done|]. by destruct (closeCh p).
Qed.

(** With the context done or [Close] called, two turns of the watcher see to it that
    [Close] is under way. *)
Lemma closing_under_way p c1 c2 : Base p -> ctx p || closeCh p = true ->
  once (watch_turn c2 (watch_turn c1 p)) <> Idle.
Proof.
  intros [B1 B2 B3 B4] H. destruct (closeCh p) eqn:Eh.
  { do 2 apply watch_keeps. by destruct (once p). }
  rewrite orb_false_r in H.
  assert (Hc : forall q, watcher q = Closing -> once (watch_turn c2 q) <> Idle).
  { intros q Eq. unfold watch_turn. rewrite Eq. destruct (once q) eqn:E; cbn; try apply close_call_once; congruence. }
  destruct (watcher p) eqn:Ew; [| |by specialize (B3 eq_refl)].
  - apply Hc. unfold watch_turn. by rewrite Ew, H, Eh, orb_true_r.
  - apply watch_keeps. unfold watch_turn. rewrite Ew. destruct (once p) eqn:E; cbn; try apply close_call_once; congruence.
Qed.

(** A process that has ended. *)
Record stopped p : Prop := {
  ov_loop : loop p = Returned;
  ov_watcher : watcher p = Gone;
  ov_conn : listening p = false;
  ov_once : once p = Finished
}.

Lemma stopped_step p e p' os : stopped p -> rstep p e = (p', os) -> stopped p' /\ srv p' = srv p /\ os = [].
Proof.
  intros [O1 O2 O3 O4] E. destruct e; cbn [rstep] in E.
  - injection E as <- <-. by split; [constructor|].
  - unfold close_call in E. rewrite O4 in E. injection E as <- <-. by split; [constructor|].
  - unfold close_step in E. rewrite O4 in E. injection E as <- <-. by split; [constructor|].
  - unfold watch_turn in E. rewrite O2 in E. injection E as <- <-. by split; [constructor|].
  - unfold loop_turn in E. rewrite O1 in E. injection E as <- <-. by split; [constructor|].
Qed.

Lemma stopped_run es : forall p p' os, stopped p -> rrun p es = (p', os) -> stopped p' /\ srv p' = srv p /\ os = [].
Proof.
  induction es as [|e es IH]; intros p p' os O E; cbn [rrun] in E; [by injection E as <- <-|].
  destruct (rstep p e) as [p1 os1] eqn:E1. destruct (rrun p1 es) as [p2 os2] eqn:E2. injection E as <- <-.
  destruct (stopped_step _ _ _ _ O E1) as (O1 & S1 & ->). destruct (IH _ _ _ O1 E2) as (O2 & S2 & ->).
  split_and!; [done|congruence|done].
Qed.

Lemma rrun_app es1 : forall p es2, rrun p (es1 ++ es2) =
  let '(p1, os1) := rrun p es1 in let '(p2, os2) := rrun p1 es2 in (p2, os1 ++ os2).
Proof.
  induction es1 as [|e es1 IH]; intros p es2; cbn [app rrun]; [by destruct (rrun p es2)|].
  destruct (rstep p e) as [p1 os1]. rewrite IH. destruct (rrun p1 es1) as [p2 os2].
  destruct (rrun p2 es2) as [p3 os3]. by rewrite app_assoc.
Qed.

(** [C28] The relay serves until it is told to stop, and then stops. Any interleaving of its
    loop, its watcher, [Close] and its callers does to the server what [Relay.Run] does over
    reads the loop made, and sends what it sends. From every state in which the context is
    done or the signal of [Close] is given, once the watcher has had two turns and [Close]
    its two steps, whatever else happens in whatever order, after two turns of the loop and
    two of the watcher [Run] has returned, the socket is closed and no goroutine is left; and
    from then on nothing is sent and the server's state is final. *)
Theorem relay_stops (s : Server) (es es' es'' : list revent) (p p' p'' : Process) (os os' os'' : list sent)
    (c1 c2 : bool)
    (Hrun : rrun (running s) es = (p, os)) (Hover : ctx p || closeCh p = true)
    (Hrun' : rrun p ([RWatch c1; RWatch c2; RCloser; RCloser] ++ es') = (p', os'))
    (Hloop : (2 <= turns loop_count es')%nat) (Hwatch : (2 <= turns watch_count es')%nat)
    (Hrun'' : rrun p' es'' = (p'', os'')) :
  (exists evs, Run s evs = (srv p'', os ++ os') /\
     forall now wrote pkt src, Packet now wrote pkt src ∈ evs ->
       was_read (es ++ ([RWatch c1; RWatch c2; RCloser; RCloser] ++ es') ++ es'') pkt src) /\
  stopped p' /\ stopped p'' /\ srv p'' = srv p' /\ os'' = [].
Proof.
  pose proof (Base_run _ _ _ _ (Base_running s) Hrun) as B.
  set (closing := [RWatch c1; RWatch c2; RCloser; RCloser]) in *.
  assert (Ho : stopped p').
  { rewrite rrun_app in Hrun'. destruct (rrun p closing) as [p1 os1] eqn:E1.
    destruct (rrun p1 es') as [p2 os2] eqn:E2. injection Hrun' as <- <-.
    assert (B1 : Base p1) by by eapply (Base_run closing p).
    assert (O1 : once p1 = Finished).
    { unfold closing in E1. cbn in E1. injection E1 as <- <-. rewrite !relay_close_once.
      pose proof (closing_under_way p c1 c2 B Hover) as H. by destruct (once (watch_turn c2 _)). }
    destruct (relay_winding_run es' p1 p2 os2 B1 O1 E2) as (O2 & L2 & W2).
    pose proof (Base_run _ _ _ _ B1 E2) as B2.
    constructor; [| |by rewrite (ba_conn _ B2), O2|done].
    - revert L2. unfold loop_left. destruct (loop p1), (loop p2); cbn; (done || lia).
    - revert W2. unfold watch_left. destruct (watcher p1), (watcher p2); cbn; (done || lia). }
  destruct (stopped_run _ _ _ _ Ho Hrun'') as (Ho' & Hs & ->). split_and!; try done.
  apply process_serves. rewrite rrun_app, Hrun, rrun_app, Hrun', Hrun''. by rewrite app_nil_r.
Qed.

(** ** A concrete run *)

Module Demo.
(** alice sends bob a packet, the context ends, and a datagram read before the end is still
    forwarded, or fails to be once the socket is closed. *)
Definition read (pkt : list byte) (src : option UDPAddr) : revent := RLoop (Some (pkt, src)) 0 false.
Definition handle : revent := RLoop None Relay.Demo.T0 true.
Definition bob_here : list revent := [read (Relay.Demo.wrap "bob" "alice" [x01]) (Relay.Demo.lo 1002); handle].
Definition alice_speaks : list revent := [read (Relay.Demo.wrap "alice" "bob" [x02]) (Relay.Demo.lo 1001); handle].
Definition cut : list revent := [read (Relay.Demo.wrap "alice" "bob" [x03]) (Relay.Demo.lo 1001); RCancel].
Definition before : list revent := bob_here ++ alice_speaks ++ cut.
Definition turns_of_all : list revent := [handle; RWatch false; handle; RWatch false].

Definition mid : Process := (rrun (running Relay.Demo.srv) before).1.
Definition last_ : Process := (rrun mid ([RWatch false; RWatch true; RCloser; RCloser] ++ turns_of_all)).1.

Example forwarded_then_dropped :
  let t := Relay.stats (srv last_) in
  (Forwarded t, Wrapped t, Dropped t) = (1, 3, 2) /\ stopped last_.
Proof. vm_compute. split; [reflexivity|by constructor]. Qed.
End Demo.

Example relay_stops_witness : stopped Demo.last_ /\ srv (rrun Demo.last_ [Demo.handle]).1 = srv Demo.last_.
Proof.
  destruct (relay_stops Relay.Demo.srv Demo.before Demo.turns_of_all [Demo.handle] Demo.mid Demo.last_
              (rrun Demo.last_ [Demo.handle]).1 (rrun (running Relay.Demo.srv) Demo.before).2
              (rrun Demo.mid ([RWatch false; RWatch true; RCloser; RCloser] ++ Demo.turns_of_all)).2
              (rrun Demo.last_ [Demo.handle]).2 false true) as (_ & H1 & _ & H2 & _).
  - by destruct (rrun (running Relay.Demo.srv) Demo.before) eqn:E; unfold Demo.mid; rewrite E.
  - by vm_compute.
  - unfold Demo.last_. by destruct (rrun Demo.mid _).
  - by vm_compute.
  - by vm_compute.
  - by destruct (rrun Demo.last_ _).
  - by split.
Defined.
