(* ===== verification/PeerSession.v ===== *)
(** * Per-peer sessions (src/internal/peer/peer.go)

    The [Peer] record with its handshake state, the frame handlers, the encrypting
    sender and the background loop [Run]. Every critical section of the Go code (the
    body between [p.mu.Lock] and [p.mu.Unlock]) is one function on the record;
    [time.Now], the fresh randomness of a handshake and the outcome of a send are
    inputs. The datagrams handed to the [Transport] are the outputs. A Go panic is
    [None].

    The loop takes the lock several times per tick, so frames and sends of other
    goroutines may come in between: its position is part of the state of a [Node],
    and [node_step] is the interleaving of one loop stage, frame, send, endpoint
    update or close at a time. *)

From S2P Require Import Prelude GoBytes GoRuntime GoNet Framing Disco Replay NoiseLib Noisework.
From S2P Require Relay.

Definition Prologue : list byte := bytes_of_string "meshlink-v1".
Definition nonceWireLen : Z := 8.
Definition hs1MaxPerSec : Z := 8.
Definition sessionMaxAge : Duration := 24 * Hour.
Definition responderHandshakeTimeout : Duration := 10 * Second.

(** Capacity of the [recv] channel. *)
Definition recvCap : Z := 64.

(** What a peer hands to its [Transport]. *)
Inductive output :=
| SendDirect (dst : option UDPAddr) (frame : list byte)
| SendRelay (peerID : string) (frame : list byte).

Inductive wait_err := WaitCancelled | PeerClosed.

Section Peer.
Context {L : NoiseLib}.

Record Peer := MkPeer {
  ID : string;
  DirectEP : option UDPAddr;
  myKp : Keypair;
  peerKey : list byte;             (* field [peerStatic] *)
  initiator : bool;
  mode : Path;
  path : Path;
  responder : option (Responder L);
  initiatorHS : option (Initiator L);
  hs1Frame : option (list byte);
  hs1Msg : list byte;
  hs2Frame : option (list byte);
  hs2SentAt : Time;
  hs3Frame : option (list byte);
  hs3Pending : bool;
  lastHS3 : Time;
  sess : option ptr;
  replay : option replayWindow;
  established : bool;
  sessSince : Time;
  phaseStart : Time;
  lastHS1 : Time;
  lastSent : Time;
  closed : bool;
  recvClosed : bool;
  hsBurstStart : Time;
  hsBurstCount : Z;
  rekeyCount : Z;
  bytesTx : Z;
  bytesRx : Z;
  done_ : bool;                    (* the channel [done] is closed *)
  recvQ : list (list byte);        (* contents of the channel [recv] *)
  sessions : heap L                (* the sessions [*noisework.Session] point to *)
}.

#[export] Instance Peer_eta : Eta Peer := fun p =>
  MkPeer (ID p) (DirectEP p) (myKp p) (peerKey p) (initiator p) (mode p) (path p)
    (responder p) (initiatorHS p) (hs1Frame p) (hs1Msg p) (hs2Frame p) (hs2SentAt p)
    (hs3Frame p) (hs3Pending p) (lastHS3 p) (sess p) (replay p) (established p)
    (sessSince p) (phaseStart p) (lastHS1 p) (lastSent p) (closed p) (recvClosed p)
    (hsBurstStart p) (hsBurstCount p) (rekeyCount p) (bytesTx p) (bytesRx p) (done_ p)
    (recvQ p) (sessions p).

Definition New (myID id : string) (peerStatic : list byte) (directEP : option UDPAddr)
    (kp : Keypair) : Peer :=
  MkPeer id directEP kp peerStatic (RoleIsInitiator myID id) PathNone PathNone
    None None None [] None 0 None false 0 None
    (Some (newReplayWindow replayWindowSizeBits)) false 0 0 0 0 false false 0 0 0 0 0
    false [] [].

(** The relay's address, as [Transport.RelayAddr] reports it. *)
Variable RelayAddr : option UDPAddr.

Implicit Types p : Peer.

Definition Close p : Peer := p <| closed := true |> <| done_ := true |>.

Definition Established p : bool := established p.

(** A turn of [WaitEstablished]'s loop, [None] when it goes on; [ctx] says whether the
    select takes the branch of the cancelled context. *)
Definition WaitEstablished p (ctx : bool) : option (res wait_err unit) :=
  if Established p then Some (Ok tt)
  else if ctx then Some (Err WaitCancelled)
  else if done_ p then Some (Err PeerClosed)
  else None.

(** The session a pointer refers to; the nil pointer has none. *)
Definition deref p (q : option ptr) : option (Session L) := q ≫= fun q => sessions p !! q.

Definition RemoteStatic p : option (list byte) := PeerStatic <$> deref p (sess p).

Definition SessionAge p (now : Time) : Duration :=
  match deref p (sess p) with None => 0 | Some s => Age s now end.

Definition attemptFor (m : Path) : Duration :=
  if bool_decide (m = PathRelay) then RelayAttempt else DirectAttempt.

Definition addressFor p (m : Path) : option UDPAddr :=
  if bool_decide (m = PathRelay) then RelayAddr else DirectEP p.

(** The datagram [sendFrame] emits; [None] is its error "no direct endpoint". *)
Definition sendFrame p (m : Path) (addr : option UDPAddr) (frame : list byte)
    : option output :=
  if bool_decide (m = PathRelay) then Some (SendRelay (ID p) frame)
  else match addr with
       | None => None
       | Some _ => Some (SendDirect addr frame)
       end.

(** ** Handshake attempts *)

Definition resetHandshakeLocked p : Peer :=
  p <| initiatorHS := None |> <| hs1Frame := None |> <| hs3Frame := None |>
    <| hs3Pending := false |> <| responder := None |> <| hs1Msg := [] |>
    <| hs2Frame := None |>.

(** [noisework.NewInitiator] followed by [Message1]: the message and the machine, or
    an error. *)
Definition startInitiator p (rnd : list byte) : option (list byte * Initiator L) :=
  match NewInitiator (myKp p) (peerKey p) Prologue rnd with
  | Err _ => None
  | Ok hs =>
      match Message1 hs with
      | (Err _, _) => None
      | (Ok msg1, hs) => Some (msg1, hs)
      end
  end.

(** Outcome of [punch]: the error of the handshake library, or the state and what
    [sendFrame] emitted. *)
Definition punch p (now : Time) (rnd : list byte) (m : Path)
    : option (option (Peer * option output)) :=
  if initiator p && (Sub now (lastHS1 p) >=? HS1ResendInterval) then
    match hs1Frame p with
    | Some frame =>
        let p := p <| lastHS1 := now |> in
        Some (Some (p, sendFrame p m (addressFor p m) frame))
    | None =>
        match startInitiator p rnd with
        | None => Some None
        | Some (msg1, hs) =>
            frame ← Frame TypeHS1 msg1;
            let p := p <| initiatorHS := Some hs |> <| hs1Frame := Some frame |>
                       <| lastHS1 := now |> in
            Some (Some (p, sendFrame p m (addressFor p m) frame))
        end
    end
  else
    frame ← Frame TypeProbe [];
    Some (Some (p, sendFrame p m (addressFor p m) frame)).

Definition switchMode p (now : Time) (current : Path) : Peer :=
  match current with
  | PathDirect =>
      match RelayAddr with
      | Some _ => resetHandshakeLocked (p <| mode := PathRelay |>) <| phaseStart := now |>
      | None => p
      end
  | PathRelay =>
      match DirectEP p with
      | Some _ => resetHandshakeLocked (p <| mode := PathDirect |>) <| phaseStart := now |>
      | None => p
      end
  | PathNone => p
  end.

Definition retryDirect p (now : Time) (rnd : list byte) : option (Peer * list output) :=
  match startInitiator p rnd with
  | None => Some (p, [])
  | Some (msg1, hs) =>
      frame ← Frame TypeHS1 msg1;
      Some (p <| initiatorHS := Some hs |> <| hs1Frame := Some frame |>
              <| hs3Frame := None |> <| hs3Pending := false |> <| responder := None |>
              <| hs1Msg := [] |> <| hs2Frame := None |> <| mode := PathDirect |>
              <| lastHS1 := now |> <| phaseStart := now |>,
            [SendDirect (DirectEP p) frame])
  end.

Definition abandonRoaming p (now : Time) : Peer :=
  if negb (bool_decide (mode p = PathDirect)) then p
  else resetHandshakeLocked (p <| mode := PathRelay |>) <| phaseStart := now |>.

Definition forceRehandshake p (now : Time) : Peer :=
  resetHandshakeLocked
    (p <| sess := None |> <| replay := Some (newReplayWindow replayWindowSizeBits) |>
       <| established := false |>) <| phaseStart := now |>.

Definition SetDirectEP p (ep : option UDPAddr) : Peer := p <| DirectEP := ep |>.

(** ** Sessions *)

(** [setSessionLocked(sess, path)]; a pointer outside the heap is a nil dereference. *)
Definition setSessionLocked p (now : Time) (q : ptr) (pth : Path) : option Peer :=
  s ← sessions p !! q;
  if negb (len (PeerStatic s) =? 32) then Some p
  else if negb (bool_decide (PeerStatic s = peerKey p)) then Some p
  else
    let p :=
      if negb (bool_decide (sess p = Some q)) then
        let p := match sess p with
                 | Some _ => p <| rekeyCount := u64 (rekeyCount p + 1) |>
                 | None => p
                 end in
        p <| sess := Some q |> <| replay := Some (newReplayWindow replayWindowSizeBits) |>
      else p in
    Some (p <| established := true |> <| path := pth |> <| mode := pth |>
            <| sessSince := now |> <| lastSent := now |>).

(** ** Frame handlers: the new state and the datagrams emitted *)

(** The half-open responder state is dropped. *)
Definition clearResponder p : Peer :=
  p <| responder := None |> <| hs1Msg := [] |> <| hs2Frame := None |>.

(** The part of [onHS1] that runs the responder machine on [msg]. *)
Definition acceptHS1 p (now : Time) (rnd msg : list byte) (pth : Path)
    : option (Peer * list output) :=
  let withR :=
    match responder p with
    | Some r => Some r
    | None => match NewResponder (myKp p) Prologue rnd with
              | Err _ => None
              | Ok r => Some r
              end
    end in
  match withR with
  | None => Some (p, [])
  | Some r =>
      match ReadMessage1 r msg with
      | (Err _, _) => Some (p <| responder := None |>, [])
      | (Ok _, r) =>
          match Message2 r with
          | (Err _, _) => Some (p <| responder := None |>, [])
          | (Ok msg2, r) =>
              frame ← Frame TypeHS2 msg2;
              let p := p <| responder := Some r |> <| hs1Msg := msg |>
                         <| hs2Frame := Some frame |> <| hs2SentAt := now |>
                         <| mode := pth |> <| phaseStart := now |> in
              Some (p, option_list (sendFrame p pth (DirectEP p) frame))
          end
      end
  end.

(** The window of the handshake budget: the state after counting one HS1. *)
Definition countHS1 p (now : Time) : Peer :=
  let p := if Sub now (hsBurstStart p) >=? Second
           then p <| hsBurstStart := now |> <| hsBurstCount := 0 |> else p in
  p <| hsBurstCount := i64 (hsBurstCount p + 1) |>.

Definition onHS1 p (now : Time) (rnd msg : list byte) (pth : Path)
    : option (Peer * list output) :=
  let p := countHS1 p now in
  if hsBurstCount p >? hs1MaxPerSec then Some (p, [])
  else if established p && negb (bool_decide (path p = PathRelay)) then Some (p, [])
  else
    match responder p, hs2Frame p with
    | Some _, Some frame =>
        if bool_decide (msg = hs1Msg p)
        then Some (p, option_list (sendFrame p pth (DirectEP p) frame))
        else if Sub now (hs2SentAt p) <? responderHandshakeTimeout then Some (p, [])
        else acceptHS1 (clearResponder p) now rnd msg pth
    | _, _ => acceptHS1 p now rnd msg pth
    end.

Definition onHS2 p (now : Time) (msg : list byte) (pth : Path)
    : option (Peer * list output) :=
  match initiatorHS p with
  | None => Some (p, [])
  | Some i =>
      match ReadMessage2 (sessions p) i msg with
      | (Err _, _, h) =>
          Some (p <| initiatorHS := None |> <| hs1Frame := None |> <| sessions := h |>, [])
      | (Ok q, i, h) =>
          match WriteMessage3 now h i with
          | (Err _, _, h) =>
              Some (p <| initiatorHS := None |> <| hs1Frame := None |> <| sessions := h |>, [])
          | (Ok msg3, i, h) =>
              p ← setSessionLocked (p <| initiatorHS := Some i |> <| sessions := h |>) now q pth;
              frame ← Frame TypeHS3 msg3;
              let p := p <| hs3Frame := Some frame |> <| hs3Pending := true |>
                         <| lastHS3 := now |> in
              Some (p, option_list (sendFrame p pth (DirectEP p) frame))
          end
      end
  end.

Definition resendHS3 p (now : Time) : Peer * list output :=
  match hs3Pending p, hs3Frame p with
  | true, Some frame =>
      (p <| lastHS3 := now |>, option_list (sendFrame p (mode p) (DirectEP p) frame))
  | _, _ => (p, [])
  end.

Definition onHS3 p (now : Time) (msg : list byte) (pth : Path)
    : option (Peer * list output) :=
  match responder p with
  | None => Some (p, [])
  | Some r =>
      match ReadMessage3 now (sessions p) r msg with
      | (Err _, _, h) => Some (p <| responder := None |> <| sessions := h |>, [])
      | (Ok q, r, h) =>
          p ← setSessionLocked (p <| responder := Some r |> <| sessions := h |>) now q pth;
          Some (clearResponder p, [])
      end
  end.

Definition onData p (payload : list byte) : option Peer :=
  if closed p || recvClosed p then Some p
  else
    match sess p with
    | None => Some p
    | Some q =>
        s ← sessions p !! q;
        if len payload <? 8 then Some p
        else
          let nonce := be_get (take 8 payload) in
          match replay p with
          | None => Some p
          | Some w =>
              fresh ← Check w nonce;
              if negb fresh then Some p
              else
                let '(r, s) := DecryptAt s nonce (drop 8 payload) in
                let p := p <| sessions := <[q := s]> (sessions p) |> in
                match r with
                | Err _ => Some p
                | Ok plain =>
                    w ← Commit w nonce;
                    let p := p <| bytesRx := u64 (bytesRx p + len plain) |>
                               <| replay := Some w |> <| hs3Pending := false |> in
                    if (len plain >? 0) && (len (recvQ p) <? recvCap)
                    then Some (p <| recvQ := recvQ p ++ [plain] |>)
                    else Some p
                end
          end
    end.

(** The same without outputs. *)
Definition quiet (r : option Peer) : option (Peer * list output) :=
  p ← r; Some (p, []).

Definition handleFrameByPath p (now : Time) (rnd : list byte) (pth : Path) (typ : byte)
    (payload : list byte) : option (Peer * list output) :=
  if bool_decide (typ = TypeProbe) then Some (p, [])
  else if bool_decide (typ = TypeHS1) then
    if initiator p then Some (p, []) else onHS1 p now rnd payload pth
  else if bool_decide (typ = TypeHS2) then
    if negb (initiator p) then Some (p, []) else onHS2 p now payload pth
  else if bool_decide (typ = TypeHS3) then
    if initiator p then Some (p, []) else onHS3 p now payload pth
  else if bool_decide (typ = TypeData) then quiet (onData p payload)
  else Some (p, []).

(** The path a datagram from [src] came over. *)
Definition framePath (src : option UDPAddr) : Path :=
  match RelayAddr, src with
  | Some ra, Some a => if bool_decide (addr_String a = addr_String ra) then PathRelay else PathDirect
  | _, _ => PathDirect
  end.

Definition HandleFrame p (now : Time) (rnd : list byte) (src : option UDPAddr)
    (frame : list byte) : option (Peer * list output) :=
  match Parse frame with
  | Err _ => Some (p, [])
  | Ok (typ, payload) => handleFrameByPath p now rnd (framePath src) typ payload
  end.

(** ** Sending data *)

Inductive send_err :=
| NoSession
| PayloadTooLarge (n limit : Z)
| SessionErr (e : sess_err)
| NoDirectEndpoint.

Definition encryptLocked p (now : Time) (payload : list byte)
    : option (res send_err (list byte * Path * option UDPAddr) * Peer) :=
  match sess p with
  | None => Some (Err NoSession, p)
  | Some q =>
      s ← sessions p !! q;
      let limit := MaxPlaintextLen s in
      let limit := if bool_decide (path p = PathRelay) then limit - Relay.MaxHeaderLen else limit in
      if len payload >? limit then Some (Err (PayloadTooLarge (len payload) limit), p)
      else
        match Noisework.Send s payload with
        | (Err e, s) =>
            Some (Err (SessionErr e), p <| sessions := <[q := s]> (sessions p) |>)
        | (Ok (nonce, cipher), s) =>
            let wire := be_put 8 nonce ++ cipher in
            let p := p <| sessions := <[q := s]> (sessions p) |> <| lastSent := now |>
                       <| bytesTx := u64 (bytesTx p + len payload) |> in
            frame ← Frame TypeData wire;
            Some (Ok (frame, path p, DirectEP p), p)
        end
  end.

(** [Send], up to the outcome of the socket write. *)
Definition Send p (now : Time) (payload : list byte) : option (res send_err output * Peer) :=
  '(r, p) ← encryptLocked p now payload;
  match r with
  | Err e => Some (Err e, p)
  | Ok (frame, m, dst) =>
      match sendFrame p m dst frame with
      | None => Some (Err NoDirectEndpoint, p)
      | Some o => Some (Ok o, p)
      end
  end.

(** ** The background loop *)

(** What a tick reads under the lock. *)
Record snapshot := MkSnapshot {
  s_established : bool;
  s_mode : Path;
  s_path : Path;
  s_lastHS1 : Time;
  s_lastSent : Time;
  s_phaseStart : Time;
  s_sessSince : Time;
  s_directEP : option UDPAddr;
  s_hs3Pending : bool;
  s_lastHS3 : Time
}.

(** The position of [Run]: before it, waiting for a tick, at one of the stages of a
    tick, or returned. *)
Inductive run_pc :=
| NotStarted
| Waiting
| AtAge (s : snapshot)       (* the age-based rotation *)
| AtHS3 (s : snapshot)       (* re-emission of HS3 *)
| AtPath (s : snapshot)      (* the switch over punching and roaming *)
| AtPhase (s : snapshot)     (* the attempt's time-out, after a punch *)
| AtKeepalive (s : snapshot)
| Returned.

(** The deferred function of [Run]. *)
Definition runExit p : Peer := p <| done_ := true |> <| recvClosed := true |>.

(** The head of [Run]: pick the first path to try, or return. *)
Definition runStart p (now : Time) : Peer * run_pc :=
  match DirectEP p with
  | Some _ => (p <| mode := PathDirect |> <| phaseStart := now |>, Waiting)
  | None =>
      match RelayAddr with
      | Some _ => (p <| mode := PathRelay |> <| phaseStart := now |>, Waiting)
      | None => (runExit p, Returned)
      end
  end.

(** The critical section a tick starts with. *)
Definition tick p (now : Time) : Peer * snapshot :=
  let s := MkSnapshot (established p) (mode p) (path p) (lastHS1 p) (lastSent p)
             (phaseStart p) (sessSince p) (DirectEP p) (hs3Pending p) (lastHS3 p) in
  match responder p, hs2Frame p with
  | Some _, Some _ =>
      if Sub now (hs2SentAt p) >? responderHandshakeTimeout then (clearResponder p, s) else (p, s)
  | _, _ => (p, s)
  end.

(** One stage of the loop: the new state, the datagrams and the next position.
    [wrote] says whether the socket accepted the datagram of the stage, if any. *)
Definition run_stage p (pc : run_pc) (now : Time) (rnd : list byte) (wrote : bool)
    : option (Peer * list output * run_pc) :=
  match pc with
  | NotStarted => let '(p, pc) := runStart p now in Some (p, [], pc)
  | Waiting => let '(p, s) := tick p now in Some (p, [], AtAge s)
  | AtAge s =>
      if s_established s && (Sub now (s_sessSince s) >? sessionMaxAge)
      then Some (forceRehandshake p now, [], Waiting)
      else Some (p, [], AtHS3 s)
  | AtHS3 s =>
      if s_established s && s_hs3Pending s && (Sub now (s_lastHS3 s) >? HS1ResendInterval)
      then let '(p, os) := resendHS3 p now in Some (p, os, AtPath s)
      else Some (p, [], AtPath s)
  | AtPath s =>
      if negb (s_established s) then
        r ← punch p now rnd (s_mode s);
        match r with
        | None => Some (p, [], Waiting)
        | Some (p, None) => Some (p, [], Waiting)
        | Some (p, Some o) => Some (p, [o], if wrote then AtPhase s else Waiting)
        end
      else if bool_decide (s_path s = PathRelay) && initiator p
              && negb (bool_decide (s_directEP s = None)) then
        if bool_decide (s_mode s = PathDirect) then
          if Sub now (s_phaseStart s) >? DirectAttempt
          then Some (abandonRoaming p now, [], AtKeepalive s)
          else Some (p, [], AtKeepalive s)
        else if Sub now (s_lastHS1 s) >? ReestablishInterval then
          '(p, os) ← retryDirect p now rnd; Some (p, os, AtKeepalive s)
        else Some (p, [], AtKeepalive s)
      else Some (p, [], AtKeepalive s)
  | AtPhase s =>
      if Sub now (s_phaseStart s) >? attemptFor (s_mode s)
      then Some (switchMode p now (s_mode s), [], Waiting)
      else Some (p, [], Waiting)
  | AtKeepalive s =>
      if Sub now (s_lastSent s) >? KeepaliveInterval then
        '(r, p) ← Send p now [];
        Some (p, match r with Ok o => [o] | Err _ => [] end, Waiting)
      else Some (p, [], Waiting)
  | Returned => Some (p, [], Returned)
  end.

(** ** A peer among the goroutines that use it *)

Record Node := MkNode { peer : Peer; pc : run_pc }.

Inductive event :=
| EvLoop (now : Time) (rnd : list byte) (wrote : bool)     (* the loop's next stage *)
| EvExit                        (* the loop sees its context or [done] closed *)
| EvFrame (now : Time) (rnd : list byte) (src : option UDPAddr) (frame : list byte)
| EvSend (now : Time) (payload : list byte)
| EvSetDirectEP (ep : option UDPAddr)
| EvClose
| EvRecv.                                                  (* the consumer takes a payload *)

Definition node_step (n : Node) (e : event) : option (Node * list output) :=
  let p := peer n in
  match e with
  | EvLoop now rnd wrote =>
      '(p, os, c) ← run_stage p (pc n) now rnd wrote; Some (MkNode p c, os)
  | EvExit =>
      match pc n with
      | Waiting => Some (MkNode (runExit p) Returned, [])
      | _ => Some (n, [])      (* only looked at between ticks *)
      end
  | EvFrame now rnd src frame =>
      '(p, os) ← HandleFrame p now rnd src frame; Some (MkNode p (pc n), os)
  | EvSend now payload =>
      '(r, p) ← Send p now payload;
      Some (MkNode p (pc n), match r with Ok o => [o] | Err _ => [] end)
  | EvSetDirectEP ep => Some (MkNode (SetDirectEP p ep) (pc n), [])
  | EvClose => Some (MkNode (Close p) (pc n), [])
  | EvRecv => Some (MkNode (p <| recvQ := tail (recvQ p) |>) (pc n), [])
  end.

Fixpoint node_run (n : Node) (es : list event) : option (Node * list output) :=
  match es with
  | [] => Some (n, [])
  | e :: es =>
      '(n, os) ← node_step n e;
      '(n, os') ← node_run n es;
      Some (n, os ++ os')
  end.
End Peer.

Arguments Peer L : clear implicits.
Arguments Node L : clear implicits.
