(* ===== verification/PeerSafety.v ===== *)
(** * Safety of peer sessions (src/internal/peer/peer.go)

    The invariant of a [Node] and what follows from it for every sequence of loop
    stages, sends and frames, whoever sent the frames: nothing panics, an
    established peer has a session authenticated under the key the coordinator
    registered, and no nonce is delivered twice within a session. *)

From S2P Require Import Prelude GoBytes GoRuntime GoNet Framing Disco Replay NoiseLib Noisework.
From S2P Require Import PeerSession.
From S2P Require Relay.

Section Safety.
Context {L : NoiseLib} {W : NoiseLaws L} {X : XXLaws L}.
Variable RelayAddr : option UDPAddr.
Implicit Types p : Peer L.

(** ** The invariant *)

Definition session_ok p : Prop :=
  match sess p with
  | None => established p = false
  | Some q => established p = true /\
              exists s, sessions p !! q = Some s /\ PeerStatic s = peerKey p
  end.

Record Inv p : Prop := {
  inv_session : session_ok p;
  inv_replay : exists w sp, replay p = Some w /\ Repr replayWindowSizeBits w sp;
  inv_heap : Forall (fun s => 0 <= sendCount s) (sessions p)
}.

(** The fields that never change after [New]. *)
Definition same_ids p p' : Prop :=
  ID p' = ID p /\ peerKey p' = peerKey p /\ initiator p' = initiator p /\ myKp p' = myKp p.

(** How one critical section may move the session pointer: it stays, it is dropped,
    or it moves to a session that did not exist before. *)
Definition sess_moves p p' : Prop :=
  (length (sessions p) <= length (sessions p'))%nat /\
  (sess p' = sess p \/ sess p' = None \/
   exists q, sess p' = Some q /\ (length (sessions p) <= q)%nat).

(** The replay gate while the session stays. *)
Definition refuses p (n : Z) : Prop :=
  forall w, replay p = Some w -> Check w n = Some false.

Definition gate_keeps p p' : Prop :=
  forall n q, 0 <= n < 2 ^ 64 -> sess p = Some q -> sess p' = Some q ->
    refuses p n -> refuses p' n.

Record Step p p' : Prop := {
  st_inv : Inv p';
  st_ids : same_ids p p';
  st_sess : sess_moves p p';
  st_gate : gate_keeps p p'
}.

Lemma same_ids_refl p : same_ids p p.
Proof. done. Qed.

Lemma Step_trans p1 p2 p3 : Inv p1 -> Step p1 p2 -> Step p2 p3 -> Step p1 p3.
Proof.
  intros I1 [I2 (a1 & b1 & c1 & d1) [Hl1 S1] G1] [I3 (a2 & b2 & c2 & d2) [Hl2 S2] G2].
  split; [done|split_and!; congruence| |].
  - split; [lia|]. destruct S2 as [->|[->|(q & -> & Hq)]]; [|by right; left|].
    + destruct S1 as [->|[->|(q & -> & Hq)]]; [by left|by right; left|by right; right; eauto].
    + right; right. exists q. split; [done|lia].
  - intros n q Hn H1 H3 Hr. assert (H2 : sess p2 = Some q).
    { destruct S2 as [E|[E|(q' & E & Hq')]]; rewrite E in H3; simplify_eq; [done|].
      destruct I1 as [Hs1 _ _]. unfold session_ok in Hs1. rewrite H1 in Hs1.
      destruct Hs1 as (_ & s & Hs & _). apply lookup_lt_Some in Hs. lia. }
    apply (G2 n q Hn H2 H3), (G1 n q Hn H1 H2), Hr.
Qed.

(** An update of the fields the invariant does not mention. *)
Lemma Step_light p p' :
  Inv p -> sess p' = sess p -> established p' = established p -> sessions p' = sessions p ->
  replay p' = replay p -> same_ids p p' -> Step p p'.
Proof.
  intros [Hs Hr Hh] E1 E2 E3 E4 Hid. destruct Hid as (Hi1 & Hi2 & Hi3 & Hi4). split.
  - split; [|by rewrite E4|by rewrite E3]. unfold session_ok. rewrite E1, E2, E3, Hi2. exact Hs.
  - done.
  - split; [by rewrite E3|by left].
  - intros n q _ _ _ H. unfold refuses. by rewrite E4.
Qed.

Lemma Inv_New myID id key ep kp : Inv (New (L := L) myID id key ep kp).
Proof.
  split; cbn; [done| |constructor]. eexists _, _. split; [done|]. by apply Repr_init.
Qed.

(** The session pointer is dropped and the gate is new. *)
Lemma forceRehandshake_Step p now : Inv p -> Step p (forceRehandshake p now).
Proof.
  intros [Hs Hr Hh]. split; cbn.
  - split; cbn; [done| |done]. eexists _, _. split; [done|]. by apply Repr_init.
  - done.
  - split; cbn; [done|by right; left].
  - intros n q _ _ H. cbn in H. done.
Qed.

(** The current session is replaced by a version of itself. *)
Lemma update_session_Step p q s s' p' :
  Inv p -> sess p = Some q -> sessions p !! q = Some s ->
  PeerStatic s' = PeerStatic s -> 0 <= sendCount s' ->
  sess p' = sess p -> established p' = established p -> sessions p' = <[q := s']> (sessions p) ->
  replay p' = replay p -> same_ids p p' -> Step p p'.
Proof.
  intros [Hs Hr Hh] Hq Hsq Hst Hc E1 E2 E3 E4 (Hi1 & Hi2 & Hi3 & Hi4). split.
  - split; [|by rewrite E4|].
    + unfold session_ok in *. rewrite E1, E2, E3, Hi2. rewrite Hq in *.
      destruct Hs as (He & s0 & H1 & H2). split; [done|]. exists s'.
      rewrite list_lookup_insert_eq by (by eapply lookup_lt_Some). split; [done|congruence].
    + rewrite E3. by apply Forall_insert.
  - done.
  - split; [by rewrite E3, length_insert|by left].
  - intros n q' _ _ _ H. unfold refuses. by rewrite E4.
Qed.

(** ** Sessions made by the handshake machines *)

Lemma ReadMessage2_heap (h : heap L) i msg r i' h' :
  ReadMessage2 h i msg = (r, i', h') ->
  match r with
  | Ok q => q = length h /\ h' = h ++ [newSession DefaultRekeyEvery] /\ i_session i' = Some q
  | Err _ => h' = h
  end.
Proof. unfold ReadMessage2, alloc. intros H. repeat destr_in H; by simplify_eq. Qed.

Lemma WriteMessage3_heap now (h : heap L) i q r i' h' :
  i_session i = Some q -> WriteMessage3 now h i = (r, i', h') ->
  match r with
  | Ok msg => len msg <= 65535 /\
              exists f, h' = alter f q h /\ forall s, sendCount (f s) = sendCount s
  | Err _ => h' = h
  end.
Proof.
  unfold WriteMessage3. intros Hi H. rewrite Hi in H.
  repeat (destr_in H; cbn [fst snd] in H); simplify_eq; try done.
  split; [by eapply xx_msg_len|]. by eexists (fun s => _).
Qed.

Lemma ReadMessage3_heap now (h : heap L) i msg r i' h' :
  ReadMessage3 now h i msg = (r, i', h') ->
  match r with
  | Ok q => q = length h /\ exists s, h' = h ++ [s] /\ sendCount s = 0
  | Err _ => h' = h
  end.
Proof. unfold ReadMessage3, alloc. intros H. repeat destr_in H; simplify_eq; eauto. Qed.

(** The heap grows, nothing else the invariant mentions changes. *)
Lemma extend_Step p p' l :
  Inv p -> sess p' = sess p -> established p' = established p ->
  sessions p' = sessions p ++ l -> Forall (fun s => 0 <= sendCount s) l ->
  replay p' = replay p -> same_ids p p' -> Step p p'.
Proof.
  intros [Hs Hr Hh] E1 E2 E3 Hl E4 (Hi1 & Hi2 & Hi3 & Hi4). split.
  - split; [|by rewrite E4|rewrite E3; by apply Forall_app].
    unfold session_ok in *. rewrite E1, E2, E3, Hi2.
    destruct (sess p); [|done]. destruct Hs as (? & s & ? & ?). split; [done|].
    exists s. split; [by apply lookup_app_l_Some|done].
  - done.
  - split; [rewrite E3, length_app; lia|by left].
  - intros n q _ _ _ H. unfold refuses. by rewrite E4.
Qed.

(** Installing the session that was just added to the heap. *)
Lemma setSessionLocked_Step p p0 now s pth :
  Inv p -> sess p0 = sess p -> established p0 = established p ->
  sessions p0 = sessions p ++ [s] -> 0 <= sendCount s ->
  replay p0 = replay p -> same_ids p p0 ->
  exists p', setSessionLocked p0 now (length (sessions p)) pth = Some p' /\ Step p p'.
Proof.
  intros I E1 E2 E3 Hs E4 Hid. unfold setSessionLocked.
  rewrite E3, lookup_app_r, Nat.sub_diag by lia. cbn [mbind option_bind lookup list_lookup].
  assert (Hext : Step p p0) by (eapply extend_Step; try done; by repeat constructor).
  destruct (len (PeerStatic s) =? 32); cbn [negb]; [|eauto].
  case_bool_decide as Hk; cbn [negb]; [|eauto]. eexists; split; [done|].
  assert (Hne : sess p0 <> Some (length (sessions p))).
  { intros Hq. destruct I as [Hi _ _]. unfold session_ok in Hi. rewrite <- E1, Hq in Hi.
    destruct Hi as (_ & s' & Hs' & _). apply lookup_lt_Some in Hs'. lia. }
  rewrite bool_decide_eq_false_2 by done. cbn [negb].
  destruct Hid as (Hi1 & Hi2 & Hi3 & Hi4).
  set (p1 := match sess p0 with Some _ => _ | None => _ end).
  assert (HS : sessions p1 = sessions p ++ [s] /\ ID p1 = ID p /\ peerKey p1 = peerKey p /\
               initiator p1 = initiator p /\ myKp p1 = myKp p)
    by (unfold p1; destruct (sess p0); cbn; by rewrite E3).
  clearbody p1. destruct HS as (S1 & S2 & S3 & S4 & S5). split; cbn.
  - split; cbn.
    + unfold session_ok. cbn. split; [done|]. exists s. rewrite S1, S3.
      rewrite lookup_app_r, Nat.sub_diag by lia. split; [done|congruence].
    + eexists _, _. split; [done|]. by apply Repr_init.
    + rewrite S1. destruct I as [_ _ Hh]. apply Forall_app. split; [done|by repeat constructor].
  - done.
  - split; cbn; [rewrite S1, length_app; lia|]. right; right. eauto.
  - intros n q _ Hq Hq'. cbn in Hq'. congruence.
Qed.

(** ** Every critical section keeps the invariant and does not panic *)

Definition Good p (r : option (Peer L * list output)) : Prop :=
  exists p' os, r = Some (p', os) /\ Step p p'.

Lemma Good_light p p' os :
  Inv p -> sess p' = sess p -> established p' = established p -> sessions p' = sessions p ->
  replay p' = replay p -> same_ids p p' -> Good p (Some (p', os)).
Proof. intros. exists p', os. split; [done|]. by apply Step_light. Qed.

Lemma Good_trans p1 p2 r : Inv p1 -> Step p1 p2 -> Good p2 r -> Good p1 r.
Proof.
  intros I S (p3 & os & -> & S'). exists p3, os. split; [done|]. by eapply Step_trans.
Qed.

Lemma Frame_fits (t : byte) (m : list byte) : len m <= 65535 -> exists f, Frame t m = Some f.
Proof. intros. eexists. by apply Frame_Some. Qed.

Lemma startInitiator_len p rnd m hs :
  startInitiator p rnd = Some (m, hs) -> len m <= 65535.
Proof.
  unfold startInitiator, Message1. intros H.
  repeat (destr_in H; cbn [fst snd] in H); simplify_eq; by eapply xx_msg_len.
Qed.

Lemma Message2_len (r r' : Responder L) m : Message2 r = (Ok m, r') -> len m <= 65535.
Proof.
  unfold Message2. intros H. repeat destr_in H; simplify_eq; by eapply xx_msg_len.
Qed.

Lemma punch_Good p now rnd m :
  Inv p -> exists r, punch RelayAddr p now rnd m = Some r /\
    (forall p' o, r = Some (p', o) -> Step p p').
Proof.
  intros I. unfold punch. destruct (_ && _).
  - destruct (hs1Frame p).
    + eexists; split; [done|]. intros p' o [= <- _]. by apply Step_light.
    + destruct (startInitiator p rnd) as [[msg1 hs]|] eqn:E; [|by eexists].
      destruct (Frame_fits TypeHS1 msg1) as [f ->]; [by eapply startInitiator_len|].
      eexists; split; [done|]. intros p' o [= <- _]. by apply Step_light.
  - destruct (Frame_fits TypeProbe []) as [f ->]; [done|].
    eexists; split; [done|]. intros p' o [= <- _]. by apply Step_light.
Qed.

Lemma retryDirect_Good p now rnd : Inv p -> Good p (retryDirect p now rnd).
Proof.
  intros I. unfold retryDirect.
  destruct (startInitiator p rnd) as [[msg1 hs]|] eqn:E; [|by apply Good_light].
  destruct (Frame_fits TypeHS1 msg1) as [f ->]; [by eapply startInitiator_len|].
  by apply Good_light.
Qed.

Lemma switchMode_Step p now m : Inv p -> Step p (switchMode RelayAddr p now m).
Proof.
  intros I. unfold switchMode. destruct m; [by apply Step_light|..];
    [destruct RelayAddr | destruct (DirectEP p)]; by apply Step_light.
Qed.

Lemma abandonRoaming_Step p now : Inv p -> Step p (abandonRoaming p now).
Proof. intros I. unfold abandonRoaming. destruct (negb _); by apply Step_light. Qed.

Lemma acceptHS1_Good p now rnd msg pth : Inv p -> Good p (acceptHS1 p now rnd msg pth).
Proof.
  intros I. unfold acceptHS1. destruct (match responder p with Some r => _ | None => _ end) as [r|];
    [|by apply Good_light].
  destruct (ReadMessage1 r msg) as [[[]|] r1]; [|by apply Good_light].
  destruct (Message2 r1) as [[m2|] r2] eqn:E; [|by apply Good_light].
  destruct (Frame_fits TypeHS2 m2) as [f ->]; [by eapply Message2_len|].
  by apply Good_light.
Qed.

Lemma countHS1_Step p now : Inv p -> Step p (countHS1 p now).
Proof. intros I. unfold countHS1. destruct (_ >=? _); by apply Step_light. Qed.

Lemma clearResponder_Step p : Inv p -> Step p (clearResponder p).
Proof. intros I. by apply Step_light. Qed.

Lemma onHS1_Good p now rnd msg pth : Inv p -> Good p (onHS1 p now rnd msg pth).
Proof.
  intros I. pose proof (countHS1_Step p now I) as S. unfold onHS1.
  apply (Good_trans _ _ _ I S). destruct S as [I1 _ _ _].
  generalize dependent (countHS1 p now). clear p I. intros p I.
  destruct (_ >? _); [by apply Good_light|]. destruct (_ && _); [by apply Good_light|].
  destruct (responder p), (hs2Frame p); try by apply acceptHS1_Good.
  destruct (bool_decide _); [by apply Good_light|]. destruct (_ <? _); [by apply Good_light|].
  pose proof (clearResponder_Step p I) as S. apply (Good_trans _ _ _ I S), acceptHS1_Good, S.
Qed.

Lemma onHS2_Good p now msg pth : Inv p -> Good p (onHS2 p now msg pth).
Proof.
  intros I. unfold onHS2. destruct (initiatorHS p) as [i|]; [|by apply Good_light].
  destruct (ReadMessage2 (sessions p) i msg) as [[r i1] h1] eqn:E1.
  apply ReadMessage2_heap in E1. destruct r as [q|]; [|subst h1; by apply Good_light].
  destruct E1 as (-> & -> & Hi).
  destruct (WriteMessage3 _ _ i1) as [[r i2] h2] eqn:E2.
  apply (WriteMessage3_heap _ _ _ _ _ _ _ Hi) in E2.
  assert (Hn : 0 <= sendCount (newSession (L := L) DefaultRekeyEvery)) by done.
  destruct r as [m3|].
  2:{ subst h2. eexists _, _. split; [done|].
      eapply (extend_Step p _ [_]); try done. by repeat constructor. }
  destruct E2 as (Hlen & f & -> & Hf).
  set (p0 := p <| initiatorHS := Some i2 |> <| sessions := _ |>).
  destruct (setSessionLocked_Step p p0 now (f (newSession DefaultRekeyEvery)) pth)
    as (p' & -> & S); try done; [|by rewrite Hf|].
  { cbn. rewrite <- (Nat.add_0_r (length _)), alter_app_r. done. }
  cbn [mbind option_bind]. destruct (Frame_fits TypeHS3 m3 Hlen) as [fr ->].
  apply (Good_trans _ _ _ I S), Good_light; try done. apply S.
Qed.

Lemma resendHS3_Good p now : Inv p -> Good p (Some (resendHS3 p now)).
Proof.
  intros I. unfold resendHS3. destruct (hs3Pending p), (hs3Frame p); by apply Good_light.
Qed.

Lemma onHS3_Good p now msg pth : Inv p -> Good p (onHS3 p now msg pth).
Proof.
  intros I. unfold onHS3. destruct (responder p) as [r|]; [|by apply Good_light].
  destruct (ReadMessage3 now (sessions p) r msg) as [[o r1] h1] eqn:E1.
  apply ReadMessage3_heap in E1. destruct o as [q|]; [|subst h1; by apply Good_light].
  destruct E1 as (-> & s & -> & Hs).
  set (p0 := p <| responder := Some r1 |> <| sessions := _ |>).
  destruct (setSessionLocked_Step p p0 now s pth) as (p' & -> & S); try done; [lia|].
  cbn [mbind option_bind]. apply (Good_trans _ _ _ I S), Good_light; try done. apply S.
Qed.

(** ** Data *)

Lemma DecryptAt_keeps (s : Session L) n ct :
  PeerStatic (DecryptAt s n ct).2 = PeerStatic s /\
  sendCount (DecryptAt s n ct).2 = sendCount s.
Proof. unfold DecryptAt. repeat (destr; cbn [fst snd]); done. Qed.

Lemma Send_keeps (s : Session L) pt r s' :
  0 <= sendCount s -> Noisework.Send s pt = (r, s') ->
  PeerStatic s' = PeerStatic s /\ 0 <= sendCount s' /\
  match r with Ok (n, ct) => n = sendCount s /\ len ct = len pt + tagLen | Err _ => True end.
Proof.
  intros Hn H. unfold Noisework.Send in H. destruct (send s) as [c|]; [|by simplify_eq].
  destruct (sendCount s >? MaxNonce) eqn:E; zbool; [by simplify_eq|].
  destruct (rekeySendTo s c (sendCount s)) as [[ok c1] ep]. destruct ok; cbn [negb] in H;
    [|by simplify_eq].
  destruct (encrypt_at c1 (sendCount s) pt) as (c2 & E2 & _);
    [unfold MaxNonce, noiseMaxNonce in *; lia|].
  rewrite E2 in H. simplify_eq. cbn. split; [done|]. split; [apply u64_range|].
  split; [done|apply len_seal].
Qed.

Lemma fresh_mono sz sp n k : ~ Spec.fresh sz sp n -> ~ Spec.fresh sz (Spec.commit sp k) n.
Proof.
  unfold Spec.fresh, Spec.commit. cbn. rewrite not_elem_of_union. intros H [[_ H1] H2].
  apply H. split; [done|]. destruct H2; [by left|right; lia].
Qed.

Lemma nonce_range (payload : list byte) :
  8 <= len payload -> 0 <= be_get (take 8 payload) < 2 ^ 64.
Proof.
  intros H. pose proof (be_get_range (take 8 payload)) as Hr.
  change 8%nat with (Z.to_nat 8) in *. rewrite len_take in Hr by lia. exact Hr.
Qed.

(** What [onData] does with a frame: nothing, or a version of the session only, or a
    delivery, after which the nonce is refused. *)
Lemma onData_cases p payload :
  Inv p -> exists p', onData p payload = Some p' /\ Step p p' /\
    (recvQ p' = recvQ p \/
     exists q s plain, sess p = Some q /\ sess p' = Some q /\ sessions p !! q = Some s /\
       8 <= len payload /\ ~ refuses p (be_get (take 8 payload)) /\
       (DecryptAt s (be_get (take 8 payload)) (drop 8 payload)).1 = Ok plain /\
       recvQ p' = recvQ p ++ [plain] /\ refuses p' (be_get (take 8 payload))).
Proof.
  intros I. unfold onData.
  destruct (closed p || recvClosed p); [eexists; split; [done|]; split; [by apply Step_light|by left]|].
  destruct (sess p) as [q|] eqn:Hq; [|eexists; split; [done|]; split; [by apply Step_light|by left]].
  pose proof I as [Hs (w & sp & Hw & R) Hh]. unfold session_ok in Hs. rewrite Hq in Hs.
  destruct Hs as (He & s & Hsq & Hst). rewrite Hsq. cbn [mbind option_bind].
  destruct (len payload <? 8) eqn:E8; zbool;
    [eexists; split; [done|]; split; [by apply Step_light|by left]|].
  pose proof (nonce_range payload E8) as Hn. set (n := be_get (take 8 payload)) in *.
  rewrite Hw, (Check_spec _ _ _ _ R Hn). cbn [mbind option_bind].
  case_bool_decide as Hf; cbn [negb]; [|eexists; split; [done|]; split; [by apply Step_light|by left]].
  pose proof (DecryptAt_keeps s n (drop 8 payload)) as [K1 K2].
  pose proof (Forall_lookup_1 _ _ _ _ Hh Hsq) as Hc. cbn in Hc.
  destruct (DecryptAt s n (drop 8 payload)) as [r s'] eqn:ED. cbn [fst snd] in K1, K2.
  set (p1 := p <| sessions := _ |>).
  assert (S1 : Step p p1) by (eapply (update_session_Step p q s s'); try done; by rewrite K2).
  destruct r as [plain|e]; [|eexists; split; [done|]; split; [done|by left]].
  destruct (Commit_spec _ _ _ _ R Hn Hf) as (w' & -> & R'). cbn [mbind option_bind].
  set (p2 := p1 <| bytesRx := _ |> <| replay := Some w' |> <| hs3Pending := false |>).
  assert (S2 : Step p1 p2).
  { pose proof (st_inv _ _ S1) as [A1 A2 A3]. split; cbn.
    - split; cbn; [exact A1 | by eexists _, _ | exact A3].
    - done.
    - split; [done|by left].
    - intros m q' Hm _ _ Hr w0 [= <-]. rewrite (Check_spec _ _ _ _ R' Hm).
      rewrite bool_decide_eq_false_2; [done|]. apply fresh_mono.
      specialize (Hr w Hw). rewrite (Check_spec _ _ _ _ R Hm) in Hr.
      injection Hr as Hr. by apply bool_decide_eq_false_1 in Hr. }
  assert (S3 : Step p p2) by (by eapply Step_trans).
  assert (Href : refuses p2 n).
  { intros w0 [= <-]. rewrite (Check_spec _ _ _ _ R' Hn). rewrite bool_decide_eq_false_2; [done|].
    unfold Spec.fresh. intros [H _]. apply H. cbn. apply elem_of_union_l. by apply elem_of_singleton. }
  destruct (_ && _); [|eexists; split; [done|]; split; [done|by left]].
  eexists; split; [done|]. split.
  { eapply (Step_trans p p2); [done|done|]. by apply Step_light; [apply S3|..]. }
  right. exists q, s, plain. rewrite ED. split_and!; try done.
  intros Hr. specialize (Hr w Hw). rewrite (Check_spec _ _ _ _ R Hn) in Hr.
  injection Hr as Hr. by apply bool_decide_eq_false_1 in Hr.
Qed.

Lemma encryptLocked_cases p now payload :
  Inv p -> exists r p', encryptLocked p now payload = Some (r, p') /\ Step p p' /\
    match r with
    | Err _ => True
    | Ok (frame, m, dst) =>
        m = path p /\ dst = DirectEP p /\ len frame = 3 + 8 + len payload + 16 /\
        len frame <= (if bool_decide (path p = PathRelay) then 65507 - Relay.MaxHeaderLen else 65507)
    end.
Proof.
  intros I. unfold encryptLocked.
  destruct (sess p) as [q|] eqn:Hq; [|eexists _, _; split; [done|]; split; [by apply Step_light|done]].
  pose proof I as [Hs _ Hh]. unfold session_ok in Hs. rewrite Hq in Hs.
  destruct Hs as (He & s & Hsq & Hst). rewrite Hsq. cbn [mbind option_bind].
  set (limit := if bool_decide _ then _ else _).
  destruct (len payload >? limit) eqn:El; zbool;
    [eexists _, _; split; [done|]; split; [by apply Step_light|done]|].
  pose proof (Forall_lookup_1 _ _ _ _ Hh Hsq) as Hc. cbn in Hc.
  destruct (Noisework.Send s payload) as [r s'] eqn:ES.
  destruct (Send_keeps s payload r s' Hc ES) as (K1 & K2 & K3).
  destruct r as [[n ct]|e].
  2:{ eexists _, _; split; [done|]. split; [|done]. by eapply (update_session_Step p q s s'). }
  destruct K3 as [-> Hlen].
  assert (Hlim : limit <= 65480 /\ (path p = PathRelay -> limit <= 65480 - Relay.MaxHeaderLen)).
  { unfold limit. case_bool_decide; unfold MaxPlaintextLen, maxPlaintextLen, maxUDPPayload, frameHeader, nonceLen, aeadTag, Relay.MaxHeaderLen, Relay.MaxNameLen; (split; [lia|intros; lia || done]). }
  destruct (Frame TypeData (be_put 8 (sendCount s) ++ ct)) as [f|] eqn:EF.
  2:{ exfalso. destruct (Frame_fits TypeData (be_put 8 (sendCount s) ++ ct)) as [f Ef]; [|congruence].
      unfold tagLen in *. len_lia. }
  cbn [mbind option_bind]. eexists _, _; split; [done|].
  apply Frame_len in EF. unfold HeaderLen, tagLen in *.
  assert (len f = 3 + 8 + len payload + 16) by len_lia.
  split; [|split_and!; try done; destruct Hlim as [G1 G2]; case_bool_decide as HP; [specialize (G2 HP)|]; lia].
  by eapply (update_session_Step p q s s').
Qed.

Lemma Send_Good p now payload :
  Inv p -> exists r p', Send p now payload = Some (r, p') /\ Step p p'.
Proof.
  intros I. unfold Send. destruct (encryptLocked_cases p now payload I) as (r & p' & -> & S & _).
  cbn [mbind option_bind]. destruct r as [[[f m] dst]|]; [|eauto].
  destruct (sendFrame _ _ _ _); eauto.
Qed.

(** ** Frames, loop stages and runs *)

Lemma HandleFrame_Good p now rnd src frame :
  Inv p -> Good p (HandleFrame RelayAddr p now rnd src frame).
Proof.
  intros I. unfold HandleFrame. destruct (Parse frame) as [[t payload]|]; [|by apply Good_light].
  unfold handleFrameByPath. repeat case_bool_decide; [by apply Good_light|..|by apply Good_light].
  - destruct (initiator p); [by apply Good_light|by apply onHS1_Good].
  - destruct (initiator p); cbn [negb]; [by apply onHS2_Good|by apply Good_light].
  - destruct (initiator p); [by apply Good_light|by apply onHS3_Good].
  - destruct (onData_cases p payload I) as (p' & -> & S & _). exists p', []. done.
Qed.

Lemma runExit_Step p : Inv p -> Step p (runExit p).
Proof. intros I. by apply Step_light. Qed.

Lemma run_stage_Good p c now rnd wrote :
  Inv p -> exists p' os c', run_stage RelayAddr p c now rnd wrote = Some (p', os, c') /\ Step p p'.
Proof.
  intros I. assert (S0 : Step p p) by (by apply Step_light).
  destruct c as [| |s|s|s|s|s|]; cbn [run_stage].
  - unfold runStart. destruct (DirectEP p); [|destruct RelayAddr];
      (eexists _, _, _; split; [done|]; by apply Step_light).
  - unfold tick. destruct (responder p), (hs2Frame p); try destruct (_ >? _);
      (eexists _, _, _; split; [done|]; by apply Step_light).
  - destruct (_ && _); (eexists _, _, _; split; [done|]); [by apply forceRehandshake_Step|done].
  - destruct (_ && _); [|eexists _, _, _; split; [done|]; done].
    destruct (resendHS3_Good p now I) as (p' & os & E & S). injection E as E.
    rewrite E. eauto.
  - destruct (negb _).
    + destruct (punch_Good p now rnd (s_mode s) I) as (r & -> & Hr). cbn [mbind option_bind].
      destruct r as [[p' [o|]]|]; (eexists _, _, _; split; [done|]); first [by eapply Hr|done].
    + destruct (_ && _); [|eauto]. destruct (bool_decide _).
      * destruct (_ >? _); [|eauto]. eexists _, _, _; split; [done|]. by apply abandonRoaming_Step.
      * destruct (_ >? _); [|eauto].
        destruct (retryDirect_Good p now rnd I) as (p' & os & -> & S). cbn. eauto.
  - destruct (_ >? _); [|eauto]. eexists _, _, _; split; [done|]. by apply switchMode_Step.
  - destruct (_ >? _); [|eauto].
    destruct (Send_Good p now [] I) as (r & p' & -> & S). cbn. eauto.
  - eauto.
Qed.

Lemma node_step_Good (n : Node L) e :
  Inv (peer n) -> exists n' os, node_step RelayAddr n e = Some (n', os) /\
    Step (peer n) (peer n').
Proof.
  intros I. assert (S0 : Step (peer n) (peer n)) by (by apply Step_light).
  destruct e as [now rnd wrote| |now rnd src frame|now payload|ep| |]; cbn [node_step].
  - destruct (run_stage_Good (peer n) (pc n) now rnd wrote I) as (p' & os & c & -> & S). cbn. eauto.
  - destruct (pc n); eexists _, _; (split; [done|]); first [done | by apply runExit_Step].
  - destruct (HandleFrame_Good (peer n) now rnd src frame I) as (p' & os & -> & S). cbn. eauto.
  - destruct (Send_Good (peer n) now payload I) as (r & p' & -> & S). cbn. eauto.
  - eexists _, _; split; [done|]. by apply Step_light.
  - eexists _, _; split; [done|]. by apply Step_light.
  - eexists _, _; split; [done|]. by apply Step_light.
Qed.

Lemma node_run_Good (n : Node L) es :
  Inv (peer n) -> exists n' os, node_run RelayAddr n es = Some (n', os) /\
    Step (peer n) (peer n').
Proof.
  revert n. induction es as [|e es IH]; intros n I; cbn [node_run].
  - eexists _, _; split; [done|]. by apply Step_light.
  - destruct (node_step_Good n e I) as (n1 & os1 & -> & S1). cbn [mbind option_bind].
    destruct (IH n1 (st_inv _ _ S1)) as (n2 & os2 & -> & S2). cbn [mbind option_bind].
    eexists _, _; split; [done|]. by eapply Step_trans.
Qed.

(** [C1] Identity and absence of panics: whatever frames arrive from whomever, in
    whatever interleaving with the loop, the senders and the endpoint updates, a peer
    made by [New] never panics; it is established exactly when it holds a session;
    and then the remote static key of that session is the key it was created with. *)
Theorem peer_safety (myID id : string) (key : list byte) (ep : option UDPAddr) (kp : Keypair)
    (es : list event) :
  exists n os,
    node_run RelayAddr (MkNode (New (L := L) myID id key ep kp) NotStarted) es = Some (n, os) /\
    (Established (peer n) = true <-> sess (peer n) <> None) /\
    (Established (peer n) = true -> RemoteStatic (peer n) = Some key).
Proof.
  destruct (node_run_Good (MkNode (New (L := L) myID id key ep kp) NotStarted) es)
    as (n & os & E & S); [apply Inv_New|].
  exists n, os. split; [exact E|]. destruct S as [[Hs _ _] (_ & Hk & _) _ _]. cbn in Hk.
  unfold session_ok, Established, RemoteStatic, deref in *. destruct (sess (peer n)) as [q|].
  - destruct Hs as (-> & s & Hs & Hst). cbn. rewrite Hs. cbn. split; [done|].
    intros _. f_equal. congruence.
  - rewrite Hs. done.
Qed.

(** The sessions of a run are never reused: a session that is current at both ends of
    a run was current throughout. *)
Lemma node_run_refuses (n n' : Node L) es os k :
  Inv (peer n) -> 0 <= k < 2 ^ 64 -> node_run RelayAddr n es = Some (n', os) ->
  sess (peer n') = sess (peer n) -> sess (peer n) <> None ->
  refuses (peer n) k -> refuses (peer n') k.
Proof.
  intros I Hk H Hs Hne Hr. destruct (node_run_Good n es I) as (n1 & os1 & E & S).
  assert (n1 = n') as -> by congruence. destruct (sess (peer n)) as [q|] eqn:Hq; [|done].
  by apply (st_gate _ _ S k q Hk Hq Hs).
Qed.

Lemma HandleFrame_data p now rnd src f d :
  Parse f = Ok (TypeData, d) -> HandleFrame RelayAddr p now rnd src f = quiet (onData p d).
Proof. intros Hp. unfold HandleFrame. by rewrite Hp. Qed.

(** [C2] At-most-once delivery: once a DATA frame has been delivered to the
    application, no later frame with the same nonce is, as long as the session is the
    same, whatever happens in between. *)
Theorem at_most_once (myID id : string) (key : list byte) (ep : option UDPAddr) (kp : Keypair)
    (pre mid : list event) (n0 n1 n2 n3 : Node L) (os0 os1 os2 os3 : list output)
    (now1 now2 : Time) (rnd1 rnd2 : list byte) (src1 src2 : option UDPAddr)
    (f1 f2 d1 d2 plain : list byte)
    (Hpre : node_run RelayAddr (MkNode (New (L := L) myID id key ep kp) NotStarted) pre
            = Some (n0, os0))
    (Hf1 : Parse f1 = Ok (TypeData, d1)) (Hf2 : Parse f2 = Ok (TypeData, d2))
    (Hnonce : take 8 d2 = take 8 d1)
    (H1 : node_step RelayAddr n0 (EvFrame now1 rnd1 src1 f1) = Some (n1, os1))
    (Hdeliv : recvQ (peer n1) = recvQ (peer n0) ++ [plain])
    (Hmid : node_run RelayAddr n1 mid = Some (n2, os2))
    (Hsame : sess (peer n2) = sess (peer n1))
    (H3 : node_step RelayAddr n2 (EvFrame now2 rnd2 src2 f2) = Some (n3, os3)) :
  recvQ (peer n3) = recvQ (peer n2).
Proof.
  assert (I0 : Inv (peer n0)).
  { destruct (node_run_Good (MkNode (New (L := L) myID id key ep kp) NotStarted) pre)
      as (n & os & E & S); [apply Inv_New|]. assert (n = n0) as <- by congruence. apply S. }
  cbn [node_step] in H1, H3. rewrite (HandleFrame_data _ _ _ _ _ _ Hf1) in H1.
  destruct (onData_cases (peer n0) d1 I0) as (p1 & E1 & S1 & [Hq|C1]).
  { rewrite E1 in H1. cbn in H1. simplify_eq. cbn in Hdeliv. rewrite Hq in Hdeliv.
    apply (f_equal length) in Hdeliv. rewrite length_app in Hdeliv. cbn in Hdeliv. lia. }
  destruct C1 as (q & s & pl & _ & Hq1 & _ & Hl & _ & _ & _ & Href).
  rewrite E1 in H1. cbn in H1. simplify_eq. cbn [peer] in *.
  destruct (node_run_Good _ mid (st_inv _ _ S1 : Inv (peer (MkNode p1 (pc n0)))))
    as (n2' & os2' & E2 & S2). assert (n2' = n2) as -> by congruence.
  assert (Href2 : refuses (peer n2) (be_get (take 8 d1))).
  { eapply (node_run_refuses (MkNode p1 (pc n0)) n2 mid); try done.
    - apply S1. - by apply nonce_range. - cbn. by rewrite Hq1. }
  rewrite (HandleFrame_data _ _ _ _ _ _ Hf2) in H3.
  destruct (onData_cases (peer n2) d2 (st_inv _ _ S2)) as (p3 & E3 & _ & [Hq3|C3]);
    rewrite E3 in H3; cbn in H3; simplify_eq; cbn [peer]; [exact Hq3|].
  destruct C3 as (_ & _ & _ & _ & _ & _ & _ & Hnr & _). rewrite Hnonce in Hnr. done.
Qed.

(** Every datagram a peer builds for data fits a UDP datagram on the path it is
    sent over: the frame itself when it goes out directly, and the packet any sender
    name wraps it into when it is relayed. *)
Theorem Send_fits_datagram (myID id : string) (key : list byte) (ep : option UDPAddr)
    (kp : Keypair) (pre : list event) (n : Node L) (os : list output) (now : Time)
    (payload : list byte)
    (Hpre : node_run RelayAddr (MkNode (New (L := L) myID id key ep kp) NotStarted) pre
            = Some (n, os)) :
  exists r p', Send (peer n) now payload = Some (r, p') /\
    match r with
    | Ok (SendDirect dst f) => len f <= 65507 /\ dst = DirectEP (peer n) /\ dst <> None
    | Ok (SendRelay to f) =>
        to = id /\ forall me pkt, Relay.WrapPacket me to f = Ok pkt -> len pkt <= 65507
    | Err _ => True
    end.
Proof.
  destruct (node_run_Good (MkNode (New (L := L) myID id key ep kp) NotStarted) pre)
    as (n' & os' & E & S); [apply Inv_New|]. assert (n' = n) as -> by congruence.
  destruct S as [I (Hid & _) _ _]. cbn in Hid. unfold Send.
  destruct (encryptLocked_cases (peer n) now payload I) as (r & p' & -> & S & Hr).
  cbn [mbind option_bind]. destruct r as [[[f m] dst]|]; [|by eexists _, _].
  destruct Hr as (-> & -> & _ & Hlen). unfold sendFrame.
  destruct S as [_ (Hid' & _) _ _]. revert Hlen.
  case_bool_decide as Hp; intros Hlen.
  - eexists _, _; split; [done|]. split; [congruence|].
    intros me pkt Hw%Relay.WrapPacket_len. lia.
  - destruct (DirectEP (peer n)) eqn:Hd; [|by eexists _, _].
    eexists _, _; split; [done|]. done.
Qed.
End Safety.
