(* ===== verification/PeerLoop.v ===== *)
(** * The ticks of a peer's loop (src/internal/peer/peer.go, [Run])

    What one whole tick of [Run] does, stage by stage, to a peer that punches, to one that
    is half open, and to one that is established: the steps out of which the exchanges of
    two peers are composed. *)

From S2P Require Import Prelude GoBytes GoRuntime GoNet Framing Disco NoiseLib Noisework.
From S2P Require Import PeerSession PeerSafety.

Section Loop.
Context {L : NoiseLib}.
Implicit Types (n : Node L) (p : Peer L) (ra : option UDPAddr).

(** [k] stages of the loop, one after the other; a tick has five. *)
Definition loops (k : nat) (now : Time) (rnd : list byte) : list event :=
  replicate k (EvLoop now rnd true).

Definition ticks (ts : list Time) (rnd : list byte) : list event := ts ≫= fun now => loops 5 now rnd.

Lemma node_run_after ra es1 : forall n n1 n2 es2 os1 os2,
  node_run ra n es1 = Some (n1, os1) -> node_run ra n1 es2 = Some (n2, os2) ->
  node_run ra n (es1 ++ es2) = Some (n2, os1 ++ os2).
Proof.
  induction es1 as [|e es1 IH]; intros n n1 n2 es2 os1 os2 E1 E2; [by injection E1 as <- <-|].
  cbn [app node_run] in E1 |- *. destruct (node_step ra n e) as [[n0 os0]|]; [|done]. cbn [mbind option_bind] in *.
  destruct (node_run ra n0 es1) as [[n0' os0']|] eqn:E; [|done]. injection E1 as <- <-.
  rewrite (IH _ _ _ _ _ _ E E2). cbn. by rewrite <- app_assoc.
Qed.

Lemma stage ra p c now rnd p1 os1 c1 k n os2 :
  run_stage ra p c now rnd true = Some (p1, os1, c1) ->
  node_run ra (MkNode p1 c1) (loops k now rnd) = Some (n, os2) ->
  node_run ra (MkNode p c) (loops (S k) now rnd) = Some (n, os1 ++ os2).
Proof.
  intros E1 E2. unfold loops in *. cbn [replicate node_run node_step peer pc]. rewrite E1.
  cbn [mbind option_bind]. by rewrite E2.
Qed.

(** The head of [Run] on the direct path. *)
Lemma loop_starts ra p ep now rnd :
  DirectEP p = Some ep ->
  node_run ra (MkNode p NotStarted) (loops 1 now rnd)
  = Some (MkNode (p <| mode := PathDirect |> <| phaseStart := now |>) Waiting, []).
Proof.
  intros H. unfold loops. cbn [replicate node_run node_step run_stage peer pc].
  unfold runStart. by rewrite H.
Qed.

(** What a tick reads under the lock. *)
Definition snap p : snapshot :=
  MkSnapshot (established p) (mode p) (path p) (lastHS1 p) (lastSent p) (phaseStart p) (sessSince p) (DirectEP p)
    (hs3Pending p) (lastHS3 p).

Lemma tick_none p now : responder p = None -> tick p now = (p, snap p).
Proof. intros Hr. unfold tick. by rewrite Hr. Qed.

(** A half-open handshake is kept up to [responderHandshakeTimeout]. *)
Lemma tick_fresh p now : now - hs2SentAt p <= responderHandshakeTimeout -> tick p now = (p, snap p).
Proof.
  intros H. unfold tick. destruct (responder p), (hs2Frame p); try done.
  rewrite Sub_gtb, Z.gtb_ltb, (proj2 (Z.ltb_ge _ _)) by done. done.
Qed.

(** ** A tick of a peer that is not established *)

(** Up to the punch. *)
Lemma loop_round ra p now rnd p' o :
  established p = false -> tick p now = (p, snap p) ->
  punch ra p now rnd (mode p) = Some (Some (p', Some o)) ->
  node_run ra (MkNode p Waiting) (loops 4 now rnd) = Some (MkNode p' (AtPhase (snap p)), [o]).
Proof.
  intros He Ht Hp. unfold loops.
  cbn [replicate node_run node_step run_stage peer pc].
  rewrite Ht. cbn [mbind option_bind node_run node_step run_stage peer pc].
  change (s_established (snap p)) with (established p). rewrite He. cbn [andb negb mbind option_bind peer pc node_run].
  cbn [node_step run_stage peer pc]. change (s_established (snap p)) with (established p). rewrite He.
  cbn [andb negb mbind option_bind peer pc node_run node_step run_stage].
  change (s_established (snap p)) with (established p). change (s_mode (snap p)) with (mode p). rewrite He, Hp.
  reflexivity.
Qed.

(** The end of the tick: the attempt goes on, or is given up. *)
Lemma loop_phase ra p s now rnd :
  node_run ra (MkNode p (AtPhase s)) (loops 1 now rnd)
  = Some (MkNode (if Sub now (s_phaseStart s) >? attemptFor (s_mode s) then switchMode ra p now (s_mode s) else p)
            Waiting, []).
Proof. cbn. by destruct (_ >? _). Qed.

(** A whole tick within the time of an attempt over the direct path. *)
Lemma tick_punches ra p now rnd p' o :
  established p = false -> tick p now = (p, snap p) -> mode p = PathDirect ->
  now - phaseStart p <= DirectAttempt ->
  punch ra p now rnd PathDirect = Some (Some (p', Some o)) ->
  node_run ra (MkNode p Waiting) (loops 5 now rnd) = Some (MkNode p' Waiting, [o]).
Proof.
  intros He Ht Hm Hph Hp. rewrite <- Hm in Hp.
  apply (node_run_after ra (loops 4 now rnd) _ _ _ (loops 1 now rnd) [o] [] (loop_round ra p now rnd p' o He Ht Hp)).
  rewrite loop_phase. cbn [snap s_phaseStart s_mode]. rewrite Hm. change (attemptFor PathDirect) with DirectAttempt.
  rewrite Sub_gtb, Z.gtb_ltb, (proj2 (Z.ltb_ge _ _)) by done. done.
Qed.

(** What a punch leaves alone. *)
Record same_attempt p p' : Prop := {
  sa_mode : mode p' = mode p;
  sa_phase : phaseStart p' = phaseStart p;
  sa_est : established p' = established p;
  sa_resp : responder p' = responder p;
  sa_ep : DirectEP p' = DirectEP p
}.

Lemma punch_same ra p now rnd m p' o : punch ra p now rnd m = Some (Some (p', o)) -> same_attempt p p'.
Proof.
  unfold punch. destruct (_ && _).
  - destruct (hs1Frame p); [by intros [= <- <-]|]. destruct (startInitiator p rnd) as [[msg hs]|]; [|done].
    destruct (Frame TypeHS1 msg); [|done]. by intros [= <- <-].
  - destruct (Frame TypeProbe []); [|done]. by intros [= <- <-].
Qed.

(** ** A tick of an established peer on the direct path *)

(** Only the third handshake message may be sent again: when it is pending and more than
    [HS1ResendInterval] has passed since it was last sent. *)
Lemma tick_established ra p now rnd :
  established p = true -> responder p = None -> path p = PathDirect ->
  now - sessSince p <= sessionMaxAge -> now - lastSent p <= KeepaliveInterval ->
  node_run ra (MkNode p Waiting) (loops 5 now rnd)
  = Some (if hs3Pending p && (now - lastHS3 p >? HS1ResendInterval)
          then (MkNode (resendHS3 p now).1 Waiting, (resendHS3 p now).2)
          else (MkNode p Waiting, [])).
Proof.
  intros He Hr Hp Hage Hk.
  assert (E1 : run_stage ra p (AtAge (snap p)) now rnd true = Some (p, [], AtHS3 (snap p))).
  { cbn [run_stage snap s_established s_sessSince].
    rewrite He, Sub_gtb, Z.gtb_ltb, (proj2 (Z.ltb_ge _ _)) by done. done. }
  assert (E3 : forall p', run_stage ra p' (AtPath (snap p)) now rnd true = Some (p', [], AtKeepalive (snap p))).
  { intros p'. cbn [run_stage snap s_established s_path]. by rewrite He, Hp. }
  assert (E4 : forall p', run_stage ra p' (AtKeepalive (snap p)) now rnd true = Some (p', [], Waiting)).
  { intros p'. cbn [run_stage snap s_lastSent].
    rewrite Sub_gtb, Z.gtb_ltb, (proj2 (Z.ltb_ge _ _)) by done. done. }
  assert (E0 : run_stage ra p Waiting now rnd true = Some (p, [], AtAge (snap p))).
  { cbn [run_stage]. by rewrite tick_none. }
  assert (E2 : run_stage ra p (AtHS3 (snap p)) now rnd true =
    Some (if hs3Pending p && (now - lastHS3 p >? HS1ResendInterval)
          then ((resendHS3 p now).1, (resendHS3 p now).2, AtPath (snap p)) else (p, [], AtPath (snap p)))).
  { cbn [run_stage snap s_established s_hs3Pending s_lastHS3]. rewrite He, Sub_gtb by done. cbn [andb].
    destruct (hs3Pending p && _); [|done]. by destruct (resendHS3 p now). }
  destruct (hs3Pending p && _).
  - rewrite <- (app_nil_r (resendHS3 p now).2).
    apply (stage _ _ _ _ _ _ [] _ 4 _ _ E0), (stage _ _ _ _ _ _ [] _ 3 _ _ E1), (stage _ _ _ _ _ _ _ _ 2 _ [] E2),
      (stage _ _ _ _ _ _ [] _ 1 _ [] (E3 _)), (stage _ _ _ _ _ _ [] _ 0 _ [] (E4 _)). done.
  - apply (stage _ _ _ _ _ _ [] _ 4 _ [] E0), (stage _ _ _ _ _ _ [] _ 3 _ [] E1), (stage _ _ _ _ _ _ [] _ 2 _ [] E2),
      (stage _ _ _ _ _ _ [] _ 1 _ [] (E3 _)), (stage _ _ _ _ _ _ [] _ 0 _ [] (E4 _)). done.
Qed.

(** Ticks before that change nothing and send nothing. *)
Lemma ticks_quiet ra p ts rnd :
  established p = true -> responder p = None -> path p = PathDirect ->
  Forall (fun now => now - sessSince p <= sessionMaxAge /\ now - lastSent p <= KeepaliveInterval /\
                     now - lastHS3 p <= HS1ResendInterval) ts ->
  node_run ra (MkNode p Waiting) (ticks ts rnd) = Some (MkNode p Waiting, []).
Proof.
  intros He Hr Hp. induction 1 as [|now ts (H1 & H2 & H3) _ IH]; [done|].
  apply (node_run_after ra (loops 5 now rnd) _ (MkNode p Waiting) _ _ [] []); [|done].
  rewrite tick_established by done. rewrite Z.gtb_ltb, (proj2 (Z.ltb_ge _ _)) by done.
  by rewrite andb_false_r.
Qed.

(** ** A tick of the responder: it probes *)

Definition probe_frame : list byte := default [] (Frame TypeProbe []).

Lemma punch_probe ra p now r m :
  initiator p = false ->
  punch ra p now r m = Some (Some (p, sendFrame p m (addressFor ra p m) probe_frame)).
Proof. intros Hi. unfold punch. by rewrite Hi. Qed.

(** Before an HS1, or half open and waiting for HS3: nothing changes. *)
Lemma ticks_probe ra p ep ts rnd :
  initiator p = false -> established p = false -> DirectEP p = Some ep -> mode p = PathDirect ->
  Forall (fun now => now - phaseStart p <= DirectAttempt /\
                     (responder p = None \/ now - hs2SentAt p <= responderHandshakeTimeout)) ts ->
  node_run ra (MkNode p Waiting) (ticks ts rnd)
  = Some (MkNode p Waiting, map (fun _ => SendDirect (Some ep) probe_frame) ts).
Proof.
  intros Hi He Hep Hm. induction 1 as [|now ts (H1 & H2) _ IH]; [done|].
  eapply (node_run_after ra (loops 5 now rnd) _ (MkNode p Waiting) _ _ [_] _); [|exact IH].
  apply tick_punches; try done.
  - destruct H2; [by apply tick_none|by apply tick_fresh].
  - rewrite punch_probe by done. unfold sendFrame, addressFor. cbn. by rewrite Hep.
Qed.
End Loop.
