(* ===== verification/PeerHandshake.v ===== *)
(** * Handshakes between peers (src/internal/peer/peer.go)

    The responder's handshake budget, the answer to duplicate and late handshake
    messages, and the whole establishment between an initiator and a responder, with
    lost messages repaired by the retransmissions, up to the delivery of data. *)

From S2P Require Import Prelude GoBytes GoRuntime GoNet Framing Disco Replay NoiseLib Noisework.
From S2P Require Import Transport PeerSession PeerSafety PeerLoop.
From S2P Require Relay.

(** ** The handshake budget *)

Section Budget.
Context {L : NoiseLib}.
Variable RelayAddr : option UDPAddr.
Implicit Types p : Peer L.

Definition burst p : Time * Z := (hsBurstStart p, hsBurstCount p).

Lemma setSessionLocked_burst p now q pth p' :
  setSessionLocked p now q pth = Some p' -> burst p' = burst p.
Proof.
  unfold setSessionLocked. destruct (sessions p !! q) as [s|]; cbn [mbind option_bind]; [|done].
  intros H. repeat destr_in H; by simplify_eq.
Qed.

Lemma acceptHS1_burst p now rnd msg pth p' os :
  acceptHS1 p now rnd msg pth = Some (p', os) -> burst p' = burst p.
Proof.
  unfold acceptHS1. destruct (match responder p with Some _ => _ | None => _ end); [|by intros [= <-]].
  destruct (ReadMessage1 _ msg) as [[]?]; [|by intros [= <-]].
  destruct (Message2 _) as [[m|]?]; [|by intros [= <-]].
  destruct (Frame TypeHS2 m); cbn; [|done]. by intros [= <-].
Qed.

Lemma onHS1_burst p now rnd msg pth p' os :
  onHS1 p now rnd msg pth = Some (p', os) -> burst p' = burst (countHS1 p now).
Proof.
  unfold onHS1. generalize (countHS1 p now). clear p. intros p H.
  destruct (_ >? _); [by simplify_eq|]. destruct (_ && _); [by simplify_eq|].
  destruct (responder p), (hs2Frame p); try by eapply acceptHS1_burst in H.
  destruct (bool_decide _); [by simplify_eq|]. destruct (_ <? _); [by simplify_eq|].
  apply acceptHS1_burst in H. done.
Qed.

Lemma onHS2_burst p now msg pth p' os : onHS2 p now msg pth = Some (p', os) -> burst p' = burst p.
Proof.
  unfold onHS2. destruct (initiatorHS p); [|by intros [= <-]].
  destruct (ReadMessage2 _ _ msg) as [[[q|] i1] h1]; [|by intros [= <-]].
  destruct (WriteMessage3 _ _ i1) as [[[m3|] i2] h2]; [|by intros [= <-]].
  destruct (setSessionLocked _ _ _ _) as [p1|] eqn:E; cbn [mbind option_bind]; [|done].
  apply setSessionLocked_burst in E. destruct (Frame TypeHS3 m3); cbn; [|done].
  intros [= <- _]. exact E.
Qed.

Lemma onHS3_burst p now msg pth p' os : onHS3 p now msg pth = Some (p', os) -> burst p' = burst p.
Proof.
  unfold onHS3. destruct (responder p); [|by intros [= <-]].
  destruct (ReadMessage3 _ _ _ msg) as [[[q|] i1] h1]; [|by intros [= <-]].
  destruct (setSessionLocked _ _ _ _) as [p1|] eqn:E; cbn [mbind option_bind]; [|done].
  apply setSessionLocked_burst in E. intros [= <- _]. exact E.
Qed.

Lemma onData_burst p d p' : onData p d = Some p' -> burst p' = burst p.
Proof.
  unfold onData. intros H.
  destruct (_ || _); [by simplify_eq|]. destruct (sess p) as [q|]; [|by simplify_eq].
  destruct (sessions p !! q) as [s|]; cbn [mbind option_bind] in H; [|done].
  destruct (_ <? _); [by simplify_eq|]. destruct (replay p) as [w|]; [|by simplify_eq].
  destruct (Check w _) as [[]|]; cbn [mbind option_bind negb] in H; [|by simplify_eq|done].
  destruct (DecryptAt _ _ _) as [[]?]; [|by simplify_eq].
  destruct (Commit w _); cbn [mbind option_bind] in H; [|done].
  destruct (_ && _); by simplify_eq.
Qed.

Lemma Send_burst p now d r p' : Send p now d = Some (r, p') -> burst p' = burst p.
Proof.
  unfold Send, encryptLocked. intros H.
  destruct (sess p) as [q|]; [|by simplify_eq/=].
  destruct (sessions p !! q) as [s|]; cbn [mbind option_bind] in H; [|done].
  destruct (_ >? _); [by simplify_eq/=|]. destruct (Noisework.Send s d) as [[[n ct]|] s1]; [|by simplify_eq/=].
  destruct (Frame _ _); cbn [mbind option_bind] in H; [|done].
  destruct (sendFrame _ _ _ _); by simplify_eq.
Qed.

Lemma run_stage_burst p c now rnd wrote p' os c' :
  run_stage RelayAddr p c now rnd wrote = Some (p', os, c') -> burst p' = burst p.
Proof.
  destruct c as [| |s|s|s|s|s|]; cbn [run_stage]; intros H.
  - unfold runStart in H. repeat destr_in H; by simplify_eq.
  - unfold tick in H. repeat destr_in H; by simplify_eq.
  - destruct (_ && _); by simplify_eq.
  - unfold resendHS3 in H. repeat destr_in H; by simplify_eq.
  - destruct (negb _).
    + unfold punch in H. destruct (_ && _).
      * destruct (hs1Frame p); [repeat destr_in H; simplify_eq/=; by repeat destr_in H; simplify_eq/=|].
        destruct (startInitiator p rnd) as [[m hs]|]; [|by simplify_eq/=].
        destruct (Frame TypeHS1 m); cbn [mbind option_bind] in H; [|done].
        destruct (sendFrame _ _ _ _); by simplify_eq.
      * destruct (Frame TypeProbe []); cbn [mbind option_bind] in H; [|done].
        destruct (sendFrame _ _ _ _); by simplify_eq.
    + destruct (_ && _); [|by simplify_eq]. destruct (bool_decide _).
      * destruct (_ >? _); [|by simplify_eq]. unfold abandonRoaming in H.
        destruct (negb _); by simplify_eq.
      * destruct (_ >? _); [|by simplify_eq]. unfold retryDirect in H.
        destruct (startInitiator p rnd) as [[m hs]|]; [|by simplify_eq/=].
        destruct (Frame TypeHS1 m); cbn [mbind option_bind] in H; by simplify_eq.
  - destruct (_ >? _); [|by simplify_eq]. unfold switchMode in H.
    repeat destr_in H; by simplify_eq.
  - destruct (_ >? _); [|by simplify_eq].
    destruct (Send p now []) as [[r p1]|] eqn:E; cbn [mbind option_bind] in H; [|done].
    apply Send_burst in E. by injection H as <- _ _.
  - by simplify_eq.
Qed.

(** Whether an event is an HS1 for this responder that its budget lets through. *)
Definition admitted p (e : event) : Z :=
  match e with
  | EvFrame now _ _ f =>
      match Parse f with
      | Ok (t, _) =>
          if bool_decide (t = TypeHS1) && negb (initiator p)
             && (hsBurstCount (countHS1 p now) <=? hs1MaxPerSec) then 1 else 0
      | Err _ => 0
      end
  | _ => 0
  end.

Fixpoint admitted_run (n : Node L) (es : list event) : Z :=
  match es with
  | [] => 0
  | e :: es =>
      admitted (peer n) e +
      match node_step RelayAddr n e with
      | Some (n, _) => admitted_run n es
      | None => 0
      end
  end.

(** Frames are handled in time order between [t0] and [t1]. *)
Fixpoint frames_timed (t0 t1 : Time) (es : list event) : Prop :=
  match es with
  | [] => t0 <= t1
  | EvFrame now _ _ _ :: es => t0 <= now /\ frames_timed now t1 es
  | _ :: es => frames_timed t0 t1 es
  end.

Lemma frames_timed_le t0 t1 es : frames_timed t0 t1 es -> t0 <= t1.
Proof.
  revert t0. induction es as [|[] es IH]; cbn; intros t0 H; try done; try by apply IH.
  destruct H as [? ?%IH]. lia.
Qed.

Lemma node_step_burst (n n' : Node L) e os :
  node_step RelayAddr n e = Some (n', os) ->
  (burst (peer n') = burst (peer n) /\ admitted (peer n) e = 0) \/
  exists now rnd src f, e = EvFrame now rnd src f /\
    burst (peer n') = burst (countHS1 (peer n) now) /\
    admitted (peer n) e = if hsBurstCount (countHS1 (peer n) now) <=? hs1MaxPerSec then 1 else 0.
Proof.
  destruct e as [now rnd wrote| |now rnd src f|now d|ep| |]; cbn [node_step]; intros H.
  3:{ destruct (HandleFrame _ _ _ _ _ _) as [[p' os']|] eqn:E; cbn [mbind option_bind] in H; [|done].
      injection H as <- _. unfold HandleFrame in E. cbn [admitted peer].
      destruct (Parse f) as [[t d]|] eqn:Hp; [|left; by injection E as <- _].
      unfold handleFrameByPath in E.
      destruct (decide (t = TypeHS1)) as [->|Hne].
      { cbn in E. destruct (initiator (peer n)) eqn:Hi; [left; by injection E as <- _|].
        right. exists now, rnd, src, f. apply onHS1_burst in E. done. }
      rewrite (bool_decide_eq_false_2 (t = TypeHS1)) in E |- * by done. left. split; [|done].
      repeat case_bool_decide; try (by injection E as <- _).
      - destruct (initiator (peer n)); cbn in E; [by apply onHS2_burst in E|by injection E as <- _].
      - destruct (initiator (peer n)); [by injection E as <- _|by apply onHS3_burst in E].
      - unfold quiet in E. destruct (onData (peer n) d) eqn:Ed; cbn in E; [|done].
        apply onData_burst in Ed. by injection E as <- _. }
  all: left; split; [|done].
  - destruct (run_stage _ _ _ _ _ _) as [[[p' os'] c]|] eqn:E; cbn [mbind option_bind] in H; [|done].
    apply run_stage_burst in E. by injection H as <- _.
  - destruct (pc n); injection H as <- _; done.
  - destruct (Send _ _ _) as [[r p']|] eqn:E; cbn [mbind option_bind] in H; [|done].
    apply Send_burst in E. by injection H as <- _.
  - by injection H as <- _.
  - by injection H as <- _.
  - by injection H as <- _.
Qed.

Lemma admitted_range p e : 0 <= admitted p e <= 1.
Proof. unfold admitted. repeat destr; lia. Qed.

(** What the budget can still admit between [t0] and [t1]. *)
Definition hpot (t0 t1 : Time) (b : Time * Z) : Z :=
  if t0 - b.1 <? Second
  then Z.max 0 (hs1MaxPerSec - b.2) + hs1MaxPerSec * ((t1 - b.1) / Second)
  else hs1MaxPerSec * ((t1 - t0) / Second + 1).

Lemma div_second_step a b : a + Second <= b -> a / Second + 1 <= b / Second.
Proof.
  intros. replace (a / Second + 1) with ((a + 1 * Second) / Second) by (by apply Z.div_add).
  apply Z.div_le_mono; [done|lia].
Qed.

Lemma hpot_mono t0 t0' t1 b : t0 <= t0' -> hpot t0' t1 b <= hpot t0 t1 b.
Proof.
  intros Ht. unfold hpot, hs1MaxPerSec.
  pose proof (Z.div_le_mono (t1 - t0') (t1 - t0) Second ltac:(done) ltac:(lia)).
  destruct (t0' - b.1 <? Second) eqn:E1, (t0 - b.1 <? Second) eqn:E2; zbool; try lia.
  pose proof (div_second_step (t1 - t0') (t1 - b.1) ltac:(lia)). lia.
Qed.

Lemma countHS1_pot p t0 now t1 k :
  t0 <= now <= t1 -> hsBurstStart p <= t0 -> 0 <= hsBurstCount p <= k -> k < 2 ^ 62 ->
  (if hsBurstCount (countHS1 p now) <=? hs1MaxPerSec then 1 else 0)
    + hpot now t1 (burst (countHS1 p now)) <= hpot t0 t1 (burst p) /\
  hsBurstStart (countHS1 p now) <= now /\ 0 <= hsBurstCount (countHS1 p now) <= k + 1.
Proof.
  intros Ht Hst Hc Hk. pose proof (hpot_mono t0 now t1 (burst p) ltac:(lia)) as Hm.
  unfold countHS1. rewrite Sub_geb by done.
  destruct (now - hsBurstStart p >=? Second) eqn:E; zbool; cbn.
  - change (i64 (0 + 1)) with 1. split; [|lia]. unfold hpot in Hm |- *. cbn [burst fst snd] in *. unfold hs1MaxPerSec in *.
    destruct (now - hsBurstStart p <? Second) eqn:E2; zbool; [lia|].
    unfold burst. cbn. rewrite Z.sub_diag. change (0 <? Second) with true. cbv iota.
    cbn. lia.
  - rewrite i64_small by lia. split; [|lia]. unfold hpot, burst in Hm |- *. cbn in *.
    unfold hs1MaxPerSec in *. destruct (now - hsBurstStart p <? Second) eqn:E2; zbool; [|lia].
    destruct (_ <=? 8) eqn:E3; zbool; lia.
Qed.
End Budget.

Section BudgetTheorem.
Context {L : NoiseLib} {W : NoiseLaws L} {X : XXLaws L}.
Variable RelayAddr : option UDPAddr.

Lemma admitted_run_bound es : forall (n : Node L) t0 t1 k,
  Inv (peer n) -> frames_timed t0 t1 es ->
  hsBurstStart (peer n) <= t0 -> 0 <= hsBurstCount (peer n) <= k ->
  k + len es < 2 ^ 62 ->
  admitted_run RelayAddr n es <= hpot t0 t1 (burst (peer n)) /\
  (forall n' os, node_run RelayAddr n es = Some (n', os) ->
     hsBurstStart (peer n') <= t1 /\ 0 <= hsBurstCount (peer n') <= k + len es).
Proof.
  induction es as [|e es IH]; intros n t0 t1 k I Ht Hst Hc Hk.
  - cbn [admitted_run frames_timed node_run] in *. split.
    + unfold hpot, hs1MaxPerSec. pose proof (Z.div_pos (t1 - t0) Second ltac:(lia) eq_refl).
      pose proof (Z.div_pos (t1 - (burst (peer n)).1) Second ltac:(cbn; lia) eq_refl).
      destruct (_ <? _); lia.
    + intros n' os [= <- _]. len_lia.
  - rewrite len_cons in Hk |- *. pose proof (len_nonneg es). cbn [admitted_run node_run].
    destruct (node_step_Good RelayAddr n e I) as (n1 & os1 & E1 & S1). rewrite E1.
    cbn [mbind option_bind]. pose proof (st_inv _ _ S1) as I1.
    assert (Hstep : exists t0', t0 <= t0' /\ frames_timed t0' t1 es /\
      admitted (peer n) e + hpot t0' t1 (burst (peer n1)) <= hpot t0 t1 (burst (peer n)) /\
      hsBurstStart (peer n1) <= t0' /\ 0 <= hsBurstCount (peer n1) <= k + 1).
    { destruct (node_step_burst RelayAddr n n1 e os1 E1)
        as [[Hb Ha]|(now & rnd & src & f & -> & Hb & Ha)]; rewrite Ha.
      - assert (Ht' : exists t0', t0 <= t0' /\ frames_timed t0' t1 es).
        { destruct e; cbn in Ht; try (exists t0; split; [lia|exact Ht]). destruct Ht. eauto. }
        destruct Ht' as (t0' & Hle & Ht'). exists t0'.
        pose proof (hpot_mono t0 t0' t1 (burst (peer n)) Hle). rewrite Hb.
        injection Hb as Hb1 Hb2. split_and!; try done; lia.
      - destruct Ht as [Hle Ht]. pose proof (frames_timed_le _ _ _ Ht).
        destruct (countHS1_pot (peer n) t0 now t1 k) as (A & B & C); [lia..|].
        exists now. rewrite Hb.
        pose proof (f_equal fst Hb) as Hb1. pose proof (f_equal snd Hb) as Hb2. cbn [burst fst snd] in *.
        rewrite Hb1, Hb2. split_and!; try done; lia. }
    destruct Hstep as (t0' & Hle & Ht' & Hp & Hst' & Hc').
    destruct (IH n1 t0' t1 (k + 1) I1 Ht') as [A B]; [lia..|]. split; [lia|].
    intros n' os. destruct (node_run RelayAddr n1 es) as [[n2 os2]|]; cbn [mbind option_bind]; [|done].
    intros [= <- _]. destruct (B n2 os2 eq_refl). lia.
Qed.

(** [C9] Handshake budget: after any history, over any window [t0, t1], a responder
    runs the handshake machine or answers for at most [hs1MaxPerSec] HS1 messages per
    second the window touches, however many arrive; any other HS1 changes nothing but
    the budget's counter and is not answered. *)
Theorem hs1_budget (myID id : string) (key : list byte) (ep : option UDPAddr) (kp : Keypair)
    (pre es : list event) (n : Node L) (os : list output) (t0 t1 : Time)
    (Hpre : node_run RelayAddr (MkNode (New (L := L) myID id key ep kp) NotStarted) pre
            = Some (n, os))
    (Ht0 : frames_timed 0 t0 pre) (Ht1 : frames_timed t0 t1 es)
    (Hlen : len pre + len es < 2 ^ 62) :
  admitted_run RelayAddr n es <= hs1MaxPerSec * ((t1 - t0) / Second + 2) /\
  forall p now rnd src f d,
    Parse f = Ok (TypeHS1, d) -> initiator p = false ->
    admitted p (EvFrame now rnd src f) = 0 ->
    HandleFrame RelayAddr p now rnd src f = Some (countHS1 (L := L) p now, []).
Proof.
  pose proof (len_nonneg pre). pose proof (len_nonneg es). split.
  - pose proof (Inv_New (L := L) myID id key ep kp) as I0.
    destruct (admitted_run_bound pre (MkNode (New (L := L) myID id key ep kp) NotStarted) 0 t0 0)
      as [_ Hn]; try done; [cbn; lia..|].
    destruct (Hn n os Hpre) as [Hst Hc]. clear Hn.
    destruct (node_run_Good RelayAddr (MkNode (New (L := L) myID id key ep kp) NotStarted) pre I0) as (n' & os' & E & S).
    assert (n' = n) as -> by congruence.
    destruct (admitted_run_bound es n t0 t1 (0 + len pre) (st_inv _ _ S) Ht1 Hst Hc) as [Ha _]; [lia|].
    etransitivity; [exact Ha|]. pose proof (frames_timed_le _ _ _ Ht1).
    unfold hpot, hs1MaxPerSec. cbn [burst fst snd].
    destruct (_ <? _) eqn:E2; zbool; [|lia].
    pose proof (Z.div_le_mono (t1 - hsBurstStart (peer n)) (t1 - t0 + 1 * Second) Second
                  ltac:(done) ltac:(lia)) as Hd.
    rewrite Z.div_add in Hd by done. lia.
  - intros p now rnd src f d Hp Hi. cbn [admitted]. rewrite Hp, Hi. cbn [negb].
    rewrite bool_decide_eq_true_2 by done. cbn [andb].
    destruct (_ <=? _) eqn:E; zbool; [done|]. intros _.
    unfold HandleFrame. rewrite Hp. unfold handleFrameByPath. cbn. rewrite Hi. unfold onHS1.
    by rewrite (proj2 (Z.gtb_lt _ _)).
Qed.
End BudgetTheorem.

(** ** Messages that must not disturb a handshake *)

Section HS1.
Context {L : NoiseLib}.
Variable RelayAddr : option UDPAddr.
Implicit Types p : Peer L.

(** What an HS1 cannot disturb: beyond the budget, or over an established direct
    session, or while a handshake is half-open and not timed out, an HS1 changes
    nothing but the budget's counter; it is answered only in the half-open case and
    only when it repeats the accepted HS1, by the HS2 already sent. *)
Theorem onHS1_guarded p (now : Time) (rnd msg : list byte) (pth : Path)
    (H : hs1MaxPerSec < hsBurstCount (countHS1 p now) \/
         (established p = true /\ path p <> PathRelay) \/
         (exists r f, responder p = Some r /\ hs2Frame p = Some f /\
            (msg = hs1Msg p \/ Sub now (hs2SentAt p) < responderHandshakeTimeout))) :
  exists os, onHS1 p now rnd msg pth = Some (countHS1 p now, os) /\
    (os = [] \/ exists f, hs2Frame p = Some f /\ msg = hs1Msg p /\
                  os = option_list (sendFrame p pth (DirectEP p) f)).
Proof.
  unfold onHS1. set (p1 := countHS1 p now) in *.
  assert (E : established p1 = established p /\ path p1 = path p /\ responder p1 = responder p /\
              hs2Frame p1 = hs2Frame p /\ hs1Msg p1 = hs1Msg p /\ hs2SentAt p1 = hs2SentAt p /\
              DirectEP p1 = DirectEP p /\ forall f, sendFrame p1 pth (DirectEP p) f
                                        = sendFrame p pth (DirectEP p) f).
  { unfold p1, countHS1. by destruct (_ >=? _). }
  clearbody p1. destruct E as (-> & -> & -> & -> & -> & -> & -> & E).
  destruct (hsBurstCount p1 >? hs1MaxPerSec) eqn:E1; zbool; [eauto|].
  destruct (_ && _) eqn:E2; [eauto|].
  destruct H as [H|[[H1 H2]|(r & f & -> & -> & H)]]; [lia| |].
  { rewrite H1, bool_decide_eq_false_2 in E2; done. }
  clear E2. case_bool_decide as Hm.
  { eexists; split; [done|]. right. exists f. by rewrite E. }
  destruct H as [?|H]; [done|]. rewrite (proj2 (Z.ltb_lt _ _)) by done. eauto.
Qed.
End HS1.

(** ** Data over a pair of sessions *)

Section Delivery.
Context {L : NoiseLib} {W : NoiseLaws L}.
Variable RelayAddr : option UDPAddr.
Implicit Types a b p : Peer L.

(** What [a] sends next, [b] will open: their sessions share the keys and epochs, and
    [b]'s gate has seen none of the nonces [a] is yet to use. *)
Definition linked a b : Prop :=
  closed b = false /\ recvClosed b = false /\
  exists q s q' r k0 w sp,
    sess a = Some q /\ sessions a !! q = Some s /\
    sess b = Some q' /\ sessions b !! q' = Some r /\
    SendInv k0 s /\ RecvInv k0 r /\ rekeyEvery r = rekeyEvery s /\
    recvEpoch r <= epochOf (sendCount s) (rekeyEvery s) <= recvEpoch r + maxEpochJump /\
    replay b = Some w /\ Repr replayWindowSizeBits w sp /\
    (forall n, n ∈ Spec.seen sp -> n < sendCount s) /\ Spec.top sp <= sendCount s.

Lemma onData_opens p q r n ct plain w sp :
  closed p = false -> recvClosed p = false ->
  sess p = Some q -> sessions p !! q = Some r -> 0 <= n < 2 ^ 64 ->
  replay p = Some w -> Repr replayWindowSizeBits w sp -> Spec.fresh replayWindowSizeBits sp n ->
  (DecryptAt r n ct).1 = Ok plain -> plain <> [] -> len (recvQ p) < recvCap ->
  exists p' w', onData p (be_put 8 n ++ ct) = Some p' /\
    recvQ p' = recvQ p ++ [plain] /\
    closed p' = false /\ recvClosed p' = false /\ sess p' = Some q /\
    sessions p' = <[q := (DecryptAt r n ct).2]> (sessions p) /\
    replay p' = Some w' /\ Repr replayWindowSizeBits w' (Spec.commit sp n) /\
    path p' = path p /\ DirectEP p' = DirectEP p.
Proof.
  intros Hc Hrc Hq Hr Hn Hw R Hf Hd Hne Hcap. unfold onData.
  rewrite Hc, Hrc, Hq, Hr, Hw. cbn [orb mbind option_bind].
  destruct (len (be_put 8 n ++ ct) <? 8) eqn:E; zbool; [exfalso; len_lia|].
  assert (Ht : take 8 (be_put 8 n ++ ct) = be_put 8 n).
  { rewrite take_app_le, take_ge by (rewrite length_be_put; lia). done. }
  assert (Hdr : drop 8 (be_put 8 n ++ ct) = ct).
  { rewrite drop_app_ge, length_be_put by (rewrite length_be_put; lia). done. }
  rewrite Ht, Hdr, be_get_put_small by (cbn; lia).
  rewrite (Check_spec _ _ _ _ R Hn), bool_decide_eq_true_2 by done. cbn [mbind option_bind negb].
  destruct (DecryptAt r n ct) as [o r'] eqn:ED. cbn [fst] in Hd. subst o.
  destruct (Commit_spec _ _ _ _ R Hn Hf) as (w' & -> & R'). cbn [mbind option_bind].
  destruct plain as [|x plain]; [done|].
  rewrite (proj2 (Z.gtb_lt _ _)) by len_lia. cbn [recvQ andb].
  rewrite (proj2 (Z.ltb_lt _ _)) by exact Hcap. by eexists _, w'.
Qed.

Definition out_frame (o : output) : list byte :=
  match o with SendDirect _ f | SendRelay _ f => f end.

(** The largest payload [encryptLocked] accepts on the current path. *)
Definition payload_limit p : Z :=
  if bool_decide (path p = PathRelay) then maxPlaintextLen - Relay.MaxHeaderLen
  else maxPlaintextLen.

(** [a] has a path to send on and [k] nonces left. *)
Definition can_send a (k : Z) : Prop :=
  (path a = PathRelay \/ DirectEP a <> None) /\
  exists q s, sess a = Some q /\ sessions a !! q = Some s /\ sendCount s + k <= MaxNonce + 1.

(** The half of a session that sends and the half that receives do not meet. *)
Lemma SendInv_recv k0 s c e n : SendInv k0 s -> SendInv k0 (set_recv s c e n).
Proof. intros []. by constructor. Qed.
Lemma RecvInv_send k0 s c e n : RecvInv k0 s -> RecvInv k0 (set_send s c e n).
Proof. intros []. by constructor. Qed.

(** [a]'s sending and [b]'s receiving leave the other direction as it is. *)
Lemma linked_back a b a' b' q s q' r c e c' e' :
  sess a = Some q -> sessions a !! q = Some s -> sess b = Some q' -> sessions b !! q' = Some r ->
  sess a' = Some q -> sessions a' !! q = Some (set_send s c e (sendCount s + 1)) ->
  sess b' = Some q' -> sessions b' !! q' = Some (set_recv r c' e' (recvCount r)) ->
  closed a' = closed a -> recvClosed a' = recvClosed a -> replay a' = replay a ->
  path b' = path b -> DirectEP b' = DirectEP b ->
  (linked b a -> linked b' a') /\ (forall m, can_send b m -> can_send b' m).
Proof.
  intros A1 A2 B1 B2 A1' A2' B1' B2' E1 E2 E3 E4 E5. split.
  - intros (H1 & H2 & p & sb & p' & ra & k0 & w & sp & H3 & H4 & H5 & H6 & Is & Ir & Hev & Hep & Hw & Hrest).
    rewrite B1 in H3. injection H3 as <-. rewrite B2 in H4. injection H4 as <-.
    rewrite A1 in H5. injection H5 as <-. rewrite A2 in H6. injection H6 as <-.
    split; [congruence|]. split; [congruence|]. eexists q', _, q, _, k0, w, sp.
    rewrite E3. split_and!; try done; try apply Hep; try apply Hrest; [by apply SendInv_recv|by apply RecvInv_send].
  - intros m (Hw & p & sb & H3 & H4 & Hm). split; [by rewrite E4, E5|].
    rewrite B1 in H3. injection H3 as <-. rewrite B2 in H4. injection H4 as <-. by eexists q', _.
Qed.

Lemma deliver_step a b k now now' rnd src payload :
  linked a b -> can_send a k -> 1 <= k ->
  payload <> [] -> len payload <= payload_limit a -> len (recvQ b) < recvCap ->
  exists o a' b', Send a now payload = Some (Ok o, a') /\
    HandleFrame RelayAddr b now' rnd src (out_frame o) = Some (b', []) /\
    recvQ b' = recvQ b ++ [payload] /\ linked a' b' /\ can_send a' (k - 1) /\
    path a' = path a /\
    (linked b a -> linked b' a') /\ (forall m, can_send b m -> can_send b' m) /\
    recvQ a' = recvQ a /\ path b' = path b.
Proof.
  intros (Hcb & Hrb & q & s & q' & r & k0 & w & sp & Hqa & Hs & Hqb & Hr & Is & Ir & Hev & Hep &
          Hw & R & Hseen & Htop) [Hway (qa & sa & E1 & E2 & Hk)] Hk1 Hne Hlen Hcap.
  rewrite Hqa in E1. injection E1 as <-. rewrite Hs in E2. injection E2 as <-.
  pose proof (si_count _ _ Is) as Hcnt.
  destruct (Send_spec k0 s payload Is) as (c & e & HS & Is'); [lia|].
  set (n := sendCount s) in *. set (ct := sealed k0 (rekeyEvery s) n payload) in *.
  assert (Hn : 0 <= n < 2 ^ 64) by (unfold MaxNonce in *; lia).
  assert (Hd : (DecryptAt r n ct).1 = Ok payload).
  { apply (DecryptAt_Ok k0); [done|lia|]. rewrite Hev. split_and!; try done; lia. }
  destruct (DecryptAt_Ok_state k0 r n ct payload Ir ltac:(lia) Hd) as (cr & Hst & Ir').
  assert (Hfresh : Spec.fresh replayWindowSizeBits sp n).
  { split; [intros Hin; specialize (Hseen _ Hin); lia|]. right. unfold replayWindowSizeBits. lia. }
  destruct (onData_opens b q' r n ct payload w sp) as (b' & w' & HD & D1 & D2 & D3 & D4 & D5 & D6 & D7 & D8 & D9);
    try done.
  assert (Hfr : exists f, Frame TypeData (be_put 8 n ++ ct) = Some f).
  { apply Frame_fits. unfold ct, sealed. rewrite len_app, len_be_put, len_seal. unfold tagLen.
    revert Hlen. unfold payload_limit, maxPlaintextLen, maxUDPPayload, frameHeader, nonceLen, aeadTag,
      Relay.MaxHeaderLen, Relay.MaxNameLen. case_bool_decide; lia. }
  destruct Hfr as [f Hf].
  unfold Send, encryptLocked. rewrite Hqa, Hs. cbn [mbind option_bind].
  assert (Hlim : (len payload >? (if bool_decide (path a = PathRelay)
            then MaxPlaintextLen s - Relay.MaxHeaderLen else MaxPlaintextLen s)) = false).
  { rewrite Z.gtb_ltb. apply Z.ltb_ge. exact Hlen. }
  rewrite Hlim, HS, Hf. cbn [mbind option_bind].
  set (a' := a <| sessions := _ |> <| lastSent := now |> <| bytesTx := _ |>).
  assert (Hsf : exists o, sendFrame a' (path a) (DirectEP a) f = Some o /\ out_frame o = f).
  { unfold sendFrame. case_bool_decide as Hp; [eauto|].
    destruct Hway as [?|Hd']; [done|]. destruct (DirectEP a); [eauto|done]. }
  change (path (upd sessions _ a)) with (path a). change (DirectEP (upd sessions _ a)) with (DirectEP a).
  destruct Hsf as (o & Ho & Hof). exists o, a', b'.
  split; [cbn in Ho |- *; by rewrite Ho|].
  split.
  { rewrite Hof. apply Parse_Ok_Frame in Hf.
    rewrite (HandleFrame_data _ _ _ _ _ _ _ Hf). unfold quiet. by rewrite HD. }
  split; [done|]. assert (Hlt : (q < length (sessions a))%nat) by (by eapply lookup_lt_Some).
  assert (Hlt' : (q' < length (sessions b))%nat) by (by eapply lookup_lt_Some).
  assert (Hs' : sessions a' !! q = Some (set_send s c e (n + 1))).
  { unfold a'. cbn. by rewrite list_lookup_insert_eq. }
  split; [|split; [|split; [done|]]].
  - split; [done|]. split; [done|].
    exists q, (set_send s c e (n + 1)), q', (DecryptAt r n ct).2, k0, w', (Spec.commit sp n).
    split_and!; try done.
    + rewrite D5. by rewrite list_lookup_insert_eq.
    + rewrite Hst. cbn. exact Hev.
    + rewrite Hst. cbn. rewrite Hev.
      pose proof (epochOf_succ n (rekeyEvery s) (si_every _ _ Is) ltac:(lia)). lia.
    + rewrite Hst. cbn. rewrite Hev. unfold maxEpochJump.
      pose proof (epochOf_succ n (rekeyEvery s) (si_every _ _ Is) ltac:(lia)). lia.
    + cbn. intros m [->%elem_of_singleton|Hm]%elem_of_union; [lia|]. specialize (Hseen _ Hm). lia.
    + cbn. lia.
  - split; [done|]. exists q, (set_send s c e (n + 1)). split; [done|]. split; [done|]. cbn. lia.
  - destruct (linked_back a b a' b' q s q' r c e cr (epochOf n (rekeyEvery r))) as [Hb1 Hb2]; try done.
    rewrite D5, <- Hst. by rewrite list_lookup_insert_eq.
Qed.

(** [a] sends the payloads one after the other, and every frame reaches [b]. *)
Fixpoint transfer a b (now : Time) (rnd : list byte) (src : option UDPAddr)
    (ps : list (list byte)) : option (Peer L * Peer L) :=
  match ps with
  | [] => Some (a, b)
  | d :: ps =>
      '(r, a) ← Send a now d;
      match r with
      | Err _ => None
      | Ok o =>
          '(b, _) ← HandleFrame RelayAddr b now rnd src (out_frame o);
          transfer a b now rnd src ps
      end
  end.

(** Data flows: between peers whose sessions are linked, payloads that fit the
    path are delivered to the application in order and unchanged, up to the capacity
    of the receive queue, and the peers stay linked. *)
Theorem data_flows a b (now : Time) (rnd : list byte) (src : option UDPAddr)
    (ps : list (list byte))
    (Hlink : linked a b) (Hsend : can_send a (len ps))
    (Hps : Forall (fun d => d <> [] /\ len d <= payload_limit a) ps)
    (Hcap : len (recvQ b) + len ps <= recvCap) :
  exists a' b', transfer a b now rnd src ps = Some (a', b') /\
    recvQ b' = recvQ b ++ ps /\ linked a' b'.
Proof.
  revert a b Hlink Hsend Hps Hcap. induction ps as [|d ps IH]; intros a b Hlink Hsend Hps Hcap.
  - exists a, b. by rewrite app_nil_r.
  - destruct (Forall_inv Hps) as [Hne Hd]. apply Forall_inv_tail in Hps. rewrite len_cons in *. pose proof (len_nonneg ps).
    destruct (deliver_step a b (1 + len ps) now now rnd src d) as (o & a1 & b1 & E1 & E2 & Hq & Hl & Hc & Hp & _);
      try done; [lia|lia|].
    replace (1 + len ps - 1) with (len ps) in Hc by lia.
    destruct (IH a1 b1 Hl Hc) as (a2 & b2 & E3 & Hq2 & Hl2).
    { unfold payload_limit in *. by rewrite Hp. }
    { rewrite Hq. len_lia. }
    exists a2, b2. cbn [transfer]. rewrite E1. cbn [mbind option_bind]. rewrite E2.
    cbn [mbind option_bind]. split; [exact E3|]. split; [|done]. by rewrite Hq2, Hq, <- app_assoc.
Qed.
End Delivery.

(** ** Establishment *)

Section Establish.
Context {L : NoiseLib} {W : NoiseLaws L} {X : XXLaws L}.
Variable RelayAddr : option UDPAddr.
Implicit Types a b p : Peer L.

(** The one datagram a handler answered with. *)
Definition answer (os : list output) : option (list byte) :=
  match os with [o] => Some (out_frame o) | _ => None end.

(** An initiator and a responder whose loops start at [s] and tick at [t0], [t1], the times
    [idle] and [t2], with the answer to the first HS1 and the first HS3 lost: only the
    loops repeat a message. What the responder's ticks send (probes) is ignored. *)
Definition lossy_exchange (nA nB : Node L) (s t0 t1 : Time) (idle : list Time) (t2 : Time)
    (rA rB : list byte) (srcA srcB : option UDPAddr) : option (Node L * Node L) :=
  '(nA, _) ← node_run RelayAddr nA (loops 1 s rA);
  '(nB, _) ← node_run RelayAddr nB (loops 1 s rB);
  '(nA, os) ← node_run RelayAddr nA (ticks [t0] rA);
  '(nB, _) ← node_run RelayAddr nB (ticks [t0] rB);
  hs1 ← answer os;
  '(nB, _) ← node_step RelayAddr nB (EvFrame t0 rB srcA hs1);
  '(nA, os) ← node_run RelayAddr nA (ticks [t1] rA);
  '(nB, _) ← node_run RelayAddr nB (ticks [t1] rB);
  hs1 ← answer os;
  '(nB, os) ← node_step RelayAddr nB (EvFrame t1 rB srcA hs1);
  hs2 ← answer os;
  '(nA, _) ← node_step RelayAddr nA (EvFrame t1 rA srcB hs2);
  '(nA, os) ← node_run RelayAddr nA (ticks (idle ++ [t2]) rA);
  '(nB, _) ← node_run RelayAddr nB (ticks idle rB);
  hs3 ← answer os;
  '(nB, _) ← node_step RelayAddr nB (EvFrame t2 rB srcA hs3);
  Some (nA, nB).

Lemma punch_first p now r e m i :
  initiator p = true -> HS1ResendInterval <= Sub now (lastHS1 p) -> hs1Frame p = None ->
  startInitiator p r = Some (m, i) -> DirectEP p = Some e ->
  exists f, Parse f = Ok (TypeHS1, m) /\
    punch RelayAddr p now r PathDirect =
      Some (Some (p <| initiatorHS := Some i |> <| hs1Frame := Some f |> <| lastHS1 := now |>,
                  Some (SendDirect (Some e) f))).
Proof.
  intros Hi Hl Hn Hs He. unfold punch. rewrite Hi, (proj2 (Z.geb_le _ _)), Hn, Hs by done.
  destruct (Frame_fits TypeHS1 m) as [f Hf]; [by eapply startInitiator_len|].
  exists f. rewrite Hf. split; [by apply Parse_Ok_Frame|]. cbn. by rewrite He.
Qed.

Lemma punch_again p now r e f :
  initiator p = true -> HS1ResendInterval <= Sub now (lastHS1 p) -> hs1Frame p = Some f ->
  DirectEP p = Some e ->
  punch RelayAddr p now r PathDirect =
    Some (Some (p <| lastHS1 := now |>, Some (SendDirect (Some e) f))).
Proof.
  intros Hi Hl Hn He. unfold punch. rewrite Hi, (proj2 (Z.geb_le _ _)), Hn by done.
  cbn. by rewrite He.
Qed.

Lemma HandleFrame_hs p now r src f t m pth :
  Parse f = Ok (t, m) -> framePath RelayAddr src = pth ->
  HandleFrame RelayAddr p now r src f =
    handleFrameByPath p now r pth t m.
Proof. intros Hp Hs. unfold HandleFrame. by rewrite Hp, Hs. Qed.

Lemma HandleFrame_HS1 p now r src f m pth :
  Parse f = Ok (TypeHS1, m) -> framePath RelayAddr src = pth -> initiator p = false ->
  HandleFrame RelayAddr p now r src f = onHS1 p now r m pth.
Proof.
  intros Hp Hs Hi. rewrite (HandleFrame_hs _ _ _ _ _ _ _ _ Hp Hs).
  unfold handleFrameByPath. cbn. by rewrite Hi.
Qed.

Lemma HandleFrame_HS2 p now r src f m pth :
  Parse f = Ok (TypeHS2, m) -> framePath RelayAddr src = pth -> initiator p = true ->
  HandleFrame RelayAddr p now r src f = onHS2 p now m pth.
Proof.
  intros Hp Hs Hi. rewrite (HandleFrame_hs _ _ _ _ _ _ _ _ Hp Hs).
  unfold handleFrameByPath. cbn. by rewrite Hi.
Qed.

Lemma HandleFrame_HS3 p now r src f m pth :
  Parse f = Ok (TypeHS3, m) -> framePath RelayAddr src = pth -> initiator p = false ->
  HandleFrame RelayAddr p now r src f = onHS3 p now m pth.
Proof.
  intros Hp Hs Hi. rewrite (HandleFrame_hs _ _ _ _ _ _ _ _ Hp Hs).
  unfold handleFrameByPath. cbn. by rewrite Hi.
Qed.

(** Where frames over the path [pth] go. *)
Definition sends_on p (pth : Path) (out : list byte -> output) : Prop :=
  forall f, sendFrame p pth (DirectEP p) f = Some (out f).

Lemma sends_direct p e : DirectEP p = Some e -> sends_on p PathDirect (SendDirect (Some e)).
Proof. intros H f. cbn. by rewrite H. Qed.
Lemma sends_same p q pth out : sends_on p pth out -> DirectEP q = DirectEP p -> ID q = ID p -> sends_on q pth out.
Proof. intros H E1 E2 f. rewrite <- (H f). unfold sendFrame. by rewrite E1, E2. Qed.
Lemma sends_relay p : sends_on p PathRelay (SendRelay (ID p)).
Proof. done. Qed.

Lemma onHS1_path p now rnd m1 m2 pth out r0 r1 r2 :
  hsBurstCount (countHS1 p now) <= hs1MaxPerSec -> established p = false ->
  responder p = None -> NewResponder (myKp p) Prologue rnd = Ok r0 ->
  ReadMessage1 r0 m1 = (Ok tt, r1) -> Message2 r1 = (Ok m2, r2) -> sends_on p pth out ->
  exists f, Parse f = Ok (TypeHS2, m2) /\
    onHS1 p now rnd m1 pth =
      Some (countHS1 p now <| responder := Some r2 |> <| hs1Msg := m1 |>
              <| hs2Frame := Some f |> <| hs2SentAt := now |> <| mode := pth |>
              <| phaseStart := now |>, [out f]).
Proof.
  intros Hb He Hr HN H1 H2 Hd. unfold onHS1. set (p1 := countHS1 p now) in *.
  assert (E : established p1 = established p /\ responder p1 = responder p /\
              myKp p1 = myKp p /\ DirectEP p1 = DirectEP p /\ ID p1 = ID p)
    by (unfold p1, countHS1; by destruct (_ >=? _)).
  clearbody p1. destruct E as (E1 & E2 & E3 & E4 & E5).
  rewrite E1, He, E2, Hr. rewrite Z.gtb_ltb, (proj2 (Z.ltb_ge _ _)) by done. cbn [andb].
  unfold acceptHS1. rewrite E2, Hr, E3, HN, H1, H2.
  destruct (Frame_fits TypeHS2 m2) as [f Hf]; [by eapply Message2_len|].
  exists f. rewrite Hf. split; [by apply Parse_Ok_Frame|]. cbn [mbind option_bind].
  by rewrite (sends_same p _ pth out Hd).
Qed.

Lemma onHS1_first p now rnd m1 m2 e r0 r1 r2 :
  hsBurstCount (countHS1 p now) <= hs1MaxPerSec -> established p = false ->
  responder p = None -> NewResponder (myKp p) Prologue rnd = Ok r0 ->
  ReadMessage1 r0 m1 = (Ok tt, r1) -> Message2 r1 = (Ok m2, r2) -> DirectEP p = Some e ->
  exists f, Parse f = Ok (TypeHS2, m2) /\
    onHS1 p now rnd m1 PathDirect =
      Some (countHS1 p now <| responder := Some r2 |> <| hs1Msg := m1 |>
              <| hs2Frame := Some f |> <| hs2SentAt := now |> <| mode := PathDirect |>
              <| phaseStart := now |>, [SendDirect (Some e) f]).
Proof. intros. by eapply onHS1_path; try apply sends_direct. Qed.

Lemma onHS1_again p now rnd m1 e r f :
  hsBurstCount (countHS1 p now) <= hs1MaxPerSec -> established p = false ->
  responder p = Some r -> hs2Frame p = Some f -> hs1Msg p = m1 -> DirectEP p = Some e ->
  onHS1 p now rnd m1 PathDirect = Some (countHS1 p now, [SendDirect (Some e) f]).
Proof.
  intros Hb He Hr Hf Hm Hd. unfold onHS1. set (p1 := countHS1 p now) in *.
  assert (E : established p1 = established p /\ responder p1 = responder p /\
              hs2Frame p1 = hs2Frame p /\ hs1Msg p1 = hs1Msg p /\ DirectEP p1 = DirectEP p)
    by (unfold p1, countHS1; by destruct (_ >=? _)).
  clearbody p1. destruct E as (E1 & E2 & E3 & E4 & E5).
  rewrite E1, He, E2, Hr, E3, Hf, E4, E5, Hd.
  rewrite Z.gtb_ltb, (proj2 (Z.ltb_ge _ _)) by done. cbn [andb].
  by rewrite bool_decide_eq_true_2.
Qed.

(** A first session: the authenticated key is the expected one. *)
Lemma setSessionLocked_first p now q s pth :
  sess p = None -> sessions p !! q = Some s -> PeerStatic s = peerKey p -> len (peerKey p) = 32 ->
  setSessionLocked p now q pth =
    Some (p <| sess := Some q |> <| replay := Some (newReplayWindow replayWindowSizeBits) |>
            <| established := true |> <| path := pth |> <| mode := pth |>
            <| sessSince := now |> <| lastSent := now |>).
Proof.
  intros Hs Hq Hk Hl. unfold setSessionLocked. rewrite Hq. cbn [mbind option_bind].
  rewrite Hk, Hl, bool_decide_eq_true_2, Hs by done. done.
Qed.

(** The clocks that [onHS2] sets. *)
Definition sent_at p p' (now : Time) : Prop :=
  responder p' = responder p /\ sessSince p' = now /\ lastSent p' = now /\ lastHS3 p' = now.

Lemma onHS2_path p now m2 m3 pth out i i1 i2 q h1 h2 s :
  initiatorHS p = Some i -> ReadMessage2 (sessions p) i m2 = (Ok q, i1, h1) ->
  WriteMessage3 now h1 i1 = (Ok m3, i2, h2) -> len m3 <= 65535 ->
  sess p = None -> h2 !! q = Some s -> PeerStatic s = peerKey p -> len (peerKey p) = 32 ->
  sends_on p pth out ->
  exists f p', Parse f = Ok (TypeHS3, m3) /\
    onHS2 p now m2 pth = Some (p', [out f]) /\
    sess p' = Some q /\ sessions p' = h2 /\ established p' = true /\ path p' = pth /\
    mode p' = pth /\ hs3Pending p' = true /\ hs3Frame p' = Some f /\
    replay p' = Some (newReplayWindow replayWindowSizeBits) /\
    DirectEP p' = DirectEP p /\ closed p' = closed p /\ recvClosed p' = recvClosed p /\
    recvQ p' = recvQ p /\ sent_at p p' now.
Proof.
  intros Hi HR HW Hlen Hs Hq Hk Hl Hd. unfold onHS2. rewrite Hi, HR, HW.
  rewrite (setSessionLocked_first _ now q s pth) by done. cbn [mbind option_bind].
  destruct (Frame_fits TypeHS3 m3 Hlen) as [f Hf]. rewrite Hf. cbn [mbind option_bind].
  exists f. eexists. split; [by apply Parse_Ok_Frame|]. split.
  - by rewrite (sends_same p _ pth out Hd).
  - by cbn.
Qed.

Lemma onHS2_first p now m2 m3 e i i1 i2 q h1 h2 s :
  initiatorHS p = Some i -> ReadMessage2 (sessions p) i m2 = (Ok q, i1, h1) ->
  WriteMessage3 now h1 i1 = (Ok m3, i2, h2) -> len m3 <= 65535 ->
  sess p = None -> h2 !! q = Some s -> PeerStatic s = peerKey p -> len (peerKey p) = 32 ->
  DirectEP p = Some e ->
  exists f p', Parse f = Ok (TypeHS3, m3) /\
    onHS2 p now m2 PathDirect = Some (p', [SendDirect (Some e) f]) /\
    sess p' = Some q /\ sessions p' = h2 /\ established p' = true /\ path p' = PathDirect /\
    mode p' = PathDirect /\ hs3Pending p' = true /\ hs3Frame p' = Some f /\
    replay p' = Some (newReplayWindow replayWindowSizeBits) /\
    DirectEP p' = Some e /\ closed p' = closed p /\ recvClosed p' = recvClosed p /\
    recvQ p' = recvQ p /\ sent_at p p' now.
Proof.
  intros Hi HR HW Hlen Hs Hq Hk Hl Hd.
  destruct (onHS2_path p now m2 m3 PathDirect _ i i1 i2 q h1 h2 s Hi HR HW Hlen Hs Hq Hk Hl (sends_direct p e Hd))
    as (f & p' & H). exists f, p'. by rewrite Hd in H.
Qed.

Lemma onHS3_path p now m3 pth r r1 q h s :
  responder p = Some r -> ReadMessage3 now (sessions p) r m3 = (Ok q, r1, h) ->
  sess p = None -> h !! q = Some s -> PeerStatic s = peerKey p -> len (peerKey p) = 32 ->
  exists p', onHS3 p now m3 pth = Some (p', []) /\
    sess p' = Some q /\ sessions p' = h /\ established p' = true /\ path p' = pth /\
    replay p' = Some (newReplayWindow replayWindowSizeBits) /\
    DirectEP p' = DirectEP p /\ closed p' = closed p /\ recvClosed p' = recvClosed p /\
    recvQ p' = recvQ p.
Proof.
  intros Hr HR Hs Hq Hk Hl. unfold onHS3. rewrite Hr, HR.
  rewrite (setSessionLocked_first _ now q s pth) by done. cbn [mbind option_bind].
  eexists. split; [done|]. by cbn.
Qed.

Lemma onHS3_first p now m3 r r1 q h s :
  responder p = Some r -> ReadMessage3 now (sessions p) r m3 = (Ok q, r1, h) ->
  sess p = None -> h !! q = Some s -> PeerStatic s = peerKey p -> len (peerKey p) = 32 ->
  exists p', onHS3 p now m3 PathDirect = Some (p', []) /\
    sess p' = Some q /\ sessions p' = h /\ established p' = true /\ path p' = PathDirect /\
    replay p' = Some (newReplayWindow replayWindowSizeBits) /\
    DirectEP p' = DirectEP p /\ closed p' = closed p /\ recvClosed p' = recvClosed p /\
    recvQ p' = recvQ p.
Proof. apply onHS3_path. Qed.

Lemma linked_paired a b q q' s r :
  closed b = false -> recvClosed b = false ->
  sess a = Some q -> sessions a !! q = Some s -> sess b = Some q' -> sessions b !! q' = Some r ->
  paired s r -> replay b = Some (newReplayWindow replayWindowSizeBits) -> linked a b.
Proof.
  intros Hc Hrc Ha Hs Hb Hr (k0 & [Is Ir Hev Hcnt Hep]) Hw. split; [done|]. split; [done|].
  exists q, s, q', r, k0, (newReplayWindow replayWindowSizeBits), Spec.init.
  rewrite Hcnt, Hev in Hep. split_and!; try done; try lia.
  - by apply Repr_init.
  - cbn. apply (si_count _ _ Is).
Qed.

(** [p], whose peer's endpoint is [ep], has an authenticated session over the path [pth],
    linked to the one [q] keeps, and has not received anything yet. *)
Record up (pth : Path) p q (key : list byte) (ep : UDPAddr) : Prop := {
  up_established : Established p = true;
  up_key : RemoteStatic p = Some key;
  up_path : path p = pth;
  up_ep : DirectEP p = Some ep;
  up_queue : recvQ p = [];
  up_linked : linked p q;
  up_nonces : can_send p (MaxNonce + 1)
}.

(** Both sides after their handlers of HS2 and HS3. *)
Lemma up_paired pth p q s r key ep :
  established p = true -> path p = pth -> DirectEP p = Some ep -> recvQ p = [] -> sess p = Some 0%nat ->
  sessions p = [s] -> closed q = false -> recvClosed q = false -> sess q = Some 0%nat -> sessions q = [r] ->
  replay q = Some (newReplayWindow replayWindowSizeBits) ->
  paired s r -> PeerStatic s = key -> sendCount s = 0 -> up pth p q key ep.
Proof.
  intros He Hp Hd Hq Hs Hss Hc Hrc Hs' Hss' Hw Hpr Hk Hn.
  assert (Hl : sessions p !! 0%nat = Some s) by by rewrite Hss.
  constructor; try done.
  - unfold RemoteStatic, deref. rewrite Hs. cbn [mbind option_bind]. rewrite Hl. cbn. by rewrite Hk.
  - apply (linked_paired p q 0%nat 0%nat s r); try done. by rewrite Hss'.
  - split; [right; by rewrite Hd|]. exists 0%nat, s. split_and!; try done. rewrite Hn. lia.
Qed.

(** The machines of both sides, run over the three messages from empty heaps. *)
Lemma machines_run (kA kB : Keypair) (rA rB : list byte) (tA tB : Time) :
  genuine kA -> genuine kB -> len rA = 32 -> len rB = 32 ->
  exists m1 i1 m2 r0 r1 r2 m3 i2 i3 r3 sA sB,
    (forall p, myKp p = kA -> peerKey p = Public kB -> startInitiator p rA = Some (m1, i1)) /\
    NewResponder kB Prologue rB = Ok r0 /\ ReadMessage1 r0 m1 = (Ok tt, r1) /\
    Message2 r1 = (Ok m2, r2) /\
    ReadMessage2 [] i1 m2 = (Ok 0%nat, i2, [newSession (L := L) DefaultRekeyEvery]) /\
    WriteMessage3 tA [newSession (L := L) DefaultRekeyEvery] i2 = (Ok m3, i3, [sA]) /\
    ReadMessage3 tB [] r2 m3 = (Ok 0%nat, r3, [sB]) /\
    len m3 <= 65535 /\
    PeerStatic sA = Public kB /\ PeerStatic sB = Public kA /\
    ChannelBinding sA = ChannelBinding sB /\ paired sA sB /\ paired sB sA /\
    sendCount sA = 0 /\ sendCount sB = 0.
Proof.
  intros HkA HkB HrA HrB.
  destruct (xx_machines kA kB Prologue rA rB tA tB HkA HkB HrA HrB)
    as (m1 & i0 & i1 & m2 & r0 & r1 & r2 & m3 & i2 & i3 & r3 & sA & sB & N1 & M1 & H).
  exists m1, i1, m2, r0, r1, r2, m3, i2, i3, r3, sA, sB.
  split; [|naive_solver]. intros p Hk Hp. unfold startInitiator. by rewrite Hk, Hp, N1, M1.
Qed.

Lemma Sub_ge t u d : d <= maxDuration -> d <= t - u -> d <= Sub t u.
Proof. unfold Sub. lia. Qed.

(** The burst counter after one HS1 in a fresh window, and the budget after another. *)
Lemma countHS1_fresh p now :
  Second <= now - hsBurstStart p ->
  countHS1 p now = p <| hsBurstStart := now |> <| hsBurstCount := 1 |>.
Proof.
  intros H. unfold countHS1. rewrite Sub_geb, (proj2 (Z.geb_le _ _)) by done. done.
Qed.

Lemma countHS1_second p now : hsBurstCount p = 1 -> hsBurstCount (countHS1 p now) <= hs1MaxPerSec.
Proof. intros Hc. unfold countHS1. destruct (_ >=? _); cbn; by rewrite ?Hc. Qed.

(** What counting leaves alone. *)
Lemma countHS1_fields p now : exists (st : Time) (n : Z), countHS1 p now = p <| hsBurstStart := st |> <| hsBurstCount := n |>.
Proof.
  unfold countHS1. destruct (_ >=? _); [by eexists _, _|]. exists (hsBurstStart p), (i64 (hsBurstCount p + 1)).
  by destruct p.
Qed.

(** The times of [lossy_exchange]: the second HS1 is due, the direct attempt still runs,
    the idle ticks come before the third message is due again, and [t2] after it. *)
Record timed (s t0 t1 : Time) (idle : list Time) (t2 : Time) : Prop := {
  td_start : s <= t0;
  td_first : Second <= t0;
  td_again : t0 + HS1ResendInterval <= t1;
  td_attempt : t1 + HS1ResendInterval <= s + DirectAttempt;
  td_idle : Forall (fun now => t1 <= now <= t1 + HS1ResendInterval) idle;
  td_due : t1 + HS1ResendInterval < t2 <= t1 + KeepaliveInterval
}.

Lemma ticks_app ts us rnd : ticks (ts ++ us) rnd = ticks ts rnd ++ ticks us rnd.
Proof. apply bind_app. Qed.
Lemma ticks_one t rnd : ticks [t] rnd = loops 5 t rnd.
Proof. done. Qed.

(** The initiator: its two HS1, and HS3 when it is due again. *)
Lemma initiator_ticks (idA idB : string) (key : list byte) ep k s t0 t1 idle t2 rnd m i :
  let p0 := New (L := L) idA idB key (Some ep) k in
  RoleIsInitiator idA idB = true -> timed s t0 t1 idle t2 ->
  (forall p, myKp p = k -> peerKey p = key -> startInitiator p rnd = Some (m, i)) ->
  exists p1 f1, Parse f1 = Ok (TypeHS1, m) /\
    node_run RelayAddr (MkNode p0 NotStarted) (loops 1 s rnd)
      = Some (MkNode (p0 <| mode := PathDirect |> <| phaseStart := s |>) Waiting, []) /\
    node_run RelayAddr (MkNode (p0 <| mode := PathDirect |> <| phaseStart := s |>) Waiting) (ticks [t0] rnd)
      = Some (MkNode (p1 <| lastHS1 := t0 |>) Waiting, [SendDirect (Some ep) f1]) /\
    node_run RelayAddr (MkNode (p1 <| lastHS1 := t0 |>) Waiting) (ticks [t1] rnd)
      = Some (MkNode (p1 <| lastHS1 := t1 |>) Waiting, [SendDirect (Some ep) f1]) /\
    p1 = p0 <| mode := PathDirect |> <| phaseStart := s |> <| initiatorHS := Some i |> <| hs1Frame := Some f1 |>.
Proof.
  intros p0 Hrole [Hs Hf Ha Hp _ _] Hi. assert (Hmax : HS1ResendInterval <= maxDuration) by done.
  assert (Hsec : 0 < HS1ResendInterval <= Second) by done.
  set (ps := p0 <| mode := PathDirect |> <| phaseStart := s |>).
  destruct (punch_first ps t0 rnd ep m i) as (f1 & P1 & E1); try done.
  { apply Sub_ge; [done|]. cbn. lia. }
  { by apply Hi. }
  exists (ps <| initiatorHS := Some i |> <| hs1Frame := Some f1 |>), f1.
  split; [exact P1|]. split; [by apply (loop_starts RelayAddr p0 ep)|]. rewrite !ticks_one. split_and!; try done.
  - apply tick_punches; try done. cbn. lia.
  - apply tick_punches; try done; [cbn; lia|].
    rewrite (punch_again _ t1 rnd ep f1); try done. apply Sub_ge; [done|]. cbn. lia.
Qed.

(** A pending HS3 goes out again at the first tick after its interval, not before. *)
Lemma hs3_ticks p t1 idle t2 rnd ep f :
  established p = true -> responder p = None -> path p = PathDirect -> mode p = PathDirect ->
  DirectEP p = Some ep -> hs3Pending p = true -> hs3Frame p = Some f ->
  sessSince p = t1 -> lastSent p = t1 -> lastHS3 p = t1 ->
  Forall (fun now => t1 <= now <= t1 + HS1ResendInterval) idle ->
  t1 + HS1ResendInterval < t2 <= t1 + KeepaliveInterval ->
  node_run RelayAddr (MkNode p Waiting) (ticks (idle ++ [t2]) rnd)
    = Some (MkNode (p <| lastHS3 := t2 |>) Waiting, [SendDirect (Some ep) f]).
Proof.
  intros He Hr Hp Hm Hd Hpe Hf H1 H2 H3 Hidle Ht2.
  assert (Hk : HS1ResendInterval < KeepaliveInterval < sessionMaxAge) by done.
  rewrite ticks_app. apply (node_run_after _ _ _ (MkNode p Waiting) _ _ [] _).
  - apply ticks_quiet; [done..|]. eapply Forall_impl; [|exact Hidle]. cbn. rewrite H1, H2, H3. lia.
  - rewrite ticks_one, tick_established by (done || lia). rewrite Hpe, H3, (proj2 (Z.gtb_lt _ _)) by lia.
    cbn [andb]. unfold resendHS3. rewrite Hpe, Hf, Hm. unfold sendFrame. cbn. by rewrite Hd.
Qed.

(** The responder's half-open state, over the two HS1 and its ticks. *)
Lemma responder_ticks (idA idB : string) (key : list byte) ep k s t0 t1 idle t2 rnd src f1 m1 m2 r0 r1 r2 :
  let p0 := New (L := L) idB idA key (Some ep) k in
  RoleIsInitiator idB idA = false -> timed s t0 t1 idle t2 -> framePath RelayAddr src = PathDirect ->
  Parse f1 = Ok (TypeHS1, m1) -> NewResponder k Prologue rnd = Ok r0 -> ReadMessage1 r0 m1 = (Ok tt, r1) ->
  Message2 r1 = (Ok m2, r2) ->
  exists b0 b1 b2 f2, Parse f2 = Ok (TypeHS2, m2) /\
    node_run RelayAddr (MkNode p0 NotStarted) (loops 1 s rnd) = Some (MkNode b0 Waiting, []) /\
    node_run RelayAddr (MkNode b0 Waiting) (ticks [t0] rnd) = Some (MkNode b0 Waiting, [SendDirect (Some ep) probe_frame]) /\
    HandleFrame RelayAddr b0 t0 rnd src f1 = Some (b1, [SendDirect (Some ep) f2]) /\
    node_run RelayAddr (MkNode b1 Waiting) (ticks [t1] rnd) = Some (MkNode b1 Waiting, [SendDirect (Some ep) probe_frame]) /\
    HandleFrame RelayAddr b1 t1 rnd src f1 = Some (b2, [SendDirect (Some ep) f2]) /\
    node_run RelayAddr (MkNode b2 Waiting) (ticks idle rnd)
      = Some (MkNode b2 Waiting, map (fun _ => SendDirect (Some ep) probe_frame) idle) /\
    initiator b2 = false /\ responder b2 = Some r2 /\ sess b2 = None /\ sessions b2 = [] /\ peerKey b2 = key /\
    DirectEP b2 = Some ep /\ closed b2 = false /\ recvClosed b2 = false /\ recvQ b2 = [].
Proof.
  intros p0 Hrole [Ts Tf Ta Tp Ti Td] Hsrc P1 N0 M2 M3.
  assert (Hiv : 0 < HS1ResendInterval /\ DirectAttempt <= responderHandshakeTimeout) by done.
  set (b0 := p0 <| mode := PathDirect |> <| phaseStart := s |>).
  assert (Hf : countHS1 b0 t0 = b0 <| hsBurstStart := t0 |> <| hsBurstCount := 1 |>)
    by (apply countHS1_fresh; cbn; lia).
  destruct (onHS1_first b0 t0 rnd m1 m2 ep r0 r1 r2) as (f2 & P2 & E1); try done; [by rewrite Hf|].
  rewrite Hf in E1. set (b1 := _ <| phaseStart := t0 |>) in E1.
  assert (E2 : onHS1 b1 t1 rnd m1 PathDirect = Some (countHS1 b1 t1, [SendDirect (Some ep) f2]))
    by (apply (onHS1_again b1 t1 rnd m1 ep r2 f2); done || by apply countHS1_second).
  destruct (countHS1_fields b1 t1) as (st & n & Hn). rewrite Hn in E2.
  set (b2 := b1 <| hsBurstStart := st |> <| hsBurstCount := n |>) in *.
  exists b0, b1, b2, f2. split; [exact P2|]. split; [by apply (loop_starts RelayAddr p0 ep)|].
  split; [apply (ticks_probe RelayAddr b0 ep [t0]); [done..|]; constructor; [split; [cbn; lia|by left]|done]|].
  split; [by rewrite (HandleFrame_HS1 b0 _ _ _ _ _ _ P1 Hsrc Hrole)|].
  split; [apply (ticks_probe RelayAddr b1 ep [t1]); [done..|]; constructor; [split; [cbn; lia|right; cbn; lia]|done]|].
  split; [by rewrite (HandleFrame_HS1 b1 _ _ _ _ _ _ P1 Hsrc Hrole)|].
  split; [apply (ticks_probe RelayAddr b2 ep idle); [done..|]; eapply Forall_impl; [|exact Ti]; intros x Hx; cbn in Hx |- *; split; [lia|right; lia]|].
  by cbn.
Qed.

(** The exchange, step by step. *)
Lemma lossy_establishes (idA idB : string) (epA epB : UDPAddr) (kA kB : Keypair)
    (s t0 t1 : Time) (idle : list Time) (t2 : Time) (rA rB : list byte) (srcA srcB : option UDPAddr) :
  RoleIsInitiator idA idB = true -> genuine kA -> genuine kB -> len rA = 32 -> len rB = 32 ->
  timed s t0 t1 idle t2 -> framePath RelayAddr srcA = PathDirect -> framePath RelayAddr srcB = PathDirect ->
  exists a b,
    lossy_exchange (MkNode (New idA idB (Public kB) (Some epB) kA) NotStarted)
      (MkNode (New idB idA (Public kA) (Some epA) kB) NotStarted) s t0 t1 idle t2 rA rB srcA srcB
      = Some (MkNode a Waiting, MkNode b Waiting) /\
    up PathDirect a b (Public kB) epB /\ up PathDirect b a (Public kA) epA.
Proof.
  intros Hrole HkA HkB HrA HrB T HsA HsB. pose proof (RoleIsInitiator_asym _ _ Hrole) as HroleB.
  pose proof (genuine_public _ HkA) as LA. pose proof (genuine_public _ HkB) as LB.
  destruct (machines_run kA kB rA rB t1 t2 HkA HkB HrA HrB)
    as (m1 & i1 & m2 & r0 & r1 & r2 & m3 & i2 & i3 & r3 & sA & sB & M1 & N0 & M2 & M3 & M4 & M5 &
        M6 & Hm3 & PA & PB & _ & AB & BA & CA & CB).
  destruct (initiator_ticks idA idB (Public kB) epB kA s t0 t1 idle t2 rA m1 i1 Hrole T M1)
    as (a1 & f1 & P1 & EA0 & EA1 & EA2 & Ha1).
  destruct (responder_ticks idA idB (Public kA) epA kB s t0 t1 idle t2 rB srcA f1 m1 m2 r0 r1 r2 HroleB T HsA P1 N0 M2 M3)
    as (b0 & b1 & b2 & f2 & P2 & EB0 & EB1 & EB2 & EB3 & EB4 & EB5 & B1 & B2 & B3 & B4 & B5 & B6 & B7 & B8 & B9).
  destruct (onHS2_first (a1 <| lastHS1 := t1 |>) t1 m2 m3 epB i1 i2 i3 0%nat [newSession DefaultRekeyEvery] [sA] sA)
    as (f3 & a3 & P3 & EA3 & A1 & A2 & A3 & A4 & A5 & A6 & A7 & A8 & A9 & A10 & A11 & A12 & A13 & A14 & A15 & A16);
    try done; try by rewrite Ha1.
  rewrite <- (HandleFrame_HS2 (a1 <| lastHS1 := t1 |>) t1 rA srcB f2 m2 _ P2 HsB) in EA3 by by rewrite Ha1.
  assert (F : closed a3 = false /\ recvClosed a3 = false /\ recvQ a3 = [] /\ responder a3 = None).
  { rewrite A10, A11, A12, A13, Ha1. by cbn. }
  destruct F as (F1 & F2 & F3 & F4).
  pose proof (hs3_ticks a3 t1 idle t2 rA epB f3 A3 F4 A4 A5 A9 A6 A7 A14 A15 A16 (td_idle _ _ _ _ _ T) (td_due _ _ _ _ _ T)) as EA4.
  destruct (onHS3_first b2 t2 m3 r2 r3 0%nat [sB] sB)
    as (b3 & EB6 & Q1 & Q2 & Q3 & Q4 & Q5 & Q6 & Q7 & Q8 & Q9); try done; try congruence; [by rewrite B5|].
  rewrite <- (HandleFrame_HS3 b2 t2 rB srcA f3 m3 _ P3 HsA B1) in EB6.
  exists (a3 <| lastHS3 := t2 |>), b3. split.
  - unfold lossy_exchange. rewrite EA0. cbn [mbind option_bind]. rewrite EB0. cbn [mbind option_bind].
    rewrite EA1. cbn [mbind option_bind]. rewrite EB1. cbn [mbind option_bind answer out_frame node_step peer pc].
    rewrite EB2. cbn [mbind option_bind]. rewrite EA2. cbn [mbind option_bind]. rewrite EB3.
    cbn [mbind option_bind answer out_frame node_step peer pc]. rewrite EB4.
    cbn [mbind option_bind answer out_frame node_step peer pc]. rewrite EA3. cbn [mbind option_bind].
    rewrite EA4. cbn [mbind option_bind]. rewrite EB5. cbn [mbind option_bind answer out_frame node_step peer pc].
    by rewrite EB6.
  - split; [apply (up_paired PathDirect (a3 <| lastHS3 := t2 |>) b3 sA sB)
           |apply (up_paired PathDirect b3 (a3 <| lastHS3 := t2 |>) sB sA)]; try done; congruence.
Qed.

(** [C6] Establishment survives loss: the nodes of two peers created with each other's true
    key, run by their loops over the direct path, both establish although the first HS2
    and the first HS3 are lost: the initiator's ticks repeat HS1 and, once more than
    [HS1ResendInterval] has passed and not before, HS3, and the responder repeats HS2.
    Both end with an authenticated session under the other's key, linked both ways. *)
Theorem handshake_survives_loss (idA idB : string) (epA epB : UDPAddr) (kA kB : Keypair)
    (s t0 t1 : Time) (idle : list Time) (t2 : Time) (rA rB : list byte) (srcA srcB : option UDPAddr)
    (Hrole : RoleIsInitiator idA idB = true) (HkA : genuine kA) (HkB : genuine kB)
    (HrA : len rA = 32) (HrB : len rB = 32) (Ht : timed s t0 t1 idle t2)
    (HsA : framePath RelayAddr srcA = PathDirect) (HsB : framePath RelayAddr srcB = PathDirect) :
  exists nA nB,
    lossy_exchange (MkNode (New idA idB (Public kB) (Some epB) kA) NotStarted)
      (MkNode (New idB idA (Public kA) (Some epA) kB) NotStarted) s t0 t1 idle t2 rA rB srcA srcB
      = Some (nA, nB) /\
    up PathDirect (peer nA) (peer nB) (Public kB) epB /\ up PathDirect (peer nB) (peer nA) (Public kA) epA.
Proof.
  destruct (lossy_establishes idA idB epA epB kA kB s t0 t1 idle t2 rA rB srcA srcB)
    as (a & b & E & H); try done. by exists (MkNode a Waiting), (MkNode b Waiting).
Qed.

End Establish.

(** ** Witnesses, on the concrete cipher *)

#[local] Existing Instances Toy.lib Toy.laws Toy.xx.

Module Demo.
Abbreviation TPeer := (Peer Toy.lib).
Abbreviation TNode := (Node Toy.lib).

Definition kA := MkKeypair (replicate 32 x0a) (replicate 32 x1a).
Definition kB := MkKeypair (replicate 32 x0b) (replicate 32 x1b).
Definition rA := replicate 32 x33.
Definition rB := replicate 32 x44.
Definition epA := MkUDPAddr [x0a; x00; x00; x01] 1001 "".
Definition epB := MkUDPAddr [x0a; x00; x00; x02] 1002 "".
Definition T : Time := 100 * Second.

Definition a0 : TPeer := New "alice" "bob" (Public kB) (Some epB) kA.
Definition b0 : TPeer := New "bob" "alice" (Public kA) (Some epA) kB.

(** A step and the one datagram it answers with. *)
Definition stepd (n : TNode) (e : event) : TNode * list byte :=
  match node_step None n e with
  | Some (n', os) => (n', default [] (answer os))
  | None => (n, [])
  end.
Definition loop (n : TNode) : TNode := (stepd n (EvLoop T rA true)).1.

Definition nA0 : TNode := loop (loop (loop (loop (MkNode a0 NotStarted)))).
Definition nB0 : TNode := MkNode b0 NotStarted.
Definition stepA := stepd nA0 (EvLoop T rA true).
Definition hs1 : list byte := Eval vm_compute in stepA.2.
Definition hs2 : list byte := Eval vm_compute in (stepd nB0 (EvFrame T rB (Some epA) hs1)).2.
Definition stepA2 := stepd stepA.1 (EvFrame T rA (Some epB) hs2).
Definition hs3 : list byte := Eval vm_compute in stepA2.2.
Definition dat : list byte := Eval vm_compute in (stepd stepA2.1 (EvSend T [x61; x62])).2.

(** What reaches bob: the handshake, the data, a stray HS1 and the data again. *)
Definition preB : list event :=
  [EvFrame T rB (Some epA) hs1; EvFrame T rB (Some epA) hs3].
Definition strayB : list event := [EvFrame T rB (Some epA) hs1].
Definition datB : event := EvFrame T rB (Some epA) dat.

(** The premises of [at_most_once], as one computation. *)
Definition delivers_once : bool :=
  match node_run None nB0 preB with
  | Some (n0, _) =>
      match node_step None n0 datB with
      | Some (n1, _) =>
          bool_decide (recvQ (peer n1) = recvQ (peer n0) ++ [[x61; x62]]) &&
          match node_run None n1 strayB with
          | Some (n2, _) =>
              bool_decide (sess (peer n2) = sess (peer n1)) &&
              match node_step None n2 datB with Some _ => true | None => false end
          | None => false
          end
      | None => false
      end
  | None => false
  end.

(** bob half-open, waiting for HS3. *)
Definition bHalf : TPeer :=
  b0 <| responder := Some (MkResponder None None phaseMessage2) |>
     <| hs1Msg := [x01] |> <| hs2Frame := Some [x02; x00; x00] |> <| hs2SentAt := T |>.

(** The loops start at [T]; after the second HS1 at [T + 1s] and HS2, a tick half a second
    later comes too early for HS3, the next one repeats it. *)
Definition exchange : option (TNode * TNode) :=
  lossy_exchange None (MkNode a0 NotStarted) (MkNode b0 NotStarted) T (T + 500 * Millisecond) (T + Second)
    [T + 1500 * Millisecond] (T + 2 * Second) rA rB (Some epA) (Some epB).

Lemma times : timed T (T + 500 * Millisecond) (T + Second) [T + 1500 * Millisecond] (T + 2 * Second).
Proof.
  split; [by vm_compute|by vm_compute|by vm_compute|by vm_compute| |split; by vm_compute].
  constructor; [split; by vm_compute|constructor].
Qed.

(** alice and bob after the exchange. *)
Lemma pair :
  exists a b : TPeer, exchange = Some (MkNode a Waiting, MkNode b Waiting) /\
    up PathDirect a b (Public kB) epB /\ up PathDirect b a (Public kA) epA.
Proof.
  unfold exchange, a0, b0. apply (lossy_establishes None "alice" "bob" epA epB kA kB T (T + 500 * Millisecond) (T + Second)
           [T + 1500 * Millisecond] (T + 2 * Second) rA rB (Some epA) (Some epB)); first [by split | apply times | done].
Qed.
End Demo.
Import Demo.

Example peer_safety_witness :
  exists n os,
    node_run None nB0 preB = Some (n, os) /\
    (Established (peer n) = true <-> sess (peer n) <> None) /\
    (Established (peer n) = true -> RemoteStatic (peer n) = Some (Public kA)).
Proof. exact (peer_safety None "bob" "alice" (Public kA) (Some epA) kB preB). Defined.

Example at_most_once_witness :
  exists n0 n1 n2 n3 : TNode,
    recvQ (peer n1) = recvQ (peer n0) ++ [[x61; x62]] /\ recvQ (peer n3) = recvQ (peer n2).
Proof.
  assert (H : delivers_once = true) by (vm_compute; reflexivity). unfold delivers_once in H.
  destruct (node_run None nB0 preB) as [[n0 os0]|] eqn:E0; [|discriminate].
  destruct (node_step None n0 datB) as [[n1 os1]|] eqn:E1; [|discriminate].
  apply andb_prop in H as [H1 H]. apply bool_decide_eq_true_1 in H1.
  destruct (node_run None n1 strayB) as [[n2 os2]|] eqn:E2; [|discriminate].
  apply andb_prop in H as [H2 H]. apply bool_decide_eq_true_1 in H2.
  destruct (node_step None n2 datB) as [[n3 os3]|] eqn:E3; [|discriminate].
  exists n0, n1, n2, n3. split; [exact H1|].
  refine (at_most_once None "bob" "alice" (Public kA) (Some epA) kB preB strayB n0 n1 n2 n3
            os0 os1 os2 os3 T T rB rB (Some epA) (Some epA) dat dat (drop 3 dat) (drop 3 dat)
            [x61; x62] E0 _ _ eq_refl E1 H1 E2 H2 E3); vm_compute; reflexivity.
Defined.

Example Send_fits_datagram_witness :
  exists n os, node_run None nB0 preB = Some (n, os) /\
  exists r p', Send (peer n) T [x01] = Some (r, p') /\
    match r with
    | Ok (SendDirect dst f) => len f <= 65507 /\ dst = DirectEP (peer n) /\ dst <> None
    | Ok (SendRelay to f) =>
        to = "alice"%string /\ forall me pkt, Relay.WrapPacket me to f = Ok pkt -> len pkt <= 65507
    | Err _ => True
    end.
Proof.
  assert (H : match node_run None nB0 preB with Some _ => true | None => false end = true)
    by (vm_compute; reflexivity).
  destruct (node_run None nB0 preB) as [[n os]|] eqn:E0; [|discriminate].
  exists n, os. split; [reflexivity|].
  apply (Send_fits_datagram None "bob" "alice" (Public kA) (Some epA) kB preB n os T [x01] E0).
Defined.

Example hs1_budget_witness :
  admitted_run None nB0 (replicate 10 (EvFrame T rB (Some epA) hs1)) = 8 /\
  admitted_run None nB0 (replicate 10 (EvFrame T rB (Some epA) hs1)) 
    <= hs1MaxPerSec * ((T - T) / Second + 2) /\
  forall p now rnd src f d,
    Parse f = Ok (TypeHS1, d) -> initiator p = false ->
    admitted p (EvFrame now rnd src f) = 0 ->
    HandleFrame None p now rnd src f = Some (countHS1 (L := Toy.lib) p now, []).
Proof.
  split; [vm_compute; reflexivity|].
  apply (hs1_budget None "bob" "alice" (Public kA) (Some epA) kB []
           (replicate 10 (EvFrame T rB (Some epA) hs1)) nB0 [] T T).
  - reflexivity.
  - vm_compute. discriminate.
  - cbn. lia.
  - vm_compute. reflexivity.
Defined.

Example onHS1_guarded_witness :
  exists os, onHS1 bHalf T rB [x09] PathDirect = Some (countHS1 bHalf T, os) /\
    (os = [] \/ exists f, hs2Frame bHalf = Some f /\ [x09] = hs1Msg bHalf /\
                  os = option_list (sendFrame bHalf PathDirect (DirectEP bHalf) f)).
Proof.
  apply (onHS1_guarded bHalf T rB [x09] PathDirect). right; right.
  eexists _, _. split; [reflexivity|]. split; [reflexivity|]. right. reflexivity.
Defined.

Example handshake_survives_loss_witness :
  exists nA nB, exchange = Some (nA, nB) /\
    up PathDirect (peer nA) (peer nB) (Public kB) epB /\ up PathDirect (peer nB) (peer nA) (Public kA) epA.
Proof.
  unfold exchange, a0, b0. apply (handshake_survives_loss None "alice" "bob" epA epB kA kB T (T + 500 * Millisecond) (T + Second)
           [T + 1500 * Millisecond] (T + 2 * Second) rA rB (Some epA) (Some epB)); first [by split | apply times | done].
Defined.

Example data_flows_witness :
  exists a b, exchange = Some (MkNode a Waiting, MkNode b Waiting) /\
  exists a' b', transfer None a b T rB (Some epA) [[x01]; [x02; x03]] = Some (a', b') /\
    recvQ b' = recvQ b ++ [[x01]; [x02; x03]] /\ linked a' b'.
Proof.
  destruct Demo.pair as (a & b & E & [_ _ Pa _ _ Hl Hc] & [_ _ _ _ Hq _ _]).
  exists a, b. split; [exact E|].
  apply (data_flows None a b T rB (Some epA) [[x01]; [x02; x03]] Hl).
  - destruct Hc as [Hw (q & s & H1 & H2 & H3)]. split; [exact Hw|]. exists q, s.
    split; [exact H1|]. split; [exact H2|].
    change (len [[x01]; [x02; x03]]) with 2. unfold MaxNonce in *. lia.
  - unfold payload_limit. rewrite Pa. repeat constructor; done.
  - rewrite Hq. done.
Defined.
