(* ===== verification/Stun.v ===== *)
(** * STUN binding (src/internal/stun/stun.go)

    The binding request and response of RFC 8489 as the package encodes and decodes
    them, with the XOR-MAPPED-ADDRESS attribute, and the resolver's receive loop. The
    transaction id is drawn from [crypto/rand] and is an argument. An IP of length 0
    is the nil slice. *)

From S2P Require Import Prelude GoBytes GoNet.

Definition messageTypeBindingRequest : Z := 0x0001.
Definition messageTypeBindingResponse : Z := 0x0101.
Definition attrXORMappedAddress : Z := 0x0020.
Definition stunMagicCookie : Z := 0x2112A442.
Definition stunHeaderLen : Z := 20.
Definition xorPortMask : Z := 0x2112.

Inductive stun_err :=
| RequestTooShort (n : Z) | NotBindingRequest (typ : Z) | InvalidCookie (c : Z)
| NilSource | UnsupportedIP
| PacketTooShort (n : Z) | UnexpectedType (typ : Z) | TruncatedPacket (msgLen have : Z)
| TruncatedAttribute (atyp need have : Z) | NoMappedAddress
| ValueTooShort (n : Z) | ReservedNonZero (b : byte) | TruncatedIPv4 | TruncatedIPv6
| MissingKey | UnsupportedFamily (b : byte).

(** [binary.BigEndian.Uint16(p[i:i+2])] and [Uint32(p[i:i+4])]. *)
Definition u16_at (p : list byte) (i : nat) : Z := be_get (take 2 (drop i p)).
Definition u32_at (p : list byte) (i : nat) : Z := be_get (take 4 (drop i p)).

(** [copy] of the transaction id into the last twelve bytes of the header. *)
Definition stunHeader (msgType msgLen : Z) (txid : list byte) : list byte :=
  be_put 2 msgType ++ be_put 2 msgLen ++ be_put 4 stunMagicCookie
    ++ take 12 (txid ++ replicate 12 x00).

Definition EncodeBindingRequest (txid : list byte) : list byte :=
  stunHeader messageTypeBindingRequest 0 txid.

Definition splitAddress (ip : list byte) : res stun_err (byte * list byte) :=
  match To4 ip with
  | Some v4 => Ok (x01, v4)
  | None =>
      match To16 ip with
      | Some v6 => Ok (x02, v6)
      | None => Err UnsupportedIP
      end
  end.

Definition HandleBindingRequest (pkt : list byte) (src : option UDPAddr)
    : res stun_err (list byte) :=
  if len pkt <? stunHeaderLen then Err (RequestTooShort (len pkt))
  else if negb (u16_at pkt 0 =? messageTypeBindingRequest)
  then Err (NotBindingRequest (u16_at pkt 0))
  else if negb (u32_at pkt 4 =? stunMagicCookie) then Err (InvalidCookie (u32_at pkt 4))
  else
    match src with
    | None => Err NilSource
    | Some src =>
        if len (IP src) =? 0 then Err NilSource
        else
          '(family, addrBytes) ← splitAddress (IP src);
          let attrLen := 4 + len addrBytes in
          let msgLen := 4 + attrLen in
          let resp :=
            stunHeader messageTypeBindingResponse msgLen (take 12 (drop 8 pkt))
              ++ be_put 2 attrXORMappedAddress ++ be_put 2 attrLen ++ [x00; family]
              ++ be_put 2 (Z.lxor (Port src mod 65536) xorPortMask) in
          let xaddr := zip_with byte_xor addrBytes (drop 4 resp) in
          Ok (resp ++ xaddr)
    end.

Definition parseXORMappedAddress (v xor : list byte) : res stun_err UDPAddr :=
  match v with
  | r :: f :: a :: b :: xaddr =>
      if negb (bool_decide (r = x00)) then Err (ReservedNonZero r)
      else
        let port := Z.lxor (be_get [a; b]) xorPortMask in
        if bool_decide (f = x01) then
          if len xaddr <? 4 then Err TruncatedIPv4
          else Ok (MkUDPAddr (zip_with byte_xor (take 4 xaddr) (take 4 xor)) port "")
        else if bool_decide (f = x02) then
          if len xaddr <? 16 then Err TruncatedIPv6
          else if len xor <? 16 then Err MissingKey
          else Ok (MkUDPAddr (zip_with byte_xor (take 16 xaddr) (take 16 xor)) port "")
        else Err (UnsupportedFamily f)
  | _ => Err (ValueTooShort (len v))
  end.

(** The attribute loop: every iteration consumes at least four bytes, so the number of
    attribute bytes is fuel enough; [None] is running out of it. *)
Fixpoint scanAttrs (fuel : nat) (attrs xor : list byte) : option (res stun_err UDPAddr) :=
  match fuel with
  | O => None
  | S fuel =>
      if len attrs >=? 4 then
        let atyp := u16_at attrs 0 in
        let alen := u16_at attrs 2 in
        if len attrs <? 4 + alen
        then Some (Err (TruncatedAttribute atyp alen (len attrs - 4)))
        else if atyp =? attrXORMappedAddress
        then Some (parseXORMappedAddress (take (Z.to_nat alen) (drop 4 attrs)) xor)
        else
          let step := 4 + Z.ldiff (alen + 3) 3 in
          if step >? len attrs then Some (Err NoMappedAddress)
          else scanAttrs fuel (drop (Z.to_nat step) attrs) xor
      else Some (Err NoMappedAddress)
  end.

Definition DecodeXORMappedAddress (pkt : list byte) : option (res stun_err UDPAddr) :=
  if len pkt <? stunHeaderLen then Some (Err (PacketTooShort (len pkt)))
  else if negb (u16_at pkt 0 =? messageTypeBindingResponse)
  then Some (Err (UnexpectedType (u16_at pkt 0)))
  else if negb (u32_at pkt 4 =? stunMagicCookie) then Some (Err (InvalidCookie (u32_at pkt 4)))
  else
    let msgLen := u16_at pkt 2 in
    if len pkt <? stunHeaderLen + msgLen
    then Some (Err (TruncatedPacket msgLen (len pkt - stunHeaderLen)))
    else
      let attrs := take (Z.to_nat msgLen) (drop 20 pkt) in
      let xor := take 16 (drop 4 pkt) in
      scanAttrs (S (length attrs)) attrs xor.

(** ** The resolver *)

Inductive read_result := ReadTimeout | ReadFailed | Datagram (pkt : list byte).
Inductive resolve_err := SendFailed | DeadlineFailed | TimedOut | ReadError.

(** The receive loop of [ResolvePublicAddr], over what the socket returns; [None] while
    it is still waiting. *)
Fixpoint awaitResponse (txid : list byte) (reads : list read_result)
    : option (res resolve_err UDPAddr) :=
  match reads with
  | [] => None
  | ReadTimeout :: _ => Some (Err TimedOut)
  | ReadFailed :: _ => Some (Err ReadError)
  | Datagram pkt :: reads =>
      match DecodeXORMappedAddress pkt with
      | Some (Ok addr) =>
          if (len pkt >=? stunHeaderLen) && bool_decide (take 12 (drop 8 pkt) = txid)
          then Some (Ok addr) else awaitResponse txid reads
      | _ => awaitResponse txid reads
      end
  end.

(** The request sent, and the outcome. [sent] and [armed]: the write and the deadline
    succeeded. *)
Definition ResolvePublicAddr (txid : list byte) (sent armed : bool) (reads : list read_result)
    : list byte * option (res resolve_err UDPAddr) :=
  (EncodeBindingRequest txid,
   if negb sent then Some (Err SendFailed)
   else if negb armed then Some (Err DeadlineFailed)
   else awaitResponse txid reads).

(** ** Lemmas *)

Lemma len_zip_with {A B C} (f : A -> B -> C) l k :
  len l <= len k -> len (zip_with f l k) = len l.
Proof. intros. unfold len in *. rewrite length_zip_with. lia. Qed.

Lemma xor_cancel l k : len l <= len k -> zip_with byte_xor (zip_with byte_xor l k) k = l.
Proof.
  revert k. induction l as [|a l IH]; intros [|b k] H; [done..|len_lia|].
  cbn. rewrite byte_xor_cancel, IH by len_lia. done.
Qed.

Lemma len_stunHeader t n txid : len (stunHeader t n txid) = 20.
Proof.
  unfold stunHeader. autorewrite with len. change 12%nat with (Z.to_nat 12).
  rewrite len_take; [lia|]. rewrite len_app. pose proof (len_nonneg txid).
  change (len (replicate _ _)) with 12. lia.
Qed.

Lemma ldiff_pad n : 0 <= n -> n <= Z.ldiff (n + 3) 3 <= n + 3.
Proof.
  intros Hn. replace (Z.ldiff (n + 3) 3) with (4 * ((n + 3) / 4)).
  - pose proof (Z.div_mod (n + 3) 4 ltac:(lia)). pose proof (Z.mod_pos_bound (n + 3) 4 ltac:(lia)).
    lia.
  - change (Z.ldiff (n + 3) 3) with (Z.ldiff (n + 3) (Z.ones 2)). rewrite Z.ldiff_ones_r by lia.
    rewrite Z.shiftr_div_pow2, Z.shiftl_mul_pow2 by lia. change (2 ^ 2) with 4. lia.
Qed.

Lemma scanAttrs_total fuel attrs xor : (length attrs < fuel)%nat -> scanAttrs fuel attrs xor <> None.
Proof.
  revert attrs. induction fuel as [|fuel IH]; intros attrs Hf; [lia|]. cbn [scanAttrs].
  destruct (len attrs >=? 4) eqn:E; zbool; [|done].
  destruct (len attrs <? _); [done|]. destruct (_ =? attrXORMappedAddress); [done|].
  destruct (_ >? len attrs) eqn:E2; zbool; [done|]. apply IH.
  assert (0 <= u16_at attrs 2) by (apply be_get_range).
  pose proof (ldiff_pad (u16_at attrs 2) ltac:(lia)).
  rewrite length_drop. unfold len in *. lia.
Qed.

(** ** Encoded attributes *)

(** An attribute of type [t] with value [v], padded to a multiple of four bytes. *)
Definition attribute (t : Z) (v : list byte) : list byte :=
  be_put 2 t ++ be_put 2 (len v) ++ v
    ++ replicate (Z.to_nat (Z.ldiff (len v + 3) 3 - len v)) x00.

Lemma u16_at_0 v rest : 0 <= v < 65536 -> u16_at (be_put 2 v ++ rest) 0 = v.
Proof.
  intros Hv. unfold u16_at. rewrite drop_0, take_app_len by apply length_be_put.
  by apply be_get_put_small.
Qed.

Lemma u16_at_app p l v rest :
  length l = p -> 0 <= v < 65536 -> u16_at (l ++ be_put 2 v ++ rest) p = v.
Proof.
  intros Hp Hv. unfold u16_at. rewrite drop_app_len by done. by apply (u16_at_0 v rest).
Qed.

Lemma len_attribute t v : len (attribute t v) = 4 + Z.ldiff (len v + 3) 3.
Proof.
  unfold attribute. pose proof (ldiff_pad (len v) (len_nonneg v)).
  rewrite !len_app, !len_be_put, len_replicate by lia. lia.
Qed.

(** The loop steps over an attribute of another type. *)
Lemma scanAttrs_skip fuel t v rest xor :
  0 <= t < 65536 -> t <> attrXORMappedAddress -> len v < 65536 ->
  scanAttrs (S fuel) (attribute t v ++ rest) xor = scanAttrs fuel rest xor.
Proof.
  intros Ht Hne Hv. pose proof (len_nonneg v). pose proof (len_nonneg rest).
  pose proof (ldiff_pad (len v) ltac:(lia)). pose proof (len_attribute t v) as Hl.
  cbn [scanAttrs]. rewrite len_app, Hl.
  assert (u16_at (attribute t v ++ rest) 0 = t) as ->.
  { unfold attribute. rewrite <- !app_assoc. by apply u16_at_0. }
  assert (u16_at (attribute t v ++ rest) 2 = len v) as ->.
  { unfold attribute. rewrite <- !app_assoc. apply u16_at_app; [apply length_be_put|lia]. }
  destruct (_ >=? 4) eqn:E1; zbool; [|lia]. destruct (_ <? _) eqn:E2; zbool; [lia|].
  rewrite (proj2 (Z.eqb_neq _ _)) by done. destruct (_ >? _) eqn:E3; zbool; [lia|].
  f_equal. rewrite <- Hl. apply drop_len_app.
Qed.

(** ... and stops at the mapped address. *)
Lemma scanAttrs_found fuel v rest xor :
  len v < 65536 ->
  scanAttrs (S fuel) (attribute attrXORMappedAddress v ++ rest) xor
  = Some (parseXORMappedAddress v xor).
Proof.
  intros Hv. pose proof (len_nonneg v). pose proof (len_nonneg rest).
  pose proof (ldiff_pad (len v) ltac:(lia)). pose proof (len_attribute attrXORMappedAddress v) as Hl.
  cbn [scanAttrs]. rewrite len_app, Hl.
  assert (u16_at (attribute attrXORMappedAddress v ++ rest) 0 = attrXORMappedAddress) as ->.
  { unfold attribute. rewrite <- !app_assoc. by apply u16_at_0. }
  assert (u16_at (attribute attrXORMappedAddress v ++ rest) 2 = len v) as ->.
  { unfold attribute. rewrite <- !app_assoc. apply u16_at_app; [apply length_be_put|lia]. }
  destruct (_ >=? 4) eqn:E1; zbool; [|lia]. destruct (_ <? _) eqn:E2; zbool; [lia|].
  rewrite Z.eqb_refl. do 2 f_equal. unfold attribute. rewrite <- !app_assoc.
  rewrite (app_assoc (be_put 2 _)), drop_app_len by (by rewrite length_app, !length_be_put).
  apply take_len_app.
Qed.

(** The attributes of a message, and the sum of their lengths as its length field. *)
Definition attributes (l : list (Z * list byte)) : list byte :=
  concat (map (fun a => attribute a.1 a.2) l).

Lemma scanAttrs_skips l fuel rest xor :
  Forall (fun a => 0 <= a.1 < 65536 /\ a.1 <> attrXORMappedAddress /\ len a.2 < 65536) l ->
  scanAttrs (length l + fuel) (attributes l ++ rest) xor = scanAttrs fuel rest xor.
Proof.
  induction 1 as [|[t v] l (H1 & H2 & H3) Hl IH]; [done|].
  cbn [length Nat.add]. unfold attributes. cbn [map concat fst snd].
  rewrite <- app_assoc, scanAttrs_skip by done. exact IH.
Qed.

Lemma scanAttrs_fuel fuel fuel' attrs xor r :
  scanAttrs fuel attrs xor = Some r -> (fuel <= fuel')%nat -> scanAttrs fuel' attrs xor = Some r.
Proof.
  revert fuel' attrs. induction fuel as [|fuel IH]; intros [|fuel'] attrs H Hle; try done; [lia|].
  cbn [scanAttrs] in *. repeat (destr; [done|]). destruct (len attrs >=? 4); [|done].
  destruct (_ <? _); [done|]. destruct (_ =? _); [done|]. destruct (_ >? _); [done|].
  apply IH; [done|lia].
Qed.

(** ** Messages *)

(** The 16-byte key addresses are masked with. *)
Definition xorKey (txid : list byte) : list byte := be_put 4 stunMagicCookie ++ txid.

Section Header.
Context (t n : Z) (txid rest : list byte).
Hypothesis (Ht : 0 <= t < 65536) (Hn : 0 <= n < 65536) (Hid : len txid = 12).

Lemma length_txid : length txid = 12%nat.
Proof. clear -Hid. unfold len in Hid. lia. Qed.

Lemma stunHeader_eq :
  stunHeader t n txid = be_put 2 t ++ be_put 2 n ++ xorKey txid.
Proof.
  unfold stunHeader, xorKey. rewrite take_app_len by exact length_txid. by rewrite <- ?app_assoc.
Qed.

Lemma header_type : u16_at (stunHeader t n txid ++ rest) 0 = t.
Proof. rewrite stunHeader_eq, <- !app_assoc. by apply u16_at_0. Qed.

Lemma header_len : u16_at (stunHeader t n txid ++ rest) 2 = n.
Proof.
  rewrite stunHeader_eq, <- !app_assoc. apply u16_at_app; [apply length_be_put|done].
Qed.

Lemma header_cookie : u32_at (stunHeader t n txid ++ rest) 4 = stunMagicCookie.
Proof.
  rewrite stunHeader_eq, <- !app_assoc. unfold u32_at, xorKey.
  rewrite (app_assoc (be_put 2 t)), drop_app_len by (by rewrite length_app, !length_be_put).
  rewrite <- app_assoc, take_app_len by apply length_be_put. reflexivity.
Qed.

Lemma header_key : take 16 (drop 4 (stunHeader t n txid ++ rest)) = xorKey txid.
Proof.
  rewrite stunHeader_eq, <- !app_assoc.
  rewrite (app_assoc (be_put 2 t)), drop_app_len by (by rewrite length_app, !length_be_put).
  apply take_app_len. unfold xorKey. rewrite length_app, length_be_put, length_txid. done.
Qed.

Lemma header_txid : take 12 (drop 8 (stunHeader t n txid ++ rest)) = txid.
Proof.
  rewrite stunHeader_eq. unfold xorKey. rewrite !app_assoc, <- (app_assoc _ txid).
  rewrite drop_app_len by (by rewrite !length_app, !length_be_put).
  apply take_app_len, length_txid.
Qed.

Lemma header_body : drop 20 (stunHeader t n txid ++ rest) = rest.
Proof.
  apply drop_app_len. pose proof (len_stunHeader t n txid) as H. unfold len in H. lia.
Qed.
End Header.

(** A response whose body is exactly as long as its length field says. *)
Lemma Decode_response txid body :
  len txid = 12 -> len body < 65536 ->
  DecodeXORMappedAddress (stunHeader messageTypeBindingResponse (len body) txid ++ body)
  = scanAttrs (S (length body)) body (xorKey txid).
Proof.
  intros Hid Hb. pose proof (len_nonneg body).
  assert (Ht : 0 <= messageTypeBindingResponse < 65536) by done.
  unfold DecodeXORMappedAddress, stunHeaderLen. rewrite len_app, len_stunHeader.
  rewrite (proj2 (Z.ltb_ge _ _)) by lia.
  rewrite header_type, header_cookie, header_len, header_key, header_body, !Z.eqb_refl by (done || lia).
  cbn [negb]. rewrite (proj2 (Z.ltb_ge _ _)) by lia.
  unfold len at 1 2. rewrite Nat2Z.id, firstn_all. done.
Qed.

(** The value of the mapped-address attribute. *)
Definition mappedValue (family : byte) (port : Z) (addr key : list byte) : list byte :=
  [x00; family] ++ be_put 2 (Z.lxor (port mod 65536) xorPortMask) ++ zip_with byte_xor addr key.

Lemma port_unmask p :
  0 <= p < 65536 ->
  Z.lxor (be_get (be_put 2 (Z.lxor (p mod 65536) xorPortMask))) xorPortMask = p.
Proof.
  intros Hp. rewrite Z.mod_small by done.
  rewrite be_get_put_small by (apply (lxor_range 16); done).
  by rewrite Z.lxor_assoc, Z.lxor_nilpotent, Z.lxor_0_r.
Qed.

Lemma parse_mappedValue ip family addr port txid :
  splitAddress ip = Ok (family, addr) -> 0 <= port < 65536 -> len txid = 12 ->
  parseXORMappedAddress (mappedValue family port addr (xorKey txid)) (xorKey txid)
  = Ok (MkUDPAddr addr port "").
Proof.
  intros Hs Hp Hid.
  assert (Hk : len (xorKey txid) = 16) by (unfold xorKey; len_lia).
  unfold mappedValue. pose proof (port_unmask port Hp) as Hu.
  rewrite be_put_2 in Hu |- *. cbn [app parseXORMappedAddress]. rewrite Hu.
  rewrite bool_decide_eq_true_2 by done. cbn [negb].
  unfold splitAddress in Hs. destruct (To4 ip) as [v4|] eqn:E4.
  - injection Hs as <- <-. rewrite bool_decide_eq_true_2 by done.
    assert (Hl : len v4 = 4).
    { unfold To4 in E4. repeat destr_in E4; zbool; simplify_eq; [done|].
      pose proof (len_drop 12 ip) as Hd. change (Z.to_nat 12) with 12%nat in Hd. lia. }
    rewrite len_zip_with by lia. rewrite Hl. cbn [Z.ltb Z.compare Pos.compare Pos.compare_cont].
    rewrite take_ge by (pose proof (len_zip_with byte_xor v4 (xorKey txid)); unfold len in *; lia).
    do 2 f_equal. rewrite <- (take_drop 4 (xorKey txid)) at 1.
    rewrite <- (app_nil_r v4) at 1. rewrite zip_with_app; [|rewrite length_take; unfold len in *; lia].
    cbn [zip_with]. rewrite app_nil_r. apply xor_cancel.
    pose proof (len_take 4 (xorKey txid)) as Ht. change (Z.to_nat 4) with 4%nat in Ht. lia.
  - destruct (To16 ip) as [v6|] eqn:E6; [|done]. injection Hs as <- <-.
    rewrite bool_decide_eq_false_2, bool_decide_eq_true_2 by done.
    assert (Hl : len v6 = 16).
    { unfold To4, To16 in *. repeat destr_in E6; zbool; simplify_eq; done. }
    rewrite len_zip_with by lia. rewrite Hl, Hk. cbn [Z.ltb Z.compare Pos.compare Pos.compare_cont].
    rewrite take_ge by (pose proof (len_zip_with byte_xor v6 (xorKey txid)); unfold len in *; lia).
    rewrite take_ge by (unfold len in *; lia).
    do 2 f_equal. apply xor_cancel. lia.
Qed.

Lemma splitAddress_len ip family addr :
  splitAddress ip = Ok (family, addr) -> len addr = 4 \/ len addr = 16.
Proof.
  unfold splitAddress, To4, To16. intros H. repeat destr_in H; zbool; simplify_eq; auto.
  left. pose proof (len_drop 12 ip) as Hd. change (Z.to_nat 12) with 12%nat in Hd. lia.
Qed.

(** A request the responder accepts, and the response it builds. *)
Lemma Handle_spec pkt src resp :
  HandleBindingRequest pkt (Some src) = Ok resp ->
  let txid := take 12 (drop 8 pkt) in
  len txid = 12 /\
  exists family addr, splitAddress (IP src) = Ok (family, addr) /\
    let body := attribute attrXORMappedAddress (mappedValue family (Port src) addr (xorKey txid)) in
    resp = stunHeader messageTypeBindingResponse (len body) txid ++ body /\ len body <= 24.
Proof.
  unfold HandleBindingRequest. intros H.
  destruct (len pkt <? stunHeaderLen) eqn:E; zbool; [done|]. unfold stunHeaderLen in E.
  destruct (negb (u16_at pkt 0 =? _)); [done|]. destruct (negb (u32_at pkt 4 =? _)); [done|].
  destruct (len (IP src) =? 0); [done|].
  destruct (splitAddress (IP src)) as [[family addr]|] eqn:Es; cbn [mbind res_bind] in H; [|done].
  apply Ok_inj in H as <-. set (txid := take 12 (drop 8 pkt)).
  assert (Hid : len txid = 12).
  { unfold txid. change 12%nat with (Z.to_nat 12). rewrite len_take; [done|].
    pose proof (len_drop 8 pkt) as Hd. change (Z.to_nat 8) with 8%nat in Hd. lia. }
  split; [done|]. exists family, addr. split; [done|].
  pose proof (splitAddress_len _ _ _ Es) as Hal.
  assert (Hk : len (xorKey txid) = 16) by (unfold xorKey; len_lia).
  set (v := mappedValue family (Port src) addr (xorKey txid)).
  assert (Hv : len v = 4 + len addr).
  { unfold v, mappedValue. rewrite !len_app, len_be_put, len_zip_with by lia. len_lia. }
  assert (Hpad : Z.ldiff (len v + 3) 3 = len v) by (destruct Hal as [Ha|Ha]; rewrite Hv, Ha; done).
  assert (Hatt : attribute attrXORMappedAddress v
                 = be_put 2 attrXORMappedAddress ++ be_put 2 (len v) ++ v).
  { unfold attribute. rewrite Hpad, Z.sub_diag. cbn [replicate Z.to_nat]. by rewrite app_nil_r. }
  pose proof (len_attribute attrXORMappedAddress v) as Hla. rewrite Hpad in Hla.
  split; [|lia]. rewrite Hla, Hatt, Hv. unfold v, mappedValue. rewrite <- !app_assoc.
  do 5 f_equal. rewrite <- zip_with_take_r' with (n := 16%nat) by (unfold len in *; lia).
  by rewrite header_key.
Qed.

(** The address a response carries: IPv4-mapped addresses in their 4-byte form. *)
Definition canonical (ip : list byte) : list byte :=
  match To4 ip with Some v4 => v4 | None => ip end.

Lemma splitAddress_canonical ip family addr :
  splitAddress ip = Ok (family, addr) -> addr = canonical ip.
Proof.
  unfold splitAddress, canonical, To16, To4. intros H. repeat destr_in H; zbool; by simplify_eq.
Qed.

(** Mapping discovery round trip: for every request the responder answers, the
    response decodes to the source address and port the responder saw, and echoes the
    request's transaction id. *)
Theorem binding_roundtrip (pkt resp : list byte) (src : UDPAddr)
    (H : HandleBindingRequest pkt (Some src) = Ok resp) (Hport : 0 <= Port src < 65536) :
  DecodeXORMappedAddress resp = Some (Ok (MkUDPAddr (canonical (IP src)) (Port src) "")) /\
  take 12 (drop 8 resp) = take 12 (drop 8 pkt).
Proof.
  destruct (Handle_spec pkt src resp H) as (Hid & family & addr & Hs & -> & Hb).
  set (txid := take 12 (drop 8 pkt)) in *. split; [|by apply header_txid].
  rewrite Decode_response by (done || lia).
  set (v := mappedValue _ _ _ _) in *.
  rewrite <- (app_nil_r (attribute attrXORMappedAddress v)) at 2.
  rewrite scanAttrs_found.
  - unfold v. by rewrite (parse_mappedValue (IP src)), (splitAddress_canonical _ _ _ Hs) by done.
  - rewrite len_attribute in Hb. pose proof (ldiff_pad (len v) (len_nonneg v)). lia.
Qed.

(** The request the client encodes is one the responder answers, for every
    transaction id and every IPv4 or IPv6 source. *)
Theorem request_answered (txid : list byte) (src : UDPAddr) (Hid : len txid = 12)
    (Hip : len (IP src) = 4 \/ len (IP src) = 16) :
  exists resp, HandleBindingRequest (EncodeBindingRequest txid) (Some src) = Ok resp.
Proof.
  unfold HandleBindingRequest, EncodeBindingRequest. rewrite len_stunHeader.
  rewrite <- (app_nil_r (stunHeader _ _ _)), header_type, header_cookie by done.
  cbn [Z.ltb Z.compare Pos.compare Pos.compare_cont stunHeaderLen negb Z.eqb Pos.eqb
       messageTypeBindingRequest stunMagicCookie].
  destruct (len (IP src) =? 0) eqn:E; zbool; [lia|].
  assert (Hs : exists f a, splitAddress (IP src) = Ok (f, a)).
  { unfold splitAddress, To4, To16. destruct Hip as [->| ->]; cbn; [eauto|]. destr; eauto. }
  destruct Hs as (f & a & ->). cbn [mbind res_bind]. eauto.
Qed.

(** The decoder skips what it does not know: in a response whose attributes are
    any well-formed attributes of other types, then the mapped address, then anything,
    the result is that of the mapped-address attribute. *)
Theorem Decode_skips_unknown (txid v rest : list byte) (l : list (Z * list byte))
    (Hid : len txid = 12)
    (Hl : Forall (fun a => 0 <= a.1 < 65536 /\ a.1 <> attrXORMappedAddress /\ len a.2 < 65536) l)
    (Hlen : len (attributes l ++ attribute attrXORMappedAddress v ++ rest) < 65536) :
  let body := attributes l ++ attribute attrXORMappedAddress v ++ rest in
  DecodeXORMappedAddress (stunHeader messageTypeBindingResponse (len body) txid ++ body)
  = Some (parseXORMappedAddress v (xorKey txid)).
Proof.
  intros body. rewrite Decode_response by done.
  assert (Hv : len v < 65536).
  { rewrite !len_app, len_attribute in Hlen. pose proof (ldiff_pad (len v) (len_nonneg v)).
    pose proof (len_nonneg (attributes l)). pose proof (len_nonneg rest). lia. }
  pose proof (scanAttrs_skips l 1 (attribute attrXORMappedAddress v ++ rest) (xorKey txid) Hl) as Hs.
  rewrite scanAttrs_found in Hs by done. eapply scanAttrs_fuel; [exact Hs|].
  assert (Hc : (length l <= length (attributes l))%nat).
  { clear. induction l as [|[t w] l IH]; [done|]. unfold attributes in *. cbn [map concat].
    rewrite length_app. pose proof (len_attribute t w). pose proof (ldiff_pad (len w) (len_nonneg w)).
    unfold len in *. cbn [length fst snd]. lia. }
  unfold body. rewrite length_app. lia.
Qed.

Lemma parseXORMappedAddress_wf v xor a :
  len xor = 16 -> parseXORMappedAddress v xor = Ok a ->
  (len (IP a) = 4 \/ len (IP a) = 16) /\ 0 <= Port a < 65536.
Proof.
  intros Hx H. unfold parseXORMappedAddress in H.
  destruct v as [|r [|f [|b1 [|b2 xaddr]]]]; try done. destruct (negb _); [done|].
  assert (Hp : 0 <= Z.lxor (be_get [b1; b2]) xorPortMask < 65536).
  { apply (lxor_range 16); [done| |done]. apply (be_get_range [b1; b2]). }
  assert (Hz : forall n, n <= len xaddr -> 0 <= n <= 16 ->
            len (zip_with byte_xor (take (Z.to_nat n) xaddr) (take (Z.to_nat n) xor)) = n).
  { intros n H1 H2. rewrite len_zip_with; rewrite !len_take; lia. }
  destruct (bool_decide (f = x01)).
  - destruct (len xaddr <? 4) eqn:E; zbool; [done|]. apply Ok_inj in H as <-. cbn [IP Port].
    split; [left; apply (Hz 4); lia|done].
  - destruct (bool_decide (f = x02)); [|done].
    destruct (len xaddr <? 16) eqn:E; zbool; [done|].
    destruct (len xor <? 16) eqn:E2; zbool; [done|]. apply Ok_inj in H as <-. cbn [IP Port].
    split; [right; apply (Hz 16); lia|done].
Qed.

Lemma scanAttrs_wf fuel attrs xor a :
  len xor = 16 -> scanAttrs fuel attrs xor = Some (Ok a) ->
  (len (IP a) = 4 \/ len (IP a) = 16) /\ 0 <= Port a < 65536.
Proof.
  intros Hx. revert attrs. induction fuel as [|fuel IH]; intros attrs H; [done|].
  cbn [scanAttrs] in H. repeat destr_in H; try done; [|by eapply IH].
  injection H as H. by eapply parseXORMappedAddress_wf.
Qed.

(** The decoder always answers: the attribute loop ends on every datagram, whatever
    its lengths say, and an address it returns is a well-formed IPv4 or IPv6 endpoint. *)
Theorem Decode_total (pkt : list byte) :
  exists r, DecodeXORMappedAddress pkt = Some r /\
    forall a, r = Ok a -> (len (IP a) = 4 \/ len (IP a) = 16) /\ 0 <= Port a < 65536.
Proof.
  unfold DecodeXORMappedAddress, stunHeaderLen.
  destruct (len pkt <? 20) eqn:E; zbool; [by eexists|].
  destruct (negb (_ =? messageTypeBindingResponse)); [by eexists|].
  destruct (negb (_ =? stunMagicCookie)); [by eexists|]. destruct (len pkt <? _); [by eexists|].
  set (attrs := take _ _). set (xor := take 16 _).
  destruct (scanAttrs (S (length attrs)) attrs xor) as [r|] eqn:Es.
  2:{ exfalso. by apply (scanAttrs_total (S (length attrs)) attrs xor); [lia|]. }
  exists r. split; [done|]. intros a ->. eapply scanAttrs_wf; [|exact Es].
  unfold xor. change 16%nat with (Z.to_nat 16). rewrite len_take; [done|].
  pose proof (len_drop 4 pkt) as Hd. change (Z.to_nat 4) with 4%nat in Hd. lia.
Qed.

(** The resolver trusts only its own transaction: it returns an address exactly when
    some datagram decodes to it and carries the transaction id, and that is the first
    datagram of which this holds, with no read error before it. *)
Theorem awaitResponse_Ok_iff (txid : list byte) (reads : list read_result) (a : UDPAddr) :
  awaitResponse txid reads = Some (Ok a) <->
  exists before pkt after, reads = map Datagram before ++ Datagram pkt :: after /\
    DecodeXORMappedAddress pkt = Some (Ok a) /\ take 12 (drop 8 pkt) = txid /\
    Forall (fun p => forall a', DecodeXORMappedAddress p = Some (Ok a') ->
                       take 12 (drop 8 p) <> txid) before.
Proof.
  assert (Hlen : forall pkt a', DecodeXORMappedAddress pkt = Some (Ok a') ->
                   (len pkt >=? stunHeaderLen) = true).
  { intros pkt a' H. unfold DecodeXORMappedAddress in H.
    destruct (len pkt <? stunHeaderLen) eqn:E; zbool; [done|]. apply Z.geb_le. lia. }
  split.
  - induction reads as [|[| |pkt] reads IH]; try done. cbn [awaitResponse].
    destruct (DecodeXORMappedAddress pkt) as [[a'|e]|] eqn:E.
    + rewrite (Hlen pkt a' E). cbn [andb]. case_bool_decide as Hid.
      * intros [= ->]. exists [], pkt, reads. done.
      * intros (bs & p & aft & -> & H1 & H2 & H3)%IH. exists (pkt :: bs), p, aft.
        split_and!; try done. by constructor.
    + intros (bs & p & aft & -> & H1 & H2 & H3)%IH. exists (pkt :: bs), p, aft.
      split_and!; try done. constructor; [congruence|done].
    + intros (bs & p & aft & -> & H1 & H2 & H3)%IH. exists (pkt :: bs), p, aft.
      split_and!; try done. constructor; [congruence|done].
  - intros (bs & p & aft & -> & H1 & H2 & H3). induction H3 as [|b bs Hb H3 IH].
    + cbn. by rewrite H1, (Hlen p a H1), bool_decide_eq_true_2.
    + cbn. destruct (DecodeXORMappedAddress b) as [[a'|e]|] eqn:E; try exact IH.
      rewrite (Hlen b a' E). cbn [andb]. rewrite bool_decide_eq_false_2; [exact IH|by eapply Hb].
Qed.

(** ** Witnesses *)

Module Demo.
Definition txid : list byte := [x01; x02; x03; x04; x05; x06; x07; x08; x09; x0a; x0b; x0c].
Definition src : UDPAddr := MkUDPAddr [xcb; x00; x71; x05] 51820 "".
Definition resp : list byte :=
  Eval vm_compute in
    match HandleBindingRequest (EncodeBindingRequest txid) (Some src) with
    | Ok r => r
    | Err _ => []
    end.
End Demo.

Example binding_roundtrip_witness :
  DecodeXORMappedAddress Demo.resp
    = Some (Ok (MkUDPAddr (canonical (IP Demo.src)) (Port Demo.src) "")) /\
  take 12 (drop 8 Demo.resp) = take 12 (drop 8 (EncodeBindingRequest Demo.txid)).
Proof. apply binding_roundtrip; [reflexivity|done]. Defined.

Example request_answered_witness :
  exists resp, HandleBindingRequest (EncodeBindingRequest Demo.txid) (Some Demo.src) = Ok resp.
Proof. apply request_answered; [reflexivity|by left]. Defined.

Example Decode_skips_unknown_witness :
  let body := attributes [(0x8022, [x61; x62; x63])]
                ++ attribute attrXORMappedAddress (mappedValue x01 80 [x01; x02; x03; x04] (xorKey Demo.txid))
                ++ [x00] in
  DecodeXORMappedAddress (stunHeader messageTypeBindingResponse (len body) Demo.txid ++ body)
  = Some (parseXORMappedAddress
            (mappedValue x01 80 [x01; x02; x03; x04] (xorKey Demo.txid)) (xorKey Demo.txid)).
Proof.
  apply (Decode_skips_unknown Demo.txid _ [x00] [(0x8022, [x61; x62; x63])]).
  - reflexivity.
  - by repeat constructor.
  - reflexivity.
Defined.
