(* ===== verification/Control.v ===== *)
(** * The encrypted control connection (src/internal/control/control.go)

    The Noise handshake over a TCP stream, and the length-prefixed encrypted messages
    after it. A connection is read through a [reader] (the bytes still to come and the
    error behind them); what is written is returned, and whether each write succeeds is
    an input. Deadlines only turn into read and write errors. *)

From S2P Require Import Prelude GoBytes GoRuntime NoiseLib Noisework Transport.

Definition prologue : list byte := bytes_of_string "meshlink-v1-control".
Definition maxMsgLen : Z := Z.shiftl 1 20.
Definition writeDeadline : Duration := 5 * Second.
Definition handshakeTimeout : Duration := 10 * Second.

Inductive ctl_err :=
| CtlHandshake (e : hs_err)      (* an error of the role machine *)
| CtlWrite                       (* a write failed *)
| CtlRead (e : io_err)           (* a read failed *)
| CtlSession (e : sess_err)      (* encryption or decryption failed *)
| CtlInvalidLength.

(** ** Handshake messages *)

(** The bytes [writeRaw] writes. *)
Definition writeRaw (b : list byte) : list byte := be_put 2 (len b) ++ b.

Definition readRaw (r : reader) : res ctl_err (list byte) * reader :=
  match ReadFull 2 r with
  | (Err e, r) => (Err (CtlRead e), r)
  | (Ok hdr, r) =>
      match ReadFull (Z.to_nat (be_get hdr)) r with
      | (Err e, r) => (Err (CtlRead e), r)
      | (Ok buf, r) => (Ok buf, r)
      end
  end.

Section Control.
Context {L : NoiseLib}.

Record Conn := MkConn { br : reader; sess : Session L }.

(** [Initiate]: the bytes written and the connection. [w1] and [w3] say whether the
    writes of the two messages succeed. The machine's sessions live in a heap of
    their own; the connection keeps the one the handshake made. *)
Definition Initiate (now : Time) (kp : Keypair) (peerStatic entropy : list byte)
    (w1 w3 : bool) (r : reader) : list byte * res ctl_err Conn :=
  match NewInitiator kp peerStatic prologue entropy with
  | Err e => ([], Err (CtlHandshake e))
  | Ok init =>
      match Message1 init with
      | (Err e, _) => ([], Err (CtlHandshake e))
      | (Ok msg1, init) =>
          if negb w1 then ([], Err CtlWrite)
          else
            match readRaw r with
            | (Err e, _) => (writeRaw msg1, Err e)
            | (Ok msg2, r) =>
                match ReadMessage2 [] init msg2 with
                | (Err e, _, _) => (writeRaw msg1, Err (CtlHandshake e))
                | (Ok q, init, h) =>
                    match WriteMessage3 now h init with
                    | (Err e, _, _) => (writeRaw msg1, Err (CtlHandshake e))
                    | (Ok msg3, _, h) =>
                        if negb w3 then (writeRaw msg1, Err CtlWrite)
                        else
                          match h !! q with
                          | None => (writeRaw msg1, Err CtlWrite)   (* not reached *)
                          | Some s => (writeRaw msg1 ++ writeRaw msg3, Ok (MkConn r s))
                          end
                    end
                end
            end
      end
  end.

(** [Accept]: the bytes written, the authenticated key and the connection. *)
Definition Accept (now : Time) (kp : Keypair) (entropy : list byte) (w2 : bool) (r : reader)
    : list byte * res ctl_err (list byte * Conn) :=
  match NewResponder kp prologue entropy with
  | Err e => ([], Err (CtlHandshake e))
  | Ok resp =>
      match readRaw r with
      | (Err e, _) => ([], Err e)
      | (Ok msg1, r) =>
          match ReadMessage1 resp msg1 with
          | (Err e, _) => ([], Err (CtlHandshake e))
          | (Ok _, resp) =>
              match Message2 resp with
              | (Err e, _) => ([], Err (CtlHandshake e))
              | (Ok msg2, resp) =>
                  if negb w2 then ([], Err CtlWrite)
                  else
                    match readRaw r with
                    | (Err e, _) => (writeRaw msg2, Err e)
                    | (Ok msg3, r) =>
                        match ReadMessage3 now [] resp msg3 with
                        | (Err e, _, _) => (writeRaw msg2, Err (CtlHandshake e))
                        | (Ok q, _, h) =>
                            match h !! q with
                            | None => (writeRaw msg2, Err CtlWrite)   (* not reached *)
                            | Some s => (writeRaw msg2, Ok (PeerStatic s, MkConn r s))
                            end
                        end
                    end
              end
          end
      end
  end.

(** ** Messages *)

(** [WriteMsg]: the bytes handed to the socket. *)
Definition WriteMsg (c : Conn) (plaintext : list byte) (wrote : bool)
    : res ctl_err () * list byte * Conn :=
  match Encrypt (sess c) plaintext with
  | (Err e, s) => (Err (CtlSession e), [], MkConn (br c) s)
  | (Ok ct, s) =>
      let msg := be_put 4 (len ct) ++ ct in
      ((if wrote then Ok () else Err CtlWrite), msg, MkConn (br c) s)
  end.

Definition ReadMsg (c : Conn) : res ctl_err (list byte) * Conn :=
  match ReadFull 4 (br c) with
  | (Err e, r) => (Err (CtlRead e), MkConn r (sess c))
  | (Ok hdr, r) =>
      let n := be_get hdr in
      if (n =? 0) || (n >? maxMsgLen) then (Err CtlInvalidLength, MkConn r (sess c))
      else
        match ReadFull (Z.to_nat n) r with
        | (Err e, r) => (Err (CtlRead e), MkConn r (sess c))
        | (Ok buf, r) =>
            match Decrypt (sess c) buf with
            | (Err e, s) => (Err (CtlSession e), MkConn r s)
            | (Ok p, s) => (Ok p, MkConn r s)
            end
        end
  end.

(** The messages of a writer, as the bytes on the wire; and what a reader makes of a
    stream, up to its first error. *)
Fixpoint write_msgs (c : Conn) (ps : list (list byte)) : list byte * Conn :=
  match ps with
  | [] => ([], c)
  | p :: ps =>
      let '(_, b, c) := WriteMsg c p true in
      let '(bs, c) := write_msgs c ps in (b ++ bs, c)
  end.

Fixpoint read_msgs (n : nat) (c : Conn) : list (list byte) * option ctl_err * Conn :=
  match n with
  | O => ([], None, c)
  | S n =>
      match ReadMsg c with
      | (Err e, c) => ([], Some e, c)
      | (Ok p, c) => let '(ps, e, c) := read_msgs n c in (p :: ps, e, c)
      end
  end.
End Control.
Arguments Conn L : clear implicits.

(** ** Lemmas *)

Lemma readRaw_writeRaw b rest e :
  len b <= 65535 -> readRaw (Reader (writeRaw b ++ rest) e) = (Ok b, Reader rest e).
Proof.
  intros Hb. unfold readRaw, writeRaw. rewrite <- app_assoc.
  pose proof (ReadFull_app (be_put 2 (len b)) (b ++ rest) e) as H. rewrite length_be_put in H.
  rewrite H, be_get_put_small by (pose proof (len_nonneg b); cbn; lia).
  unfold len. by rewrite Nat2Z.id, ReadFull_app.
Qed.

Section Theorems.
Context {L : NoiseLib} {W : NoiseLaws L} {X : XXLaws L}.
Implicit Types c : Conn L.

(** A message of the peer at the front of the stream. *)
Lemma ReadMsg_frame (r : Session L) ct rest e :
  0 < len ct <= maxMsgLen ->
  ReadMsg (MkConn (Reader (be_put 4 (len ct) ++ ct ++ rest) e) r) =
  match Decrypt r ct with
  | (Err e', r') => (Err (CtlSession e'), MkConn (Reader rest e) r')
  | (Ok p, r') => (Ok p, MkConn (Reader rest e) r')
  end.
Proof.
  intros Hct. unfold ReadMsg. cbn [br sess].
  pose proof (ReadFull_app (be_put 4 (len ct)) (ct ++ rest) e) as H. rewrite length_be_put in H.
  assert (Hm : maxMsgLen = 2 ^ 20) by done.
  rewrite H, be_get_put_small by (cbn; lia).
  rewrite (proj2 (Z.eqb_neq _ _)) by lia.
  destruct (len ct >? maxMsgLen) eqn:E; zbool; [lia|]. cbn [orb].
  unfold len. rewrite Nat2Z.id, ReadFull_app. done.
Qed.

Lemma Encrypt_len k0 (s s' : Session L) p ct :
  SendInv k0 s -> Encrypt s p = (Ok ct, s') -> len ct = len p + tagLen.
Proof.
  intros I H. unfold Encrypt in H. pose proof (si_count _ _ I).
  destruct (Z.le_gt_cases (sendCount s) MaxNonce) as [Hle|Hgt].
  - destruct (Send_spec k0 s p I Hle) as (c & e & HS & _). rewrite HS in H.
    injection H as <- _. apply len_seal.
  - by rewrite (Send_exhausted k0 s p I) in H.
Qed.

(** Two sessions that each read what the other writes; [a] can write [n] messages more. *)
Definition linked (a b : Session L) : Prop := paired a b /\ paired b a.
Definition writes_left (a : Session L) : Z := MaxNonce + 1 - sendCount a.

Lemma linked_sym a b : linked a b -> linked b a.
Proof. by intros []. Qed.

(** A message goes over, whatever follows it, and the sessions stay linked. *)
Lemma message_crosses (a b : Session L) p :
  linked a b -> 1 <= writes_left a -> len p + tagLen <= maxMsgLen ->
  exists bs a' b',
    (forall r, WriteMsg (MkConn r a) p true = (Ok (), bs, MkConn r a')) /\
    (forall rest e, ReadMsg (MkConn (Reader (bs ++ rest) e) b) = (Ok p, MkConn (Reader rest e) b')) /\
    linked a' b' /\ writes_left a' = writes_left a - 1 /\ writes_left b' = writes_left b.
Proof.
  intros [[k1 I1] [k2 I2]] Hn Hp. unfold writes_left in *. pose proof (len_nonneg p).
  destruct (InOrder_step k1 a b p I1) as (ct & a' & b' & HE & HD & I' & Hc); [lia|].
  pose proof (Encrypt_len k1 a a' p ct (io_send _ _ _ I1) HE) as Hct.
  exists (be_put 4 (len ct) ++ ct), a', b'. split_and!.
  - intros r. unfold WriteMsg. cbn [sess br]. by rewrite HE.
  - intros rest e. rewrite <- app_assoc, ReadMsg_frame by (unfold tagLen in *; lia). by rewrite HD.
  - split; [by exists k1|exists k2].
    pose proof (InOrder_Decrypt k2 b (Encrypt a p).2 ct (InOrder_Encrypt k2 b a p I2)) as I.
    by rewrite HE, HD in I.
  - lia.
  - destruct (Decrypt_send b ct) as (_ & Hs & _). rewrite HD in Hs. cbn in Hs. by rewrite Hs.
Qed.

(** The control connection is a faithful message stream: what one side writes, up
    to the length limit, the other reads back message by message, unchanged and in
    order, whatever follows on the wire; and both can go on. *)
Theorem control_stream (k0 : list byte) (a b : Conn L) (ps : list (list byte))
    (rest : list byte) (e : io_err)
    (I : InOrder k0 (sess a) (sess b))
    (Hn : sendCount (sess a) + len ps <= MaxNonce + 1)
    (Hps : Forall (fun p => len p + tagLen <= maxMsgLen) ps) :
  exists a' s', (write_msgs a ps).2 = a' /\
    read_msgs (length ps) (MkConn (Reader ((write_msgs a ps).1 ++ rest) e) (sess b))
      = (ps, None, MkConn (Reader rest e) s') /\
    InOrder k0 (sess a') s'.
Proof.
  destruct a as [ra sa], b as [rb sb]. cbn [sess] in *. revert sa sb I Hn.
  induction Hps as [|p ps Hp Hps IH]; intros sa sb I Hn; [by exists (MkConn ra sa), sb|].
  rewrite len_cons in Hn. pose proof (len_nonneg ps). pose proof (len_nonneg p).
  destruct (InOrder_step k0 sa sb p I) as (ct & sa' & sb' & HE & HD & I' & Hc); [lia|].
  pose proof (Encrypt_len k0 sa sa' p ct (io_send _ _ _ I) HE) as Hct.
  destruct (IH sa' sb' I') as (a' & s' & E1 & E2 & I2); [lia|].
  cbn [write_msgs length]. unfold WriteMsg. cbn [sess br]. rewrite HE.
  destruct (write_msgs (MkConn ra sa') ps) as [bs c]. cbn [fst snd] in *.
  exists a', s'. split; [done|]. split; [|done]. rewrite <- !app_assoc. cbn [read_msgs].
  rewrite ReadMsg_frame by (unfold tagLen in *; lia). rewrite HD, E2. done.
Qed.

(** The handshake, whatever follows it on the two streams. *)
Lemma handshake_connects (tA tB : Time) (kA kB : Keypair) (eA eB : list byte) :
  genuine kA -> genuine kB -> len eA = 32 -> len eB = 32 ->
  exists outA outB sA sB,
    (forall rest e, Initiate tA kA (Public kB) eA true true (Reader (outB ++ rest) e)
                    = (outA, Ok (MkConn (Reader rest e) sA))) /\
    (forall rest e, Accept tB kB eB true (Reader (outA ++ rest) e)
                    = (outB, Ok (Public kA, MkConn (Reader rest e) sB))) /\
    PeerStatic sA = Public kB /\ linked sA sB /\
    writes_left sA = MaxNonce + 1 /\ writes_left sB = MaxNonce + 1.
Proof.
  intros HkA HkB HeA HeB.
  destruct (xx_machines kA kB prologue eA eB tA tB HkA HkB HeA HeB)
    as (m1 & i0 & i1 & m2 & r0 & r1 & r2 & m3 & i2 & i3 & r3 & sA & sB & N1 & M1 & N2 & M2 & M3 &
        M4 & M5 & M6 & L1 & L2 & L3 & PA & PB & _ & AB & BA & HsA & HsB).
  exists (writeRaw m1 ++ writeRaw m3), (writeRaw m2), sA, sB. split_and!; try done.
  - intros rest e. unfold Initiate. rewrite N1, M1. cbn [negb].
    rewrite readRaw_writeRaw by done. by rewrite M4, M5.
  - intros rest e. unfold Accept. rewrite N2, <- app_assoc, readRaw_writeRaw by done. rewrite M2, M3. cbn [negb].
    rewrite readRaw_writeRaw by done. rewrite M6. cbn. by rewrite PB.
  - unfold writes_left. lia.
  - unfold writes_left. lia.
Qed.

(** The handshake over the stream: an agent that pins the coordinator's key and a
    coordinator connect; the coordinator learns the agent's key, the agent's is the
    pinned one, both ends can exchange messages in both directions, and nothing of what
    follows the handshake on either stream is consumed. *)
Theorem control_handshake (tA tB : Time) (kA kB : Keypair) (eA eB restA restB : list byte)
    (endA endB : io_err)
    (HkA : genuine kA) (HkB : genuine kB)
    (HeA : len eA = 32) (HeB : len eB = 32) :
  exists outA outB sA sB,
    Initiate tA kA (Public kB) eA true true (Reader (outB ++ restB) endA)
      = (outA, Ok (MkConn (Reader restB endA) sA)) /\
    Accept tB kB eB true (Reader (outA ++ restA) endB)
      = (outB, Ok (Public kA, MkConn (Reader restA endB) sB)) /\
    PeerStatic sA = Public kB /\ paired sA sB /\ paired sB sA.
Proof.
  destruct (handshake_connects tA tB kA kB eA eB HkA HkB HeA HeB)
    as (outA & outB & sA & sB & HI & HA & Hp & [AB BA] & _).
  exists outA, outB, sA, sB. by rewrite HI, HA.
Qed.

(** Nothing but the peer's next message is accepted: [ReadMsg] returns a plaintext
    only for a frame whose ciphertext is that plaintext sealed by the peer at exactly
    the reader's position, so a replaced, dropped, repeated or reordered frame is an
    error. *)
Theorem ReadMsg_authentic (k0 : list byte) (c c' : Conn L) (p : list byte)
    (I : RecvInv k0 (sess c)) (Hn : 0 <= recvCount (sess c))
    (H : ReadMsg c = (Ok p, c')) :
  exists ct rest, pending (br c) = be_put 4 (len ct) ++ ct ++ rest /\
    br c' = Reader rest (at_end (br c)) /\
    0 < len ct <= maxMsgLen /\ recvCount (sess c) <= MaxNonce /\
    ct = sealed k0 (rekeyEvery (sess c)) (recvCount (sess c)) p /\
    recvCount (sess c') = recvCount (sess c) + 1.
Proof.
  unfold ReadMsg in H. destruct (ReadFull 4 (br c)) as [[hdr|e] r1] eqn:E1; [|done].
  destruct (_ || _) eqn:En; zbool; [done|].
  destruct (ReadFull (Z.to_nat (be_get hdr)) r1) as [[ct|e] r2] eqn:E2; [|done].
  apply ReadFull_Ok in E1 as (P1 & L1 & A1). apply ReadFull_Ok in E2 as (P2 & L2 & A2).
  pose proof (be_get_range hdr) as Hr.
  assert (Hct : len ct = be_get hdr) by (unfold len; lia).
  assert (Hhdr : be_put 4 (len ct) = hdr).
  { rewrite Hct, <- L1. apply be_put_get. }
  destruct (Decrypt (sess c) ct) as [[q|e] s'] eqn:ED; [|done]. injection H as <- <-.
  unfold Decrypt in ED. destruct (recv (sess c)) as [cs|] eqn:Ecs; [|done].
  destruct (recvCount (sess c) >? MaxNonce) eqn:Em; zbool; [done|].
  destruct (DecryptAt (sess c) (recvCount (sess c)) ct) as [[pt|e] s1] eqn:EDA; [|done].
  injection ED as -> <-.
  assert (Hok : (DecryptAt (sess c) (recvCount (sess c)) ct).1 = Ok q) by (by rewrite EDA).
  pose proof (proj1 (DecryptAt_Ok k0 _ _ _ _ I Hn) Hok) as (_ & _ & Hseal).
  exists ct, (pending r2). rewrite Hhdr. split_and!; try done; try lia.
  - by rewrite P1, P2.
  - destruct r2. cbn in *. congruence.
  - cbn. apply u64_small. unfold MaxNonce in *. lia.
Qed.

(** The limit counts the tag: a message whose plaintext is within the last 16
    bytes of [maxMsgLen] is written without error and refused by every reader. *)
Theorem oversized_message_refused (k0 : list byte) (a b : Conn L) (p rest : list byte)
    (e : io_err)
    (I : InOrder k0 (sess a) (sess b)) (Hn : sendCount (sess a) <= MaxNonce)
    (Hp : maxMsgLen - tagLen < len p <= maxMsgLen) :
  exists bs a' b', WriteMsg a p true = (Ok (), bs, a') /\
    ReadMsg (MkConn (Reader (bs ++ rest) e) (sess b)) = (Err CtlInvalidLength, b').
Proof.
  destruct (InOrder_step k0 _ _ p I Hn) as (ct & sa' & sb' & HE & _).
  pose proof (Encrypt_len k0 _ _ p ct (io_send _ _ _ I) HE) as Hct.
  assert (Hm : maxMsgLen = 2 ^ 20) by done. unfold tagLen in *.
  eexists _, _, _. unfold WriteMsg. rewrite HE. split; [done|]. unfold ReadMsg. cbn [br sess].
  rewrite <- app_assoc. pose proof (ReadFull_app (be_put 4 (len ct)) (ct ++ rest) e) as H.
  rewrite length_be_put in H. rewrite H, be_get_put_small by (cbn; lia).
  destruct (len ct >? maxMsgLen) eqn:E; zbool; [|lia]. by rewrite orb_true_r.
Qed.
End Theorems.

(** ** Witnesses, on the concrete cipher *)

#[local] Existing Instances Toy.lib Toy.laws Toy.xx.

Module Demo.
Definition key : list byte := replicate 32 x07.
Definition a : Conn Toy.lib :=
  MkConn (Reader [] EOF)
    (MkSession (L := Toy.lib) [] [] (Some (Toy.CS key 0)) None 0 0 0 0 4 0).
Definition b : Conn Toy.lib :=
  MkConn (Reader [] EOF)
    (MkSession (L := Toy.lib) [] [] None (Some (Toy.CS key 0)) 0 0 0 0 4 0).

Lemma inorder : InOrder key (sess a) (sess b).
Proof.
  split; [split|split|..]; cbn; try done; try by eexists.
Qed.

Definition kA := MkKeypair (replicate 32 x0a) (replicate 32 x1a).
Definition kB := MkKeypair (replicate 32 x0b) (replicate 32 x1b).
Definition entropy := replicate 32 x33.
Definition wire : list byte := Eval vm_compute in (WriteMsg a [x61; x62] true).1.2.
End Demo.

Example control_stream_witness :
  exists a' s', (write_msgs Demo.a [[x61]; []; [x62; x63]]).2 = a' /\
    read_msgs 3 (MkConn (Reader ((write_msgs Demo.a [[x61]; []; [x62; x63]]).1 ++ [x00]) EOF)
                   (sess Demo.b))
      = ([[x61]; []; [x62; x63]], None, MkConn (Reader [x00] EOF) s') /\
    InOrder Demo.key (sess a') s'.
Proof.
  apply (control_stream Demo.key Demo.a Demo.b [[x61]; []; [x62; x63]] [x00] EOF Demo.inorder).
  - cbn. done.
  - by repeat constructor.
Defined.

Example control_handshake_witness :
  exists outA outB sA sB,
    Initiate (L := Toy.lib) 5 Demo.kA (Public Demo.kB) Demo.entropy true true
      (Reader (outB ++ [x01]) EOF) = (outA, Ok (MkConn (Reader [x01] EOF) sA)) /\
    Accept 6 Demo.kB Demo.entropy true (Reader (outA ++ [x02]) EOF)
      = (outB, Ok (Public Demo.kA, MkConn (Reader [x02] EOF) sB)) /\
    PeerStatic sA = Public Demo.kB /\ paired sA sB /\ paired sB sA.
Proof. apply control_handshake; by split. Defined.

Example ReadMsg_authentic_witness :
  exists c', ReadMsg (MkConn (Reader (Demo.wire ++ [x09]) EOF) (sess Demo.b)) = (Ok [x61; x62], c') /\
  exists ct rest, Demo.wire ++ [x09] = be_put 4 (len ct) ++ ct ++ rest /\
    br c' = Reader rest EOF /\ 0 < len ct <= maxMsgLen /\ 0 <= MaxNonce /\
    ct = sealed Demo.key 4 0 [x61; x62] /\ recvCount (sess c') = 0 + 1.
Proof.
  eexists. split; [reflexivity|].
  eapply (ReadMsg_authentic Demo.key (MkConn (Reader (Demo.wire ++ [x09]) EOF) (sess Demo.b))).
  - apply Demo.inorder.
  - done.
  - reflexivity.
Defined.

Example oversized_message_refused_witness :
  exists bs a' b',
    WriteMsg Demo.a (replicate (Z.to_nat (maxMsgLen - 3)) x00) true = (Ok (), bs, a') /\
    ReadMsg (MkConn (Reader (bs ++ []) EOF) (sess Demo.b)) = (Err CtlInvalidLength, b').
Proof.
  apply (oversized_message_refused Demo.key Demo.a Demo.b _ [] EOF Demo.inorder); [done|].
  rewrite len_replicate by done. done.
Defined.
