(* ===== verification/Protocol.v ===== *)
(** * Control-plane messages (src/internal/protocol/protocol.go)

    The message types, their JSON encoding ([encoding/json]'s [Marshal] on these types),
    the newline-terminated line, and the bounded line reader over a [bufio.Reader].
    [json.Unmarshal] is a parameter (class [Json]). *)

From S2P Require Import Prelude GoBytes GoRuntime GoNet.

Definition TypeRegister : string := "register".
Definition TypePeerList : string := "peer_list".
Definition TypeQuery : string := "query".
Definition TypeQueryResult : string := "query_result".
Definition TypeError : string := "error".
Definition MaxControlLine : Z := Z.shiftl 64 10.

(** A Go slice: [nil], or its elements. *)
Abbreviation slice A := (option (list A)).
Definition elems {A} (s : slice A) : list A := default [] s.

Record PeerInfo := MkPeerInfo {
  pi_ID : string;
  pi_PubKey : string;
  pi_Endpoints : slice string
}.
#[export] Instance PeerInfo_eq_dec : EqDecision PeerInfo.
Proof. solve_decision. Defined.

Record Message := MkMessage {
  Type_ : string;
  ID : string;
  PubKey : string;
  Endpoints : slice string;
  Peers : slice PeerInfo;
  Msg : string;
  Count : Z;
  Total : Z;
  Up : Z
}.

(** ** [json.Marshal] *)

Definition in_range (lo hi : Z) (b : byte) : bool := (lo <=? u8 b) && (u8 b <=? hi).
Definition continuation (b : byte) : bool := in_range 0x80 0xbf b.

(** [utf8.DecodeRune]: the number of bytes after the first of the valid multi-byte
    sequence a string starts with, if it starts with one. *)
Definition multibyte (l : list byte) : option nat :=
  match l with
  | b0 :: b1 :: l2 =>
      if in_range 0xc2 0xdf b0 && continuation b1 then Some 1%nat
      else
        match l2 with
        | b2 :: l3 =>
            if ((in_range 0xe0 0xe0 b0 && in_range 0xa0 0xbf b1) ||
                (in_range 0xe1 0xec b0 && continuation b1) ||
                (in_range 0xed 0xed b0 && in_range 0x80 0x9f b1) ||
                (in_range 0xee 0xef b0 && continuation b1)) && continuation b2
            then Some 2%nat
            else
              match l3 with
              | b3 :: _ =>
                  if ((in_range 0xf0 0xf0 b0 && in_range 0x90 0xbf b1) ||
                      (in_range 0xf1 0xf3 b0 && continuation b1) ||
                      (in_range 0xf4 0xf4 b0 && in_range 0x80 0x8f b1)) &&
                     continuation b2 && continuation b3
                  then Some 3%nat else None
              | [] => None
              end
        | [] => None
        end
  | _ => None
  end.

Definition hexDigit (n : Z) : byte := byte_of (if n <? 10 then 48 + n else 87 + n).

(** A byte below 0x80 inside a JSON string, with HTML escaping on. *)
Definition escaped (b : byte) : list byte :=
  if bool_decide (b = x22) || bool_decide (b = x5c) then [x5c; b]
  else if bool_decide (b = x08) then [x5c; x62]
  else if bool_decide (b = x0c) then [x5c; x66]
  else if bool_decide (b = x0a) then [x5c; x6e]
  else if bool_decide (b = x0d) then [x5c; x72]
  else if bool_decide (b = x09) then [x5c; x74]
  else if (u8 b <? 0x20) || bool_decide (b ∈ [x3c; x3e; x26])
  then [x5c; x75; x30; x30; hexDigit (u8 b / 16); hexDigit (u8 b mod 16)]
  else [b].

(** The encoding of the character a string starts with, and how many bytes after the
    first it takes: invalid UTF-8 becomes the replacement character, the line
    separators U+2028 and U+2029 are escaped. *)
Definition json_char (b : byte) (l : list byte) : list byte * nat :=
  if u8 b <? 0x80 then (escaped b, 0%nat)
  else
    match multibyte (b :: l) with
    | None => (bytes_of_string "\ufffd", 0%nat)
    | Some k =>
        let c := b :: take k l in
        if bool_decide (c = [xe2; x80; xa8]) then (bytes_of_string "\u2028", k)
        else if bool_decide (c = [xe2; x80; xa9]) then (bytes_of_string "\u2029", k)
        else (c, k)
    end.

Fixpoint json_chars (skip : nat) (l : list byte) : list byte :=
  match l with
  | [] => []
  | b :: l =>
      match skip with
      | S skip => json_chars skip l
      | O => let '(out, k) := json_char b l in out ++ json_chars k l
      end
  end.

Definition json_string (s : string) : list byte :=
  [x22] ++ json_chars 0 (bytes_of_string s) ++ [x22].
Definition json_int (n : Z) : list byte := bytes_of_string (Itoa n).

Fixpoint commas (l : list (list byte)) : list byte :=
  match l with
  | [] => []
  | [x] => x
  | x :: l => x ++ [x2c] ++ commas l
  end.
Definition json_array (l : list (list byte)) : list byte := [x5b] ++ commas l ++ [x5d].
Definition json_object (l : list (string * list byte)) : list byte :=
  [x7b] ++ commas (map (fun f => json_string f.1 ++ [x3a] ++ f.2) l) ++ [x7d].

Definition Marshal_PeerInfo (p : PeerInfo) : list byte :=
  json_object
    [("id"%string, json_string (pi_ID p)); ("pubkey"%string, json_string (pi_PubKey p));
     ("endpoints"%string,
        match pi_Endpoints p with
        | None => bytes_of_string "null"
        | Some l => json_array (map json_string l)
        end)].

(** A field whose tag says [omitempty]. *)
Definition unless (empty : bool) (name : string) (v : list byte) : list (string * list byte) :=
  if empty then [] else [(name, v)].

Definition Marshal (m : Message) : list byte :=
  json_object
    ([("type"%string, json_string (Type_ m))] ++
     unless (bool_decide (ID m = ""%string)) "id" (json_string (ID m)) ++
     unless (bool_decide (PubKey m = ""%string)) "pubkey" (json_string (PubKey m)) ++
     unless (bool_decide (elems (Endpoints m) = [])) "endpoints"
       (json_array (map json_string (elems (Endpoints m)))) ++
     unless (bool_decide (elems (Peers m) = [])) "peers"
       (json_array (map Marshal_PeerInfo (elems (Peers m)))) ++
     unless (bool_decide (Msg m = ""%string)) "msg" (json_string (Msg m)) ++
     unless (Count m =? 0) "count" (json_int (Count m)) ++
     unless (Total m =? 0) "total" (json_int (Total m)) ++
     unless (Up m =? 0) "up" (json_int (Up m))).

(** ** Lines *)

Inductive proto_err := EmptyLine | BadLine | ControlLineTooLong | LineRead (e : io_err).

(** [json.Marshal] has no error on a [Message]: it holds strings, integers and slices. *)
Definition EncodeLine (m : Message) : res proto_err (list byte) := Ok (Marshal m ++ [x0a]).

(** [json.Unmarshal] into a [Message]. *)
Class Json := { Unmarshal : list byte -> option Message }.

Definition DecodeLine `{Json} (b : list byte) : res proto_err Message :=
  let b := TrimSpace b in
  if len b =? 0 then Err EmptyLine
  else match Unmarshal b with
       | None => Err BadLine
       | Some m => Ok m
       end.

(** ** Reading lines: [bufio.Reader.ReadSlice] over a buffer of [B] bytes *)

Fixpoint index_of (c : byte) (l : list byte) : option nat :=
  match l with
  | [] => None
  | b :: l => if bool_decide (b = c) then Some O else S <$> index_of c l
  end.

Inductive slice_err := ErrBufferFull | ReaderErr (e : io_err).

(** [ReadSlice('\n')]: the bytes up to the delimiter when it is among the next [B]; all
    [B] bytes of a full buffer without it; the rest of the stream and its error. The
    underlying reader reports its error in a read of its own. *)
Definition ReadSlice (B : nat) (r : reader) : (list byte * option slice_err) * reader :=
  match index_of x0a (take B (pending r)) with
  | Some i => ((take (S i) (pending r), None), Reader (drop (S i) (pending r)) (at_end r))
  | None =>
      if bool_decide (B <= length (pending r))%nat
      then ((take B (pending r), Some ErrBufferFull), Reader (drop B (pending r)) (at_end r))
      else ((pending r, Some (ReaderErr (at_end r))), Reader [] (at_end r))
  end.

(** [ReadLine]: what is returned with the error, and the reader left behind. The loop
    ends within [fuel] buffers. *)
Fixpoint readLine_loop (fuel B : nat) (total : Z) (r : reader)
    : option (list byte * option proto_err * reader) :=
  match fuel with
  | O => None
  | S fuel =>
      let '((line, err), r) := ReadSlice B r in
      let total := total + len line in
      if total >? MaxControlLine then Some ([], Some ControlLineTooLong, r)
      else
        match err with
        | None => Some (line, None, r)
        | Some (ReaderErr e) => Some (line, Some (LineRead e), r)
        | Some ErrBufferFull => readLine_loop fuel B total r
        end
  end.

Definition ReadLine (B : nat) (r : reader) : option (list byte * option proto_err * reader) :=
  readLine_loop (S (length (pending r))) B 0 r.

(** ** The encoding is one line *)

(** Bytes a JSON text is made of: nothing below a space. *)
Definition text (l : list byte) : Prop := Forall (fun b => 0x20 <= u8 b) l.

Lemma text_app l k : text (l ++ k) <-> text l /\ text k.
Proof. apply Forall_app. Qed.

Lemma text_no_newline l : text l -> x0a ∉ l.
Proof. intros H Hin%list_elem_of_In. apply (proj1 (List.Forall_forall _ _) H) in Hin. by vm_compute in Hin. Qed.

Lemma escaped_text b : text (escaped b).
Proof. destruct b; by_compute. Qed.

Lemma multibyte_text l k : multibyte l = Some k -> text (take (S k) l).
Proof.
  unfold multibyte, continuation, in_range. intros H.
  destruct l as [|b0 [|b1 l2]]; [done|done|].
  destruct (_ && _) eqn:E1 in H; [injection H as <-; zbool; by repeat constructor; lia|].
  destruct l2 as [|b2 l3]; [done|].
  destruct (_ && _) eqn:E2 in H; [injection H as <-; zbool|].
  - rewrite !orb_true_iff in *. cbn [take]. repeat constructor; try lia.
    all: repeat match goal with H : _ \/ _ |- _ => destruct H end; zbool; lia.
  - destruct l3 as [|b3 l4]; [done|].
    destruct (_ && _) eqn:E3 in H; [injection H as <-; zbool|done].
    rewrite !orb_true_iff in *. cbn [take]. repeat constructor; try lia.
    all: repeat match goal with H : _ \/ _ |- _ => destruct H end; zbool; lia.
Qed.

Lemma json_char_text b l : text (json_char b l).1.
Proof.
  unfold json_char. destruct (u8 b <? 0x80); [apply escaped_text|].
  destruct (multibyte (b :: l)) as [k|] eqn:E; [|by_compute].
  repeat case_bool_decide; [by_compute|by_compute|]. by apply multibyte_text in E.
Qed.

Lemma json_chars_text l : forall skip, text (json_chars skip l).
Proof.
  induction l as [|b l IH]; intros skip; [constructor|]. cbn [json_chars].
  destruct skip as [|skip]; [|apply IH]. pose proof (json_char_text b l) as H.
  destruct (json_char b l) as [out k]. apply text_app. split; [exact H|apply IH].
Qed.

Lemma json_string_text s : text (json_string s).
Proof. unfold json_string. rewrite !text_app. split_and!; [by_compute|apply json_chars_text|by_compute]. Qed.

Lemma uint_text d : text (bytes_of_string (DecimalString.NilEmpty.string_of_uint d)).
Proof. induction d; cbn; try (constructor; [done|exact IHd]). constructor. Qed.

Lemma json_int_text n : text (json_int n).
Proof.
  unfold json_int, Itoa, DecimalString.NilZero.string_of_int.
  assert (H : forall d, text (bytes_of_string (DecimalString.NilZero.string_of_uint d))).
  { intros d. unfold DecimalString.NilZero.string_of_uint. destruct d; try apply uint_text. by_compute. }
  destruct (Z.to_int n); [apply H|]. cbn. constructor; [done|apply H].
Qed.

Lemma commas_text l : Forall text l -> text (commas l).
Proof.
  induction 1 as [|x l Hx Hl IH]; [constructor|]. cbn [commas]. destruct l; [done|].
  rewrite !text_app. split_and!; [done|by_compute|done].
Qed.

Lemma json_array_text l : Forall text l -> text (json_array l).
Proof. intros. unfold json_array. rewrite !text_app. split_and!; [by_compute|by apply commas_text|by_compute]. Qed.

Lemma json_object_text l : Forall (fun f => text f.2) l -> text (json_object l).
Proof.
  intros. unfold json_object. rewrite !text_app. split_and!; [by_compute| |by_compute].
  apply commas_text, Forall_map. eapply Forall_impl; [|eassumption]. intros [f v] Hv. cbn [fst snd] in *.
  rewrite !text_app. split_and!; [apply json_string_text|by_compute|done].
Qed.

Create HintDb text.
#[export] Hint Resolve json_string_text json_int_text json_array_text json_object_text : text.

Lemma strings_text l : Forall text (map json_string l).
Proof. apply Forall_map, Forall_true. auto with text. Qed.

Lemma Marshal_PeerInfo_text p : text (Marshal_PeerInfo p).
Proof.
  apply json_object_text. rewrite !Forall_cons_iff. cbn [snd]. split_and!; auto with text.
  destruct (pi_Endpoints p); [apply json_array_text, strings_text|by_compute].
Qed.

Lemma unless_text e n v : text v -> Forall (fun f : string * list byte => text f.2) (unless e n v).
Proof. intros H. unfold unless. destruct e; constructor; [exact H|constructor]. Qed.

Lemma Marshal_text m : text (Marshal m).
Proof.
  apply json_object_text. rewrite !Forall_app. split_and!; [constructor; [apply json_string_text|constructor]|..];
    apply unless_text; auto with text; apply json_array_text; [apply strings_text|].
  apply Forall_map, Forall_true. apply Marshal_PeerInfo_text.
Qed.

Lemma EncodeLine_line m :
  exists body, EncodeLine m = Ok (body ++ [x0a]) /\ x0a ∉ body.
Proof. exists (Marshal m). split; [done|]. apply text_no_newline, Marshal_text. Qed.

(** ** Reading a line *)

Lemma index_of_app c l k : c ∉ l -> index_of c (l ++ c :: k) = Some (length l).
Proof.
  induction l as [|b l IH]; intros H; cbn [app index_of length].
  - by rewrite bool_decide_eq_true_2.
  - apply not_elem_of_cons in H as [Hb H]. rewrite bool_decide_eq_false_2 by congruence.
    by rewrite IH.
Qed.

Lemma index_of_None c l : c ∉ l -> index_of c l = None.
Proof.
  induction l as [|b l IH]; intros H; [done|]. cbn [index_of].
  apply not_elem_of_cons in H as [Hb H]. rewrite bool_decide_eq_false_2 by congruence.
  by rewrite IH.
Qed.

(** A delimiter within the buffer, and one behind it. *)
Lemma ReadSlice_line B body rest e :
  x0a ∉ body -> (length body < B)%nat ->
  ReadSlice B (Reader (body ++ x0a :: rest) e) = ((body ++ [x0a], None), Reader rest e).
Proof.
  intros Hnl HB. unfold ReadSlice. cbn [pending at_end].
  rewrite take_app_ge by lia. replace (B - length body)%nat with (S (B - length body - 1)) by lia.
  cbn [take]. rewrite index_of_app by done.
  replace (body ++ x0a :: rest) with ((body ++ [x0a]) ++ rest) by by rewrite <- app_assoc.
  rewrite take_app_len, drop_app_len by (rewrite length_app; cbn; lia). done.
Qed.

Lemma ReadSlice_full B body rest e :
  x0a ∉ body -> (B <= length body)%nat ->
  ReadSlice B (Reader (body ++ rest) e)
  = ((take B body, Some ErrBufferFull), Reader (drop B body ++ rest) e).
Proof.
  intros Hnl HB. unfold ReadSlice. cbn [pending at_end].
  rewrite take_app_le, drop_app_le, length_app by lia.
  rewrite index_of_None by (intros Hin; apply Hnl; rewrite <- (take_drop B body); set_solver).
  by rewrite bool_decide_eq_true_2 by lia.
Qed.

Lemma drop_chunks {A} B (l : list A) (k : list A) :
  (0 < B <= length l)%nat ->
  drop (length l / B * B) (l ++ k) = drop ((length l - B) / B * B) (drop B l ++ k).
Proof.
  intros HB. rewrite <- drop_app_le by lia. rewrite drop_drop. f_equal.
  replace (length l) with ((length l - B) + 1 * B)%nat at 1 by lia.
  rewrite Nat.div_add by lia. lia.
Qed.

Lemma readLine_loop_line B rest e fuel : forall body total,
  (0 < B)%nat -> x0a ∉ body -> (length body < fuel)%nat -> 0 <= total ->
  readLine_loop fuel B total (Reader (body ++ x0a :: rest) e) =
  (if total + len body + 1 <=? MaxControlLine
   then Some (drop (length body / B * B) (body ++ [x0a]), None, Reader rest e)
   else Some ([], Some ControlLineTooLong,
              (default (Reader [] e) (snd <$> readLine_loop fuel B total (Reader (body ++ x0a :: rest) e))))).
Proof.
  induction fuel as [|fuel IH]; intros body total HB Hnl Hf Ht; [lia|]. cbn [readLine_loop].
  destruct (decide (length body < B)%nat) as [Hlt|Hge].
  - rewrite ReadSlice_line by done. rewrite len_app.
    rewrite Z.gtb_ltb, Z.ltb_antisym, Z.add_assoc. change (len [x0a]) with 1.
    rewrite Nat.div_small by done. destruct (_ <=? _); done.
  - rewrite ReadSlice_full by (done || lia).
    assert (Hl : len (take B body) = Z.of_nat B) by (unfold len; rewrite length_take; lia).
    assert (Hd : length (drop B body) = (length body - B)%nat) by apply length_drop.
    assert (Hnl' : x0a ∉ drop B body)
      by (intros Hin; apply Hnl; rewrite <- (take_drop B body); set_solver).
    rewrite Hl. destruct (total + Z.of_nat B >? MaxControlLine) eqn:E; zbool.
    + destruct (_ <=? _) eqn:E2; zbool; [unfold len in *; lia|done].
    + rewrite (IH (drop B body)) by (done || lia). unfold len. rewrite Hd.
      replace (total + Z.of_nat B + Z.of_nat (length body - B) + 1)
        with (total + Z.of_nat (length body) + 1) by lia.
      destruct (_ <=? _); [|done]. by rewrite <- drop_chunks by lia.
Qed.

(** The line reader, for every buffer size: a line within [MaxControlLine] is
    consumed exactly and returned without error, whole when it fits the buffer; of a
    longer one only what lies behind its last full buffer is returned. A line beyond
    [MaxControlLine] is refused without being returned. *)
Theorem ReadLine_line (B : nat) (body rest : list byte) (e : io_err)
    (HB : (0 < B)%nat) (Hnl : x0a ∉ body) :
  (len body + 1 <= MaxControlLine ->
   ReadLine B (Reader (body ++ x0a :: rest) e)
   = Some (drop (length body / B * B) (body ++ [x0a]), None, Reader rest e)) /\
  ((length body < B)%nat -> drop (length body / B * B) (body ++ [x0a]) = body ++ [x0a]) /\
  (MaxControlLine < len body + 1 ->
   exists r, ReadLine B (Reader (body ++ x0a :: rest) e) = Some ([], Some ControlLineTooLong, r)).
Proof.
  assert (HL := readLine_loop_line B rest e (S (length (body ++ x0a :: rest))) body 0 HB Hnl).
  rewrite length_app in HL. specialize (HL ltac:(lia) ltac:(lia)). unfold ReadLine.
  cbn [pending]. rewrite length_app. split_and!; intros H.
  - rewrite HL. destruct (_ <=? _) eqn:E; zbool; [done|lia].
  - by rewrite Nat.div_small.
  - rewrite HL. destruct (_ <=? _) eqn:E; zbool; [lia|]. by eexists.
Qed.

(** ** The size of an encoding *)

(** A string JSON leaves as it is: ASCII, and nothing to escape. *)
Definition plain_byte (b : byte) : bool := (u8 b <? 0x80) && bool_decide (escaped b = [b]).
Definition plain (s : string) : bool := forallb plain_byte (bytes_of_string s).

Lemma json_chars_plain l : forallb plain_byte l = true -> json_chars 0 l = l.
Proof.
  induction l as [|b l IH]; [done|]. cbn [forallb json_chars]. intros [Hb Hl]%andb_prop.
  unfold plain_byte in Hb. unfold json_char. zbool.
  destruct (u8 b <? 0x80) eqn:E; zbool; [|lia]. rewrite IH by done.
  replace (escaped b) with [b] by done. done.
Qed.

Lemma len_json_string_plain s : plain s = true -> len (json_string s) = slen s + 2.
Proof.
  intros H. unfold json_string, slen. rewrite json_chars_plain by exact H. len_lia.
Qed.

(** The characters that cost most: each of them takes six bytes. *)
Definition angles (n : nat) : string := string_of_bytes (replicate n x3c).

Lemma slen_angles n : slen (angles n) = Z.of_nat n.
Proof. unfold slen, angles. rewrite bytes_string. unfold len. by rewrite length_replicate. Qed.

Lemma len_json_string_angles n : len (json_string (angles n)) = 6 * Z.of_nat n + 2.
Proof.
  unfold json_string, angles. rewrite bytes_string, !len_app. change (len [x22]) with 1.
  cut (len (json_chars 0 (replicate n x3c)) = 6 * Z.of_nat n); [lia|].
  induction n as [|n IH]; [done|]. cbn [replicate json_chars].
  change (json_char x3c (replicate n x3c)) with (escaped x3c, 0%nat). cbn beta iota.
  rewrite len_app, IH. change (len (escaped x3c)) with 6. lia.
Qed.

Fixpoint total_len (l : list (list byte)) : Z :=
  match l with [] => 0 | x :: l => len x + total_len l end.

Lemma total_len_nonneg l : 0 <= total_len l.
Proof. induction l; cbn; [lia|]. pose proof (len_nonneg a). lia. Qed.

Lemma len_commas l : total_len l <= len (commas l) <= total_len l + len l.
Proof.
  induction l as [|x l IH]; [done|]. cbn [commas total_len]. destruct l as [|y l].
  - cbn [total_len]. change (len [x]) with 1. lia.
  - rewrite !len_app. change (len [x2c]) with 1. change (len (x :: y :: l)) with (len ([x] ++ y :: l)).
    rewrite (len_app [x]). change (len [x]) with 1. lia.
Qed.

Lemma total_len_le c l : Forall (fun x => len x <= c) l -> total_len l <= c * len l.
Proof. induction 1; cbn [total_len]; [change (@len (list byte) []) with 0; lia|]. rewrite len_cons. lia. Qed.
Lemma total_len_ge c l : Forall (fun x => c <= len x) l -> c * len l <= total_len l.
Proof. induction 1; cbn [total_len]; [change (@len (list byte) []) with 0; lia|]. rewrite len_cons. lia. Qed.

Lemma len_json_array l :
  total_len l + 2 <= len (json_array l) <= total_len l + len l + 2.
Proof.
  unfold json_array. rewrite !len_app. pose proof (len_commas l).
  change (len [x5b]) with 1. change (len [x5d]) with 1. lia.
Qed.

(** A plain peer record within the coordinator's bounds, and the largest one there is. *)
Lemma Marshal_PeerInfo_plain p :
  plain (pi_ID p) = true -> plain (pi_PubKey p) = true ->
  Forall (fun ep => plain ep = true /\ slen ep <= 255) (elems (pi_Endpoints p)) ->
  len (elems (pi_Endpoints p)) <= 2 -> slen (pi_ID p) <= 64 -> slen (pi_PubKey p) = 64 ->
  len (Marshal_PeerInfo p) <= 700.
Proof.
  intros H1 H2 Heps Hn HID HPK.
  assert (He : len (match pi_Endpoints p with
                    | None => bytes_of_string "null"
                    | Some l => json_array (map json_string l)
                    end) <= 518).
  { destruct (pi_Endpoints p) as [l|]; [|done]. change (elems (Some l)) with l in *.
    pose proof (len_json_array (map json_string l)) as HL.
    assert (HT : total_len (map json_string l) <= 257 * len (map json_string l)).
    { apply total_len_le, Forall_map. eapply Forall_impl; [|exact Heps].
      intros ep [Hp Hs]. rewrite len_json_string_plain by done. lia. }
    assert (Hm : len (map json_string l) = len l) by (unfold len; by rewrite length_map).
    rewrite Hm in *. lia. }
  unfold Marshal_PeerInfo, json_object. cbn [map commas fst snd].
  rewrite !len_app, (len_json_string_plain (pi_ID p)), (len_json_string_plain (pi_PubKey p)) by done.
  change (len [x7b]) with 1. change (len [x7d]) with 1. change (len [x2c]) with 1.
  change (len [x3a]) with 1. change (len (json_string "id")) with 4.
  change (len (json_string "pubkey")) with 8. change (len (json_string "endpoints")) with 11. lia.
Qed.

Lemma Marshal_PeerInfo_angles i k :
  3064 <= len (Marshal_PeerInfo (MkPeerInfo i k (Some [angles 255; angles 255]))).
Proof.
  unfold Marshal_PeerInfo, json_object. cbn [map commas fst snd pi_ID pi_PubKey pi_Endpoints].
  rewrite !len_app. unfold json_array. cbn [commas]. rewrite !len_app, len_json_string_angles.
  pose proof (len_nonneg (json_string i)). pose proof (len_nonneg (json_string k)).
  change (len [x7b]) with 1. change (len [x7d]) with 1. change (len [x2c]) with 1.
  change (len [x3a]) with 1. change (len (json_string "id")) with 4.
  change (len (json_string "pubkey")) with 8. change (len (json_string "endpoints")) with 11.
  change (len [x5b]) with 1. change (len [x5d]) with 1. lia.
Qed.

(** A message of peers only. *)
Definition peerMessage (t : string) (ps : list PeerInfo) : Message :=
  MkMessage t "" "" None (Some ps) "" 0 0 0.

Lemma len_peerMessage t ps :
  ps <> [] -> len (Marshal (peerMessage t ps))
  = len (json_string t) + len (json_array (map Marshal_PeerInfo ps)) + 18.
Proof.
  intros H. unfold Marshal, peerMessage, unless. cbn [ID PubKey Endpoints Peers Msg Count Total Up
    Type_]. change (elems None) with (@nil string). change (elems (Some ps)) with ps. rewrite (bool_decide_eq_false_2 (ps = [])) by done.
  rewrite !bool_decide_eq_true_2 by done. cbn [Z.eqb app]. unfold json_object. cbn [map commas fst snd].
  rewrite !len_app. change (len [x7b]) with 1. change (len [x7d]) with 1. change (len [x2c]) with 1.
  change (len [x3a]) with 1. change (len (json_string "type")) with 6.
  change (len (json_string "peers")) with 7. lia.
Qed.

(** ** Witness *)

Example ReadLine_line_witness :
  let body := replicate 20 x61 in
  ReadLine 16 (Reader (body ++ x0a :: [x62]) EOF)
  = Some ([x61; x61; x61; x61; x0a], None, Reader [x62] EOF).
Proof.
  apply (ReadLine_line 16 (replicate 20 x61) [x62] EOF); [lia| |done].
  apply (bool_decide_unpack _). vm_compute. exact I.
Defined.
