(* ===== verification/Coordinator.v ===== *)
(** * The coordinator (src/internal/coordinator/coordinator.go)

    The registry of peers and the goroutines that share it. Every accepted connection has
    a handler; a step of a handler is what it does between two points where another
    goroutine may run: one critical section of [s.mu], or one read or write of its
    connection. The environment interleaves the steps and decides which reads and writes
    fail. Connections are numbered, and the [control.Conn] of a connection is one object,
    whoever writes to it. *)

From S2P Require Import Prelude GoBytes GoRuntime GoNet NoiseLib Noisework Stun Control Protocol.

Definition broadcastWriteDeadline : Duration := 2 * Second.
Definition readIdleTimeout : Duration := 90 * Second.
Definition maxIDLen : Z := 64.
Definition maxEndpointsPerPeer : Z := 2.
Definition maxEndpointLen : Z := 255.
Definition maxRegistrations : Z := 512.
Definition maxControlLineLen : Z := Z.shiftl 1 20.

Abbreviation conn := nat.

Record Registration := MkRegistration {
  r_ID : string;
  r_PubKey : string;
  r_Endpoints : slice string;
  Owner : conn
}.

Record Config := MkConfig { CtrlAddr : string; StunAddr : string; Keyfile : string }.

(** Where a handler is. *)
Inductive pc :=
| Tracking (r : reader)              (* accepted; not in [s.clients] yet *)
| Handshaking (r : reader)           (* in [control.Accept] *)
| Authenticated (static : list byte) (* not in [s.ctrlConns] yet *)
| Reading (static : list byte)       (* at [ctrl.ReadMsg] *)
| Querying (static : list byte)      (* before [s.registrySnapshot] *)
| Registering (static : list byte) (msg : Message)   (* before the registration's [s.mu.Lock] *)
| Replying (static : list byte) (m : Message)        (* before looking up the session to answer on *)
| Writing (static : list byte) (line : list byte)    (* answering *)
| Broadcasting (static : list byte) (m : Message)    (* in [s.broadcast], before its [s.mu.RLock] *)
| Sending (static : list byte) (line : list byte) (conns : list conn)
| Evicting (static : list byte) (line : list byte) (d : conn) (conns : list conn)
| Checking (static : list byte)      (* at the [select] on [ctx.Done] *)
| Leaving                            (* returning: before the deferred [cleanupConn] *)
| Done.

Record Server {L : NoiseLib} := MkServer {
  kp : Keypair;
  registrations : gmap string Registration;
  clients : gmap conn string;
  ctrlConns : gset conn;
  totalRegs : Z;
  started : Time;
  stopped : bool;                      (* field [closed] *)
  sessions : gmap conn (Conn L);       (* the [control.Conn] of each connection *)
  sockets : gset conn;                 (* the connections closed *)
  handlers : gmap conn pc
}.
Arguments Server L : clear implicits.

#[export] Instance Server_eta {L} : Eta (Server L) := fun s =>
  MkServer _ (kp s) (registrations s) (clients s) (ctrlConns s) (totalRegs s) (started s)
    (stopped s) (sessions s) (sockets s) (handlers s).

(** ** Pure parts of the handler *)

(** [validateRegistration]: the error's text, if there is one. *)
Definition validateRegistration (msg : Message) : option string :=
  if bool_decide (ID msg = ""%string) then Some "id is required"%string
  else if slen (ID msg) >? maxIDLen
  then Some ("id exceeds " +:+ Itoa maxIDLen +:+ " bytes")%string
  else if len (elems (Endpoints msg)) >? maxEndpointsPerPeer then Some "too many endpoints"%string
  else if existsb (fun ep => slen ep >? maxEndpointLen) (elems (Endpoints msg))
  then Some ("endpoint exceeds " +:+ Itoa maxEndpointLen +:+ " bytes")%string
  else None.

Definition errorMessage (text : string) : Message :=
  MkMessage TypeError "" "" None None text 0 0 0.

(** What a handler does with a message it has read, up to the next critical section. *)
Definition dispatch `{Json} (static plain : list byte) : pc :=
  match DecodeLine plain with
  | Err _ => Reading static
  | Ok msg =>
      if negb (bool_decide (Type_ msg = TypeRegister)) && negb (bool_decide (Type_ msg = TypeQuery))
      then Reading static
      else if bool_decide (Type_ msg = TypeQuery) then Querying static
      else
        match validateRegistration msg with
        | Some e => Replying static (errorMessage e)
        | None =>
            if negb (bool_decide (EncodeToString static = PubKey msg))
            then Replying static
                   (errorMessage "pubkey does not match the authenticated control identity")
            else Registering static msg
        end
  end.

Definition peerInfo (r : Registration) : PeerInfo :=
  MkPeerInfo (r_ID r) (r_PubKey r) (r_Endpoints r).

Section Coordinator.
Context {L : NoiseLib} `{Json} `{RangeOrder}.
Implicit Types s : Server L.

(** The peers of the registry, in the order the range over the map gives. *)
Definition peers_of (now : Time) s : list PeerInfo :=
  map peerInfo (ranged now (map_to_list (registrations s)).*2).

(** ** Critical sections *)

(** [cleanupConn], the closing of the socket included. *)
Definition cleanupConn (c : conn) s : Server L :=
  let regs :=
    match clients s !! c with
    | Some id =>
        if bool_decide (id = ""%string) then registrations s
        else match registrations s !! id with
             | Some reg =>
                 if bool_decide (Owner reg = c) then delete id (registrations s)
                 else registrations s
             | None => registrations s
             end
    | None => registrations s
    end in
  s <| registrations := regs |> <| clients := delete c (clients s) |>
    <| ctrlConns := ctrlConns s ∖ {[c]} |> <| sockets := {[c]} ∪ sockets s |>.

Definition evict (c : conn) s : Server L := cleanupConn c s.

(** An ID is bound to the key it first registered with. *)
Definition key_taken (msg : Message) (cur : option Registration) : bool :=
  match cur with
  | Some cur => negb (bool_decide (r_PubKey cur = ""%string)) &&
                negb (bool_decide (r_PubKey cur = PubKey msg))
  | None => false
  end.

(** The registration's critical section: the refusal to answer, or the new state and the
    peer list to broadcast. *)
Definition register (now : Time) (c : conn) (msg : Message) s : string + (Server L * Message) :=
  let cur := registrations s !! ID msg in
  if key_taken msg cur
  then inl "id already registered with a different key"%string
  else if bool_decide (cur = None) && (Z.of_nat (size (registrations s)) >=? maxRegistrations)
  then inl "registry full"%string
  else
    let reg := MkRegistration (ID msg) (PubKey msg) (Endpoints msg) c in
    let s := s <| registrations := <[ID msg := reg]> (registrations s) |>
               <| clients := <[c := ID msg]> (clients s) |>
               <| totalRegs := i64 (totalRegs s + 1) |> in
    inr (s, peerMessage TypePeerList (peers_of now s)).

Definition registrySnapshot (now : Time) s : Message :=
  MkMessage TypeQueryResult "" "" None (Some (peers_of now s)) ""
    (Z.of_nat (size (registrations s))) (totalRegs s) (Z.quot (Sub now (started s)) Second).

(** ** Writes *)

(** [ctrl.WriteMsg(line)] on the session of [d]. A closed socket refuses it. *)
Definition write (d : conn) (line : list byte) (wrote : bool) s : bool * Server L :=
  match sessions s !! d with
  | None => (false, s)                           (* not reached *)
  | Some k =>
      let '(r, _, k) := WriteMsg k line (wrote && negb (bool_decide (d ∈ sockets s))) in
      (is_ok r, s <| sessions := <[d := k]> (sessions s) |>)
  end.

Definition goto (c : conn) (p : pc) s : Server L := s <| handlers := <[c := p]> (handlers s) |>.

(** The first part of [broadcast]: nothing to send, or the line and the sessions it goes
    to. *)
Definition broadcast (now : Time) (static : list byte) (m : Message) s : pc :=
  match EncodeLine m with
  | Err _ => Checking static
  | Ok line =>
      if len line >? maxControlLineLen then Checking static
      else Sending static line (ranged now (elements (ctrlConns s)))
  end.

(** The first part of [writeMsg]. *)
Definition writeMsg (c : conn) (static : list byte) (m : Message) s : pc :=
  match EncodeLine m with
  | Err _ => Reading static
  | Ok line => if bool_decide (c ∈ ctrlConns s) then Writing static line else Reading static
  end.

(** ** Steps *)

(** What the environment decides for a step: whether a read fails (a deadline, the peer,
    a closed socket), whether a write succeeds, the handshake's randomness, and whether
    the context is done. *)
Record input := MkInput { fails : bool; wrote : bool; entropy : list byte; ctx_done : bool }.

(** One step of the handler of [c] ([handleClient] with [broadcast], [writeMsg] and
    [evict]). *)
Definition handleClient (now : Time) (i : input) (c : conn) s : Server L :=
  match handlers s !! c with
  | None | Some Done => s
  | Some (Tracking r) => goto c (Handshaking r) (s <| clients := <[c := ""%string]> (clients s) |>)
  | Some (Handshaking r) =>
      if fails i then goto c Leaving s
      else match Accept now (kp s) (entropy i) (wrote i) r with
           | (_, Err _) => goto c Leaving s
           | (_, Ok (static, k)) =>
               goto c (Authenticated static) (s <| sessions := <[c := k]> (sessions s) |>)
           end
  | Some (Authenticated static) =>
      goto c (Reading static) (s <| ctrlConns := {[c]} ∪ ctrlConns s |>)
  | Some (Reading static) =>
      if fails i then goto c Leaving s
      else match sessions s !! c with
           | None => goto c Leaving s             (* not reached *)
           | Some k =>
               let '(r, k) := ReadMsg k in
               let s := s <| sessions := <[c := k]> (sessions s) |> in
               match r with
               | Err _ => goto c Leaving s
               | Ok plain => goto c (dispatch static plain) s
               end
           end
  | Some (Querying static) => goto c (Replying static (registrySnapshot now s)) s
  | Some (Registering static msg) =>
      match register now c msg s with
      | inl e => goto c (Replying static (errorMessage e)) s
      | inr (s, m) => goto c (Broadcasting static m) s
      end
  | Some (Replying static m) => goto c (writeMsg c static m s) s
  | Some (Writing static line) => goto c (Reading static) (write c line (wrote i) s).2
  | Some (Broadcasting static m) => goto c (broadcast now static m s) s
  | Some (Sending static line []) => goto c (Checking static) s
  | Some (Sending static line (d :: ds)) =>
      let '(ok, s) := write d line (wrote i) s in
      if ok then goto c (Sending static line ds) s else goto c (Evicting static line d ds) s
  | Some (Evicting static line d ds) => goto c (Sending static line ds) (evict d s)
  | Some (Checking static) => goto c (if ctx_done i then Leaving else Reading static) s
  | Some Leaving => goto c Done (cleanupConn c s)
  end.

(** [serveControl]: a connection accepted, with the stream it will carry. *)
Definition serveControl (c : conn) (r : reader) s : Server L :=
  if stopped s then s
  else match handlers s !! c with
       | Some _ => s                     (* not a new connection *)
       | None => goto c (Tracking r) s
       end.

(** [Close]: idempotent; closes the sockets of the tracked connections. *)
Definition Close s : Server L :=
  if stopped s then s
  else s <| stopped := true |> <| sockets := dom (clients s) ∪ sockets s |>.

(** [serveSTUN] on one datagram: what it answers to the sender. *)
Definition serveSTUN (pkt : list byte) (src : UDPAddr) : option (list byte) :=
  match HandleBindingRequest pkt (Some src) with
  | Ok resp => Some resp
  | Err _ => None
  end.

Inductive event :=
| EvAccept (c : conn) (r : reader)
| EvClient (now : Time) (i : input) (c : conn)
| EvClose.

Definition step s (e : event) : Server L :=
  match e with
  | EvAccept c r => serveControl c r s
  | EvClient now i c => handleClient now i c s
  | EvClose => Close s
  end.

Definition run s (es : list event) : Server L := fold_left step es s.

(** [New]: the outcomes of loading the key and of binding the two sockets are inputs. *)
Inductive new_err := KeyfileRequired | KeyfileError | ListenControl | ListenSTUN.

Definition New (now : Time) (load : string -> option Keypair) (ctrl_ok stun_ok : string -> bool)
    (cfg : Config) : res new_err (Server L) :=
  if bool_decide (Keyfile cfg = ""%string) then Err KeyfileRequired
  else match load (Keyfile cfg) with
       | None => Err KeyfileError
       | Some kp =>
           if negb (ctrl_ok (CtrlAddr cfg)) then Err ListenControl
           else if negb (stun_ok (StunAddr cfg)) then Err ListenSTUN
           else Ok (MkServer _ kp ∅ ∅ ∅ 0 now false ∅ ∅ ∅)
       end.

(** [PublicKeyHex]. *)
Definition PublicKeyHex s : string := PublicHex (kp s).
End Coordinator.
