(* ===== verification/CoordinatorSafety.v ===== *)
(** * What the coordinator guarantees (src/internal/coordinator/coordinator.go)

    The invariant of the coordinator's state and its consequences for every
    interleaving: who is in the registry, who can change an entry, when entries go, and
    what a broadcast tells the agents. *)

From S2P Require Import Prelude GoBytes GoRuntime NoiseLib Noisework Control Protocol Coordinator.

(** A registration within the server's bounds. *)
Record valid (id : string) (eps : slice string) : Prop := {
  valid_id : 0 < slen id <= maxIDLen;
  valid_count : len (elems eps) <= maxEndpointsPerPeer;
  valid_eps : Forall (fun ep => slen ep <= maxEndpointLen) (elems eps)
}.

Lemma validateRegistration_None msg :
  validateRegistration msg = None -> valid (ID msg) (Endpoints msg).
Proof.
  unfold validateRegistration. intros Hv. case_bool_decide as Hid; [done|].
  repeat destr_in Hv; zbool; try done. split; [|lia|].
  - pose proof (slen_nonneg (ID msg)).
    destruct (Z.eq_dec (slen (ID msg)) 0) as [E|]; [by apply slen_zero in E|lia].
  - apply Forall_forall. intros ep Hin. apply Z.nlt_ge. intros Hlt.
    assert (Hc : existsb (fun ep => slen ep >? maxEndpointLen) (elems (Endpoints msg)) = true).
    { apply existsb_exists. exists ep. split; [done|]. apply Z.gtb_lt. lia. }
    congruence.
Qed.

Lemma validateRegistration_valid msg e :
  validateRegistration msg = Some e -> ~ valid (ID msg) (Endpoints msg).
Proof.
  unfold validateRegistration. intros Hv [V1 V2 V3].
  rewrite bool_decide_eq_false_2 in Hv by (intros E; rewrite E in V1; by destruct V1).
  destruct (_ >? maxIDLen) eqn:E1; zbool; [lia|].
  destruct (_ >? maxEndpointsPerPeer) eqn:E2; zbool; [lia|].
  destruct (existsb _ _) eqn:E3; [|done]. apply existsb_exists in E3 as (ep & Hin & E3%Z.gtb_lt).
  apply (proj1 (List.Forall_forall _ _) V3) in Hin. lia.
Qed.

Section Safety.
Context {L : NoiseLib} `{Json} `{RangeOrder}.
Implicit Types s : Server L.

(** The static key the handshake of a connection authenticated. *)
Definition auth_key s (c : conn) : option (list byte) :=
  (fun k => PeerStatic (sess k)) <$> sessions s !! c.

(** What holds of a handler at each of its positions. *)
Definition pc_ok s (c : conn) (p : pc) : Prop :=
  match p with
  | Tracking _ => auth_key s c = None /\ clients s !! c = None /\ c ∉ ctrlConns s
  | Handshaking _ => auth_key s c = None /\ c ∉ ctrlConns s
  | Authenticated st => auth_key s c = Some st /\ c ∉ ctrlConns s
  | Registering st msg =>
      auth_key s c = Some st /\ valid (ID msg) (Endpoints msg) /\ PubKey msg = EncodeToString st
  | Reading st | Querying st | Replying st _ | Writing st _ | Broadcasting st _
  | Sending st _ _ | Evicting st _ _ _ | Checking st => auth_key s c = Some st
  | Leaving => True
  | Done => clients s !! c = None /\ c ∉ ctrlConns s
  end.

Definition reg_ok s (id : string) (r : Registration) : Prop :=
  r_ID r = id /\ valid id (r_Endpoints r) /\
  exists st, auth_key s (Owner r) = Some st /\ r_PubKey r = EncodeToString st.

Record Inv s : Prop := {
  inv_size : Z.of_nat (size (registrations s)) <= maxRegistrations;
  inv_reg id r : registrations s !! id = Some r -> reg_ok s id r;
  inv_pc c p : handlers s !! c = Some p -> pc_ok s c p;
  inv_new c : handlers s !! c = None ->
    auth_key s c = None /\ clients s !! c = None /\ c ∉ ctrlConns s
}.

(** ** The keys of the connections never change *)

Lemma Encrypt_static (x : Session L) p : peerStatic (Encrypt x p).2 = peerStatic x.
Proof.
  unfold Encrypt, Noisework.Send. destruct (send x); [|done]. destruct (_ >? _); [done|].
  destruct (rekeySendTo _ _ _) as [[[] ?] ?]; cbn [negb]; [|done].
  destruct (CS_Encrypt _ _) as [[]]; done.
Qed.

Lemma Decrypt_static (x : Session L) ct : peerStatic (Decrypt x ct).2 = peerStatic x.
Proof. unfold Decrypt, DecryptAt. repeat (destr; cbn [fst snd]); simplify_eq/=; done. Qed.

Lemma WriteMsg_static (k : Conn L) line w : PeerStatic (sess (WriteMsg k line w).2) = PeerStatic (sess k).
Proof.
  unfold WriteMsg. pose proof (Encrypt_static (sess k) line) as E.
  destruct (Encrypt (sess k) line) as [[] ?]; exact E.
Qed.

Lemma ReadMsg_static (k : Conn L) : PeerStatic (sess (ReadMsg k).2) = PeerStatic (sess k).
Proof.
  unfold ReadMsg. destruct (ReadFull 4 (br k)) as [[hdr|] r]; [|done].
  destruct (_ || _); [done|]. destruct (ReadFull _ r) as [[buf|] r']; [|done].
  pose proof (Decrypt_static (sess k) buf) as E. destruct (Decrypt (sess k) buf) as [[] ?]; exact E.
Qed.

Lemma Accept_static now kp entropy w r out st (k : Conn L) :
  Accept now kp entropy w r = (out, Ok (st, k)) -> PeerStatic (sess k) = st.
Proof.
  unfold Accept. intros E. repeat (destr_in E; try done). by injection E as _ <- <-.
Qed.

(** ** Frames: what a step of one handler leaves alone *)

Record Fr (c : conn) s s' : Prop := {
  fr_auth_other d : d <> c -> auth_key s' d = auth_key s d;
  fr_auth st : auth_key s c = Some st -> auth_key s' c = Some st;
  fr_clients d : d <> c -> clients s !! d = None -> clients s' !! d = None;
  fr_ctrl d : d <> c -> d ∉ ctrlConns s -> d ∉ ctrlConns s';
  fr_handlers : handlers s' = handlers s
}.

Lemma Fr_auth c s s' d st : Fr c s s' -> auth_key s d = Some st -> auth_key s' d = Some st.
Proof. intros F E. destruct (decide (d = c)) as [->|]; [by eapply fr_auth|by rewrite (fr_auth_other _ _ _ F)]. Qed.

Lemma Fr_pc c s s' d p : Fr c s s' -> d <> c -> pc_ok s d p -> pc_ok s' d p.
Proof.
  intros F Hne. pose proof (fr_auth_other _ _ _ F d Hne) as Ha.
  pose proof (fr_clients _ _ _ F d Hne). pose proof (fr_ctrl _ _ _ F d Hne).
  destruct p; cbn; rewrite ?Ha; intuition.
Qed.

Lemma Fr_reg c s s' id r : Fr c s s' -> reg_ok s id r -> reg_ok s' id r.
Proof. intros F (E1 & E2 & st & E3 & E4). split_and!; try done. exists st. split; [by eapply Fr_auth|done]. Qed.

(** A handler's step, from what it did to the state and where it went. *)
Lemma goto_inv c p0 p s s' :
  Inv s -> Fr c s s' -> handlers s !! c = Some p0 -> pc_ok s' c p ->
  Z.of_nat (size (registrations s')) <= maxRegistrations ->
  (forall id r, registrations s' !! id = Some r -> reg_ok s' id r) ->
  Inv (goto c p s').
Proof.
  intros I F Hc Hp Hsz Hreg. constructor; [done|done|..].
  - intros d q Hd. cbn in Hd. rewrite (fr_handlers _ _ _ F) in Hd.
    apply lookup_insert_Some in Hd as [[<- <-]|[Hne Hd]]; [done|].
    apply (Fr_pc c s s' d q F); [done|]. by apply (inv_pc _ I).
  - intros d Hd. cbn in Hd. rewrite (fr_handlers _ _ _ F) in Hd.
    apply lookup_insert_None in Hd as [Hd Hne]. destruct (inv_new _ I d Hd) as (E1 & E2 & E3).
    change (auth_key s' d = None /\ clients s' !! d = None /\ d ∉ ctrlConns s').
    rewrite (fr_auth_other _ _ _ F) by done. split_and!; [done|..].
    + by apply (fr_clients _ _ _ F).
    + by apply (fr_ctrl _ _ _ F).
Qed.

Lemma goto_inv_same c p0 p s s' :
  Inv s -> Fr c s s' -> handlers s !! c = Some p0 -> pc_ok s' c p ->
  registrations s' = registrations s -> Inv (goto c p s').
Proof.
  intros I F Hc Hp E. eapply goto_inv; try done.
  - rewrite E. apply I.
  - intros id r. rewrite E. intros Hr. apply (Fr_reg c s s'); [done|]. by apply (inv_reg _ I).
Qed.

Lemma Fr_refl c s : Fr c s s.
Proof. by constructor. Qed.

Lemma auth_key_insert s (d : conn) (k0 k : Conn L) :
  sessions s !! d = Some k0 -> PeerStatic (sess k) = PeerStatic (sess k0) ->
  forall e, auth_key (s <| sessions := <[d := k]> (sessions s) |>) e = auth_key s e.
Proof.
  intros E Ek e. unfold auth_key. cbn. destruct (decide (e = d)) as [->|Hne].
  - by rewrite lookup_insert_eq, E; cbn; rewrite Ek.
  - by rewrite lookup_insert_ne.
Qed.

Lemma Fr_sessions c d s (k0 k : Conn L) :
  sessions s !! d = Some k0 -> PeerStatic (sess k) = PeerStatic (sess k0) ->
  Fr c s (s <| sessions := <[d := k]> (sessions s) |>).
Proof.
  intros E Ek. pose proof (auth_key_insert s d k0 k E Ek) as Ha.
  constructor; cbn; intros; try done; by rewrite ?Ha.
Qed.

Lemma write_Fr c d line w s : Fr c s (write d line w s).2.
Proof.
  unfold write. destruct (sessions s !! d) as [k0|] eqn:E; [|apply Fr_refl].
  destruct (WriteMsg _ _ _) as [[r b] k] eqn:EW. cbn [snd]. apply (Fr_sessions c d s k0); [done|].
  rewrite <- (WriteMsg_static k0 line (w && negb (bool_decide (d ∈ sockets s)))). by rewrite EW.
Qed.

Lemma write_regs d line w s : registrations (write d line w s).2 = registrations s.
Proof. unfold write. repeat (destr; cbn [snd]); done. Qed.

Lemma auth_write d line w s e : auth_key (write d line w s).2 e = auth_key s e.
Proof.
  destruct (write_Fr (S e) d line w s) as [Ha _ _ _ _]. apply Ha. lia.
Qed.

(** ** [cleanupConn] *)

Lemma cleanup_auth d s e : auth_key (cleanupConn d s) e = auth_key s e.
Proof. done. Qed.

Lemma cleanup_Fr c d s : Fr c s (cleanupConn d s).
Proof.
  constructor; try done; cbn; intros e Hne He.
  - apply lookup_delete_None. by right.
  - set_solver.
Qed.

Lemma cleanup_lookup d s id :
  registrations (cleanupConn d s) !! id = registrations s !! id \/
  (registrations (cleanupConn d s) !! id = None /\ clients s !! d = Some id /\
   exists r, registrations s !! id = Some r /\ Owner r = d).
Proof.
  cbn. destruct (clients s !! d) as [id'|] eqn:E; [|by left]. case_bool_decide; [by left|].
  destruct (registrations s !! id') as [reg|] eqn:E2; [|by left]. case_bool_decide; [|by left].
  destruct (decide (id = id')) as [->|Hne].
  - right. rewrite lookup_delete_eq. split_and!; [done|done|by exists reg].
  - left. by rewrite lookup_delete_ne.
Qed.

Lemma cleanup_sub d s : registrations (cleanupConn d s) ⊆ registrations s.
Proof.
  apply map_subseteq_spec. intros id r Hr. destruct (cleanup_lookup d s id) as [E|(E & _)]; congruence.
Qed.

Lemma cleanup_size d s : (size (registrations (cleanupConn d s)) <= size (registrations s))%nat.
Proof. apply map_subseteq_size, cleanup_sub. Qed.

Lemma cleanup_inv c p0 p d s :
  Inv s -> handlers s !! c = Some p0 -> pc_ok (cleanupConn d s) c p ->
  Inv (goto c p (cleanupConn d s)).
Proof.
  intros I Hc Hp. apply (goto_inv c p0 p s); try done.
  - apply cleanup_Fr.
  - pose proof (cleanup_size d s). pose proof (inv_size _ I). lia.
  - intros id r Hr. apply (Fr_reg c s); [apply cleanup_Fr|]. apply (inv_reg _ I).
    by apply (lookup_weaken _ _ _ _ Hr), cleanup_sub.
Qed.

(** ** The registration *)

Lemma register_inr now c msg s s' m :
  register now c msg s = inr (s', m) ->
  let reg := MkRegistration (ID msg) (PubKey msg) (Endpoints msg) c in
  s' = s <| registrations := <[ID msg := reg]> (registrations s) |>
         <| clients := <[c := ID msg]> (clients s) |>
         <| totalRegs := i64 (totalRegs s + 1) |> /\
  m = peerMessage TypePeerList (peers_of now s') /\
  (forall cur, registrations s !! ID msg = Some cur ->
     r_PubKey cur = ""%string \/ r_PubKey cur = PubKey msg) /\
  (registrations s !! ID msg = None -> Z.of_nat (size (registrations s)) < maxRegistrations).
Proof.
  unfold register. intros E. destruct (key_taken _ _) eqn:E1; [done|].
  destruct (bool_decide (_ = None) && _) eqn:E2; [done|]. injection E as <- <-. split_and!; try done.
  - intros cur Hcur. rewrite Hcur in E1. cbn in E1. apply andb_false_iff in E1 as [E1|E1]; zbool; auto.
  - intros Hn. rewrite Hn, bool_decide_eq_true_2 in E2 by done. cbn [andb] in E2. zbool. lia.
Qed.

Lemma register_inv now c st msg s s' m p0 p :
  Inv s -> handlers s !! c = Some p0 -> pc_ok s c (Registering st msg) ->
  register now c msg s = inr (s', m) ->
  (forall s'', auth_key s'' c = Some st -> pc_ok s'' c p) -> Inv (goto c p s').
Proof.
  intros I Hc (Hst & Hv & Hk) E Hp. apply register_inr in E as (-> & _ & _ & Hsz).
  apply (goto_inv c p0 p s); try done.
  - constructor; try done. cbn. intros d Hne Hd. by rewrite lookup_insert_ne.
  - by apply Hp.
  - cbn. destruct (registrations s !! ID msg) eqn:E.
    + rewrite map_size_insert_Some by eauto. apply I.
    + rewrite map_size_insert_None by done. specialize (Hsz eq_refl). lia.
  - cbn. intros id r Hr. apply lookup_insert_Some in Hr as [[<- <-]|[Hne Hr]].
    + split_and!; [done|done|]. by exists st.
    + by apply (inv_reg _ I).
Qed.

(** ** Every step *)

Lemma dispatch_ok s c st plain : auth_key s c = Some st -> pc_ok s c (dispatch st plain).
Proof.
  intros Ha. unfold dispatch. destruct (DecodeLine plain) as [msg|]; [|done].
  destruct (_ && _); [done|]. case_bool_decide; [done|].
  destruct (validateRegistration msg) eqn:Ev; [done|].
  destruct (bool_decide (EncodeToString st = PubKey msg)) eqn:Ek; zbool; cbn [negb]; [|done].
  split_and!; [done| |done]. by apply validateRegistration_None.
Qed.

Lemma Inv_goto_pc c p0 p s : Inv s -> handlers s !! c = Some p0 -> pc_ok s c p -> Inv (goto c p s).
Proof. intros I Hc Hp. by apply (goto_inv_same c p0 p s s). Qed.

Lemma Inv_leave c p0 s s' :
  Inv s -> handlers s !! c = Some p0 -> Fr c s s' -> registrations s' = registrations s ->
  Inv (goto c Leaving s').
Proof. intros. by eapply goto_inv_same. Qed.

Lemma handleClient_inv now i c s : Inv s -> Inv (handleClient now i c s).
Proof.
  intros I. unfold handleClient. destruct (handlers s !! c) as [p|] eqn:Hc; [|done].
  pose proof (inv_pc _ I c p Hc) as Hp. destruct p; cbn [pc_ok] in Hp.
  - apply (goto_inv_same _ _ _ s _ I) with (2 := Hc); try done; [|by cbn; intuition].
    constructor; try done. cbn. intros d Hne Hd. by rewrite lookup_insert_ne.
  - destruct (fails i); [exact (Inv_leave _ _ s s I Hc (Fr_refl c s) eq_refl)|].
    destruct (Accept _ _ _ _ _) as [out [[st k]|e]] eqn:EA;
      [|exact (Inv_leave _ _ s s I Hc (Fr_refl c s) eq_refl)].
    apply Accept_static in EA. destruct Hp as [Ha Hn].
    apply (goto_inv_same _ _ _ s _ I) with (2 := Hc); try done.
    + constructor; try done; cbn.
      * intros d Hne. unfold auth_key. cbn. by rewrite lookup_insert_ne.
      * congruence.
    + split; [|done]. unfold auth_key. cbn. rewrite lookup_insert_eq. cbn. by rewrite EA.
  - apply (goto_inv_same _ _ _ s _ I) with (2 := Hc); try done; [|by apply Hp].
    constructor; try done. cbn. set_solver.
  - destruct (fails i); [exact (Inv_leave _ _ s s I Hc (Fr_refl c s) eq_refl)|].
    destruct (sessions s !! c) as [k0|] eqn:Ek; [|exact (Inv_leave _ _ s s I Hc (Fr_refl c s) eq_refl)].
    pose proof (ReadMsg_static k0) as Er. destruct (ReadMsg k0) as [[plain|e] k]; cbn [snd] in Er.
    + apply (goto_inv_same _ _ _ s _ I) with (2 := Hc); try done; [by eapply Fr_sessions|].
      apply dispatch_ok. by rewrite (auth_key_insert s c k0 k).
    + apply (Inv_leave _ _ s _ I Hc); [by eapply Fr_sessions|done].
  - by apply (Inv_goto_pc _ _ _ s I Hc).
  - destruct (register now c msg s) as [e|[s' m]] eqn:Er.
    + by apply (Inv_goto_pc _ _ _ s I Hc), Hp.
    + by eapply register_inv.
  - apply (Inv_goto_pc _ _ _ s I Hc). unfold writeMsg. cbn. by case_bool_decide.
  - apply (goto_inv_same _ _ _ s _ I) with (2 := Hc); [apply write_Fr| |apply write_regs].
    cbn. by rewrite auth_write.
  - apply (Inv_goto_pc _ _ _ s I Hc). unfold broadcast. cbn. by destruct (_ >? _).
  - destruct conns as [|d ds]; [by apply (Inv_goto_pc _ _ _ s I Hc)|].
    pose proof (write_Fr c d line (wrote i) s) as F. pose proof (write_regs d line (wrote i) s) as R.
    pose proof (auth_write d line (wrote i) s c) as A.
    destruct (write d line (wrote i) s) as [ok s']. cbn [snd] in *.
    destruct ok; apply (goto_inv_same _ _ _ s _ I) with (2 := Hc); try done; cbn; by rewrite A.
  - by apply (cleanup_inv _ _ _ _ _ I Hc).
  - apply (Inv_goto_pc _ _ _ s I Hc). by destruct (ctx_done i).
  - apply (cleanup_inv _ _ _ _ _ I Hc). cbn. split; [apply lookup_delete_eq|set_solver].
  - done.
Qed.

Lemma step_inv s e : Inv s -> Inv (step s e).
Proof.
  intros I. destruct e as [c r|now i c|]; cbn [step].
  - unfold serveControl. destruct (stopped s); [done|]. destruct (handlers s !! c) eqn:E; [done|].
    destruct (inv_new _ I c E) as (E1 & E2 & E3). constructor.
    + apply I.
    + apply I.
    + intros d p Hd. cbn in Hd. apply lookup_insert_Some in Hd as [[<- <-]|[Hne Hd]]; [done|].
      by apply (inv_pc _ I).
    + intros d Hd. cbn in Hd. apply lookup_insert_None in Hd as [Hd Hne]. by apply (inv_new _ I).
  - by apply handleClient_inv.
  - unfold Close. destruct (stopped s); [done|]. destruct I. by constructor.
Qed.

Lemma run_inv s es : Inv s -> Inv (run s es).
Proof. revert s. induction es as [|e es IH]; intros s I; [done|]. apply IH, step_inv, I. Qed.

Lemma New_inv now load c_ok s_ok cfg s : New now load c_ok s_ok cfg = Ok s -> Inv s.
Proof.
  unfold New. intros E. repeat (destr_in E; try done). apply Ok_inj in E as <-.
  constructor; cbn; try done.
Qed.
End Safety.

(** ** Consequences *)

Section Consequences.
Context {L : NoiseLib} `{Json} `{RangeOrder}.
Implicit Types s : Server L.

(** [C12] The registry, in every state any interleaving leads to: at most 512 entries;
    every entry is stored under its own ID, within the bounds on IDs and endpoints, and
    its public key is the static key that the Noise handshake of the connection owning
    it authenticated. *)
Theorem registry_safe (now : Time) (load : string -> option Keypair)
    (ctrl_ok stun_ok : string -> bool) (cfg : Config) (s0 : Server L) (es : list event)
    (Hnew : New now load ctrl_ok stun_ok cfg = Ok s0) :
  let s := run s0 es in
  Z.of_nat (size (registrations s)) <= 512 /\
  forall id r, registrations s !! id = Some r ->
    r_ID r = id /\ 0 < slen id <= 64 /\ len (elems (r_Endpoints r)) <= 2 /\
    Forall (fun ep => slen ep <= 255) (elems (r_Endpoints r)) /\
    exists k, sessions s !! Owner r = Some k /\ r_PubKey r = EncodeToString (PeerStatic (sess k)).
Proof.
  intros s. assert (I : Inv s) by (apply run_inv; by eapply New_inv). split; [apply I|].
  intros id r Hr. destruct (inv_reg _ I id r Hr) as (E & [V1 V2 V3] & st & Ha & Hk).
  split_and!; [done|apply V1|apply V1|done|done|]. unfold auth_key in Ha.
  destruct (sessions s !! Owner r) as [k|]; [|done]. injection Ha as <-. by exists k.
Qed.

(** The connection a step cleans up: the one of a handler that returns, or the one a
    broadcaster evicts. *)
Definition cleans s (e : event) : option conn :=
  match e with
  | EvClient now i c =>
      match handlers s !! c with
      | Some Leaving => Some c
      | Some (Evicting _ _ d _) => Some d
      | _ => None
      end
  | _ => None
  end.

(** The ID a step tries to register. *)
Definition registers s (e : event) : option string :=
  match e with
  | EvClient now i c =>
      match handlers s !! c with Some (Registering _ msg) => Some (ID msg) | _ => None end
  | _ => None
  end.

(** What a step does to an entry of the registry. *)
Lemma step_registrations s e :
  registrations (step s e) = registrations s \/
  (exists now i c st msg, e = EvClient now i c /\ handlers s !! c = Some (Registering st msg) /\
     clients (step s e) = <[c := ID msg]> (clients s) /\
     registrations (step s e)
     = <[ID msg := MkRegistration (ID msg) (PubKey msg) (Endpoints msg) c]> (registrations s) /\
     forall cur, registrations s !! ID msg = Some cur ->
       r_PubKey cur = ""%string \/ r_PubKey cur = PubKey msg) \/
  (exists d, cleans s e = Some d /\ registrations (step s e) = registrations (cleanupConn d s)).
Proof.
  destruct e as [c r|now i c|]; cbn [step cleans].
  - left. unfold serveControl. repeat destr; done.
  - unfold handleClient. destruct (handlers s !! c) as [p|] eqn:Hc; [|by left].
    destruct p; try by left.
    + left. repeat destr; done.
    + left. repeat destr; done.
    + destruct (register now c msg s) as [|[s' m]] eqn:E; [by left|]. right. left.
      apply register_inr in E as (-> & _ & E & _). by exists now, i, c, static, msg.
    + left. cbn. apply write_regs.
    + left. destruct conns as [|d ds]; [done|]. pose proof (write_regs d line (wrote i) s) as R.
      destruct (write d line (wrote i) s) as [ok s']. by destruct ok.
    + right. right. by exists d.
    + right. right. by exists c.
  - left. unfold Close. by destruct (stopped s).
Qed.

Lemma step_holds s e id r :
  registrations s !! id = Some r -> r_PubKey r <> ""%string ->
  (exists r', registrations (step s e) !! id = Some r' /\ r_PubKey r' = r_PubKey r) \/
  cleans s e = Some (Owner r).
Proof.
  intros Hr Hk. destruct (step_registrations s e) as [->|[H1|(d & Hd & ->)]]; [by left; exists r| |].
  - destruct H1 as (now & i & c & st & msg & -> & Hc & _ & -> & Hcur). left.
    destruct (decide (id = ID msg)) as [->|Hne].
    + rewrite lookup_insert_eq. destruct (Hcur r Hr) as [|E]; [done|]. by eexists.
    + rewrite lookup_insert_ne by done. by exists r.
  - destruct (cleanup_lookup d s id) as [->|(_ & _ & r' & Hr' & <-)]; [by left; exists r|].
    right. rewrite Hd. congruence.
Qed.

(** [C13] Names are not stolen: once an ID is registered under a key, then in every
    continuation it stays registered under that key, unless the connection that owns it
    at that time (one authenticated with the key) is cleaned up. *)
Theorem name_held (s : Server L) (es : list event) (id : string) (r : Registration)
    (Hr : registrations s !! id = Some r) (Hk : r_PubKey r <> ""%string) :
  (exists r', registrations (run s es) !! id = Some r' /\ r_PubKey r' = r_PubKey r) \/
  (exists es1 e es2 r', es = es1 ++ e :: es2 /\ registrations (run s es1) !! id = Some r' /\
     r_PubKey r' = r_PubKey r /\ cleans (run s es1) e = Some (Owner r')).
Proof.
  revert s r Hr Hk. induction es as [|e es IH]; intros s r Hr Hk; [by left; exists r|].
  destruct (step_holds s e id r Hr Hk) as [(r1 & Hr1 & E1)|Hc].
  - destruct (IH (step s e) r1 Hr1) as [(r2 & Hr2 & E2)|(es1 & e' & es2 & r2 & -> & H2 & E2 & H3)].
    + by rewrite E1.
    + left. exists r2. split; [done|congruence].
    + right. exists (e :: es1), e', es2, r2. split_and!; try done. congruence.
  - right. exists [], e, es, r. done.
Qed.

(** ** Entries and the connections that made them *)

Lemma step_clients s e d :
  clients (step s e) !! d = clients s !! d \/
  (exists now i st msg, e = EvClient now i d /\ handlers s !! d = Some (Registering st msg) /\
     clients (step s e) !! d = Some (ID msg)) \/
  cleans s e = Some d \/
  (exists now i r, e = EvClient now i d /\ handlers s !! d = Some (Tracking r)).
Proof.
  destruct e as [c r|now i c|]; cbn [step cleans].
  - left. unfold serveControl. repeat destr; done.
  - unfold handleClient. destruct (handlers s !! c) as [p|] eqn:Hc; [|by left].
    destruct p; try by left.
    + destruct (decide (c = d)) as [->|]; [by right; right; right; eauto|].
      left. cbn. by rewrite lookup_insert_ne.
    + left. repeat destr; done.
    + left. repeat destr; done.
    + destruct (register now c msg s) as [|[s' m]] eqn:E; [by left|].
      apply register_inr in E as (-> & _). cbn.
      destruct (decide (c = d)) as [->|]; [|left; by rewrite lookup_insert_ne].
      right. left. exists now, i, static, msg. by rewrite lookup_insert_eq.
    + left. cbn. unfold write. repeat (destr; cbn [snd]); done.
    + left. destruct conns as [|d' ds]; [done|]. unfold write. repeat (destr; cbn [snd]); done.
    + destruct (decide (d0 = d)) as [->|]; [by right; right; left|].
      left. cbn. by rewrite lookup_delete_ne.
    + destruct (decide (c = d)) as [->|]; [by right; right; left|].
      left. cbn. by rewrite lookup_delete_ne.
  - left. unfold Close. by destruct (stopped s).
Qed.

(** Every entry of the client [c] is under the one name [x] it uses, and is the one
    [cleanupConn] will look for. *)
Definition one_name s (c : conn) (x : string) : Prop :=
  forall id r, registrations s !! id = Some r -> Owner r = c -> id = x /\ clients s !! c = Some x.

(** Along a run, whatever the client registers is called [x]. *)
Fixpoint uses_name (c : conn) (x : string) s (es : list event) : Prop :=
  match es with
  | [] => True
  | e :: es =>
      (forall st msg, handlers s !! c = Some (Registering st msg) -> ID msg = x) /\
      uses_name c x (step s e) es
  end.

Lemma one_name_step s e c x :
  Inv s -> (forall st msg, handlers s !! c = Some (Registering st msg) -> ID msg = x) ->
  one_name s c x -> one_name (step s e) c x.
Proof.
  intros I Hn O id r Hr Hown.
  assert (Hold : registrations s !! id = Some r ->
                 (forall d, cleans s e = Some d ->
                    registrations (step s e) !! id = registrations (cleanupConn d s) !! id) ->
                 id = x /\ clients (step s e) !! c = Some x).
  { intros H0' Hcl. destruct (O id r H0' Hown) as [-> E]. split; [done|].
    destruct (step_clients s e c) as [->|[H1|[Hd|H1]]]; [done|..].
    - destruct H1 as (now & i & st & msg & -> & Hc & ->). by rewrite (Hn st msg Hc).
    - specialize (Hcl c Hd). rewrite Hr in Hcl. exfalso. cbn in Hcl. rewrite E in Hcl.
      destruct (inv_reg _ I x r H0') as (_ & [Hx _ _] & _).
      rewrite bool_decide_eq_false_2, H0', bool_decide_eq_true_2, lookup_delete_eq in Hcl; [done|done|].
      intros ->. change (slen "") with 0 in Hx. lia.
    - destruct H1 as (now & i & rd & -> & Hc). exfalso.
      destruct (inv_pc _ I c _ Hc) as (Ha & _). destruct (inv_reg _ I x r H0') as (_ & _ & st & Hs & _).
      rewrite Hown in Hs. congruence. }
  destruct (step_registrations s e) as [E|[H1|(d & Hd & E)]].
  - rewrite E in Hr. apply Hold; [done|]. intros d Hd. rewrite E.
    destruct (step_clients s e d) as [|[]]; [..|].
    all: destruct e as [| now i c'|]; try done; cbn [cleans] in Hd.
    all: unfold step, handleClient in E; destruct (handlers s !! c') as [[]|]; try done;
      injection Hd as ->; symmetry; exact (f_equal (fun m => m !! id) E).
  - destruct H1 as (now & i & c' & st & msg & -> & Hc & Ecl & Ereg & _). rewrite Ereg in Hr.
    apply lookup_insert_Some in Hr as [[<- <-]|[Hne Hr]].
    + cbn in Hown. subst c'. rewrite Ecl, lookup_insert_eq. by rewrite (Hn st msg Hc).
    + apply Hold; [done|]. cbn [cleans]. by rewrite Hc.
  - rewrite E in Hr. apply Hold.
    + by apply (lookup_weaken _ _ _ _ Hr), cleanup_sub.
    + intros d' Hd'. rewrite Hd in Hd'. injection Hd' as <-. by rewrite E.
Qed.

Lemma one_name_run s es c x :
  Inv s -> uses_name c x s es -> one_name s c x -> one_name (run s es) c x.
Proof.
  revert s. induction es as [|e es IH]; intros s I U O; [done|]. destruct U as [Hn U].
  apply IH; [by apply step_inv|done|by apply one_name_step].
Qed.

(** [C14] A client that registers a single name leaves nothing behind: once its handler
    has returned, however it ended and whatever the other clients did, no registration
    is owned by its connection and it is neither a client nor a broadcast target. *)
Theorem disconnect_releases (now : Time) (load : string -> option Keypair)
    (ctrl_ok stun_ok : string -> bool) (cfg : Config) (s0 : Server L) (es : list event)
    (c : conn) (x : string)
    (Hnew : New now load ctrl_ok stun_ok cfg = Ok s0) (Hone : uses_name c x s0 es)
    (Hdone : handlers (run s0 es) !! c = Some Done) :
  (forall id r, registrations (run s0 es) !! id = Some r -> Owner r <> c) /\
  clients (run s0 es) !! c = None /\ c ∉ ctrlConns (run s0 es).
Proof.
  pose proof (New_inv _ _ _ _ _ _ Hnew) as I0.
  destruct (inv_pc _ (run_inv s0 es I0) c _ Hdone) as [Hcl Hct]. split; [|done].
  assert (O0 : one_name s0 c x).
  { unfold New in Hnew. repeat (destr_in Hnew; try done). by apply Ok_inj in Hnew as <-. }
  intros id r Hr Hown. destruct (one_name_run s0 es c x I0 Hone O0 id r Hr Hown). congruence.
Qed.

(** ** Names left behind *)

Lemma cleans_clients s e d : cleans s e = Some d -> clients (step s e) !! d = None.
Proof.
  destruct e as [c r|now i c|]; cbn [cleans step]; try done. unfold handleClient.
  destruct (handlers s !! c) as [[]|]; try done; intros [= ->]; cbn; apply lookup_delete_eq.
Qed.

(** Along a run, nobody registers the ID. *)
Fixpoint unregistered (id : string) s (es : list event) : Prop :=
  match es with
  | [] => True
  | e :: es => registers s e <> Some id /\ unregistered id (step s e) es
  end.

Lemma moved_on s es id r :
  Inv s -> registrations s !! id = Some r -> clients s !! Owner r <> Some id ->
  unregistered id s es -> registrations (run s es) !! id = Some r.
Proof.
  revert s. induction es as [|e es IH]; intros s I Hr Hcl U; [done|]. destruct U as [Hn U].
  apply IH; [by apply step_inv| | |done].
  - destruct (step_registrations s e) as [->|[H1|(d & Hd & ->)]]; [done|..].
    + destruct H1 as (now & i & c & st & msg & -> & Hc & _ & -> & _).
      cbn [registers] in Hn. rewrite Hc in Hn. rewrite lookup_insert_ne by congruence. done.
    + destruct (cleanup_lookup d s id) as [->|(_ & E & r' & Hr' & <-)]; [done|]. congruence.
  - destruct (step_clients s e (Owner r)) as [->|[H1|[Hd|H1]]]; [done|..].
    + destruct H1 as (now & i & st & msg & -> & Hc & ->). cbn [registers] in Hn.
      rewrite Hc in Hn. congruence.
    + by rewrite (cleans_clients s e _ Hd).
    + destruct H1 as (now & i & rd & -> & Hc). exfalso.
      destruct (inv_pc _ I _ _ Hc) as (Ha & _). destruct (inv_reg _ I id r Hr) as (_ & _ & st & Hs & _).
      congruence.
Qed.

(** A client that registers a second name leaves the first behind: the entry of the
    first stays as it is in every continuation in which nobody registers that ID, those
    included in which the client's handler returns and cleans up. *)
Theorem second_name_leaks (s s' : Server L) (now : Time) (i : input) (c : conn)
    (st : list byte) (msg m : Message) (id : string) (r : Registration) (es : list event)
    (I : Inv s) (Hr : registrations s !! id = Some r) (Hown : Owner r = c)
    (Hc : handlers s !! c = Some (Registering st msg)) (Hne : ID msg <> id)
    (Hok : register now c msg s = inr (s', m))
    (Hes : unregistered id (step s (EvClient now i c)) es) :
  registrations (run (step s (EvClient now i c)) es) !! id = Some r.
Proof.
  assert (E : step s (EvClient now i c) = goto c (Broadcasting st m) s').
  { cbn [step]. unfold handleClient. by rewrite Hc, Hok. }
  apply register_inr in Hok as (Hs' & _).
  apply moved_on; [by apply step_inv| | |done]; rewrite E, Hs'; cbn.
  - by rewrite lookup_insert_ne.
  - rewrite Hown, lookup_insert_eq. congruence.
Qed.

(** ** What the agents are told *)

(** The strings of the registry are ones JSON need not escape, and the keys are 32-byte
    keys in hexadecimal. *)
Definition plain_registry s : Prop :=
  forall id r, registrations s !! id = Some r ->
    plain id = true /\ slen (r_PubKey r) = 64 /\
    Forall (fun ep => plain ep = true) (elems (r_Endpoints r)).

Lemma plain_hex k : plain (EncodeToString k) = true.
Proof.
  unfold plain, EncodeToString. rewrite bytes_string. induction k as [|b k IH]; [done|].
  cbn [hex_encode forallb]. rewrite IH.
  assert (Hd : forall n, 0 <= n < 16 -> plain_byte (hex_digit n) = true).
  { intros n Hn. assert (Hin : n ∈ [0;1;2;3;4;5;6;7;8;9;10;11;12;13;14;15])
      by (rewrite !elem_of_cons; lia).
    repeat (apply elem_of_cons in Hin as [->|Hin]; [by vm_compute|]). by apply not_elem_of_nil in Hin. }
  pose proof (u8_range b). rewrite !Hd; [done| |]; [apply Z.mod_pos_bound; lia|].
  split; [apply Z.div_pos; lia|]. apply Z.div_lt_upper_bound; lia.
Qed.

Lemma peers_of_perm now s : peers_of now s ≡ₚ map peerInfo (map_to_list (registrations s)).*2.
Proof. unfold peers_of. apply Permutation_map, ranged_perm. Qed.

Lemma len_perm {A} (l k : list A) : l ≡ₚ k -> len l = len k.
Proof. intros E. unfold len. by rewrite E. Qed.

Lemma len_peers_of now s : len (peers_of now s) = Z.of_nat (size (registrations s)).
Proof.
  rewrite (len_perm _ _ (peers_of_perm now s)). unfold len.
  by rewrite length_map, length_fmap, <- length_map_to_list.
Qed.

Lemma peers_of_elem now s p :
  p ∈ peers_of now s -> exists id r, registrations s !! id = Some r /\ p = peerInfo r.
Proof.
  rewrite (peers_of_perm now s). intros (r & -> & Hr)%list_elem_of_fmap.
  apply list_elem_of_fmap in Hr as ([id r'] & -> & Hr). apply elem_of_map_to_list in Hr. by exists id, r'.
Qed.

Lemma plain_peer s id r :
  Inv s -> plain_registry s -> registrations s !! id = Some r ->
  len (Marshal_PeerInfo (peerInfo r)) <= 700.
Proof.
  intros I P Hr. destruct (P id r Hr) as (P1 & P2 & P3).
  destruct (inv_reg _ I id r Hr) as (E & [V1 V2 V3] & st & _ & Hk).
  apply Marshal_PeerInfo_plain; cbn; try done.
  - by rewrite E.
  - rewrite Hk. apply plain_hex.
  - by apply Forall_and.
  - rewrite E. apply V1.
Qed.

Lemma peer_list_small now s :
  Inv s -> plain_registry s -> registrations s <> ∅ ->
  len (Marshal (peerMessage TypePeerList (peers_of now s)) ++ [x0a]) <= maxControlLineLen.
Proof.
  intros I P Hne. pose proof (len_peers_of now s) as Hl. pose proof (inv_size _ I) as Hsz.
  rewrite len_app, len_peerMessage.
  2:{ intros E. rewrite E, len_nil in Hl. apply Hne, map_size_empty_inv. lia. }
  pose proof (len_json_array (map Marshal_PeerInfo (peers_of now s))) as HA.
  assert (HT : total_len (map Marshal_PeerInfo (peers_of now s))
               <= 700 * len (map Marshal_PeerInfo (peers_of now s))).
  { apply total_len_le, Forall_map, Forall_forall. intros p Hp%list_elem_of_In.
    apply peers_of_elem in Hp as (id & r & Hr & ->). by eapply plain_peer. }
  assert (Hm : len (map Marshal_PeerInfo (peers_of now s)) = len (peers_of now s))
    by (unfold len; by rewrite length_map).
  rewrite Hm in *. change (len (json_string TypePeerList)) with 11. change (len [x0a]) with 1.
  change maxControlLineLen with 1048576. change maxRegistrations with 512 in Hsz. lia.
Qed.

(** [C15] What a registration does: the entry is stored, and the list then broadcast holds
    every entry of the new registry exactly once, whatever order the map is ranged over
    in; and it goes to every connection that is in [s.ctrlConns] when the broadcast
    begins, as long as the strings in the registry need no JSON escapes. *)
Theorem registration_broadcast (s s' s'' : Server L) (now now' : Time) (c : conn)
    (st : list byte) (msg m : Message)
    (I : Inv s) (Hc : handlers s !! c = Some (Registering st msg))
    (Hok : register now c msg s = inr (s', m)) :
  registrations s' !! ID msg = Some (MkRegistration (ID msg) (EncodeToString st) (Endpoints msg) c) /\
  (exists ps, m = peerMessage TypePeerList ps /\
              ps ≡ₚ map peerInfo (map_to_list (registrations s')).*2) /\
  (plain_registry s' -> exists ds, ds ≡ₚ elements (ctrlConns s'') /\
     broadcast now' st m s'' = Sending st (Marshal m ++ [x0a]) ds).
Proof.
  pose proof (inv_pc _ I c _ Hc) as Hp.
  assert (I' : Inv (goto c (Checking st) s')) by by eapply register_inv.
  destruct Hp as (_ & _ & Hk). apply register_inr in Hok as (Hs' & Hm & _).
  assert (Hl : registrations s' !! ID msg
               = Some (MkRegistration (ID msg) (EncodeToString st) (Endpoints msg) c)).
  { rewrite Hs', <- Hk. cbn. apply lookup_insert_eq. }
  split; [done|]. split; [exists (peers_of now s'); split; [done|apply peers_of_perm]|].
  intros P. exists (ranged now' (elements (ctrlConns s''))). split; [apply ranged_perm|].
  unfold broadcast. cbn [EncodeLine]. rewrite Hm.
  destruct (_ >? maxControlLineLen) eqn:E; [exfalso|done]. zbool.
  assert (Hsm : len (Marshal (peerMessage TypePeerList (peers_of now s')) ++ [x0a]) <= maxControlLineLen).
  { apply (peer_list_small now (goto c (Checking st) s') I'); [exact P|].
    intros He. cbn in He. by rewrite He in Hl. }
  lia.
Qed.

(** The escapes break this: 343 entries whose endpoints are 255 angle brackets each are
    within every bound of the server, and no peer list is sent any more. *)
Theorem peer_list_dropped (s s'' : Server L) (now now' : Time) (st : list byte)
    (Hn : 343 <= Z.of_nat (size (registrations s)))
    (Hep : forall id r, registrations s !! id = Some r ->
       r_Endpoints r = Some [angles 255; angles 255]) :
  (forall id, 0 < slen id <= maxIDLen -> valid id (Some [angles 255; angles 255])) /\
  broadcast now' st (peerMessage TypePeerList (peers_of now s)) s'' = Checking st.
Proof.
  split.
  { intros id Hid. split; [done|done|]. constructor; [|constructor; [|constructor]];
      rewrite slen_angles; done. }
  unfold broadcast. cbn [EncodeLine]. pose proof (len_peers_of now s) as Hl.
  destruct (_ >? maxControlLineLen) eqn:E; [done|exfalso]. zbool. revert E. rewrite len_app, len_peerMessage.
  2:{ intros E'. rewrite E', len_nil in Hl. lia. }
  pose proof (len_json_array (map Marshal_PeerInfo (peers_of now s))) as HA.
  assert (HT : 3064 * len (map Marshal_PeerInfo (peers_of now s))
               <= total_len (map Marshal_PeerInfo (peers_of now s))).
  { apply total_len_ge, Forall_map, Forall_forall. intros p Hp%list_elem_of_In.
    apply peers_of_elem in Hp as (id & r & Hr & ->). unfold peerInfo. rewrite (Hep id r Hr).
    apply Marshal_PeerInfo_angles. }
  assert (Hm : len (map Marshal_PeerInfo (peers_of now s)) = len (peers_of now s))
    by (unfold len; by rewrite length_map).
  rewrite Hm in *. change (len (json_string TypePeerList)) with 11. change (len [x0a]) with 1.
  change maxControlLineLen with 1048576. lia.
Qed.

(** ** A broadcast ends *)

Lemma other_handlers s e c :
  (forall now i, e <> EvClient now i c) -> is_Some (handlers s !! c) ->
  handlers (step s e) !! c = handlers s !! c.
Proof.
  intros Hne [p Hp]. destruct e as [d r|now i d|]; cbn [step].
  - unfold serveControl. destruct (stopped s); [done|]. destruct (handlers s !! d) eqn:E; [done|].
    cbn. apply lookup_insert_ne. congruence.
  - assert (Hd : d <> c) by (intros ->; by eapply Hne). unfold handleClient.
    destruct (handlers s !! d) as [q|] eqn:E; [|done].
    destruct q; try (cbn; by rewrite lookup_insert_ne).
    + repeat destr; cbn; by rewrite lookup_insert_ne.
    + repeat destr; cbn; by rewrite lookup_insert_ne.
    + destruct (register now d msg s) as [|[s' m]] eqn:Er; cbn; rewrite lookup_insert_ne by done; [done|].
      by apply register_inr in Er as (-> & _).
    + unfold write. repeat (destr; cbn [snd]); cbn; by rewrite lookup_insert_ne.
    + destruct conns as [|d' ds]; [cbn; by rewrite lookup_insert_ne|].
      unfold write. repeat (destr; cbn [snd]); simplify_eq; cbn; by rewrite lookup_insert_ne.
    + done.
  - unfold Close. by destruct (stopped s).
Qed.

(** The steps the handler of [c] takes in a run. *)
Definition own (c : conn) (e : event) : bool :=
  match e with EvClient _ _ d => bool_decide (d = c) | _ => false end.
Definition own_steps (c : conn) (es : list event) : nat := length (List.filter (own c) es).

(** The steps a broadcast has left, at most: a write and an eviction for each target. *)
Definition steps_left (p : pc) : option nat :=
  match p with
  | Sending _ _ ds => Some (2 * length ds + 1)%nat
  | Evicting _ _ _ ds => Some (2 * length ds + 2)%nat
  | _ => None
  end.
Definition static_of (p : pc) : list byte :=
  match p with Sending st _ _ | Evicting st _ _ _ => st | _ => [] end.

Lemma broadcast_step s now i c p n :
  handlers s !! c = Some p -> steps_left p = Some n ->
  handlers (step s (EvClient now i c)) !! c = Some (Checking (static_of p)) \/
  exists p' n', handlers (step s (EvClient now i c)) !! c = Some p' /\ steps_left p' = Some n' /\
    (n' < n)%nat /\ static_of p' = static_of p.
Proof.
  intros Hc Hn. cbn [step]. unfold handleClient. rewrite Hc. destruct p; try done.
  - destruct conns as [|d ds]; [left; cbn; apply lookup_insert_eq|]. right.
    destruct (write d line (wrote i) s) as [ok s']. cbn [steps_left length] in Hn.
    injection Hn as <-.
    destruct ok; cbn; rewrite lookup_insert_eq; eexists _, _; split_and!; try done; lia.
  - right. cbn. rewrite lookup_insert_eq. cbn in Hn. injection Hn as <-.
    eexists _, _; split_and!; try done; cbn; lia.
Qed.

Lemma broadcast_run es : forall s c p n,
  handlers s !! c = Some p -> steps_left p = Some n -> (n <= own_steps c es)%nat ->
  exists es1 es2, es = es1 ++ es2 /\ handlers (run s es1) !! c = Some (Checking (static_of p)).
Proof.
  induction es as [|e es IH]; intros s c p n Hc Hn Hle.
  { destruct p; cbn in Hn; try done; injection Hn as <-; cbn in Hle; lia. }
  destruct (own c e) eqn:Eo.
  - destruct e as [|now i d|]; try done. cbn in Eo. zbool. subst d.
    destruct (broadcast_step s now i c p n Hc Hn) as [Hd|(p' & n' & Hc' & Hn' & Hlt & Es)].
    + by exists [EvClient now i c], es.
    + destruct (IH _ c p' n' Hc' Hn') as (es1 & es2 & -> & Hr).
      { unfold own_steps in *. cbn [List.filter own] in Hle. rewrite bool_decide_eq_true_2 in Hle by done.
        cbn [length] in Hle. lia. }
      exists (EvClient now i c :: es1), es2. split; [done|]. rewrite <- Es. exact Hr.
  - assert (Hs : handlers (step s e) !! c = Some p).
    { rewrite other_handlers; [done| |by rewrite Hc]. intros now i ->. cbn in Eo.
      by rewrite bool_decide_eq_true_2 in Eo. }
    destruct (IH _ c p n Hs Hn) as (es1 & es2 & -> & Hr).
    { unfold own_steps in *. cbn [List.filter] in Hle. by rewrite Eo in Hle. }
    exists (e :: es1), es2. split; [done|]. exact Hr.
Qed.

(** One stalled reader cannot stall the mesh: whatever writes fail or time out and
    whoever else runs in between, a broadcast is over, and its handler back in its loop,
    after two steps of its own per target and one more. *)
Theorem broadcast_ends (s : Server L) (es : list event) (c : conn) (st line : list byte)
    (ds : list conn)
    (Hc : handlers s !! c = Some (Sending st line ds))
    (Hn : (2 * length ds + 1 <= own_steps c es)%nat) :
  exists es1 es2, es = es1 ++ es2 /\ handlers (run s es1) !! c = Some (Checking st).
Proof. by apply (broadcast_run es s c (Sending st line ds) (2 * length ds + 1)). Qed.

(** The exact conditions of a registration: a message leads to one only if it
    decodes to a register message whose ID and endpoints are within the bounds and whose
    key is the one the connection authenticated with; and it then goes through exactly
    when the ID is free or bound to that key, and is present or the registry not full. *)
Theorem registration_conditions (static plain : list byte) (now : Time) (c : conn) (s : Server L) :
  (forall st msg, dispatch static plain = Registering st msg <->
     st = static /\ DecodeLine plain = Ok msg /\ Type_ msg = TypeRegister /\
     valid (ID msg) (Endpoints msg) /\ PubKey msg = EncodeToString static) /\
  (forall msg, (exists s' m, register now c msg s = inr (s', m)) <->
     (forall cur, registrations s !! ID msg = Some cur ->
        r_PubKey cur = ""%string \/ r_PubKey cur = PubKey msg) /\
     (registrations s !! ID msg = None -> Z.of_nat (size (registrations s)) < maxRegistrations)).
Proof.
  split.
  - intros st msg. unfold dispatch. split.
    + destruct (DecodeLine plain) as [m|] eqn:Ed; [|done].
      destruct (bool_decide (Type_ m = TypeRegister)) eqn:Et; zbool; cbn [negb andb].
      2:{ destruct (bool_decide (Type_ m = TypeQuery)); done. }
      rewrite bool_decide_eq_false_2 by (rewrite Et; done).
      destruct (validateRegistration m) eqn:Ev; [done|]. apply validateRegistration_None in Ev.
      destruct (bool_decide (EncodeToString static = PubKey m)) eqn:Ek; zbool; cbn [negb]; [|done].
      intros [= <- <-]. done.
    + intros (-> & -> & Et & Hv & Hk). rewrite (bool_decide_eq_true_2 (Type_ msg = TypeRegister)) by done.
      rewrite bool_decide_eq_false_2 by (rewrite Et; done). cbn [negb andb].
      destruct (validateRegistration msg) eqn:Ev.
      * by apply validateRegistration_valid in Ev.
      * by rewrite bool_decide_eq_true_2.
  - intros msg. split.
    + intros (s' & m & E). apply register_inr in E as (_ & _ & E1 & E2). done.
    + intros [H1 H2]. unfold register. destruct (key_taken _ _) eqn:Et.
      { exfalso. destruct (registrations s !! ID msg) as [cur|]; [|done]. cbn in Et. zbool.
        by destruct (H1 cur eq_refl). }
      destruct (registrations s !! ID msg) eqn:Er.
      * rewrite bool_decide_eq_false_2 by done. by eexists _, _.
      * rewrite bool_decide_eq_true_2 by done. specialize (H2 eq_refl). cbn [andb].
        destruct (_ >=? _) eqn:E; zbool; [lia|]. by eexists _, _.
Qed.
End Consequences.
