(* ===== verification/CoordinatorDemo.v ===== *)
(** * The coordinator's theorems at concrete inputs

    One client connects over the concrete cipher, registers a name, is told the peer
    list, and then asks for a second name. *)

From S2P Require Import Prelude GoBytes GoRuntime NoiseLib Noisework Control Protocol Coordinator CoordinatorSafety GoNet.

#[local] Existing Instances Toy.lib Toy.laws Toy.xx.

Module Demo.
Definition kA := MkKeypair (replicate 32 x0a) (replicate 32 x1a).
Definition kS := MkKeypair (replicate 32 x0b) (replicate 32 x1b).
Definition eA := replicate 32 x33.
Definition eS := replicate 32 x44.

(** A codec for the two messages of the client. *)
Definition register_as (id : string) : Message :=
  MkMessage TypeRegister id (EncodeToString (Public kA)) (Some ["10.0.0.7:4000"%string]) None "" 0 0 0.
#[local] Instance json : Json := {
  Unmarshal l :=
    if bool_decide (l = [x61]) then Some (register_as "a")
    else if bool_decide (l = [x62]) then Some (register_as "b")
    else None
}.
#[local] Instance order : RangeOrder := {
  ranged A _ l := l;
  ranged_perm A _ l := reflexivity l
}.

(** The client's side of the stream. *)
Definition m1 : list byte := Eval vm_compute in
  (Initiate (L := Toy.lib) 1 kA (Public kS) eA true true (Reader [] EOF)).1.
Definition m2 : list byte := Eval vm_compute in
  (Accept (L := Toy.lib) 1 kS eS true (Reader m1 EOF)).1.
Definition stream : list byte := Eval vm_compute in
  match Initiate (L := Toy.lib) 1 kA (Public kS) eA true true (Reader m2 EOF) with
  | (out, Ok k) => out ++ (write_msgs k [[x61]; [x62]]).1
  | _ => []
  end.

Definition cfg := MkConfig ":7000" ":3478" "key".
Definition s0 : Server Toy.lib := MkServer _ kS ∅ ∅ ∅ 0 1 false ∅ ∅ ∅.
Definition go : input := MkInput false true eS false.
Definition drop : input := MkInput true true eS false.
Definition client (n : nat) : list event := replicate n (EvClient 2 go 1%nat).

(** Connected and registered as "a"; the broadcast; then about to register "b". *)
Definition registered : list event := EvAccept 1%nat (Reader stream EOF) :: client 5.
Definition sending : list event := registered ++ client 1.
Definition second : list event := sending ++ client 4.
(** The client's connection is lost instead, and its handler returns. *)
Definition gone : list event :=
  sending ++ client 3 ++ replicate 2 (EvClient 3 drop 1%nat).

Lemma new_ok : New (L := Toy.lib) 1 (fun _ => Some kS) (fun _ => true) (fun _ => true) cfg = Ok s0.
Proof. reflexivity. Qed.
Lemma inv es : Inv (run s0 es).
Proof. apply run_inv. exact (New_inv _ _ _ _ _ _ new_ok). Qed.

Definition keyA : string := EncodeToString (Public kA).
Definition entryA : Registration := MkRegistration "a" keyA (Some ["10.0.0.7:4000"%string]) 1%nat.

(** A check that [uses_name] holds. *)
Fixpoint names_ok (c : conn) (x : string) (s : Server Toy.lib) (es : list event) : bool :=
  match es with
  | [] => true
  | e :: es =>
      match handlers s !! c with
      | Some (Registering _ msg) => bool_decide (ID msg = x)
      | _ => true
      end && names_ok c x (step s e) es
  end.

Lemma names_ok_uses c x s es : names_ok c x s es = true -> uses_name c x s es.
Proof.
  revert s. induction es as [|e es IH]; intros s; cbn [names_ok uses_name]; [done|].
  intros [H1 H2]%andb_prop. split; [|by apply IH]. intros st msg E. rewrite E in H1. by zbool.
Qed.

Definition registered_b (r : string + (Server Toy.lib * Message)) : bool :=
  match r with inl _ => false | inr _ => true end.
End Demo.

#[local] Existing Instances Demo.json Demo.order.

Example registry_safe_witness :
  let s := run Demo.s0 Demo.sending in
  size (registrations s) = 1%nat /\
  Z.of_nat (size (registrations s)) <= 512 /\
  forall id r, registrations s !! id = Some r ->
    r_ID r = id /\ 0 < slen id <= 64 /\ len (elems (r_Endpoints r)) <= 2 /\
    Forall (fun ep => slen ep <= 255) (elems (r_Endpoints r)) /\
    exists k, sessions s !! Owner r = Some k /\ r_PubKey r = EncodeToString (PeerStatic (sess k)).
Proof.
  split; [vm_compute; reflexivity|].
  apply (registry_safe 1 _ _ _ Demo.cfg Demo.s0 Demo.sending Demo.new_ok).
Defined.

Example name_held_witness :
  let s := run Demo.s0 Demo.sending in
  let es := Demo.client 4 in
  registrations s !! "a"%string = Some Demo.entryA /\
  ((exists r', registrations (run s es) !! "a"%string = Some r' /\ r_PubKey r' = Demo.keyA) \/
   (exists es1 e es2 r', es = es1 ++ e :: es2 /\
      registrations (run s es1) !! "a"%string = Some r' /\
      r_PubKey r' = Demo.keyA /\ cleans (run s es1) e = Some (Owner r'))).
Proof.
  intros s es. assert (Hr : registrations s !! "a"%string = Some Demo.entryA)
    by (vm_compute; reflexivity).
  split; [exact Hr|]. apply (name_held s es "a" Demo.entryA Hr). discriminate.
Defined.

Example disconnect_releases_witness :
  let s := run Demo.s0 Demo.gone in
  (forall id r, registrations s !! id = Some r -> Owner r <> 1%nat) /\
  clients s !! 1%nat = None /\ 1%nat ∉ ctrlConns s.
Proof.
  apply (disconnect_releases 1 _ _ _ Demo.cfg Demo.s0 Demo.gone 1%nat "a" Demo.new_ok).
  - apply Demo.names_ok_uses. vm_compute. reflexivity.
  - vm_compute. reflexivity.
Defined.

Example registration_broadcast_witness :
  let s := run Demo.s0 (take 5 Demo.registered) in
  let msg := Demo.register_as "a" in
  exists s' m, register 2 1%nat msg s = inr (s', m) /\
  registrations s' !! "a"%string = Some Demo.entryA /\
  (exists ps, m = peerMessage TypePeerList ps /\
              ps ≡ₚ map peerInfo (map_to_list (registrations s')).*2) /\
  (plain_registry s' -> exists ds, ds ≡ₚ elements (ctrlConns s) /\
     broadcast 3 (Public Demo.kA) m s = Sending (Public Demo.kA) (Marshal m ++ [x0a]) ds).
Proof.
  intros s msg.
  assert (Hb : Demo.registered_b (register 2 1%nat msg s) = true) by (vm_compute; reflexivity).
  destruct (register 2 1%nat msg s) as [e|[s' m]] eqn:E; [discriminate|]. exists s', m.
  split; [reflexivity|].
  apply (registration_broadcast s s' s 2 3 1%nat (Public Demo.kA) msg m (Demo.inv _)); [|exact E].
  vm_compute. reflexivity.
Defined.

Example broadcast_ends_witness :
  let s := run Demo.s0 Demo.sending in
  exists line, handlers s !! 1%nat = Some (Sending (Public Demo.kA) line [1%nat]) /\
  exists es1 es2, Demo.client 3 = es1 ++ es2 /\
    handlers (run s es1) !! 1%nat = Some (Checking (Public Demo.kA)).
Proof.
  intros s.
  pose (line := match handlers s !! 1%nat with Some (Sending _ line _) => line | _ => [] end).
  assert (Hc : handlers s !! 1%nat = Some (Sending (Public Demo.kA) line [1%nat]))
    by (vm_compute; reflexivity).
  exists line. split; [exact Hc|].
  apply (broadcast_ends s (Demo.client 3) 1%nat (Public Demo.kA) line [1%nat] Hc).
  apply Nat.leb_le. vm_compute. reflexivity.
Defined.

(** The client of the demo goes on to register "b" and is lost: "a" stays. *)
Example second_name_leaks_example :
  let s := run Demo.s0 Demo.second in
  let es := replicate 8 (EvClient 3 Demo.drop 1%nat) in
  handlers (run (step s (EvClient 3 Demo.go 1%nat)) es) !! 1%nat = Some Done /\
  registrations (run (step s (EvClient 3 Demo.go 1%nat)) es) !! "a"%string = Some Demo.entryA.
Proof.
  intros s es. split; [vm_compute; reflexivity|].
  set (msg := Demo.register_as "b").
  assert (Hb : Demo.registered_b (register 3 1%nat msg s) = true) by (vm_compute; reflexivity).
  destruct (register 3 1%nat msg s) as [e|[s' m]] eqn:E; [discriminate|].
  apply (second_name_leaks s s' 3 Demo.go 1%nat (Public Demo.kA) msg m "a" Demo.entryA es
           (Demo.inv _)); [..|exact E|].
  - vm_compute. reflexivity.
  - reflexivity.
  - vm_compute. reflexivity.
  - discriminate.
  - repeat (split; [vm_compute; discriminate|]). exact I.
Qed.

(** A registry that no agent hears about any more. *)
Definition full_registry : Server Toy.lib :=
  Demo.s0 <| registrations := list_to_map
    (map (fun n => (Itoa n, MkRegistration (Itoa n) Demo.keyA (Some [angles 255; angles 255]) 1%nat))
       (seqZ 0 343)) |>.

Example peer_list_dropped_example :
  broadcast 2 (Public Demo.kA) (peerMessage TypePeerList (peers_of 1 full_registry)) full_registry
  = Checking (Public Demo.kA).
Proof.
  apply (peer_list_dropped full_registry full_registry 1 2 (Public Demo.kA)).
  - vm_compute. discriminate.
  - intros id r Hr. apply elem_of_list_to_map_2, list_elem_of_fmap in Hr as (n & Hn & _).
    by simplify_eq.
Qed.
