(* ===== verification/CoordinatorRun.v ===== *)
(** * The coordinator's process: [Run] and [Close] (src/internal/coordinator/coordinator.go)

    [Run] starts the two serving loops, waits for its context or for [Close], closes the
    server and waits for every goroutine: the loops and one handler per connection. [Close]
    is not atomic: it looks at the channel [closed], closes it, then the listener, the STUN
    socket and the tracked connections, and other goroutines run in between. A [Process] is
    a [Server] with the positions of these goroutines. *)

From S2P Require Import Prelude GoBytes GoRuntime GoNet NoiseLib Noisework Control Protocol.
From S2P Require Import Coordinator CoordinatorSafety.
From S2P Require CoordinatorDemo.

(** Where a call of [Close] is. [Closed] has whether it returns an error. *)
Inductive close_pos :=
| AtCheck                     (* at the [select] on [s.closed] *)
| AtSignal                    (* before [close(s.closed)] *)
| AtListener
| AtSTUN (err1 : bool)
| AtClients (err : bool)
| Closed (err : bool).

Inductive main_pos :=
| Serving                     (* at [Run]'s [select] *)
| Closing (p : close_pos)
| Draining                    (* in [wg.Wait] *)
| Returned.

Inductive loop_pos := Looping | Ended.

Record Process {L : NoiseLib} := MkProcess {
  srv : Server L;
  closedCh : bool;            (* the channel [closed] is closed *)
  lnOpen : bool;              (* [ctrlLn] *)
  stunOpen : bool;            (* [stunConn] *)
  ctx : bool;                 (* [Run]'s context is done *)
  main : main_pos;
  acceptor : loop_pos;        (* [serveControl] *)
  stunner : loop_pos;         (* [serveSTUN] *)
  closers : gmap nat close_pos  (* other calls of [Close] *)
}.
Arguments Process L : clear implicits.

#[export] Instance Process_eta {L} : Eta (Process L) := fun p =>
  MkProcess _ (srv p) (closedCh p) (lnOpen p) (stunOpen p) (ctx p) (main p) (acceptor p) (stunner p) (closers p).

#[local] Existing Instance Server_eta.

Section Process.
Context {L : NoiseLib} `{Json} `{RangeOrder}.
Implicit Types p : Process L.

(** A step of [Close]. [None] is the panic of closing a closed channel. *)
Definition close_step (q : close_pos) p : option (close_pos * Process L) :=
  match q with
  | AtCheck => Some (if closedCh p then Closed false else AtSignal, p)
  | AtSignal => if closedCh p then None else Some (AtListener, p <| closedCh := true |>)
  | AtListener => Some (AtSTUN (negb (lnOpen p)), p <| lnOpen := false |>)
  | AtSTUN err1 => Some (AtClients (err1 || negb (stunOpen p)), p <| stunOpen := false |>)
  | AtClients err => Some (Closed err, p <| srv := Coordinator.Close (srv p) |>)
  | Closed err => Some (Closed err, p)
  end.

Definition handler_done (h : pc) : bool := match h with Done => true | _ => false end.

(** The counter of the WaitGroup is zero. *)
Definition all_done p : bool :=
  match acceptor p, stunner p with
  | Ended, Ended => forallb (fun ch : conn * pc => handler_done ch.2) (map_to_list (handlers (srv p)))
  | _, _ => false
  end.

(** [Run]; [pick] is which of its two channels a [select] takes when both are ready. *)
Definition run_step (pick : bool) p : option (Process L) :=
  match main p with
  | Serving =>
      Some (if ctx p && (negb (closedCh p) || pick) then p <| main := Closing AtCheck |>
            else if closedCh p then p <| main := Draining |> else p)
  | Closing (Closed _) => Some (p <| main := Draining |>)
  | Closing q => '(q, p) ← close_step q p; Some (p <| main := Closing q |>)
  | Draining => Some (if all_done p then p <| main := Returned |> else p)
  | Returned => Some p
  end.

(** After an error of the loops' calls: the [select] on the context and [s.closed]. *)
Definition over p : bool := ctx p || closedCh p.

(** A turn of [serveControl]: [accepted] is what the listener gives, if it is open. *)
Definition accept_turn (accepted : option (conn * reader)) p : Process L :=
  match acceptor p with
  | Ended => p
  | Looping =>
      match accepted with
      | Some (c, r) =>
          if lnOpen p then p <| srv := serveControl c r (srv p) |>
          else if over p then p <| acceptor := Ended |> else p
      | None => if over p then p <| acceptor := Ended |> else p
      end
  end.

(** A turn of [serveSTUN]: what it answers. *)
Definition stun_turn (received : option (list byte * UDPAddr)) p : option (list byte) * Process L :=
  match stunner p with
  | Ended => (None, p)
  | Looping =>
      match received with
      | Some (pkt, src) =>
          if stunOpen p then (serveSTUN pkt src, p)
          else (None, if over p then p <| stunner := Ended |> else p)
      | None => (None, if over p then p <| stunner := Ended |> else p)
      end
  end.

(** What a handler sees: its context, and that reading a closed connection fails. *)
Definition seen (c : conn) (i : input) p : input :=
  MkInput (fails i || bool_decide (c ∈ sockets (srv p))) (wrote i) (entropy i) (ctx p).

Inductive pevent :=
| PCancel
| PMain (pick : bool)
| PAccept (accepted : option (conn * reader))
| PStun (received : option (list byte * UDPAddr))
| PClient (now : Time) (i : input) (c : conn)
| PClose (j : nat)            (* someone else calls [Close] *)
| PCloser (j : nat).

Definition pstep p (e : pevent) : option (Process L) :=
  match e with
  | PCancel => Some (p <| ctx := true |>)
  | PMain pick => run_step pick p
  | PAccept accepted => Some (accept_turn accepted p)
  | PStun received => Some (stun_turn received p).2
  | PClient now i c => Some (p <| srv := handleClient now (seen c i p) c (srv p) |>)
  | PClose j =>
      Some (match closers p !! j with
            | None => p <| closers := <[j := AtCheck]> (closers p) |>
            | Some _ => p
            end)
  | PCloser j =>
      match closers p !! j with
      | None => Some p
      | Some q => '(q, p) ← close_step q p; Some (p <| closers := <[j := q]> (closers p) |>)
      end
  end.

Fixpoint prun p (es : list pevent) : option (Process L) :=
  match es with [] => Some p | e :: es => p ← pstep p e; prun p es end.

(** [Run] has just been called. *)
Definition process (s : Server L) : Process L := MkProcess _ s false true true false Serving Looping Looping ∅.
End Process.

(** ** The handlers *)

Section Handlers.
Context {L : NoiseLib} `{Json} `{RangeOrder}.
Implicit Types s : Server L.

(** How many steps a handler takes at most until it is done, once no read of its connection
    succeeds any more and there are at most [n] control sessions. *)
Definition left_over (n : nat) (h : pc) : nat :=
  match h with
  | Done => 0
  | Leaving => 1
  | Reading _ | Handshaking _ => 2
  | Checking _ | Writing _ _ | Authenticated _ | Tracking _ => 3
  | Replying _ _ => 4
  | Querying _ => 5
  | Sending _ _ ds => 2 * length ds + 4
  | Evicting _ _ _ ds => 2 * length ds + 5
  | Broadcasting _ _ => 2 * n + 5
  | Registering _ _ => 2 * n + 6
  end.

Lemma write_frame d line w s :
  handlers (write d line w s).2 = handlers s /\ sockets (write d line w s).2 = sockets s.
Proof. unfold write. repeat (destr; cbn [snd]); done. Qed.

(** What a step of its own does to a handler. *)
Lemma handler_moves now i c s h n :
  handlers s !! c = Some h -> (size (ctrlConns s) <= n)%nat ->
  exists h', handlers (handleClient now i c s) = <[c := h']> (handlers s) /\
    sockets s ⊆ sockets (handleClient now i c s) /\
    (h' = Done -> h = Done \/ c ∈ sockets (handleClient now i c s)) /\
    (fails i = true -> h <> Done -> (left_over n h' < left_over n h)%nat).
Proof.
  intros Hc Hn. unfold handleClient. rewrite Hc. destruct h.
  - eexists. split; [reflexivity|]. cbn. split_and!; [done|done|lia].
  - destruct (fails i); [eexists; split; [reflexivity|]; cbn; split_and!; [done|done|lia]|].
    destruct (Accept _ _ _ _ _) as [out [[st k]|e]]; (eexists; split; [reflexivity|]; by split_and!).
  - eexists. split; [reflexivity|]. cbn. split_and!; [done|done|lia].
  - destruct (fails i); [eexists; split; [reflexivity|]; cbn; split_and!; [done|done|lia]|].
    destruct (sessions s !! c) as [k|]; [|eexists; split; [reflexivity|]; by split_and!].
    destruct (ReadMsg k) as [[plain|e] k']; (eexists; split; [reflexivity|]; split_and!; try done).
    unfold dispatch. repeat (destr; try done).
  - eexists. split; [reflexivity|]. cbn. split_and!; [done|done|lia].
  - destruct (register now c msg s) as [e|[s' m]] eqn:Er.
    + eexists. split; [reflexivity|]. cbn. split_and!; [done|done|lia].
    + apply register_inr in Er as (-> & _). eexists. split; [reflexivity|]. cbn. split_and!; [done|done|lia].
  - eexists. split; [reflexivity|].
    assert (Hw : exists l, writeMsg c static m s = Reading l \/ exists k, writeMsg c static m s = Writing l k).
    { unfold writeMsg. exists static. repeat destr; eauto. }
    destruct Hw as [l [-> | [k ->]]]; cbn; (split_and!; [done|done|lia]).
  - destruct (write_frame c line (wrote i) s) as [E1 E2]. eexists. split; [cbn; by rewrite E1|]. cbn. rewrite E2.
    split_and!; [done|done|lia].
  - eexists. split; [reflexivity|].
    assert (Hb : broadcast now static m s = Checking static \/
                 exists k ds, broadcast now static m s = Sending static k ds /\ length ds = size (ctrlConns s)).
    { unfold broadcast. repeat destr; eauto. right. eexists _, _. split; [reflexivity|].
      by rewrite (Permutation_length (ranged_perm _ _ _)). }
    destruct Hb as [-> | (k & ds & -> & Hds)]; cbn; (split_and!; [done|done|lia]).
  - destruct conns as [|d ds]; [eexists; split; [reflexivity|]; cbn; split_and!; [done|done|lia]|].
    destruct (write_frame d line (wrote i) s) as [E1 E2].
    destruct (write d line (wrote i) s) as [ok s']. cbn [snd] in *.
    destruct ok; (eexists; split; [cbn; by rewrite E1|]; cbn; rewrite E2; split_and!; [done|done|lia]).
  - eexists. split; [reflexivity|]. cbn. split_and!; [set_solver|done|lia].
  - eexists. split; [reflexivity|]. cbn. destruct (ctx_done i); cbn; (split_and!; [done|done|lia]).
  - eexists. split; [reflexivity|]. cbn. split_and!; [set_solver|set_solver|lia].
  - exists Done. rewrite insert_id by done. split_and!; try done. by left.
Qed.

(** Only [serveControl] adds a handler, and a handler that has returned closed its
    connection. *)
Definition swept s : Prop := forall c, handlers s !! c = Some Done -> c ∈ sockets s.

Lemma swept_step s e : swept s -> swept (Coordinator.step s e).
Proof.
  intros Hs. destruct e as [c r|now i c|]; cbn [Coordinator.step].
  - unfold serveControl. destruct (stopped s); [done|]. destruct (handlers s !! c); [done|].
    intros d Hd. cbn in Hd. apply lookup_insert_Some in Hd as [[_ Hd]|[_ Hd]]; [done|]. by apply Hs.
  - destruct (handlers s !! c) as [h|] eqn:Hc; [|unfold handleClient; by rewrite Hc].
    destruct (handler_moves now i c s h (size (ctrlConns s)) Hc) as (h' & E & Hsub & Hd & _); [lia|].
    intros d. rewrite E. intros [[<- ->]|[_ Hh]]%lookup_insert_Some; [|by apply Hsub, Hs].
    destruct (Hd eq_refl) as [->|Hin]; [|done]. by apply Hsub, Hs.
  - intros c. unfold Coordinator.Close. destruct (stopped s); [apply Hs|]. cbn. intros Hc.
    apply elem_of_union_r. by apply Hs.
Qed.

Lemma Inv_ctrl s : Inv s -> ctrlConns s ⊆ dom (handlers s).
Proof.
  intros I c Hc. apply elem_of_dom. destruct (handlers s !! c) as [h|] eqn:E; [by exists h|].
  by destruct (inv_new _ I c E) as (_ & _ & Hn).
Qed.

Lemma Inv_ctrl_size s : Inv s -> (size (ctrlConns s) <= size (handlers s))%nat.
Proof. intros I. rewrite <- size_dom. by apply subseteq_size, Inv_ctrl. Qed.
End Handlers.

(** ** The process *)

Section Shutdown.
Context {L : NoiseLib} `{Json} `{RangeOrder}.
Implicit Types (s : Server L) (p : Process L).

Lemma close_step_frame q p q' p' : close_step q p = Some (q', p') ->
  (srv p' = srv p \/ srv p' = Coordinator.step (srv p) EvClose) /\
  ctx p' = ctx p /\ main p' = main p /\ acceptor p' = acceptor p /\ stunner p' = stunner p /\ closers p' = closers p.
Proof.
  destruct q; cbn [close_step]; [| destruct (closedCh p); [done|] | | | |]; intros [= <- <-]; cbn; auto 10.
Qed.

(** What a step does to the server is a step of [Coordinator], or nothing. *)
Lemma pstep_srv p e p' : pstep p e = Some p' ->
  srv p' = srv p \/ exists e', srv p' = Coordinator.step (srv p) e'.
Proof.
  destruct e as [|pick|a|r|now i c|j|j]; cbn [pstep]; intros E.
  - injection E as <-. by left.
  - unfold run_step in E. destruct (main p) as [|q| |]; try (injection E as <-; repeat destr; by left).
    destruct q; try (injection E as <-; by left);
      (destruct (close_step _ p) as [[q' p1]|] eqn:Ec; [|done]; cbn in E; injection E as <-;
       apply close_step_frame in Ec as [[Es|Es] _]; cbn; rewrite Es; [by left|right; by eexists]).
  - injection E as <-. unfold accept_turn. destruct (acceptor p); [|by left].
    destruct a as [[c r]|]; repeat destr; try by left. right. by exists (EvAccept c r).
  - injection E as <-. unfold stun_turn. repeat destr; by left.
  - injection E as <-. right. by exists (EvClient now (seen c i p) c).
  - injection E as <-. repeat destr; by left.
  - destruct (closers p !! j) as [q|]; [|injection E as <-; by left].
    destruct (close_step q p) as [[q' p1]|] eqn:Ec; [|done]. cbn in E. injection E as <-.
    apply close_step_frame in Ec as [[Es|Es] _]; cbn; rewrite Es; [by left|right; by eexists].
Qed.

Lemma all_done_spec p : all_done p = true <->
  acceptor p = Ended /\ stunner p = Ended /\ forall c h, handlers (srv p) !! c = Some h -> h = Done.
Proof.
  unfold all_done. destruct (acceptor p), (stunner p); try (split; [done|by intros (? & ? & _)]).
  rewrite forallb_forall. split.
  - intros Hf. split_and!; try done. intros c h Hc. specialize (Hf (c, h)).
    rewrite <- list_elem_of_In, elem_of_map_to_list in Hf. specialize (Hf Hc). by destruct h.
  - intros (_ & _ & Hd) [c h] Hin. rewrite <- list_elem_of_In, elem_of_map_to_list in Hin.
    by rewrite (Hd c h Hin).
Qed.

(** When all goroutines are done nothing they share changes. *)
Lemma idle_step p e p' : all_done p = true -> pstep p e = Some p' ->
  all_done p' = true /\ handlers (srv p') = handlers (srv p) /\ (main p = Returned -> main p' = Returned).
Proof.
  intros Hd E. pose proof (proj1 (all_done_spec p) Hd) as (Ha & Hs & Hh).
  assert (Hclose : forall q q' p1, close_step q p = Some (q', p1) ->
            acceptor p1 = Ended /\ stunner p1 = Ended /\ handlers (srv p1) = handlers (srv p) /\ main p1 = main p).
  { intros q q' p1 Ec. apply close_step_frame in Ec as (Es & _ & Em & Ea & Et & _). rewrite Ea, Et.
    split_and!; try done. destruct Es as [->| ->]; [done|]. cbn. unfold Coordinator.Close. by destruct (stopped _). }
  assert (Hgoal : forall p1, acceptor p1 = Ended -> stunner p1 = Ended -> handlers (srv p1) = handlers (srv p) ->
            all_done p1 = true).
  { intros p1 E1 E2 E3. apply all_done_spec. by rewrite E1, E2, E3. }
  destruct e as [|pick|a|r|now i c|j|j]; cbn [pstep] in E.
  - injection E as <-. split; [by apply Hgoal|]. done.
  - unfold run_step in E. destruct (main p) as [|q| |] eqn:Em.
    + injection E as <-. repeat destr; (split; [by apply Hgoal|done]).
    + destruct q; try (injection E as <-; split; [by apply Hgoal|done]);
        (destruct (close_step _ p) as [[q' p1]|] eqn:Ec; [|done]; cbn in E; injection E as <-;
         apply Hclose in Ec as (E1 & E2 & E3 & _); split; [by apply Hgoal|done]).
    + injection E as <-. repeat destr; (split; [by apply Hgoal|done]).
    + injection E as <-. by rewrite Em.
  - injection E as <-. unfold accept_turn. by rewrite Ha.
  - injection E as <-. unfold stun_turn. by rewrite Hs.
  - injection E as <-. cbn.
    assert (Eh : handlers (handleClient now (seen c i p) c (srv p)) = handlers (srv p)).
    { unfold handleClient. destruct (handlers (srv p) !! c) as [h|] eqn:Ec; [|done]. by rewrite (Hh c h Ec). }
    split; [by apply Hgoal|done].
  - injection E as <-. repeat destr; (split; [by apply Hgoal|done]).
  - destruct (closers p !! j) as [q|]; [|by injection E as <-].
    destruct (close_step q p) as [[q' p1]|] eqn:Ec; [|done]. cbn in E. injection E as <-.
    apply Hclose in Ec as (E1 & E2 & E3 & E4). split; [by apply Hgoal|]. cbn. by rewrite E4.
Qed.

(** [Run] returns only once they are. *)
Lemma idle_main p e p' : pstep p e = Some p' -> main p' = Returned -> main p = Returned \/ all_done p = true.
Proof.
  intros E Hm. destruct e as [|pick|a|r|now i c|j|j]; cbn [pstep] in E.
  - injection E as <-. by left.
  - unfold run_step in E. destruct (main p) as [|q| |] eqn:Em; [exfalso|exfalso| |by left].
    + injection E as <-. revert Hm. repeat destr; cbn; congruence.
    + destruct q; try (injection E as <-; discriminate Hm);
        (destruct (close_step _ p) as [[q' p1]|] eqn:Ec; [|done]; cbn in E; injection E as <-; discriminate Hm).
    + destruct (all_done p); [by right|]. injection E as <-. congruence.
  - injection E as <-. left. revert Hm. unfold accept_turn. repeat destr; done.
  - injection E as <-. left. revert Hm. unfold stun_turn. repeat destr; done.
  - injection E as <-. by left.
  - injection E as <-. left. revert Hm. repeat destr; done.
  - left. destruct (closers p !! j) as [q|]; [|by injection E as <-].
    destruct (close_step q p) as [[q' p1]|] eqn:Ec; [|done]. cbn in E. injection E as <-.
    apply close_step_frame in Ec as (_ & _ & E4 & _). cbn in Hm. congruence.
Qed.

Record Sound p : Prop := {
  so_inv : Inv (srv p);
  so_swept : swept (srv p);
  so_back : main p = Returned -> all_done p = true
}.

Lemma Sound_step p e p' : Sound p -> pstep p e = Some p' -> Sound p'.
Proof.
  intros [I S B] E. constructor.
  - destruct (pstep_srv p e p' E) as [->|[e' ->]]; [done|by apply step_inv].
  - destruct (pstep_srv p e p' E) as [->|[e' ->]]; [done|by apply swept_step].
  - intros Hm. destruct (idle_main p e p' E Hm) as [Hr|Hd].
    + by apply (idle_step p e p' (B Hr) E).
    + by apply (idle_step p e p' Hd E).
Qed.

Lemma Sound_run es : forall p p', Sound p -> prun p es = Some p' -> Sound p'.
Proof.
  induction es as [|e es IH]; intros p p' S E; cbn [prun] in E; [by injection E as <-|].
  destruct (pstep p e) as [p1|] eqn:E1; [|done]. apply (IH p1); [by eapply Sound_step|done].
Qed.

Lemma idle_run es : forall p p', all_done p = true -> prun p es = Some p' ->
  handlers (srv p') = handlers (srv p) /\ (main p = Returned -> main p' = Returned).
Proof.
  induction es as [|e es IH]; intros p p' Hd E; cbn [prun] in E; [by injection E as <-|].
  destruct (pstep p e) as [p1|] eqn:E1; [|done]. destruct (idle_step p e p1 Hd E1) as (Hd1 & E2 & E3).
  destruct (IH p1 p' Hd1 E) as [E4 E5]. rewrite E4, E2. split; [done|]. intros Hm. by apply E5, E3.
Qed.

Lemma prun_app es1 : forall p p' es2, prun p es1 = Some p' -> prun p (es1 ++ es2) = prun p' es2.
Proof.
  induction es1 as [|e es1 IH]; intros p p' es2 E; cbn [prun app] in *; [by injection E as <-|].
  destruct (pstep p e) as [p1|]; [|done]. cbn in *. by apply IH.
Qed.

(** ** [Run] as the only one who closes *)

Lemma handleClient_stopped now i c s : stopped (handleClient now i c s) = stopped s.
Proof.
  unfold handleClient. destruct (handlers s !! c) as [h|]; [|done]. destruct h; try done.
  - repeat destr; done.
  - repeat destr; done.
  - destruct (register now c msg s) as [|[s' m]] eqn:E; [done|]. by apply register_inr in E as (-> & _).
  - unfold write. repeat (destr; cbn [snd]); done.
  - destruct conns as [|d ds]; [done|]. unfold write. repeat (destr; cbn [snd]); done.
Qed.

(** What has been closed at each position of [Run]. *)
Definition phase p : Prop :=
  (main p <> Serving -> ctx p = true) /\
  match main p with
  | Serving | Closing AtCheck | Closing AtSignal =>
      closedCh p = false /\ lnOpen p = true /\ stunOpen p = true /\ stopped (srv p) = false
  | Closing AtListener =>
      closedCh p = true /\ lnOpen p = true /\ stunOpen p = true /\ stopped (srv p) = false
  | Closing (AtSTUN e) =>
      e = false /\ closedCh p = true /\ lnOpen p = false /\ stunOpen p = true /\ stopped (srv p) = false
  | Closing (AtClients e) =>
      e = false /\ closedCh p = true /\ lnOpen p = false /\ stunOpen p = false /\ stopped (srv p) = false
  | Closing (Closed e) =>
      e = false /\ closedCh p = true /\ lnOpen p = false /\ stunOpen p = false /\ stopped (srv p) = true
  | Draining | Returned =>
      closedCh p = true /\ lnOpen p = false /\ stunOpen p = false /\ stopped (srv p) = true
  end.

Definition from_outside (e : pevent) : bool := match e with PClose _ => true | _ => false end.

Lemma phase_same p p' : phase p -> closedCh p' = closedCh p -> lnOpen p' = lnOpen p -> stunOpen p' = stunOpen p ->
  stopped (srv p') = stopped (srv p) -> main p' = main p -> (ctx p = true -> ctx p' = true) -> phase p'.
Proof.
  intros [P1 P2] E1 E2 E3 E4 E5 E6. split; [rewrite E5; intros Hm; by apply E6, P1|]. by rewrite E5, E1, E2, E3, E4.
Qed.

Lemma phase_step p e : phase p -> closers p = ∅ -> from_outside e = false ->
  exists p', pstep p e = Some p' /\ phase p' /\ closers p' = ∅.
Proof.
  intros P C He. destruct e as [|pick|a|r|now i c|j|j]; try done; cbn [pstep].
  - eexists. split; [reflexivity|]. split; [by apply (phase_same p)|done].
  - destruct P as [P1 P2]. unfold run_step. destruct (main p) as [|q| |] eqn:Em.
    + eexists. split; [reflexivity|]. destruct P2 as (E1 & E2 & E3 & E4). rewrite E1. cbn [negb orb].
      rewrite andb_true_r. unfold phase. destruct (ctx p) eqn:Ec; cbn; rewrite ?Em; (split; [by split_and!|done]).
    + pose proof (P1 ltac:(done)) as Hctx. destruct q; cbn [close_step];
        repeat match goal with H : _ /\ _ |- _ => destruct H end; subst;
        repeat match goal with H : closedCh p = _ |- _ => rewrite H end; cbn;
        (eexists; split; [reflexivity|]; split; [|done]);
        unfold phase; cbn; repeat match goal with H : _ p = _ |- _ => rewrite H end; try by split_and!.
      unfold Coordinator.Close. destruct (stopped (srv p)) eqn:Es; [done|]. by split_and!.
    + eexists. split; [reflexivity|]. pose proof (P1 ltac:(done)) as Hctx.
      unfold phase. destruct (all_done p); cbn; rewrite ?Em; (split; [by split|done]).
    + exists p. split; [done|]. split; [|done]. unfold phase. rewrite Em. by split.
  - eexists. split; [reflexivity|]. unfold accept_turn, serveControl.
    repeat destr; (split; [by apply (phase_same p)|done]).
  - eexists. split; [reflexivity|]. unfold stun_turn. repeat destr; (split; [by apply (phase_same p)|done]).
  - eexists. split; [reflexivity|]. split; [|done]. apply (phase_same p); try done. apply handleClient_stopped.
  - exists p. rewrite C, lookup_empty. by split_and!.
Qed.

Lemma phase_run es : forall p, phase p -> closers p = ∅ -> Forall (fun e => from_outside e = false) es ->
  exists p', prun p es = Some p' /\ phase p' /\ closers p' = ∅.
Proof.
  induction es as [|e es IH]; intros p P C He; [by exists p|]. apply list.Forall_cons in He as [He Hes].
  destruct (phase_step p e P C He) as (p1 & E1 & P1 & C1). destruct (IH p1 P1 C1 Hes) as (p' & E' & H').
  exists p'. split; [|done]. cbn [prun]. by rewrite E1.
Qed.

(** ** Draining *)

(** How far [Run] is from waiting for its goroutines. *)
Definition rank (m : main_pos) : nat :=
  match m with
  | Serving => 7
  | Closing AtCheck => 6 | Closing AtSignal => 5 | Closing AtListener => 4 | Closing (AtSTUN _) => 3
  | Closing (AtClients _) => 2 | Closing (Closed _) => 1
  | Draining | Returned => 0
  end.

Definition is_main (e : pevent) : bool := match e with PMain _ => true | _ => false end.
Definition main_turns (es : list pevent) : nat := length (List.filter is_main es).

(** A turn of [Run] brings it closer, once its context is done. *)
Lemma rank_step p pick p' : phase p -> ctx p = true -> pstep p (PMain pick) = Some p' ->
  (rank (main p') <= pred (rank (main p)))%nat.
Proof.
  intros [_ P] C. cbn [pstep]. unfold run_step. destruct (main p) as [|q| |] eqn:Em.
  - destruct P as (-> & _). rewrite C. cbn. intros [= <-]. cbn. lia.
  - destruct q; cbn [close_step];
      repeat match goal with H : _ /\ _ |- _ => destruct H end;
      repeat match goal with H : closedCh p = _ |- _ => rewrite H end; cbn; intros [= <-]; cbn; lia.
  - intros [= <-]. destruct (all_done p); cbn; rewrite ?Em; cbn; lia.
  - intros [= <-]. rewrite Em. cbn. lia.
Qed.

(** The other goroutines leave [Run]'s position and context alone. *)
Lemma others_step p e p' : pstep p e = Some p' ->
  (is_main e = false -> main p' = main p) /\ (ctx p = true -> ctx p' = true).
Proof.
  intros E. destruct e as [|pick|a|r|now i c|j|j]; cbn [pstep] in E.
  - by injection E as <-.
  - split; [done|]. unfold run_step in E. destruct (main p) as [|q| |]; try (injection E as <-; repeat destr; done).
    destruct q; try (by injection E as <-);
      (destruct (close_step _ p) as [[q' p1]|] eqn:Ec; [|done]; cbn in E; injection E as <-;
       apply close_step_frame in Ec as (_ & Ex & _); cbn; by rewrite Ex).
  - injection E as <-. unfold accept_turn. repeat destr; done.
  - injection E as <-. unfold stun_turn. repeat destr; done.
  - by injection E as <-.
  - injection E as <-. repeat destr; done.
  - destruct (closers p !! j) as [q|]; [|by injection E as <-].
    destruct (close_step q p) as [[q' p1]|] eqn:Ec; [|done]. cbn in E. injection E as <-.
    apply close_step_frame in Ec as (_ & Ex & Em & _). cbn. by rewrite Ex, Em.
Qed.

(** A loop that has ended stays so. *)
Lemma ends_step p e p' : pstep p e = Some p' ->
  (acceptor p = Ended -> acceptor p' = Ended) /\ (stunner p = Ended -> stunner p' = Ended).
Proof.
  intros E. destruct e as [|pick|a|r|now i c|j|j]; cbn [pstep] in E.
  - by injection E as <-.
  - unfold run_step in E. destruct (main p) as [|q| |]; try (injection E as <-; repeat destr; done).
    destruct q; try (by injection E as <-);
      (destruct (close_step _ p) as [[q' p1]|] eqn:Ec; [|done]; cbn in E; injection E as <-;
       apply close_step_frame in Ec as (_ & _ & _ & Ea & Es & _); cbn; by rewrite Ea, Es).
  - injection E as <-. unfold accept_turn. split; intros Hl; rewrite ?Hl; repeat destr; done.
  - injection E as <-. unfold stun_turn. split; intros Hl; rewrite ?Hl; repeat destr; done.
  - by injection E as <-.
  - injection E as <-. repeat destr; done.
  - destruct (closers p !! j) as [q|]; [|by injection E as <-].
    destruct (close_step q p) as [[q' p1]|] eqn:Ec; [|done]. cbn in E. injection E as <-.
    apply close_step_frame in Ec as (_ & _ & _ & Ea & Es & _). cbn. by rewrite Ea, Es.
Qed.

(** Whatever the others do meanwhile, seven turns bring it to its wait. *)
Lemma rank_run es : forall p, phase p -> closers p = ∅ -> ctx p = true ->
  Forall (fun e => from_outside e = false) es ->
  exists p', prun p es = Some p' /\ phase p' /\ closers p' = ∅ /\ ctx p' = true /\
    (rank (main p') <= rank (main p) - main_turns es)%nat.
Proof.
  unfold main_turns. induction es as [|e es IH]; intros p P C X He; cbn [prun List.filter].
  { exists p. split_and!; try done. cbn. lia. }
  apply list.Forall_cons in He as [He Hes]. destruct (phase_step p e P C He) as (p1 & E1 & P1 & C1).
  destruct (others_step p e p1 E1) as [Hm Hx].
  destruct (IH p1 P1 C1 (Hx X) Hes) as (p' & E' & P' & C' & X' & R'). exists p'. rewrite E1. split_and!; try done.
  destruct (is_main e) eqn:Ei; cbn [length]; [|rewrite Hm in R' by done; lia].
  destruct e; try done. pose proof (rank_step p pick p1 P X E1). lia.
Qed.

(** ** After the listener is closed *)

Lemma close_step_ln q p q' p' : close_step q p = Some (q', p') -> lnOpen p = false -> lnOpen p' = false.
Proof. destruct q; cbn [close_step]; [|destruct (closedCh p); [done|]| | | |]; intros [= <- <-]; done. Qed.

Lemma shut_step p e p' : pstep p e = Some p' -> lnOpen p = false ->
  lnOpen p' = false /\
  match e with
  | PClient now i c => srv p' = handleClient now (seen c i p) c (srv p)
  | _ => srv p' = srv p \/ srv p' = Coordinator.step (srv p) EvClose
  end.
Proof.
  intros E Hln. destruct e as [|pick|a|r|now i c|j|j]; cbn [pstep] in E.
  - injection E as <-. by split; [|left].
  - unfold run_step in E. destruct (main p) as [|q| |]; try (injection E as <-; repeat destr; by split; [|left]).
    destruct q; try (injection E as <-; by split; [|left]);
      (destruct (close_step _ p) as [[q' p1]|] eqn:Ec; [|done]; cbn in E; injection E as <-;
       split; [by apply (close_step_ln _ _ _ _ Ec)|by apply close_step_frame in Ec as [? _]]).
  - injection E as <-. unfold accept_turn. rewrite Hln. repeat destr; by split; [|left].
  - injection E as <-. unfold stun_turn. repeat destr; by split; [|left].
  - by injection E as <-.
  - injection E as <-. repeat destr; by split; [|left].
  - destruct (closers p !! j) as [q|]; [|injection E as <-; by split; [|left]].
    destruct (close_step q p) as [[q' p1]|] eqn:Ec; [|done]; cbn in E; injection E as <-.
    split; [by apply (close_step_ln _ _ _ _ Ec)|by apply close_step_frame in Ec as [? _]].
Qed.

Definition own_turn (c : conn) (e : pevent) : bool :=
  match e with PClient _ _ d => bool_decide (d = c) | _ => false end.

(** A turn of the handler of [c] in which its reads fail: its connection is closed, or the
    read ends with its deadline. *)
Definition read_fails p (c : conn) (e : pevent) : Prop :=
  match e with PClient _ i d => d = c -> fails i = true \/ c ∈ sockets (srv p) | _ => True end.

(** The handler of [c], no read of which succeeds any more, has at most [k] steps left. *)
Record winding (n : nat) (c : conn) (k : nat) p : Prop := {
  wi_inv : Inv (srv p);
  wi_ln : lnOpen p = false;
  wi_size : (size (handlers (srv p)) <= n)%nat;
  wi_left : exists h, handlers (srv p) !! c = Some h /\ (left_over n h <= k)%nat
}.

Lemma winding_step n c k p e p' : winding n c k p -> read_fails p c e -> pstep p e = Some p' ->
  winding n c (if own_turn c e then pred k else k) p' /\ sockets (srv p) ⊆ sockets (srv p').
Proof.
  intros [I Hln Hsize (h & Hc & Hk)] Hrf E. destruct (shut_step p e p' E Hln) as [Hln' Hsrv].
  assert (I' : Inv (srv p')).
  { destruct (pstep_srv p e p' E) as [->|[e' ->]]; [done|by apply step_inv]. }
  assert (Hsame : srv p' = srv p \/ srv p' = Coordinator.step (srv p) EvClose -> own_turn c e = false ->
                  winding n c (if own_turn c e then pred k else k) p' /\ sockets (srv p) ⊆ sockets (srv p')).
  { intros Hs ->. assert (handlers (srv p') = handlers (srv p) /\ sockets (srv p) ⊆ sockets (srv p')) as [E1 E2].
    { destruct Hs as [->| ->]; [done|]. cbn. unfold Coordinator.Close. destruct (stopped (srv p)); [done|]. cbn.
      split; [done|set_solver]. }
    split; [|done]. constructor; rewrite ?E1; try done. by exists h. }
  destruct e as [|pick|a|r|now i d|j|j]; try by apply Hsame.
  cbn [own_turn]. destruct (handlers (srv p) !! d) as [g|] eqn:Hd.
  - destruct (handler_moves now (seen d i p) d (srv p) g n Hd) as (g' & E1 & E2 & _ & E4).
    { pose proof (Inv_ctrl_size _ I). lia. }
    rewrite <- Hsrv in E1, E2. split; [|done]. constructor; try done.
    + by rewrite E1, map_size_insert_Some by by rewrite Hd.
    + destruct (bool_decide_reflect (d = c)) as [->|Hne].
      * rewrite E1, lookup_insert_eq. exists g'. split; [done|]. rewrite Hc in Hd. injection Hd as ->.
        assert (Hdone : g = Done \/ g <> Done) by (destruct g; auto).
        assert (Hfail : fails (seen c i p) = true).
        { cbn. destruct (Hrf eq_refl) as [->|Hs]; [done|]. rewrite (bool_decide_eq_true_2 (c ∈ _)) by done. apply orb_true_r. }
        destruct Hdone as [->|Hne]; [|pose proof (E4 Hfail Hne); lia].
        assert (g' = Done) as ->; [|cbn; lia].
        assert (E5 : handlers (srv p') = handlers (srv p)) by (rewrite Hsrv; unfold handleClient; by rewrite Hc).
        assert (E6 : handlers (srv p') !! c = Some g') by (rewrite E1; apply lookup_insert_eq).
        rewrite E5, Hc in E6. by injection E6.
      * rewrite E1, lookup_insert_ne by done. by exists h.
  - assert (Es : srv p' = srv p) by (rewrite Hsrv; unfold handleClient; by rewrite Hd).
    assert (Hne : d <> c) by congruence. rewrite bool_decide_eq_false_2 by done.
    rewrite Es. split; [|done]. constructor; rewrite ?Es; try done. by exists h.
Qed.

Definition own_turns (c : conn) (es : list pevent) : nat := length (List.filter (own_turn c) es).

Lemma winding_run n c es : forall k p p',
  winding n c k p -> Forall (read_fails p c) es -> prun p es = Some p' ->
  winding n c (k - own_turns c es) p'.
Proof.
  unfold own_turns. induction es as [|e es IH]; intros k p p' V Hrf E; cbn [prun List.filter] in *.
  { injection E as <-. by rewrite Nat.sub_0_r. }
  apply list.Forall_cons in Hrf as [Hrf Hrfs].
  destruct (pstep p e) as [p1|] eqn:E1; [|done]. destruct (winding_step n c k p e p1 V Hrf E1) as [V1 Hsub].
  assert (Hrf1 : Forall (read_fails p1 c) es).
  { eapply Forall_impl; [|exact Hrfs]. intros [] Hf; try done. intros Hd. destruct (Hf Hd); [by left|right; by apply Hsub]. }
  specialize (IH _ _ _ V1 Hrf1 E). destruct (own_turn c e); [|done]. cbn [length].
  by replace (k - S (length (List.filter (own_turn c) es)))%nat
    with (pred k - length (List.filter (own_turn c) es))%nat by lia.
Qed.

(** No handler starts any more. *)
Lemma shut_handlers es : forall p p', lnOpen p = false -> prun p es = Some p' ->
  lnOpen p' = false /\ forall c, handlers (srv p) !! c = None -> handlers (srv p') !! c = None.
Proof.
  induction es as [|e es IH]; intros p p' Hln E; cbn [prun] in E; [by injection E as <-|].
  destruct (pstep p e) as [p1|] eqn:E1; [|done]. destruct (shut_step p e p1 E1 Hln) as [Hln1 Hsrv].
  destruct (IH p1 p' Hln1 E) as [Hln' Hno]. split; [done|]. intros c Hc. apply Hno.
  assert (Hcl : srv p1 = srv p \/ srv p1 = Coordinator.step (srv p) EvClose -> handlers (srv p1) !! c = None).
  { intros [->| ->]; [done|]. cbn. unfold Coordinator.Close. by destruct (stopped (srv p)). }
  destruct e as [|pick|a|r|now i d|j|j]; try by apply Hcl.
  rewrite Hsrv. destruct (handlers (srv p) !! d) as [g|] eqn:Hd; [|unfold handleClient; by rewrite Hd].
  destruct (handler_moves now (seen d i p) d (srv p) g (size (ctrlConns (srv p))) Hd) as (g' & -> & _); [lia|].
  rewrite lookup_insert_ne; [done|congruence].
Qed.

(** A turn of a loop whose socket is closed is its last. *)
Lemma loops_end es : forall p p', phase p -> closers p = ∅ -> ctx p = true -> rank (main p) = 0%nat ->
  Forall (fun e => from_outside e = false) es -> prun p es = Some p' ->
  (acceptor p = Ended \/ (exists a, PAccept a ∈ es) -> acceptor p' = Ended) /\
  (stunner p = Ended \/ (exists r, PStun r ∈ es) -> stunner p' = Ended).
Proof.
  induction es as [|e es IH]; intros p p' P C X R He E; cbn [prun] in E.
  { injection E as <-. split; (intros [?|[? Hin]]; [done|by apply elem_of_nil in Hin]). }
  apply list.Forall_cons in He as [He Hes]. destruct (phase_step p e P C He) as (p1 & E1 & P1 & C1).
  rewrite E1 in E. cbn [mbind option_bind] in E. destruct (others_step p e p1 E1) as [Hm Hx].
  assert (R1 : rank (main p1) = 0%nat).
  { destruct (is_main e) eqn:Ei; [|by rewrite Hm]. destruct e; try done.
    pose proof (rank_step p pick p1 P X E1). lia. }
  assert (Hshut : lnOpen p = false /\ stunOpen p = false).
  { destruct P as [_ P]. destruct (main p) as [|[]| |]; cbn in R; (lia || by destruct P as (_ & ? & ? & _)). }
  assert (Hend : (acceptor p = Ended -> acceptor p1 = Ended) /\ (stunner p = Ended -> stunner p1 = Ended) /\
                 ((exists a, e = PAccept a) -> acceptor p1 = Ended) /\ ((exists r, e = PStun r) -> stunner p1 = Ended)).
  { destruct Hshut as [Hl Hs]. destruct (ends_step p e p1 E1) as [Ha Ht]. split_and!; try done.
    - intros [a ->]. injection E1 as <-. unfold accept_turn, over. rewrite X. by repeat destr.
    - intros [r ->]. injection E1 as <-. unfold stun_turn, over. rewrite X. by repeat destr. }
  destruct Hend as (H1 & H2 & H3 & H4). destruct (IH p1 p' P1 C1 (Hx X) R1 Hes E) as [Ia It]. split.
  - intros [Ha|[a [Hin|Hin]%elem_of_cons]]; apply Ia; [left; by apply H1|left; apply H3; by exists a|right; by exists a].
  - intros [Ha|[a [Hin|Hin]%elem_of_cons]]; apply It; [left; by apply H2|left; apply H4; by exists a|right; by exists a].
Qed.

(** Enough turns for everybody [Run] waits for: the loops take one each, every handler as
    many as it has steps left, with reads that fail because the connection is closed or
    the deadline passes. *)
Record drains p (es : list pevent) : Prop := {
  dr_accept : exists a, PAccept a ∈ es;
  dr_stun : exists r, PStun r ∈ es;
  dr_reads c : Forall (read_fails p c) es;
  dr_handlers c h : handlers (srv p) !! c = Some h ->
    (left_over (size (handlers (srv p))) h <= own_turns c es)%nat
}.

(** There always are: every read ends with its deadline. *)
Definition failing (c : conn) : pevent := PClient 0 (MkInput true false [] true) c.

Lemma drains_possible p : exists es, Forall (fun e => from_outside e = false) es /\ drains p es.
Proof.
  set (n := size (handlers (srv p))).
  set (turns := fun ch : conn * pc => replicate (left_over n ch.2) (failing ch.1)).
  set (l := map_to_list (handlers (srv p))).
  assert (Hall : forall e, e ∈ l ≫= turns -> exists c, e = failing c).
  { intros e (ch & He & _)%list_elem_of_bind. apply elem_of_replicate in He as [-> _]. by eexists. }
  exists (PAccept None :: PStun None :: l ≫= turns). split.
  - do 2 (constructor; [done|]). apply list.Forall_forall. intros e He. by destruct (Hall e He) as [c ->].
  - constructor; [exists None; by left|exists None; right; by left| |].
    + intros c. do 2 (constructor; [done|]). apply list.Forall_forall. intros e He. destruct (Hall e He) as [d ->]. by left.
    + intros c h Hc%elem_of_map_to_list. fold l in Hc. fold n. unfold own_turns. cbn [List.filter own_turn]. clear Hall.
      induction l as [|x l IH]; [by apply elem_of_nil in Hc|]. cbn [mbind list_bind].
      rewrite List.filter_app, length_app. apply elem_of_cons in Hc as [<-|Hc]; [|specialize (IH Hc); lia].
      unfold turns at 1. cbn [fst snd].
      assert (Hr : forall k, length (List.filter (own_turn c) (replicate k (failing c))) = k).
      { induction k as [|k IHk]; [done|]. cbn [replicate List.filter]. unfold failing at 1. cbn [own_turn].
        rewrite bool_decide_eq_true_2 by done. cbn [length]. by f_equal. }
      rewrite Hr. lia.
Qed.
End Shutdown.

(** ** What [Run] promises *)

Section Promises.
Context {L : NoiseLib} `{Json} `{RangeOrder}.
Context (now0 : Time) (load : string -> option Keypair) (ctrl_ok stun_ok : string -> bool) (cfg : Config).
Context (s0 : Server L) (Hnew : New now0 load ctrl_ok stun_ok cfg = Ok s0).
Implicit Types p : Process L.

Lemma New_empty : handlers s0 = ∅ /\ stopped s0 = false.
Proof.
  unfold New in Hnew. repeat (destr_in Hnew; try done). by apply Ok_inj in Hnew as <-.
Qed.

Lemma process_Sound : Sound (process s0).
Proof.
  constructor; [exact (New_inv _ _ _ _ _ _ Hnew)| |done]. intros c. cbn.
  rewrite (proj1 New_empty). by rewrite lookup_empty.
Qed.

Lemma process_phase : phase (process s0).
Proof. split; [done|]. cbn. by split_and!; [| | |apply New_empty]. Qed.

(** A process is a coordinator: whatever its goroutines do, with [Close] interrupted at any
    point and called by anyone, the registry and the handlers go through a run of
    [Coordinator]'s steps, so all that is proved of those holds of the process. *)
Theorem process_refines (es : list pevent) (p : Process L) (Hrun : prun (process s0) es = Some p) :
  exists es', srv p = Coordinator.run s0 es'.
Proof.
  assert (Hg : forall es p1 p2, prun p1 es = Some p2 -> exists es', srv p2 = Coordinator.run (srv p1) es').
  { clear. induction es as [|e es IH]; intros p1 p2 E; cbn [prun] in E; [injection E as <-; by exists []|].
    destruct (pstep p1 e) as [p3|] eqn:E3; [|done]. destruct (IH p3 p2 E) as [es' E'].
    destruct (pstep_srv p1 e p3 E3) as [Es|[e' Es]]; rewrite Es in E'; [by exists es'|by exists (e' :: es')]. }
  exact (Hg es _ _ Hrun).
Qed.

(** [C17] When [Run] returns nothing is left running: both loops and the handler of every
    connection ever accepted have returned, each connection is closed, and no client or
    session is tracked any more; and it stays that way. When [Run] alone closed the server,
    the listener and the STUN socket are closed too. *)
Theorem shutdown_complete (es es' : list pevent) (p p' : Process L)
    (Hrun : prun (process s0) es = Some p) (Hret : main p = Returned) (Hrun' : prun p es' = Some p') :
  acceptor p = Ended /\ stunner p = Ended /\
  (forall c h, handlers (srv p) !! c = Some h -> h = Done /\ c ∈ sockets (srv p)) /\
  clients (srv p) = ∅ /\ ctrlConns (srv p) = ∅ /\
  handlers (srv p') = handlers (srv p) /\ main p' = Returned /\
  (Forall (fun e => from_outside e = false) es ->
   lnOpen p = false /\ stunOpen p = false /\ closedCh p = true).
Proof.
  destruct (Sound_run es _ _ process_Sound Hrun) as [I S B].
  pose proof (proj1 (all_done_spec p) (B Hret)) as (Ha & Hs & Hd).
  destruct (idle_run es' p p' (B Hret) Hrun') as [E1 E2].
  assert (Hgone : forall c, clients (srv p) !! c = None /\ c ∉ ctrlConns (srv p)).
  { intros c. destruct (handlers (srv p) !! c) as [h|] eqn:Hc.
    - pose proof (inv_pc _ I c h Hc) as Hp. by rewrite (Hd c h Hc) in Hp.
    - by destruct (inv_new _ I c Hc) as (_ & ? & ?). }
  split_and!; try done.
  - intros c h Hc. pose proof (Hd c h Hc) as ->. split; [done|]. by apply S.
  - apply map_eq. intros c. rewrite lookup_empty. apply Hgone.
  - apply set_eq. intros c. split; [intros Hc; by destruct (Hgone c)|set_solver].
  - by apply E2.
  - intros Hes. destruct (phase_run es (process s0) process_phase eq_refl Hes) as (p1 & Er & [_ P] & _).
    rewrite Hrun in Er. injection Er as <-. rewrite Hret in P. by destruct P as (? & ? & ? & _).
Qed.

(** [C16] [Run] returns: with nobody else closing the server it never panics, and whatever
    has happened when its context ends, and whatever everybody does from then on, the
    listener and the STUN socket are closed by its seventh turn; then no call that waits on
    them succeeds, and in every order in which both loops take a turn and the handlers
    theirs, with reads that end with the connection or their deadline (there always is
    one), its next turn returns. *)
Theorem run_returns (es : list pevent) (Hes : Forall (fun e => from_outside e = false) es) :
  exists p, prun (process s0) es = Some p /\
    forall es1, Forall (fun e => from_outside e = false) es1 -> (7 <= main_turns es1)%nat ->
    exists p1, prun p (PCancel :: es1) = Some p1 /\ lnOpen p1 = false /\ stunOpen p1 = false /\
      (exists es2, Forall (fun e => from_outside e = false) es2 /\ drains p1 es2) /\
      forall es2 pick, Forall (fun e => from_outside e = false) es2 -> drains p1 es2 ->
      exists p2, prun p1 (es2 ++ [PMain pick]) = Some p2 /\ main p2 = Returned.
Proof.
  destruct (phase_run es (process s0) process_phase eq_refl Hes) as (p & E & P & C). exists p. split; [done|].
  intros es1 Hes1 H7. pose proof (Sound_run es _ _ process_Sound E) as S.
  destruct (phase_step p PCancel P C eq_refl) as (p0 & E0 & P0 & C0). pose proof (Sound_step _ _ _ S E0) as S0.
  assert (X0 : ctx p0 = true) by by injection E0 as <-.
  destruct (rank_run es1 p0 P0 C0 X0 Hes1) as (p1 & E1 & P1 & C1 & X1 & R1).
  assert (R0 : rank (main p1) = 0%nat) by (destruct (main p0) as [|[]| |]; cbn in R1; lia).
  pose proof (Sound_run es1 _ _ S0 E1) as S1. exists p1. split; [cbn [prun]; by rewrite E0|].
  assert (Hshut : lnOpen p1 = false /\ stunOpen p1 = false).
  { destruct P1 as [_ P1]. destruct (main p1) as [|[]| |]; cbn in R0; (lia || by destruct P1 as (_ & ? & ? & _)). }
  destruct Hshut as [Hln Hst]. split; [done|]. split; [done|].
  split; [apply drains_possible|]. intros es2 pick Hes2 D.
  destruct (rank_run es2 p1 P1 C1 X1 Hes2) as (p2 & E2 & P2 & C2 & X2 & R2).
  assert (Hall : all_done p2 = true).
  { apply all_done_spec. destruct (loops_end es2 p1 p2 P1 C1 X1 R0 Hes2 E2) as [La Ls].
    split; [apply La; right; apply D|]. split; [apply Ls; right; apply D|]. intros c h Hc.
    destruct (handlers (srv p1) !! c) as [h1|] eqn:Hc1.
    - destruct (winding_run (size (handlers (srv p1))) c es2 (left_over (size (handlers (srv p1))) h1) p1 p2)
        as [_ _ _ (h' & Hc' & Hle)]; [|apply D|done|].
      + constructor; [apply S1|done|done|]. by exists h1.
      + pose proof (dr_handlers _ _ D c h1 Hc1). rewrite Hc in Hc'. injection Hc' as <-.
        destruct h; cbn in Hle; (done || lia).
    - destruct (shut_handlers es2 p1 p2 Hln E2) as [_ Hno]. rewrite Hno in Hc by done. done. }
  rewrite (prun_app _ _ _ _ E2). cbn [prun pstep]. unfold run_step.
  destruct (main p2) as [|[]| |] eqn:Em2; cbn in R2; try lia.
  - rewrite Hall. by eexists.
  - by exists p2.
Qed.

(** No handler outlasts its connection for long: once the listener and its connection are
    closed, it has returned after that many steps of its own, whatever all others do: at
    most two for each handler there is, and six (a broadcast under way has its own targets). *)
Theorem closed_handler_ends (es es' : list pevent) (p p' : Process L) (c : conn) (h : pc)
    (Hrun : prun (process s0) es = Some p) (Hln : lnOpen p = false)
    (Hc : handlers (srv p) !! c = Some h) (Hsock : c ∈ sockets (srv p))
    (Hrun' : prun p es' = Some p')
    (Hturns : (left_over (size (handlers (srv p))) h <= own_turns c es')%nat) :
  handlers (srv p') !! c = Some Done.
Proof.
  destruct (Sound_run es _ _ process_Sound Hrun) as [I _ _].
  destruct (winding_run (size (handlers (srv p))) c es' (left_over (size (handlers (srv p))) h) p p') as [_ _ _ (h' & Hc' & Hle)].
  - constructor; try done. by exists h.
  - clear Hrun' Hturns. induction es' as [|e es' IH]; constructor; [|done]. destruct e; try done. intros _. by right.
  - done.
  - rewrite Hc'. f_equal. destruct h'; cbn in Hle; (done || lia).
Qed.
End Promises.

(** ** Concrete runs *)

#[local] Existing Instances Toy.lib Toy.laws Toy.xx.

Module Demo.
Import CoordinatorDemo.Demo.

(** A client that asks for the registry again and again. *)
#[local] Instance asking : Json := {
  Unmarshal l := if bool_decide (l = [x71]) then Some (MkMessage TypeQuery "" "" None None "" 0 0 0) else None
}.
#[local] Existing Instance CoordinatorDemo.Demo.order.

Definition questions : list byte := Eval vm_compute in
  match Initiate (L := Toy.lib) 1 kA (Public kS) eA true true (Reader m2 EOF) with
  | (out, Ok k) => out ++ (write_msgs k [[x71]; [x71]; [x71]]).1
  | _ => []
  end.

Definition connecting : pevent := PAccept (Some (1%nat, Reader questions EOF)).
Definition serve (n : nat) : list pevent := replicate n (PClient 2 go 1%nat).
Definition stopping : list pevent := PCancel :: replicate 7 (PMain true) ++ [PAccept None; PStun None].

(** The client is connected and answered once; then the context ends. *)
Definition served : list pevent := connecting :: serve 7 ++ stopping.
Definition down : list pevent := served ++ serve 2 ++ [PMain true].

Definition is_down (x : option (Process Toy.lib)) : bool :=
  match x with Some p => match main p with Returned => true | _ => false end | None => false end.
Lemma down_check : is_down (prun (process s0) down) = true.
Proof. vm_compute. reflexivity. Qed.
Lemma down_runs : exists p, prun (process s0) down = Some p /\ main p = Returned.
Proof.
  pose proof down_check as H. destruct (prun (process s0) down) as [p|]; [|discriminate].
  exists p. split; [reflexivity|]. unfold is_down in H. by destruct (main p).
Qed.

Definition is_served (x : option (Process Toy.lib)) : bool :=
  match x with
  | Some p => negb (lnOpen p) && bool_decide (1%nat ∈ sockets (srv p)) &&
              match handlers (srv p) !! 1%nat with Some (Reading _) => true | _ => false end
  | None => false
  end.
Lemma served_check : is_served (prun (process s0) served) = true.
Proof. vm_compute. reflexivity. Qed.
Lemma served_runs : exists p st, prun (process s0) served = Some p /\ lnOpen p = false /\
  handlers (srv p) !! 1%nat = Some (Reading st) /\ 1%nat ∈ sockets (srv p).
Proof.
  pose proof served_check as H. destruct (prun (process s0) served) as [p|]; [|discriminate].
  unfold is_served in H. destruct (handlers (srv p) !! 1%nat) as [[| | |st| | | | | | | | | |]|] eqn:E;
    rewrite ?andb_false_r in H; try discriminate.
  zbool. by exists p, st.
Qed.

Lemma ending_runs : is_Some (prun (process s0) (served ++ serve 2)).
Proof.
  assert (H : match prun (process s0) (served ++ serve 2) with Some _ => true | None => false end = true)
    by (vm_compute; reflexivity).
  destruct (prun (process s0) (served ++ serve 2)) as [p|]; [by exists p|discriminate].
Qed.

Definition is_closing (x : option (Process Toy.lib)) : bool :=
  match x with
  | Some p => match map_to_list (handlers (srv p)) with
              | [(1%nat, Reading _)] => bool_decide (1%nat ∈ sockets (srv p))
              | _ => false
              end
  | None => false
  end.
Lemma closing_check :
  is_closing (prun (process s0) ((connecting :: serve 7) ++ PCancel :: replicate 7 (PMain true))) = true.
Proof. vm_compute. reflexivity. Qed.
Lemma closing_drains p p1 :
  prun (process s0) (connecting :: serve 7) = Some p -> prun p (PCancel :: replicate 7 (PMain true)) = Some p1 ->
  drains p1 (PAccept None :: PStun None :: serve 2).
Proof.
  intros E E1. pose proof closing_check as H. rewrite (prun_app _ _ _ _ E), E1 in H. unfold is_closing in H.
  destruct (map_to_list (handlers (srv p1))) as [|[[|[|c0]] []] []] eqn:Hh; try discriminate.
  apply bool_decide_eq_true_1 in H as Hs. constructor.
  - exists None. by left.
  - exists None. right. by left.
  - intros c. do 4 (constructor; [try done; intros <-; by right|]). constructor.
  - intros c h Hc%elem_of_map_to_list. rewrite Hh in Hc. apply list_elem_of_singleton in Hc. injection Hc as -> ->.
    exact (le_n 2).
Qed.

(** A connection accepted just before the listener is closed, whose handler has not tracked
    it by the time [Close] looks at the tracked ones, is not closed: its client completes
    the handshake after the shutdown, is answered as often as it asks, and [Run] waits. *)
Example straggler :
  match prun (process s0) (connecting :: stopping ++ serve 3 ++ serve 4 ++ serve 4 ++ [PMain true]) with
  | Some p => main p = Draining /\ stopped (srv p) = true /\ 1%nat ∉ sockets (srv p) /\
              handlers (srv p) !! 1%nat = Some (Reading (Public kA)) /\ ctrlConns (srv p) = {[1%nat]}
  | None => False
  end.
Proof. vm_compute. split_and!; try done. Qed.

(** A [Close] of someone else's that passes its check before [Run]'s own has closed the
    channel: the second of them panics. *)
Example racing_closes :
  prun (process s0) [PClose 0; PCancel; PMain true; PMain true; PCloser 0; PCloser 0; PMain true] = None.
Proof. reflexivity. Qed.
End Demo.
#[local] Existing Instances Demo.asking CoordinatorDemo.Demo.order.
#[local] Opaque prun.

Example process_refines_witness : exists p es',
  prun (process CoordinatorDemo.Demo.s0) Demo.down = Some p /\ srv p = Coordinator.run CoordinatorDemo.Demo.s0 es'.
Proof.
  destruct Demo.down_runs as (p & E & _). exists p.
  destruct (process_refines CoordinatorDemo.Demo.s0 Demo.down p E) as (es' & E').
  exists es'. split; [exact E|exact E'].
Defined.

Example shutdown_complete_witness : exists p,
  prun (process CoordinatorDemo.Demo.s0) Demo.down = Some p /\ main p = Returned /\
  clients (srv p) = ∅ /\ stunOpen p = false.
Proof.
  destruct Demo.down_runs as (p & E & Hm). exists p. split; [exact E|]. split; [exact Hm|].
  destruct (shutdown_complete _ _ _ _ _ _ CoordinatorDemo.Demo.new_ok Demo.down [] p p E Hm eq_refl)
    as (_ & _ & _ & Hc & _ & _ & _ & Hl).
  split; [exact Hc|]. apply Hl. repeat constructor.
Defined.

(** The context ends while the client, answered once, could ask again; [Run] closes the
    sockets, the loops end, and the handler finds its connection closed. *)
Example run_returns_witness : exists p p1 p2,
  prun (process CoordinatorDemo.Demo.s0) (Demo.connecting :: Demo.serve 7) = Some p /\
  prun p (PCancel :: replicate 7 (PMain true)) = Some p1 /\ lnOpen p1 = false /\ stunOpen p1 = false /\
  prun p1 ((PAccept None :: PStun None :: Demo.serve 2) ++ [PMain true]) = Some p2 /\ main p2 = Returned.
Proof.
  destruct (run_returns _ _ _ _ _ _ CoordinatorDemo.Demo.new_ok (Demo.connecting :: Demo.serve 7) ltac:(repeat constructor))
    as (p & E & H).
  destruct (H (replicate 7 (PMain true)) ltac:(repeat constructor) (le_n 7)) as (p1 & E1 & Hl & Hs & _ & H2).
  destruct (H2 (PAccept None :: PStun None :: Demo.serve 2) true ltac:(repeat constructor)) as (p2 & E2 & Hm).
  - by apply (Demo.closing_drains p).
  - exists p, p1, p2. split; [exact E|]. split; [exact E1|]. split; [exact Hl|]. split; [exact Hs|].
    split; [exact E2|exact Hm].
Defined.

Example closed_handler_ends_witness : exists p p',
  prun (process CoordinatorDemo.Demo.s0) Demo.served = Some p /\ prun p (Demo.serve 2) = Some p' /\
  handlers (srv p') !! 1%nat = Some Done.
Proof.
  destruct Demo.served_runs as (p & st & E & Hln & Hc & Hs).
  assert (Hp : is_Some (prun p (Demo.serve 2))) by (rewrite <- (prun_app _ _ _ _ E); exact Demo.ending_runs).
  destruct Hp as [p' E']. exists p, p'. split; [exact E|]. split; [exact E'|].
  apply (closed_handler_ends _ _ _ _ _ _ CoordinatorDemo.Demo.new_ok Demo.served (Demo.serve 2) p p' 1%nat (Reading st) E Hln Hc Hs E').
  exact (le_n 2).
Defined.
