(* ===== verification/Nat.v ===== *)
(** * The NAT simulator (src/internal/nat/nat.go)

    The envelopes of the inside door, and the box: its mapping table, the sockets it
    opens and closes, and what it lets through in both directions. Sockets are numbered
    in the order they are opened ([0] is the door); binding a socket, and whether a write
    succeeds, are inputs. *)

From S2P Require Import Prelude GoBytes GoRuntime GoNet.

Inductive Behavior := BehaviorFullCone | BehaviorAddressRestricted | BehaviorSymmetric.
#[export] Instance Behavior_eq_dec : EqDecision Behavior.
Proof. solve_decision. Defined.

Definition runBufferSize : Z := 65536.
Definition maxEnvelopeName : Z := 1024.
Definition cleanupInterval : Duration := Second.
Definition outboundMagic : byte := x52.
Definition inboundMagic : byte := x53.

Inductive nat_err :=
| PublicAddrRequired | InsideDoorRequired | PrivateHostRequired | PrivateHostIPNil
| BindDoor | BindPublic
| EmptySource | SourceTooLong (n : Z) | NilDestination | DestinationTooLong (n : Z)
| EnvelopeTooShort | BadMagic (b : byte) | EmptyDestination | Truncated
| InvalidAddress (s : string)
| BoxClosed | AllocateSocket | NoPublicSocket.

(** ** Envelopes *)

(** [ipKey]. *)
Definition ipKey (ip : list byte) : string :=
  match To4 ip with
  | Some v4 => IP_String v4
  | None => match To16 ip with Some v6 => IP_String v6 | None => "" end
  end.

Definition addrKey (a : option UDPAddr) : string :=
  match a with
  | None => ""
  | Some a => JoinHostPort (ipKey (IP a)) (Itoa (Port a))
  end.

Definition appendU16 (out : list byte) (v : Z) : list byte :=
  out ++ [byte_of (Z.shiftr v 8); byte_of v].

Definition WrapOutbound (srcID : string) (dst : option UDPAddr) (frame : list byte)
    : res nat_err (list byte) :=
  if bool_decide (srcID = ""%string) then Err EmptySource
  else if slen srcID >? maxEnvelopeName then Err (SourceTooLong (slen srcID))
  else
    match dst with
    | None => Err NilDestination
    | Some dst =>
        if len (IP dst) =? 0 then Err NilDestination
        else
          let dstStr := addr_String dst in
          if slen dstStr >? maxEnvelopeName then Err (DestinationTooLong (slen dstStr))
          else
            let out := [outboundMagic] in
            let out := appendU16 out (slen srcID) ++ bytes_of_string srcID in
            let out := appendU16 out (slen dstStr) ++ bytes_of_string dstStr in
            Ok (out ++ frame)
    end.

Section Unwrap.
(** The host's part of address resolution. *)
Context (other : string -> option UDPAddr).

Definition UnwrapOutbound (pkt : list byte) : res nat_err (string * UDPAddr * list byte) :=
  if len pkt <? 1 + 2 + 1 + 2 + 1 then Err EnvelopeTooShort
  else if negb (bool_decide (hd x00 pkt = outboundMagic)) then Err (BadMagic (hd x00 pkt))
  else
    let p := drop 1 pkt in
    let srcLen := be_get (take 2 p) in
    let p := drop 2 p in
    if srcLen =? 0 then Err EmptySource
    else if srcLen >? maxEnvelopeName then Err (SourceTooLong srcLen)
    else if len p <? srcLen + 2 then Err Truncated
    else
      let srcID := string_of_bytes (take (Z.to_nat srcLen) p) in
      let p := drop (Z.to_nat srcLen) p in
      let dstLen := be_get (take 2 p) in
      let p := drop 2 p in
      if dstLen =? 0 then Err EmptyDestination
      else if dstLen >? maxEnvelopeName then Err (DestinationTooLong dstLen)
      else if len p <? dstLen then Err Truncated
      else
        let dstStr := string_of_bytes (take (Z.to_nat dstLen) p) in
        match ResolveUDPAddr other dstStr with
        | None => Err (InvalidAddress dstStr)
        | Some dst => Ok (srcID, dst, drop (Z.to_nat dstLen) p)
        end.

Definition UnwrapInbound (pkt : list byte) : res nat_err (UDPAddr * list byte) :=
  if len pkt <? 1 + 2 + 1 then Err EnvelopeTooShort
  else if negb (bool_decide (hd x00 pkt = inboundMagic)) then Err (BadMagic (hd x00 pkt))
  else
    let srcLen := be_get (take 2 (drop 1 pkt)) in
    if srcLen =? 0 then Err EmptySource
    else if srcLen >? maxEnvelopeName then Err (SourceTooLong srcLen)
    else
      let p := drop 3 pkt in
      if len p <? srcLen then Err Truncated
      else
        let s := string_of_bytes (take (Z.to_nat srcLen) p) in
        match ResolveUDPAddr other s with
        | None => Err (InvalidAddress s)
        | Some src => Ok (src, drop (Z.to_nat srcLen) p)
        end.
End Unwrap.

Definition WrapInbound (src : UDPAddr) (payload : list byte) : list byte :=
  let s := addr_String src in
  appendU16 [inboundMagic] (slen s) ++ bytes_of_string s ++ payload.

(** ** [ParseBehavior] *)

(** [strings.ToLower] as far as a comparison with an ASCII word can tell: the ASCII
    letters, and the two other characters whose lower case is an ASCII letter (U+0130 and
    U+212A). *)
Fixpoint ToLower (l : list byte) : list byte :=
  match l with
  | xc4 :: xb0 :: l => x69 :: ToLower l
  | xe2 :: x84 :: xaa :: l => x6b :: ToLower l
  | b :: l => (if (65 <=? u8 b) && (u8 b <=? 90) then byte_of (u8 b + 32) else b) :: ToLower l
  | [] => []
  end.

Definition ParseBehavior (s : string) : option Behavior :=
  let w := string_of_bytes (ToLower (TrimSpace (bytes_of_string s))) in
  if bool_decide (w = "fullcone"%string) then Some BehaviorFullCone
  else if bool_decide (w = "restricted"%string) then Some BehaviorAddressRestricted
  else if bool_decide (w = "symmetric"%string) then Some BehaviorSymmetric
  else None.

Example ParseBehavior_case : ParseBehavior " FullCone" = Some BehaviorFullCone.
Proof. reflexivity. Qed.

(** ** The box *)

Abbreviation sock := nat.

Record Config := MkConfig {
  Name : string;
  Behaviour : Behavior;             (* field [Behavior] *)
  PublicAddr : option UDPAddr;
  InsideDoor : option UDPAddr;
  PrivateHost : option UDPAddr;
  MappingTTL : Duration
}.

Record Stats := MkStats { Outbound : Z; Inbound : Z; Dropped : Z; Mappings : Z }.

Abbreviation mappingKey := (string * Z)%type.

(** The fields the code never sets ([expired], [purgedConn]) are left out. *)
Record mappingEntry := MkEntry {
  pubConn : option sock;
  pubPort : Z;
  dstIP : string;
  dstPort : Z;
  contactIP : option (gset string);  (* a nil map, or its keys that are [true] *)
  lastSeen : Time
}.
#[export] Instance mappingEntry_eta : Eta mappingEntry := fun e =>
  MkEntry (pubConn e) (pubPort e) (dstIP e) (dstPort e) (contactIP e) (lastSeen e).

Record Box := MkBox {
  cfg : Config;
  doorConn : sock;
  fixedConn : option sock;
  fixedAddrPort : Z;                 (* the port [fixedConn] is bound to *)
  privateHostKey : string;
  mappings : gmap mappingKey mappingEntry;
  stats : Stats;                     (* [Mappings] is not used here *)
  closed : bool;
  opened : nat;                      (* sockets opened so far *)
  live : gset sock                   (* the sockets that are open *)
}.
#[export] Instance Box_eta : Eta Box := fun b =>
  MkBox (cfg b) (doorConn b) (fixedConn b) (fixedAddrPort b) (privateHostKey b) (mappings b)
    (stats b) (closed b) (opened b) (live b).

(** [New]; [listen] is the outcome of binding a UDP socket: the port, or an error. *)
Definition New (listen : string -> option Z) (c : Config) : res nat_err Box :=
  match PublicAddr c, InsideDoor c, PrivateHost c with
  | None, _, _ => Err PublicAddrRequired
  | _, None, _ => Err InsideDoorRequired
  | _, _, None => Err PrivateHostRequired
  | Some pub, Some door, Some host =>
      if len (IP host) =? 0 then Err PrivateHostIPNil
      else
        match listen (addr_String door) with
        | None => Err BindDoor
        | Some _ =>
            let b := MkBox c 0%nat None 0 (addrKey (Some host)) ∅ (MkStats 0 0 0 0) false
                       1 {[0%nat]} in
            if negb (bool_decide (Behaviour c = BehaviorSymmetric)) then
              match listen (addr_String pub) with
              | None => Err BindPublic
              | Some port =>
                  Ok (b <| fixedConn := Some 1%nat |> <| fixedAddrPort := port |>
                        <| opened := 2%nat |> <| live := {[0%nat; 1%nat]} |>)
              end
            else Ok b
        end
  end.

Definition incOutbound b : Box :=
  b <| stats := MkStats (u64 (Outbound (stats b) + 1)) (Inbound (stats b)) (Dropped (stats b)) 0 |>.
Definition incInbound b : Box :=
  b <| stats := MkStats (Outbound (stats b)) (u64 (Inbound (stats b) + 1)) (Dropped (stats b)) 0 |>.
Definition incDropped b : Box :=
  b <| stats := MkStats (Outbound (stats b)) (Inbound (stats b)) (u64 (Dropped (stats b) + 1)) 0 |>.

Definition lastSeenExpired (e : mappingEntry) (now : Time) (ttl : Duration) : bool :=
  (ttl >? 0) && (Sub now (lastSeen e) >? ttl).

(** [reclaimLocked]: an expired mapping's own socket is closed, the mapping removed. *)
Definition reclaimLocked (k : mappingKey) (e : mappingEntry) b : Box :=
  let live' :=
    match pubConn e with
    | Some s => if bool_decide (pubConn e = fixedConn b) then live b else live b ∖ {[s]}
    | None => live b
    end in
  b <| live := live' |> <| mappings := delete k (mappings b) |>.

(** Reclaims the expired mappings ([cleanup], [Stats]). The range visits each once, and
    reclaiming one does not touch the others. *)
Definition reclaim_expired (now : Time) b : Box :=
  fold_right (fun ke b => reclaimLocked ke.1 ke.2 b) b
    (filter (fun ke => lastSeenExpired ke.2 now (MappingTTL (cfg b)) = true)
       (map_to_list (mappings b))).

Definition cleanup (now : Time) b : Box :=
  if MappingTTL (cfg b) <=? 0 then b else reclaim_expired now b.

Definition Box_Stats (now : Time) b : Stats * Box :=
  let b := reclaim_expired now b in
  (MkStats (Outbound (stats b)) (Inbound (stats b)) (Dropped (stats b))
     (Z.of_nat (size (mappings b))), b).

(** The mapping of a flow; an expired one is reclaimed. *)
Definition current (key : mappingKey) (now : Time) b : option mappingEntry * Box :=
  match mappings b !! key with
  | Some e =>
      if (MappingTTL (cfg b) >? 0) && (Sub now (lastSeen e) >? MappingTTL (cfg b))
      then (None, reclaimLocked key e b)
      else (Some e, b)
  | None => (None, b)
  end.

(** [outboundSocket], its critical section; [bound] is the port a fresh socket gets, if
    binding one succeeds. [None] is a panic (an entry written into a nil map). *)
Definition outboundSocket (dst : UDPAddr) (now : Time) (bound : option Z) b
    : option (res nat_err sock * Box) :=
  let symmetric := bool_decide (Behaviour (cfg b) = BehaviorSymmetric) in
  let restricted := bool_decide (Behaviour (cfg b) = BehaviorAddressRestricted) in
  let key : mappingKey := if symmetric then (ipKey (IP dst), Port dst) else (""%string, 0) in
  let '(e, b) := current key now b in
  let finish e b :=
    Some (match pubConn e with Some s => Ok s | None => Err NoPublicSocket end,
          b <| mappings := <[key := e]> (mappings b) |>) in
  match e with
  | Some e =>
      let e := e <| lastSeen := now |> in
      if restricted then
        match contactIP e with
        | None => None
        | Some ips => finish (e <| contactIP := Some ({[ipKey (IP dst)]} ∪ ips) |>) b
        end
      else finish e b
  | None =>
      let e := MkEntry None 0 key.1 key.2 None now in
      if negb symmetric then
        let e := e <| pubConn := fixedConn b |> <| pubPort := fixedAddrPort b |> in
        finish (if restricted then e <| contactIP := Some {[ipKey (IP dst)]} |> else e) b
      else if closed b then Some (Err BoxClosed, b)
      else
        match bound with
        | None => Some (Err AllocateSocket, b)
        | Some port =>
            let s := opened b in
            finish (e <| pubConn := Some s |> <| pubPort := port |>
                      <| contactIP := Some {[ipKey (IP dst)]} |>)
              (b <| opened := S s |> <| live := {[s]} ∪ live b |>)
        end
  end.

(** A datagram the box emits: from which socket, to whom. *)
Record datagram := MkDatagram { from_sock : sock; to : UDPAddr; bytes : list byte }.

Section Box.
(** The host's part of address resolution. *)
Context (other : string -> option UDPAddr).

(** [handleOutbound]: what is written, if anything is. [wrote] says whether the write
    succeeds. *)
Definition handleOutbound (pkt : list byte) (src : option UDPAddr) (now : Time)
    (bound : option Z) (wrote : bool) b : option (option datagram * Box) :=
  if negb (bool_decide (addrKey src = privateHostKey b)) then Some (None, incDropped b)
  else
    match UnwrapOutbound other pkt with
    | Err _ => Some (None, incDropped b)
    | Ok (_, dst, inner) =>
        '(r, b) ← outboundSocket dst now bound b;
        match r with
        | Err _ => Some (None, incDropped b)
        | Ok s =>
            if wrote then Some (Some (MkDatagram s dst inner), incOutbound b)
            else Some (None, incDropped b)
        end
    end.

Definition lookupInbound (s : sock) (src : UDPAddr) (now : Time) b : bool :=
  match Behaviour (cfg b) with
  | BehaviorSymmetric =>
      match filter (fun ke : mappingKey * mappingEntry => pubConn ke.2 = Some s)
              (map_to_list (mappings b)) with
      | (_, e) :: _ =>
          if lastSeenExpired e now (MappingTTL (cfg b)) then false
          else bool_decide (dstIP e = ipKey (IP src)) && (dstPort e =? Port src)
      | [] => false
      end
  | bh =>
      match mappings b !! (""%string, 0) with
      | None => false
      | Some e =>
          if lastSeenExpired e now (MappingTTL (cfg b)) then false
          else match bh with
               | BehaviorAddressRestricted =>
                   bool_decide (ipKey (IP src) ∈ default ∅ (contactIP e))
               | _ => true
               end
      end
  end.

(** [handleInbound]. [PrivateHost] is set in every box [New] makes. *)
Definition handleInbound (s : sock) (pkt : list byte) (src : UDPAddr) (now : Time)
    (wrote : bool) b : option datagram * Box :=
  if negb (lookupInbound s src now b) then (None, incDropped b)
  else
    match PrivateHost (cfg b), wrote with
    | Some host, true => (Some (MkDatagram s host (WrapInbound src pkt)), incInbound b)
    | _, _ => (None, incDropped b)
    end.

(** [Close]: whether it returns an error, given that closing an open socket never fails
    and closing a closed one always does. *)
Definition closeConn (c : option sock) (live : gset sock) : bool * gset sock :=
  match c with
  | None => (false, live)
  | Some s => (negb (bool_decide (s ∈ live)), live ∖ {[s]})
  end.

Definition Close b : bool * Box :=
  if closed b then (false, b)
  else
    let '(e1, l) := closeConn (Some (doorConn b)) (live b) in
    let '(e2, l) := closeConn (fixedConn b) l in
    let '(e3, l) :=
      fold_right (fun (ke : mappingKey * mappingEntry) '(e, l) =>
                    let '(e', l) := closeConn (pubConn ke.2) l in (e || e', l))
        (false, l) (map_to_list (mappings b)) in
    (e1 || e2 || e3, b <| closed := true |> <| live := l |> <| mappings := ∅ |>).

(** [Public]. *)
Definition Public (localAddr : UDPAddr) b : option UDPAddr :=
  match fixedConn b with
  | Some _ => Some localAddr
  | None => (fun a => MkUDPAddr (IP a) 0 "") <$> PublicAddr (cfg b)
  end.

(** ** Runs: the goroutines' steps, interleaved *)

Inductive event :=
| EvOut (now : Time) (pkt : list byte) (src : option UDPAddr) (bound : option Z) (wrote : bool)
| EvIn (now : Time) (s : sock) (pkt : list byte) (src : UDPAddr) (wrote : bool)
| EvReadError                       (* a read that fails without the socket being closed *)
| EvCleanup (now : Time)
| EvStats (now : Time)
| EvClose.

Definition step b (e : event) : option (option datagram * Box) :=
  match e with
  | EvOut now pkt src bound wrote => handleOutbound pkt src now bound wrote b
  | EvIn now s pkt src wrote => Some (handleInbound s pkt src now wrote b)
  | EvReadError => Some (None, incDropped b)
  | EvCleanup now => Some (None, cleanup now b)
  | EvStats now => Some (None, (Box_Stats now b).2)
  | EvClose => Some (None, (Close b).2)
  end.

Fixpoint run b (es : list event) : option Box :=
  match es with
  | [] => Some b
  | e :: es => '(_, b) ← step b e; run b es
  end.
End Box.
