(* ===== verification/NatSafety.v ===== *)
(** * What the NAT simulator guarantees (src/internal/nat/nat.go)

    The invariant of the box: its mapping table and its accounting of sockets. *)

From S2P Require Import Prelude GoBytes GoRuntime GoNet Nat.

Definition symmetric (b : Box) : bool := bool_decide (Behaviour (cfg b) = BehaviorSymmetric).
Definition restricted (b : Box) : bool := bool_decide (Behaviour (cfg b) = BehaviorAddressRestricted).

(** The one key of a box that is not symmetric. *)
Definition onlyKey : mappingKey := (""%string, 0).

Definition entry_ok (b : Box) (k : mappingKey) (e : mappingEntry) : Prop :=
  if symmetric b
  then dstIP e = k.1 /\ dstPort e = k.2 /\ exists s, pubConn e = Some s /\ (0 < s < opened b)%nat
  else k = onlyKey /\ pubConn e = fixedConn b /\ (restricted b = true -> is_Some (contactIP e)).

(** The sockets of the mappings. *)
Definition mapped (b : Box) (s : sock) : Prop :=
  exists k e, mappings b !! k = Some e /\ pubConn e = Some s.

Record Inv (b : Box) : Prop := {
  inv_door : doorConn b = 0%nat;
  inv_opened : (0 < opened b)%nat;
  inv_fixed : fixedConn b = if symmetric b then None else Some 1%nat;
  inv_fixed_opened : symmetric b = false -> (1 < opened b)%nat;
  inv_entry k e : mappings b !! k = Some e -> entry_ok b k e;
  inv_inj k k' e e' : symmetric b = true ->
    mappings b !! k = Some e -> mappings b !! k' = Some e' -> pubConn e = pubConn e' -> k = k';
  inv_live : closed b = false ->
    forall s, s ∈ live b <-> s = doorConn b \/ fixedConn b = Some s \/ mapped b s;
  inv_closed : closed b = true -> live b = ∅
}.

(** Updates of the counters change nothing else. *)
Lemma Inv_stats b st : Inv b -> Inv (b <| stats := st |>).
Proof. intros []. by constructor. Qed.

Lemma inc_Inv b : Inv b -> Inv (incOutbound b) /\ Inv (incInbound b) /\ Inv (incDropped b).
Proof. intros I. split_and!; by apply Inv_stats. Qed.

(** ** Reclaiming *)

(** Everything but the mappings and the open sockets. *)
Definition same_box (b b' : Box) : Prop :=
  cfg b' = cfg b /\ doorConn b' = doorConn b /\ fixedConn b' = fixedConn b /\
  fixedAddrPort b' = fixedAddrPort b /\ privateHostKey b' = privateHostKey b /\
  closed b' = closed b /\ opened b' = opened b /\ stats b' = stats b.

Lemma same_box_trans a b c : same_box a b -> same_box b c -> same_box a c.
Proof. unfold same_box. intuition congruence. Qed.

Lemma reclaim_same k e b : same_box b (reclaimLocked k e b).
Proof. done. Qed.

Lemma mapped_socket b k e s :
  Inv b -> symmetric b = true -> mappings b !! k = Some e -> pubConn e = Some s -> (0 < s)%nat.
Proof.
  intros I Hs He Hp. pose proof (inv_entry _ I k e He) as Ho. unfold entry_ok in Ho.
  rewrite Hs in Ho. destruct Ho as (_ & _ & s' & Hp' & Hlt). simplify_eq. lia.
Qed.

Lemma reclaim_Inv k e b : Inv b -> mappings b !! k = Some e -> Inv (reclaimLocked k e b).
Proof.
  intros I He. pose proof (inv_entry _ I k e He) as Ho.
  constructor; try apply I; try done.
  - intros k' e' He'. cbn in He'. apply lookup_delete_Some in He' as [_ He'].
    exact (inv_entry _ I k' e' He').
  - intros k1 k2 e1 e2 Hs H1 H2 E. cbn in H1, H2.
    apply lookup_delete_Some in H1 as [_ H1]. apply lookup_delete_Some in H2 as [_ H2].
    exact (inv_inj _ I k1 k2 e1 e2 Hs H1 H2 E).
  - intros Hc s. pose proof (inv_live _ I Hc s) as Hl.
    assert (Hm : mapped (reclaimLocked k e b) s <-> mapped b s /\ (symmetric b = true -> pubConn e <> Some s) /\
                 (symmetric b = false -> False)).
    { split.
      - intros (k' & e' & He' & Hp). cbn in He'. apply lookup_delete_Some in He' as [Hne He'].
        split_and!; [by exists k', e'| |].
        + intros Hs Hp'. apply Hne. symmetry.
          apply (inv_inj _ I k' k e' e Hs He' He). congruence.
        + intros Hs. apply Hne. pose proof (inv_entry _ I k' e' He') as Ho'.
          unfold entry_ok in Ho, Ho'. rewrite Hs in Ho, Ho'. destruct Ho, Ho'. congruence.
      - intros ((k' & e' & He' & Hp) & H1 & H2). exists k', e'. split; [|done].
        cbn. apply lookup_delete_Some. split; [|done]. intros ->. simplify_eq.
        destruct (symmetric b) eqn:Hs; [by apply H1|by apply H2]. }
    rewrite Hm. cbn. unfold entry_ok in Ho. destruct (symmetric b) eqn:Hs.
    + destruct Ho as (_ & _ & s' & Hp & Hlt). rewrite Hp.
      pose proof (inv_fixed _ I) as Hf. rewrite Hs in Hf. rewrite Hf in *.
      rewrite bool_decide_eq_false_2 by done. pose proof (inv_door _ I) as Hd.
      rewrite elem_of_difference, elem_of_singleton, Hl. split.
      * intros [[->|[|Hx]] Hne]; [by left|done|]. right. right. split; [done|].
        split; [|done]. intros _. congruence.
      * intros [->|[|(Hx & H1 & _)]]; [split; [by left|lia]|done|]. specialize (H1 eq_refl).
        split; [by right; right|congruence].
    + destruct Ho as (-> & Hp & _). pose proof (inv_fixed _ I) as Hf. rewrite Hs in Hf.
      rewrite Hp, Hf in *. rewrite bool_decide_eq_true_2 by done. rewrite Hl.
      split; intros [|[|H3]]; auto.
      * destruct H3 as (k' & e' & He' & Hp'). pose proof (inv_entry _ I k' e' He') as Ho'.
        unfold entry_ok in Ho'. rewrite Hs in Ho'. destruct Ho' as (_ & E & _). right. left. congruence.
      * by destruct H3 as (_ & _ & H3).
  - intros Hc. cbn in Hc. cbn. rewrite (inv_closed _ I Hc).
    destruct (pubConn e); [|done]. case_bool_decide; set_solver.
Qed.

(** A sequence of reclaims, of mappings that are there. *)
Lemma reclaim_fold b l :
  Inv b -> NoDup l.*1 -> (forall k e, (k, e) ∈ l -> mappings b !! k = Some e) ->
  let b' := fold_right (fun ke b => reclaimLocked ke.1 ke.2 b) b l in
  Inv b' /\ same_box b b' /\
  forall k, mappings b' !! k = if bool_decide (k ∈ l.*1) then None else mappings b !! k.
Proof.
  intros I. induction l as [|[k e] l IH]; intros Hnd Hin; [by split_and!|].
  cbn [fmap list_fmap fst] in Hnd. apply list.NoDup_cons in Hnd as [Hk Hnd].
  destruct IH as (I' & S' & L'); [done|intros k' e' Hx; apply Hin; by right|].
  cbn [fold_right fst snd]. set (b' := fold_right _ _ _) in *.
  assert (He : mappings b' !! k = Some e).
  { rewrite L', bool_decide_eq_false_2 by done. apply Hin. by left. }
  split_and!; [by apply reclaim_Inv|by apply (same_box_trans _ _ _ S')|].
  intros k'. cbn. destruct (decide (k = k')) as [->|Hne].
  - rewrite lookup_delete_eq, bool_decide_eq_true_2 by by left. done.
  - rewrite lookup_delete_ne, L' by done.
    rewrite (bool_decide_ext (k' ∈ k :: l.*1) (k' ∈ l.*1)); [done|].
    rewrite elem_of_cons. split; [by intros [->|]|by right].
Qed.

Lemma reclaim_expired_spec now b :
  Inv b -> let b' := reclaim_expired now b in
  Inv b' /\ same_box b b' /\
  forall k, mappings b' !! k =
    match mappings b !! k with
    | Some e => if lastSeenExpired e now (MappingTTL (cfg b)) then None else Some e
    | None => None
    end.
Proof.
  intros I b'. unfold b', reclaim_expired. set (l := filter _ _).
  assert (Hin : forall k e, (k, e) ∈ l <->
            mappings b !! k = Some e /\ lastSeenExpired e now (MappingTTL (cfg b)) = true).
  { intros k e. unfold l. rewrite list_elem_of_filter, elem_of_map_to_list. cbn. tauto. }
  destruct (reclaim_fold b l I) as (I' & S' & L').
  - unfold l. eapply sublist_NoDup; [apply (NoDup_fst_map_to_list (mappings b))|].
    apply fmap_sublist, sublist_filter.
  - intros k e Hx. by apply Hin.
  - split_and!; [done|done|]. intros k. rewrite L'.
    case_bool_decide as Hk.
    + apply list_elem_of_fmap in Hk as ([k' e] & -> & Hx). apply Hin in Hx as [H1 H2]. cbn [fst]. by rewrite H1, H2.
    + destruct (mappings b !! k) as [e|] eqn:He; [|done].
      destruct (lastSeenExpired _ _ _) eqn:Ex; [|done]. exfalso. apply Hk.
      apply list_elem_of_fmap. exists (k, e). split; [done|]. by apply Hin.
Qed.

(** ** Outbound *)

(** The mapping of a key, unless it has expired. *)
Definition alive (now : Time) (b : Box) (k : mappingKey) : option mappingEntry :=
  match mappings b !! k with
  | Some e => if lastSeenExpired e now (MappingTTL (cfg b)) then None else Some e
  | None => None
  end.

(** The key of an outbound flow. *)
Definition keyOf (b : Box) (dst : UDPAddr) : mappingKey :=
  if symmetric b then (ipKey (IP dst), Port dst) else onlyKey.

Lemma entry_ok_same b b' k e :
  cfg b' = cfg b -> fixedConn b' = fixedConn b -> (opened b <= opened b')%nat ->
  entry_ok b k e -> entry_ok b' k e.
Proof.
  intros Hc Hf Ho. unfold entry_ok, symmetric, restricted. rewrite Hc, Hf.
  destruct (bool_decide _); [|done]. intros (E1 & E2 & s & E3 & E4). split_and!; try done.
  exists s. split; [done|lia].
Qed.

(** An entry replaced by one with the same socket. *)
Lemma Inv_update b k e0 e :
  Inv b -> mappings b !! k = Some e0 -> pubConn e = pubConn e0 -> entry_ok b k e ->
  Inv (b <| mappings := <[k := e]> (mappings b) |>).
Proof.
  intros I He0 Hp Ho.
  assert (Hback : forall k' e', <[k := e]> (mappings b) !! k' = Some e' ->
            exists e1, mappings b !! k' = Some e1 /\ pubConn e' = pubConn e1).
  { intros k' e' H. apply lookup_insert_Some in H as [[<- <-]|[_ H]]; eauto. }
  constructor; try apply I.
  - intros k' e' H. cbn in H. apply lookup_insert_Some in H as [[<- <-]|[_ H]]; [done|].
    exact (inv_entry _ I k' e' H).
  - intros k1 k2 e1 e2 Hs H1 H2 E. cbn in H1, H2.
    destruct (Hback _ _ H1) as (e1' & H1' & E1). destruct (Hback _ _ H2) as (e2' & H2' & E2).
    apply (inv_inj _ I k1 k2 e1' e2' Hs H1' H2'). congruence.
  - intros Hc s. pose proof (inv_live _ I Hc s) as Hl.
    assert (Hm : mapped (b <| mappings := <[k := e]> (mappings b) |>) s <-> mapped b s).
    { split.
      - intros (k' & e' & H & Hs). destruct (Hback _ _ H) as (e1 & H1 & E1). exists k', e1. split; congruence.
      - intros (k' & e' & H & Hs). destruct (decide (k = k')) as [->|Hne].
        + exists k', e. cbn. rewrite lookup_insert_eq. split; [done|]. congruence.
        + exists k', e'. cbn. by rewrite lookup_insert_ne. }
    rewrite Hm. exact Hl.
Qed.

Lemma Inv_insert_fixed b k e :
  Inv b -> symmetric b = false -> entry_ok b k e ->
  Inv (b <| mappings := <[k := e]> (mappings b) |>).
Proof.
  intros I Hs Ho. constructor; try apply I.
  - intros k' e' H. cbn in H. apply lookup_insert_Some in H as [[<- <-]|[_ H]]; [done|].
    exact (inv_entry _ I k' e' H).
  - intros k1 k2 e1 e2 Hs'. exfalso. change (symmetric b = true) in Hs'. congruence.
  - intros Hc s. pose proof (inv_live _ I Hc s) as Hl. cbn. rewrite Hl.
    assert (Hf : forall b', Inv b -> (exists k e, entry_ok b k e /\ pubConn e = Some s /\ b' = b) ->
              fixedConn b = Some s).
    { intros b' _ (k' & e' & Ho' & Hp & _). unfold entry_ok in Ho'. rewrite Hs in Ho'.
      destruct Ho' as (_ & E & _). congruence. }
    split; intros [|[|(k' & e' & H & Hp)]]; auto; right; left; apply (Hf b I).
    + exists k', e'. split_and!; try done. exact (inv_entry _ I k' e' H).
    + cbn in H. apply lookup_insert_Some in H as [[<- <-]|[_ H]]; [by exists k, e|].
      exists k', e'. split_and!; try done. exact (inv_entry _ I k' e' H).
Qed.

(** A symmetric box opens a socket for a new mapping. *)
Lemma Inv_insert_sym b k e :
  Inv b -> symmetric b = true -> closed b = false -> mappings b !! k = None ->
  dstIP e = k.1 -> dstPort e = k.2 -> pubConn e = Some (opened b) ->
  Inv (b <| opened := S (opened b) |> <| live := {[opened b]} ∪ live b |>
         <| mappings := <[k := e]> (mappings b) |>).
Proof.
  intros I Hs Hc Hk E1 E2 Hp. pose proof (inv_opened _ I).
  assert (Hold : forall k' e', mappings b !! k' = Some e' -> pubConn e' <> Some (opened b)).
  { intros k' e' H' Hp'. pose proof (inv_entry _ I k' e' H') as Ho. unfold entry_ok in Ho.
    rewrite Hs in Ho. destruct Ho as (_ & _ & s & Hs' & Hlt). rewrite Hp' in Hs'.
    injection Hs' as <-. lia. }
  constructor; try apply I; cbn; try lia.
  - intros k' e' H'. apply lookup_insert_Some in H' as [[<- <-]|[_ H']].
    + unfold entry_ok. change (symmetric _) with (symmetric b). rewrite Hs. split_and!; try done.
      exists (opened b). cbn. split; [done|lia].
    + eapply entry_ok_same; [..|exact (inv_entry _ I k' e' H')]; cbn; try done. lia.
  - intros k1 k2 e1 e2 _ H1 H2 E.
    apply lookup_insert_Some in H1 as [[<- <-]|[N1 H1]], H2 as [[<- <-]|[N2 H2]]; try done.
    + exfalso. apply (Hold _ _ H2). congruence.
    + exfalso. apply (Hold _ _ H1). congruence.
    + exact (inv_inj _ I k1 k2 e1 e2 Hs H1 H2 E).
  - intros _ s. pose proof (inv_live _ I Hc s) as Hl. rewrite elem_of_union, elem_of_singleton, Hl.
    split.
    + intros [->|[|[|(k' & e' & H' & Hp')]]]; auto.
      * right. right. exists k, e. cbn. by rewrite lookup_insert_eq.
      * right. right. exists k', e'. cbn. rewrite lookup_insert_ne; [done|]. intros ->. congruence.
    + intros [|[|(k' & e' & H' & Hp')]]; auto. cbn in H'.
      apply lookup_insert_Some in H' as [[<- <-]|[_ H']]; [left; congruence|].
      right. right. right. by exists k', e'.
  - congruence.
Qed.

(** Everything a step of the box never changes. *)
Definition same_conf (b b' : Box) : Prop :=
  cfg b' = cfg b /\ fixedConn b' = fixedConn b /\ privateHostKey b' = privateHostKey b.

(** The addresses contacted through the current mapping. *)
Definition contacts (now : Time) (b : Box) (k : mappingKey) : gset string :=
  match alive now b k with Some e => default ∅ (contactIP e) | None => ∅ end.

(** The mapping found: one that has expired is reclaimed first. *)
Lemma current_spec now b k :
  Inv b -> exists b1, current k now b = (alive now b k, b1) /\ Inv b1 /\ same_box b b1 /\
    mappings b1 !! k = alive now b k /\ forall k', k' <> k -> mappings b1 !! k' = mappings b !! k'.
Proof.
  intros I. unfold current, alive. destruct (mappings b !! k) as [e|] eqn:He; [|by exists b].
  fold (lastSeenExpired e now (MappingTTL (cfg b))).
  destruct (lastSeenExpired e now (MappingTTL (cfg b))) eqn:Ex.
  - exists (reclaimLocked k e b). split_and!; try done; [by apply reclaim_Inv|cbn; apply lookup_delete_eq|].
    intros k' Hne. cbn. by apply lookup_delete_ne.
  - exists b. by split_and!.
Qed.

(** What the box promises of a flow to [ip] under [k]: with a socket, the flow's mapping is
    there, refreshed, and its addresses are those of the mapping that was alive and the new
    one; without, there was no mapping alive and there is none. *)
Definition flow_ok (now : Time) (b : Box) (k : mappingKey) (ip : string) (r : res nat_err sock) (b' : Box) : Prop :=
  match r with
  | Ok s => exists e, mappings b' !! k = Some e /\ pubConn e = Some s /\ lastSeen e = now /\
      (restricted b = true -> contactIP e = Some ({[ip]} ∪ contacts now b k)) /\
      (forall e0, alive now b k = Some e0 -> pubConn e0 = Some s) /\
      (alive now b k = None -> symmetric b = true -> s = opened b)
  | Err _ => alive now b k = None /\ mappings b' !! k = None
  end.

(** A mapping that is alive has a socket. *)
Lemma alive_socket b k e : Inv b -> mappings b !! k = Some e -> exists s, pubConn e = Some s.
Proof.
  intros I H. pose proof (inv_entry _ I k e H) as Ho. unfold entry_ok in Ho.
  destruct (symmetric b) eqn:Hs.
  - destruct Ho as (_ & _ & s & -> & _). by exists s.
  - destruct Ho as (_ & -> & _). pose proof (inv_fixed _ I) as Hf. rewrite Hs in Hf. rewrite Hf. by eauto.
Qed.

(** It is refreshed. *)
Lemma refresh_spec now b b1 k ip e0 e :
  Inv b1 -> same_conf b b1 -> closed b1 = closed b -> stats b1 = stats b ->
  (forall k', k' <> k -> mappings b1 !! k' = mappings b !! k') ->
  alive now b k = Some e0 -> mappings b1 !! k = Some e0 ->
  pubConn e = pubConn e0 -> entry_ok b1 k e -> lastSeen e = now ->
  (restricted b = true -> contactIP e = Some ({[ip]} ∪ contacts now b k)) ->
  let b' := b1 <| mappings := <[k := e]> (mappings b1) |> in
  exists r, Some (match pubConn e with Some s => Ok s | None => Err NoPublicSocket end, b') = Some (r, b') /\
    Inv b' /\ same_conf b b' /\ closed b' = closed b /\ stats b' = stats b /\
    (forall k', k' <> k -> mappings b' !! k' = mappings b !! k') /\ flow_ok now b k ip r b'.
Proof.
  intros I1 Hconf S8 S7 Hother Ha Hb1 Hp Hoe Hl Hc b'.
  destruct (alive_socket b1 k e0 I1 Hb1) as [s Hsock]. rewrite Hp, Hsock. exists (Ok s).
  split_and!; try done; cbn; [by apply (Inv_update b1 k e0)| |].
  - intros k' Hne. rewrite lookup_insert_ne by done. by apply Hother.
  - exists e. rewrite lookup_insert_eq. split_and!; try done; [congruence|by rewrite Ha; intros e1 [= <-]|].
    by rewrite Ha.
Qed.

(** What [outboundSocket] does, on every branch: it never panics, and keeps the promise. *)
Lemma outboundSocket_spec b dst now bound :
  Inv b ->
  let k := keyOf b dst in
  exists r b', outboundSocket dst now bound b = Some (r, b') /\ Inv b' /\
    same_conf b b' /\ closed b' = closed b /\ stats b' = stats b /\
    (forall k', k' <> k -> mappings b' !! k' = mappings b !! k') /\
    flow_ok now b k (ipKey (IP dst)) r b'.
Proof.
  intros I k. unfold outboundSocket. fold (symmetric b). fold (restricted b).
  assert (Hk : (if symmetric b then (ipKey (IP dst), Port dst) else (""%string, 0)) = k) by done.
  rewrite Hk. destruct (current_spec now b k I)
    as (b1 & -> & I1 & (S1 & S2 & S3 & S4 & S5 & S6 & S7 & S8) & Hb1 & Hother).
  assert (Hs1 : symmetric b1 = symmetric b) by (unfold symmetric; by rewrite S1).
  assert (Hr1 : restricted b1 = restricted b) by (unfold restricted; by rewrite S1).
  assert (Hconf : same_conf b b1) by (unfold same_conf; by rewrite S1, S3, S5).
  assert (Hins : forall e k', k' <> k -> <[k := e]> (mappings b1) !! k' = mappings b !! k').
  { intros e k' Hne. rewrite lookup_insert_ne by done. by apply Hother. }
  destruct (alive now b k) as [e0|] eqn:Ha.
  - (* a mapping is alive *)
    pose proof (inv_entry _ I1 k e0 Hb1) as Ho. unfold entry_ok in Ho. rewrite Hs1, Hr1 in Ho.
    assert (Hcon : contacts now b k = default ∅ (contactIP e0)) by (unfold contacts; by rewrite Ha).
    destruct (restricted b) eqn:Hr.
    + assert (Hsy : symmetric b = false) by (unfold symmetric, restricted in *; zbool; by rewrite Hr).
      rewrite Hsy in Ho. destruct Ho as (Hk' & Hp & C & HC); [done|]. cbn [contactIP upd eta mappingEntry_eta].
      rewrite HC in *. destruct (refresh_spec now b b1 k (ipKey (IP dst)) e0
        (e0 <| lastSeen := now |> <| contactIP := Some ({[ipKey (IP dst)]} ∪ C) |>)) as (r & E & H); try done;
        [|by rewrite Hcon|exists r; eexists; split; [exact E|exact H]].
      unfold entry_ok. rewrite Hs1, Hsy. by split_and!.
    + destruct (refresh_spec now b b1 k (ipKey (IP dst)) e0 (e0 <| lastSeen := now |>)) as (r & E & H); try done;
        [|congruence|exists r; eexists; split; [exact E|exact H]].
      unfold entry_ok. rewrite Hs1, Hr1. by destruct (symmetric b).
  - assert (Hcon : contacts now b k = ∅) by (unfold contacts; by rewrite Ha).
    destruct (symmetric b) eqn:Hs; cbn [negb].
    + rewrite S6. destruct (closed b) eqn:Hc; [|destruct bound as [port|]];
        try (eexists _, _; split; [done|]; split_and!; try done; by apply Hother).
      eexists _, _. split; [done|]. cbn.
      split_and!; try done.
      * apply (Inv_insert_sym b1 k); try done; rewrite ?Hs1; try done; congruence.
      * by apply Hins.
      * exists (MkEntry (Some (opened b1)) port k.1 k.2 (Some {[ipKey (IP dst)]}) now).
        rewrite lookup_insert_eq. split_and!; try done; try congruence.
        intros _. cbn. rewrite Hcon. f_equal. set_solver.
    + pose proof (inv_fixed _ I1) as Hf. rewrite Hs1 in Hf. rewrite Hf.
      assert (Hkk : k = onlyKey) by (unfold k, keyOf; by rewrite Hs).
      set (e := if restricted b then _ else _).
      assert (He : pubConn e = Some 1%nat /\ lastSeen e = now /\
                   (restricted b = true -> contactIP e = Some {[ipKey (IP dst)]}))
        by (unfold e; by destruct (restricted b)).
      destruct He as (He1 & He2 & He3). rewrite He1. eexists _, _. split; [done|]. cbn.
      split_and!; try done.
      * apply Inv_insert_fixed; try done. unfold entry_ok. rewrite Hs1, Hr1.
        split_and!; [done|congruence|]. intros Hr. rewrite He3 by done. eauto.
      * by apply Hins.
      * exists e. rewrite lookup_insert_eq. split_and!; try done; try congruence.
        intros Hr. rewrite He3, Hcon by done. f_equal. set_solver.
Qed.

(** ** Close *)

Lemma closeConn_live c l : (closeConn c l).2 = match c with Some s => l ∖ {[s]} | None => l end.
Proof. by destruct c. Qed.

Lemma close_fold (ms : list (mappingKey * mappingEntry)) l s :
  s ∈ (fold_right (fun (ke : mappingKey * mappingEntry) '(e, l) =>
         let '(e', l) := closeConn (pubConn ke.2) l in (e || e', l)) (false, l) ms).2 <->
  s ∈ l /\ forall ke, ke ∈ ms -> pubConn ke.2 <> Some s.
Proof.
  induction ms as [|ke ms IH]; cbn [fold_right].
  - split; [intros H; split; [done|intros ke Hke; by apply not_elem_of_nil in Hke]|by intros []].
  - destruct (fold_right _ _ ms) as [e l1]. cbn [snd] in IH.
    pose proof (closeConn_live (pubConn ke.2) l1) as Hc.
    destruct (closeConn (pubConn ke.2) l1) as [e' l2]. cbn [snd] in *. subst l2.
    assert (Hx : s ∈ match pubConn ke.2 with Some s0 => l1 ∖ {[s0]} | None => l1 end <->
                 s ∈ l1 /\ pubConn ke.2 <> Some s).
    { destruct (pubConn ke.2) as [s0|]; [|by intuition].
      rewrite elem_of_difference, elem_of_singleton. split; intros [H1 H2]; (split; [done|]); congruence. }
    rewrite Hx, IH. split.
    + intros [[H1 H2] H3]. split; [done|]. intros ke' [->|Hin]%elem_of_cons; auto.
    + intros [H1 H2]. split; [split; [done|]|]; intros; apply H2; by constructor.
Qed.

Lemma Close_Inv b : Inv b -> Inv (Close b).2.
Proof.
  intros I. unfold Close. destruct (closed b) eqn:Hc; [done|].
  pose proof (closeConn_live (Some (doorConn b)) (live b)) as E1.
  destruct (closeConn (Some (doorConn b)) (live b)) as [e1 l1].
  pose proof (closeConn_live (fixedConn b) l1) as E2. destruct (closeConn (fixedConn b) l1) as [e2 l2].
  cbn [snd] in E1, E2.
  pose proof (close_fold (map_to_list (mappings b)) l2) as E3.
  destruct (fold_right _ _ _) as [e3 l3]. cbn [snd] in *.
  assert (Hl3 : l3 = ∅).
  { apply set_eq. intros s. rewrite E3. split; [|set_solver]. intros [Hs Hm]. exfalso.
    assert (Hs1 : s ∈ l1 /\ fixedConn b <> Some s).
    { subst l2. destruct (fixedConn b) as [f|]; [|done].
      apply elem_of_difference in Hs as [H1 H2]. split; [done|]. intros [= ->]. set_solver. }
    subst l1. destruct Hs1 as [[H1 H2]%elem_of_difference H3].
    apply (inv_live _ I Hc) in H1 as [->|[|(k & e & Hk & Hp)]]; [set_solver|done|].
    apply (Hm (k, e)); [|done]. by apply elem_of_map_to_list. }
  constructor; cbn; try apply I; try done.
Qed.

(** ** Every step keeps the invariant, and none panics *)

Section Runs.
Context (other : string -> option UDPAddr).

Lemma step_Inv b e :
  Inv b -> exists o b', step other b e = Some (o, b') /\ Inv b' /\ same_conf b b' /\
    (e <> EvClose -> closed b' = closed b).
Proof.
  intros I. destruct e as [now pkt src bound wrote|now s pkt src wrote| |now|now|]; cbn [step].
  - unfold handleOutbound. destruct (negb _); [eexists _, _; split; [done|]; by split_and!; [apply inc_Inv|..]|].
    destruct (UnwrapOutbound other pkt) as [[[sid dst] inner]|];
      [|eexists _, _; split; [done|]; by split_and!; [apply inc_Inv|..]].
    destruct (outboundSocket_spec b dst now bound I) as (r & b' & -> & I' & Hs & Hc & _).
    cbn [mbind option_bind]. destruct r as [s|]; [destruct wrote|];
      (eexists _, _; split; [done|]; by split_and!; [apply inc_Inv|..]).
  - unfold handleInbound. repeat destr; eexists _, _; (split; [done|]); by split_and!; [apply inc_Inv|..].
  - eexists _, _. split; [done|]. by split_and!; [apply inc_Inv|..].
  - eexists _, _. split; [done|]. unfold cleanup. destruct (_ <=? 0); [by split_and!|].
    destruct (reclaim_expired_spec now b I) as (I' & (S1 & S2 & S3 & S4 & S5 & S6 & _) & _).
    by split_and!.
  - eexists _, _. split; [done|].
    destruct (reclaim_expired_spec now b I) as (I' & (S1 & S2 & S3 & S4 & S5 & S6 & _) & _).
    by split_and!.
  - eexists _, _. split; [done|]. split; [by apply Close_Inv|]. split; [|done].
    unfold Close. destruct (closed b); [done|].
    destruct (closeConn (Some (doorConn b)) (live b)) as [? l1].
    destruct (closeConn (fixedConn b) l1) as [? l2]. by destruct (fold_right _ _ _).
Qed.

Lemma run_Inv b es : Inv b -> exists b', run other b es = Some b' /\ Inv b' /\ same_conf b b'.
Proof.
  revert b. induction es as [|e es IH]; intros b I; [by exists b|]. cbn [run].
  destruct (step_Inv b e I) as (o & b1 & -> & I1 & (S1 & S2 & S3) & _). cbn [mbind option_bind].
  destruct (IH b1 I1) as (b2 & -> & I2 & (T1 & T2 & T3)). exists b2. split_and!; try done.
  unfold same_conf. split_and!; congruence.
Qed.
End Runs.

Lemma New_Inv listen c b : New listen c = Ok b -> Inv b /\ closed b = false /\ mappings b = ∅.
Proof.
  unfold New. intros E. repeat (destr_in E; try done); apply Ok_inj in E as <-; zbool.
  all: split; [|done]; constructor; cbn; try done; try lia.
  all: unfold symmetric; cbn; rewrite ?bool_decide_eq_true_2 by done;
       rewrite ?bool_decide_eq_false_2 by done; try done; try lia.
  - intros _ s. rewrite elem_of_union, !elem_of_singleton.
    split; [intros [->| ->]; auto|]. intros [->|[[= <-]|(k & e & H & _)]]; auto. cbn in H; by apply lookup_empty_Some in H.
  - intros _ s. rewrite elem_of_singleton.
    split; [intros ->; auto|]. intros [->|[|(k & e & H & _)]]; auto; [done|]. cbn in H; by apply lookup_empty_Some in H.
Qed.

(** Sockets are accounted for, in every state any interleaving of the box's
    goroutines leads to from [New]: no step panics; while the box is open, the open sockets
    are the door, the public socket of a box that has one, and those of the mappings, and
    no two mappings of a symmetric box share one; once it is closed, none is open. *)
Theorem sockets_accounted (other : string -> option UDPAddr) (listen : string -> option Z)
    (c : Config) (b0 : Box) (es : list event) (Hnew : New listen c = Ok b0) :
  exists b, run other b0 es = Some b /\
    (closed b = false -> forall s, s ∈ live b <->
       s = doorConn b \/ fixedConn b = Some s \/
       exists k e, mappings b !! k = Some e /\ pubConn e = Some s) /\
    (closed b = true -> live b = ∅) /\
    (Behaviour c = BehaviorSymmetric -> forall k k' e e',
       mappings b !! k = Some e -> mappings b !! k' = Some e' -> pubConn e = pubConn e' -> k = k').
Proof.
  destruct (New_Inv _ _ _ Hnew) as (I0 & _ & _).
  destruct (run_Inv other b0 es I0) as (b & Hb & I & (Hc & _)). exists b.
  split_and!; [done|apply I|apply I|]. intros Hs k k' e e'. apply (inv_inj _ I).
  unfold symmetric. apply bool_decide_eq_true_2. rewrite Hc.
  assert (Hcfg : cfg b0 = c).
  { unfold New in Hnew. repeat (destr_in Hnew; try done); by apply Ok_inj in Hnew as <-. }
  by rewrite Hcfg.
Qed.
