(* ===== verification/NatHistory.v ===== *)
(** * What a NAT box lets in, from the history of what went out (src/internal/nat/nat.go)

    A specification of each behaviour that knows nothing of mappings, sockets being
    reclaimed or tables: only the outbound flows so far. The box implements it in every
    interleaving with cleanups, statistics and other traffic. *)

From S2P Require Import Prelude GoBytes GoRuntime GoNet Nat NatSafety.

(** One outbound flow: when, to which address key and port, from which socket. *)
Record contact := MkContact { when : Time; peer : string * Z; via : sock }.

Section History.
Context (other : string -> option UDPAddr).

(** The flow an event opens or refreshes, whether or not its write succeeds. *)
Definition contact_of (b : Box) (e : event) : option contact :=
  match e with
  | EvOut now pkt src bound _ =>
      if negb (bool_decide (addrKey src = privateHostKey b)) then None
      else match UnwrapOutbound other pkt with
           | Ok (_, dst, _) =>
               match outboundSocket dst now bound b with
               | Some (Ok s, _) => Some (MkContact now (ipKey (IP dst), Port dst) s)
               | _ => None
               end
           | Err _ => None
           end
  | _ => None
  end.

Fixpoint history (b : Box) (es : list event) : list contact :=
  match es with
  | [] => []
  | e :: es =>
      option_list (contact_of b e) ++
      match step other b e with Some (_, b') => history b' es | None => [] end
  end.
End History.

Definition time_of (e : event) : option Time :=
  match e with
  | EvOut now _ _ _ _ | EvIn now _ _ _ _ | EvCleanup now | EvStats now => Some now
  | EvReadError | EvClose => None
  end.

(** The clock does not go back: every event happens at [t] or later, in order. The
    result is the clock after the run. *)
Fixpoint timed (t : Time) (es : list event) : option Time :=
  match es with
  | [] => Some t
  | e :: es =>
      match time_of e with
      | Some t' => if t <=? t' then timed t' es else None
      | None => timed t es
      end
  end.

(** ** The specification *)

Definition silent (ttl : Duration) (t t' : Time) : bool := (ttl >? 0) && (Sub t' t >? ttl).

(** No silence longer than the TTL between consecutive times. *)
Fixpoint unbroken (ttl : Duration) (ts : list Time) : Prop :=
  match ts with
  | t :: ((t' :: _) as ts') => silent ttl t t' = false /\ unbroken ttl ts'
  | _ => True
  end.

(** Full cone: anyone, while the last flow is not too old. *)
Definition admits_any (ttl : Duration) (h : list contact) (now : Time) : Prop :=
  exists h1 c, h = h1 ++ [c] /\ silent ttl (when c) now = false.

(** Address restricted: an address contacted since the last silence. *)
Definition admits_address (ttl : Duration) (h : list contact) (ip : string) (now : Time) : Prop :=
  exists h1 c h2, h = h1 ++ c :: h2 /\ (peer c).1 = ip /\
    unbroken ttl (when c :: map when h2 ++ [now]).

(** Symmetric: exactly the peer whose last flow left from that socket. *)
Definition admits_peer (ttl : Duration) (h : list contact) (p : string * Z) (s : sock)
    (now : Time) : Prop :=
  exists h1 c h2, h = h1 ++ c :: h2 /\ peer c = p /\ Forall (fun c' => peer c' <> p) h2 /\
    via c = s /\ silent ttl (when c) now = false.

(** ** The specification as a machine: what a history amounts to *)

Definition add_flow (ttl : Duration) (st : option (Time * gset string)) (c : contact)
    : option (Time * gset string) :=
  match st with
  | Some (t, ips) =>
      if silent ttl t (when c) then Some (when c, {[(peer c).1]})
      else Some (when c, {[(peer c).1]} ∪ ips)
  | None => Some (when c, {[(peer c).1]})
  end.

Definition summary (ttl : Duration) (h : list contact) : option (Time * gset string) :=
  fold_left (add_flow ttl) h None.

Definition fresh_summary (ttl : Duration) (h : list contact) (now : Time)
    : option (Time * gset string) :=
  match summary ttl h with
  | Some (t, ips) => if silent ttl t now then None else Some (t, ips)
  | None => None
  end.

Lemma summary_snoc ttl h c : summary ttl (h ++ [c]) = add_flow ttl (summary ttl h) c.
Proof. apply fold_left_app. Qed.

Lemma unbroken_snoc ttl ts t t' :
  unbroken ttl (ts ++ [t; t']) <-> unbroken ttl (ts ++ [t]) /\ silent ttl t t' = false.
Proof.
  induction ts as [|a ts IH]; [by cbn; intuition|].
  destruct ts as [|a' ts]; cbn in *; [tauto|]. rewrite IH. tauto.
Qed.

Lemma unbroken_map_snoc ttl c h2 c' t :
  unbroken ttl (when c :: map when (h2 ++ [c']) ++ [t]) <->
  unbroken ttl (when c :: map when h2 ++ [when c']) /\ silent ttl (when c') t = false.
Proof.
  rewrite map_app, <- app_assoc. cbn [map app].
  exact (unbroken_snoc ttl (when c :: map when h2) (when c') t).
Qed.

(** A place in a history that ends with [c]. *)
Lemma place_snoc (h : list contact) c (P : list contact -> contact -> list contact -> Prop) :
  (exists h1 c' h2, h ++ [c] = h1 ++ c' :: h2 /\ P h1 c' h2) <->
  P h c [] \/ exists h1 c' h2, h = h1 ++ c' :: h2 /\ P h1 c' (h2 ++ [c]).
Proof.
  split.
  - intros (h1 & c' & h2 & Eh & HP). destruct h2 as [|x h2 _] using rev_ind.
    + apply app_inj_tail in Eh as [-> ->]. by left.
    + rewrite app_comm_cons, app_assoc in Eh. apply app_inj_tail in Eh as [-> ->].
      right. by exists h1, c', h2.
  - intros [HP|(h1 & c' & h2 & -> & HP)]; [by exists h, c, []|].
    exists h1, c', (h2 ++ [c]). by rewrite <- app_assoc.
Qed.

Lemma in_fresh {A} (b : bool) (w : A) (ips : gset string) ip :
  (exists t ips', (if b then None else Some (w, ips)) = Some (t, ips') /\ ip ∈ ips') <->
  b = false /\ ip ∈ ips.
Proof.
  destruct b; split; try (by intros (? & ? & ? & _)); try by intros [].
  - by intros (? & ? & [= <- <-] & H).
  - intros [_ H]. by eexists _, _.
Qed.

(** The summary's addresses are those contacted without a silence since. *)
Lemma summary_address ttl h ip now :
  (exists t ips, fresh_summary ttl h now = Some (t, ips) /\ ip ∈ ips) <->
  admits_address ttl h ip now.
Proof.
  unfold admits_address. revert now. induction h as [|c h IH] using rev_ind; intros now.
  { split; [by intros (t & ips & H & _)|]. intros (h1 & c & h2 & H & _). by destruct h1. }
  rewrite place_snoc. specialize (IH (when c)). cbn [map app unbroken].
  assert (HL : (exists t ips, fresh_summary ttl (h ++ [c]) now = Some (t, ips) /\ ip ∈ ips) <->
               silent ttl (when c) now = false /\
               ((peer c).1 = ip \/
                exists t ips, fresh_summary ttl h (when c) = Some (t, ips) /\ ip ∈ ips)).
  { unfold fresh_summary. rewrite summary_snoc. unfold add_flow.
    destruct (summary ttl h) as [[t0 ips0]|]; [destruct (silent ttl t0 (when c))|];
      rewrite in_fresh, ?elem_of_union, ?elem_of_singleton.
    - split; intros [H1 H2]; (split; [done|]); [by left|]. by destruct H2 as [|(? & ? & ? & _)].
    - split; intros [H1 H2]; (split; [done|]).
      + destruct H2 as [|H2]; [by left|right]. by exists t0, ips0.
      + destruct H2 as [|(? & ? & [= <- <-] & H2)]; [by left|by right].
    - split; intros [H1 H2]; (split; [done|]); [by left|]. by destruct H2 as [|(? & ? & ? & _)]. }
  rewrite HL, IH. split.
  - intros [Hs [Hp|(h1 & c' & h2 & E & Hp & Hu)]]; [by left; split_and!|].
    right. exists h1, c', h2. split_and!; try done. by apply unbroken_map_snoc.
  - intros [(Hp & Hs & _)|(h1 & c' & h2 & E & Hp & Hu)]; [by split; [|left]|].
    apply unbroken_map_snoc in Hu as [Hu Hs]. split; [done|]. right. by exists h1, c', h2.
Qed.

Lemma summary_any ttl h now :
  is_Some (fresh_summary ttl h now) <-> admits_any ttl h now.
Proof.
  unfold fresh_summary, admits_any. destruct h as [|c h _] using rev_ind.
  - split; [by intros []|]. intros (h1 & c & E & _). by destruct h1.
  - rewrite summary_snoc. assert (E : exists ips, add_flow ttl (summary ttl h) c = Some (when c, ips)).
    { unfold add_flow. destruct (summary ttl h) as [[t ips]|]; [destruct (silent _ _ _)|]; eauto. }
    destruct E as (ips & ->). split.
    + intros Hs. exists h, c. destruct (silent ttl (when c) now); [by destruct Hs|done].
    + intros (h1 & c' & E & Hs). apply app_inj_tail in E as [-> ->]. rewrite Hs. eauto.
Qed.

(** The last flow to a peer. *)
Definition last_flow (p : string * Z) (h : list contact) : option contact :=
  fold_left (fun acc c => if bool_decide (peer c = p) then Some c else acc) h None.

Definition fresh_last (ttl : Duration) (h : list contact) (p : string * Z) (now : Time)
    : option contact :=
  match last_flow p h with
  | Some c => if silent ttl (when c) now then None else Some c
  | None => None
  end.

Lemma last_flow_snoc p h c :
  last_flow p (h ++ [c]) = if bool_decide (peer c = p) then Some c else last_flow p h.
Proof. apply fold_left_app. Qed.

Lemma last_flow_Some p h c :
  last_flow p h = Some c <->
  exists h1 c' h2, h = h1 ++ c' :: h2 /\
    (c' = c /\ peer c' = p /\ Forall (fun c' => peer c' <> p) h2).
Proof.
  induction h as [|x h IH] using rev_ind.
  { split; [done|]. intros (h1 & c' & h2 & E & _). by destruct h1. }
  rewrite last_flow_snoc, place_snoc. case_bool_decide as Hx.
  - split; [intros [= ->]; by left|]. intros [(-> & _)|(h1 & c' & h2 & _ & _ & _ & H)]; [done|].
    apply Forall_app in H as [_ H]. by apply Forall_inv in H.
  - rewrite IH. split.
    + intros (h1 & c' & h2 & E & E1 & E2 & H). right. exists h1, c', h2. split_and!; try done.
      apply Forall_app. split; [done|]. by constructor.
    + intros [(_ & E & _)|(h1 & c' & h2 & E & E1 & E2 & H)]; [done|].
      exists h1, c', h2. split_and!; try done. by apply Forall_app in H as [H _].
Qed.

Lemma last_peer ttl h p s now :
  (exists c, fresh_last ttl h p now = Some c /\ via c = s) <-> admits_peer ttl h p s now.
Proof.
  unfold fresh_last, admits_peer. split.
  - intros (c & E & Hs). destruct (last_flow p h) as [c0|] eqn:El; [|done].
    destruct (silent ttl (when c0) now) eqn:Es; [done|]. injection E as ->.
    apply last_flow_Some in El as (h1 & c' & h2 & -> & -> & E1 & E2). by exists h1, c, h2.
  - intros (h1 & c & h2 & -> & E1 & E2 & Hs & Hn). exists c. split; [|done].
    rewrite (proj2 (last_flow_Some p _ c)); [by rewrite Hn|]. by exists h1, c, h2.
Qed.

(** ** The box implements it *)

Lemma silent_mono ttl l t t' : t <= t' -> silent ttl l t = true -> silent ttl l t' = true.
Proof.
  unfold silent. intros Ht [H1 H2]%andb_prop. rewrite H1. cbn [andb]. zbool.
  pose proof (Sub_mono t t' l Ht). apply Z.gtb_lt. lia.
Qed.

Lemma silent_alive now b k e :
  mappings b !! k = Some e ->
  alive now b k = if silent (MappingTTL (cfg b)) (lastSeen e) now then None else Some e.
Proof. intros E. unfold alive. by rewrite E. Qed.

Lemma alive_mono now t b k : now <= t -> alive now b k = None -> alive t b k = None.
Proof.
  unfold alive. destruct (mappings b !! k) as [e|]; [|done]. intros Ht.
  change (lastSeenExpired e now (MappingTTL (cfg b)))
    with (silent (MappingTTL (cfg b)) (lastSeen e) now).
  change (lastSeenExpired e t (MappingTTL (cfg b)))
    with (silent (MappingTTL (cfg b)) (lastSeen e) t).
  destruct (silent _ _ now) eqn:E; [|done]. by rewrite (silent_mono _ _ _ _ Ht E).
Qed.

Lemma alive_reclaim now t b k :
  Inv b -> now <= t -> alive t (reclaim_expired now b) k = alive t b k.
Proof.
  intros I Ht. destruct (reclaim_expired_spec now b I) as (_ & (Hc & _) & Hm).
  unfold alive. rewrite Hm, Hc. destruct (mappings b !! k) as [e|]; [|done].
  change (lastSeenExpired e) with (fun now ttl => silent ttl (lastSeen e) now). cbn beta.
  destruct (silent _ _ now) eqn:E; [|done]. by rewrite (silent_mono _ _ _ _ Ht E).
Qed.

(** A box of one mapping, and its history from the time [now] on. *)
Definition RepCone (b : Box) (h : list contact) (now : Time) : Prop :=
  forall t, now <= t ->
    match alive t b onlyKey, fresh_summary (MappingTTL (cfg b)) h t with
    | Some e, Some (l, ips) => lastSeen e = l /\ (restricted b = true -> contactIP e = Some ips)
    | None, None => True
    | _, _ => False
    end.

(** A symmetric box. *)
Definition RepSym (b : Box) (h : list contact) (now : Time) : Prop :=
  forall t k, now <= t ->
    match alive t b k, fresh_last (MappingTTL (cfg b)) h k t with
    | Some e, Some c => lastSeen e = when c /\ pubConn e = Some (via c)
    | None, None => True
    | _, _ => False
    end.

Definition Rep (b : Box) (h : list contact) (now : Time) : Prop :=
  if symmetric b then RepSym b h now else RepCone b h now.

(** Whatever keeps the mappings that are alive from [now'] on keeps the representation. *)
Lemma Rep_alive b b' h now now' :
  cfg b' = cfg b -> now <= now' ->
  (forall t k, now' <= t -> alive t b' k = alive t b k) -> Rep b h now -> Rep b' h now'.
Proof.
  intros Hc Hn Ha. unfold Rep, RepSym, RepCone, symmetric, restricted. rewrite Hc.
  destruct (bool_decide _); intros R t; intros; rewrite Ha by done; apply R; lia.
Qed.

Section Refinement.
Context (other : string -> option UDPAddr).

(** An outbound flow. *)
Lemma outbound_Rep b h now now' dst bound r b' :
  Inv b -> Rep b h now -> now <= now' -> outboundSocket dst now' bound b = Some (r, b') ->
  Rep b' (h ++ match r with Ok s => [MkContact now' (ipKey (IP dst), Port dst) s] | Err _ => [] end) now'.
Proof.
  intros I R Hn E.
  destruct (outboundSocket_spec b dst now' bound I) as (r' & b2 & E2 & _ & (Hc & _) & _ & _ & Hoth & Hr).
  rewrite E in E2. injection E2 as <- <-.
  assert (Hsame : forall t k, k <> keyOf b dst -> alive t b' k = alive t b k).
  { intros t k Hk. unfold alive. by rewrite Hoth, Hc. }
  destruct r as [s|e].
  2:{ rewrite app_nil_r. destruct Hr as [Ha Hm]. apply (Rep_alive b b' h now now'); try done.
      intros t k Ht. destruct (decide (k = keyOf b dst)) as [->|Hk]; [|by apply Hsame].
      rewrite (alive_mono now' t b) by done. unfold alive. by rewrite Hm. }
  destruct Hr as (e & Hm & Hp & Hl & Hips & _ & _).
  assert (Hal : forall t, alive t b' (keyOf b dst)
                  = if silent (MappingTTL (cfg b)) now' t then None else Some e).
  { intros t. rewrite (silent_alive t b' _ e Hm), Hc, Hl. done. }
  set (c := MkContact now' (ipKey (IP dst), Port dst) s).
  unfold Rep in *. assert (Hsy : symmetric b' = symmetric b) by (unfold symmetric; by rewrite Hc).
  assert (Hre : restricted b' = restricted b) by (unfold restricted; by rewrite Hc).
  rewrite Hsy. destruct (symmetric b) eqn:Hs.
  - intros t k Ht. unfold fresh_last. rewrite last_flow_snoc, Hc.
    assert (Hkey : keyOf b dst = peer c) by (unfold keyOf; by rewrite Hs).
    case_bool_decide as Hk.
    + rewrite <- Hk, <- Hkey, Hal. cbn [when via c]. by destruct (silent _ now' t).
    + rewrite Hsame by congruence. apply R. lia.
  - intros t Ht. assert (Hkey : keyOf b dst = onlyKey) by (unfold keyOf; by rewrite Hs).
    rewrite <- Hkey, Hal, Hc. unfold fresh_summary. rewrite summary_snoc.
    specialize (R now' Hn). unfold add_flow. unfold contacts in Hips. rewrite <- Hkey in R.
    unfold fresh_summary in R.
    destruct (summary _ h) as [[l ips]|]; [destruct (silent _ l now') eqn:Esil|];
      cbn [when c] in *; rewrite ?Esil; destruct (silent _ now' t); try done;
      (split; [done|]); rewrite Hre; intros Hr; rewrite (Hips Hr);
      destruct (alive now' b (keyOf b dst)) as [e0|]; try done; try (f_equal; cbn; set_solver).
    destruct R as [_ R]. by rewrite (R Hr).
Qed.

Lemma step_Rep b h now e t1 o b' :
  Inv b -> Rep b h now -> e <> EvClose ->
  match time_of e with Some t => now <= t /\ t1 = t | None => t1 = now end ->
  step other b e = Some (o, b') -> Rep b' (h ++ option_list (contact_of other b e)) t1.
Proof.
  intros I R Hne Ht E.
  destruct e as [now' pkt src bound wrote|now' s pkt src wrote| |now'|now'|]; cbn [time_of] in Ht;
    cbn [step contact_of] in *; try (destruct Ht as [Ht ->]); try done.
  - unfold handleOutbound in E. destruct (negb _).
    { injection E as _ <-. cbn. rewrite app_nil_r. by apply (Rep_alive b _ h now now'). }
    destruct (UnwrapOutbound other pkt) as [[[sid dst] inner]|].
    2:{ injection E as _ <-. cbn. rewrite app_nil_r. by apply (Rep_alive b _ h now now'). }
    destruct (outboundSocket dst now' bound b) as [[r b1]|] eqn:Eo; [|done].
    pose proof (outbound_Rep b h now now' dst bound r b1 I R Ht Eo) as R1.
    cbn [mbind option_bind] in E.
    destruct r as [s|]; [destruct wrote|]; injection E as _ <-;
      cbn [option_list]; rewrite ?app_nil_r in *; by apply (Rep_alive b1 _ _ now' now').
  - cbn. rewrite app_nil_r. apply (Rep_alive b _ h now now'); try done.
    + unfold handleInbound in E. repeat destr_in E; by injection E as _ <-.
    + unfold handleInbound in E. repeat destr_in E; by injection E as _ <-.
  - cbn. rewrite app_nil_r. injection E as _ <-. by apply (Rep_alive b _ h t1 t1).
  - cbn. rewrite app_nil_r. injection E as _ <-. unfold cleanup.
    destruct (_ <=? 0); [by apply (Rep_alive b _ h now now')|].
    apply (Rep_alive b _ h now now'); try done.
    + by destruct (reclaim_expired_spec now' b I) as (_ & (Hc & _) & _).
    + intros t k Htk. by apply alive_reclaim.
  - cbn. rewrite app_nil_r. injection E as _ <-. apply (Rep_alive b _ h now now'); try done.
    + by destruct (reclaim_expired_spec now' b I) as (_ & (Hc & _) & _).
    + intros t k Htk. by apply alive_reclaim.
Qed.

Lemma run_Rep es : forall b h now t1 b',
  Inv b -> Rep b h now -> Forall (fun e => e <> EvClose) es -> timed now es = Some t1 ->
  run other b es = Some b' -> Rep b' (h ++ history other b es) t1 /\ now <= t1.
Proof.
  induction es as [|e es IH]; intros b h now t1 b' I R Hc Ht E; cbn in Ht, E.
  { injection Ht as <-. injection E as <-. cbn. rewrite app_nil_r. split; [done|lia]. }
  destruct (step_Inv other b e I) as (o & b1 & Es & I1 & _ & _). rewrite Es in E.
  cbn [mbind option_bind] in E. cbn [history]. rewrite Es, app_assoc.
  pose proof (Forall_inv Hc) as Hne. apply Forall_inv_tail in Hc.
  assert (Hstep : exists t, timed t es = Some t1 /\
            match time_of e with Some t' => now <= t' /\ t = t' | None => t = now end).
  { destruct (time_of e) as [t'|]; [|by exists now].
    destruct (now <=? t') eqn:El; [|done]. zbool. by exists t'. }
  destruct Hstep as (t & Ht' & Htm).
  destruct (IH b1 (h ++ option_list (contact_of other b e)) t t1 b' I1) as [R' Hle]; try done.
  - by eapply step_Rep.
  - split; [exact R'|]. destruct (time_of e); [destruct Htm; lia|lia].
Qed.
End Refinement.

(** ** Admission *)

Lemma lookup_cone b s src now :
  Inv b -> symmetric b = false ->
  lookupInbound s src now b = true <->
  exists e, alive now b onlyKey = Some e /\
    (restricted b = true -> ipKey (IP src) ∈ default ∅ (contactIP e)).
Proof.
  intros I Hs. unfold lookupInbound, alive, symmetric, restricted, onlyKey in *. zbool.
  destruct (Behaviour (cfg b)) eqn:Hb; try done;
    (destruct (mappings b !! (""%string, 0)) as [e|]; [|by split; [|intros (? & ? & _)]]);
    (destruct (lastSeenExpired e now _); [by split; [|intros (? & ? & _)]|]).
  - split; [|done]. intros _. by exists e.
  - split.
    + intros H. zbool. by exists e.
    + intros (e' & [= <-] & H). apply bool_decide_eq_true_2. apply H. by apply bool_decide_eq_true_2.
Qed.

Lemma lookup_sym b s src now :
  Inv b -> symmetric b = true ->
  lookupInbound s src now b = true <->
  exists e, alive now b (ipKey (IP src), Port src) = Some e /\ pubConn e = Some s.
Proof.
  intros I Hs. unfold lookupInbound. assert (Hb : Behaviour (cfg b) = BehaviorSymmetric)
    by (unfold symmetric in Hs; by zbool). rewrite Hb.
  set (l := filter _ _).
  assert (Hl : forall k e, (k, e) ∈ l <-> mappings b !! k = Some e /\ pubConn e = Some s).
  { intros k e. unfold l. rewrite list_elem_of_filter, elem_of_map_to_list. cbn. tauto. }
  assert (Hent : forall k e, mappings b !! k = Some e -> k = (dstIP e, dstPort e)).
  { intros [i p] e H. pose proof (inv_entry _ I _ e H) as Ho. unfold entry_ok in Ho.
    rewrite Hs in Ho. destruct Ho as (-> & -> & _). done. }
  destruct l as [|[k e] l'].
  - split; [done|]. intros (e & Ha & Hp). exfalso. unfold alive in Ha.
    destruct (mappings b !! _) as [e'|] eqn:Hm; [|done]. destruct (lastSeenExpired _ _ _); [done|].
    injection Ha as ->. assert (Hin : ((ipKey (IP src), Port src), e) ∈ @nil (mappingKey * mappingEntry))
      by by apply Hl. by apply not_elem_of_nil in Hin.
  - destruct (proj1 (Hl k e)) as [Hm Hp]; [by left|].
    assert (Huniq : forall k' e', mappings b !! k' = Some e' -> pubConn e' = Some s -> k' = k).
    { intros k' e' Hm' Hp'. apply (inv_inj _ I k' k e' e Hs Hm' Hm). congruence. }
    rewrite (Hent k e Hm) in Hm. split.
    + intros H. destruct (lastSeenExpired e now (MappingTTL (cfg b))) eqn:Ex; [done|].
      zbool. exists e. split; [|done]. unfold alive.
      replace (ipKey (IP src), Port src) with (dstIP e, dstPort e) by congruence. by rewrite Hm, Ex.
    + intros (e' & Ha & Hp'). unfold alive in Ha.
      destruct (mappings b !! (ipKey (IP src), Port src)) as [e1|] eqn:Hm'; [|done].
      destruct (lastSeenExpired e1 now _) eqn:Ex; [done|]. injection Ha as <-.
      pose proof (Huniq _ _ Hm' Hp') as Hk. pose proof (Huniq _ _ Hm Hp) as Hk'.
      assert (He : e1 = e) by congruence. subst e1. rewrite Ex.
      rewrite bool_decide_eq_true_2 by congruence. cbn [andb]. apply Z.eqb_eq. congruence.
Qed.

Lemma New_cfg listen c b : New listen c = Ok b -> cfg b = c.
Proof. unfold New. intros E. repeat (destr_in E; try done); by apply Ok_inj in E as <-. Qed.

Lemma New_Rep listen c b now : New listen c = Ok b -> Rep b [] now.
Proof.
  intros E. destruct (New_Inv _ _ _ E) as (_ & _ & Hm).
  unfold Rep, RepSym, RepCone, alive. rewrite Hm.
  destruct (symmetric b); intros; by rewrite lookup_empty.
Qed.

(** [C32] What comes in is decided by what went out, and by nothing else: in every
    interleaving of traffic, cleanups and statistics, a box that has not been closed
    delivers an inbound packet to the private host exactly when the specification of its
    behaviour admits it on the history of outbound flows; and it then delivers the
    packet's envelope with its true source. *)
Theorem admission_spec (other : string -> option UDPAddr) (listen : string -> option Z)
    (c : Config) (host : UDPAddr) (b0 b : Box) (es : list event) (t0 t1 now : Time) (s : sock)
    (pkt : list byte) (src : UDPAddr)
    (Hnew : New listen c = Ok b0) (Hhost : PrivateHost c = Some host)
    (Hopen : Forall (fun e => e <> EvClose) es) (Hclock : timed t0 es = Some t1)
    (Hnow : t1 <= now) (Hrun : run other b0 es = Some b) :
  let h := history other b0 es in
  ((handleInbound s pkt src now true b).1 = Some (MkDatagram s host (WrapInbound src pkt)) <->
   match Behaviour c with
   | BehaviorFullCone => admits_any (MappingTTL c) h now
   | BehaviorAddressRestricted => admits_address (MappingTTL c) h (ipKey (IP src)) now
   | BehaviorSymmetric => admits_peer (MappingTTL c) h (ipKey (IP src), Port src) s now
   end) /\
  ((handleInbound s pkt src now true b).1 <> None ->
   (handleInbound s pkt src now true b).1 = Some (MkDatagram s host (WrapInbound src pkt))).
Proof.
  intros h. destruct (New_Inv _ _ _ Hnew) as (I0 & _ & _). pose proof (New_cfg _ _ _ Hnew) as Hc0.
  destruct (run_Rep other es b0 [] t0 t1 b I0 (New_Rep _ _ _ t0 Hnew) Hopen Hclock Hrun) as [R _].
  destruct (run_Inv other b0 es I0) as (b' & Hb' & I & (Hc & _)).
  rewrite Hrun in Hb'. injection Hb' as <-. rewrite Hc0 in Hc. change ([] ++ _) with h in R.
  assert (Hl : (lookupInbound s src now b = true <->
                match Behaviour c with
                | BehaviorFullCone => admits_any (MappingTTL c) h now
                | BehaviorAddressRestricted => admits_address (MappingTTL c) h (ipKey (IP src)) now
                | BehaviorSymmetric => admits_peer (MappingTTL c) h (ipKey (IP src), Port src) s now
                end)).
  { unfold Rep in R. destruct (symmetric b) eqn:Hs.
    - rewrite lookup_sym by done. unfold symmetric in Hs. zbool. rewrite Hc in Hs. rewrite Hs.
      rewrite <- last_peer. specialize (R now (ipKey (IP src), Port src) Hnow). rewrite Hc in R.
      destruct (alive now b _) as [e|], (fresh_last _ _ _ _) as [f|]; try done.
      + destruct R as [_ R]. split; [intros (e' & [= <-] & H); exists f; split; congruence|].
        intros (f' & [= <-] & H). exists e. split; congruence.
      + by split; intros (? & ? & _).
    - rewrite lookup_cone by done. specialize (R now Hnow). rewrite Hc in R.
      unfold symmetric, restricted in *. rewrite Hc in *. zbool.
      destruct (Behaviour c); [| |done].
      + rewrite <- summary_any.
        destruct (alive now b onlyKey) as [e|], (fresh_summary _ _ _) as [[l ips]|]; try done.
        * split; [eauto|]. intros _. by exists e.
        * split; [by intros (? & ? & _)|by intros []].
      + rewrite <- summary_address. rewrite bool_decide_eq_true_2 in R |- * by done.
        destruct (alive now b onlyKey) as [e|], (fresh_summary _ _ _) as [[l ips]|]; try done.
        * destruct R as [_ R]. specialize (R eq_refl). split.
          -- intros (e' & [= <-] & H). rewrite R in H. exists l, ips. split; [done|]. by apply H.
          -- intros (l' & ips' & [= <- <-] & H). exists e. split; [done|]. by rewrite R.
        * split; [by intros (? & ? & _)|by intros (? & ? & ? & _)]. }
  unfold handleInbound. rewrite Hc, Hhost. rewrite <- Hl.
  destruct (lookupInbound s src now b); cbn; by split.
Qed.
