(* ===== verification/NatTraffic.v ===== *)
(** * Traffic through a NAT box (src/internal/nat/nat.go)

    The envelopes' round trips, what the box forwards, the replies it delivers, and the
    theorems of the box at concrete inputs. *)

From S2P Require Import Prelude GoBytes GoRuntime GoNet Nat NatSafety NatHistory.

(** ** Envelopes *)

Lemma appendU16_put out v : appendU16 out v = out ++ be_put 2 v.
Proof. unfold appendU16. by rewrite be_put_2. Qed.

Lemma WrapOutbound_Ok id dst frame pkt :
  WrapOutbound id (Some dst) frame = Ok pkt <->
  0 < slen id <= maxEnvelopeName /\ 0 < len (IP dst) /\ slen (addr_String dst) <= maxEnvelopeName /\
  pkt = [outboundMagic] ++ be_put 2 (slen id) ++ bytes_of_string id
          ++ be_put 2 (slen (addr_String dst)) ++ bytes_of_string (addr_String dst) ++ frame.
Proof.
  unfold WrapOutbound. rewrite !appendU16_put, <- !app_assoc.
  pose proof (slen_nonneg id). pose proof (len_nonneg (IP dst)). split.
  - case_bool_decide as Hid; [done|]. destruct (slen id >? _) eqn:E1; [done|].
    destruct (len (IP dst) =? 0) eqn:E2; [done|].
    destruct (slen (addr_String dst) >? maxEnvelopeName) eqn:E3; [done|]. intros Hp%Ok_inj. zbool. split_and!; try lia; [|by rewrite <- Hp].
    destruct (Z.eq_dec (slen id) 0) as [Ez|]; [by apply slen_zero in Ez|lia].
  - intros (H1 & H2 & H3 & ->). rewrite bool_decide_eq_false_2 by (intros ->; by destruct H1).
    destruct (slen id >? _) eqn:E1; zbool; [lia|].
    destruct (len (IP dst) =? 0) eqn:E2; zbool; [lia|].
    destruct (slen (addr_String dst) >? maxEnvelopeName) eqn:E3; zbool; [lia|]. done.
Qed.

Section Envelopes.
Context (other : string -> option UDPAddr).

Lemma Unwrap_WrapOutbound id dst dst' frame pkt :
  WrapOutbound id (Some dst) frame = Ok pkt -> 0 < slen (addr_String dst) ->
  ResolveUDPAddr other (addr_String dst) = Some dst' ->
  UnwrapOutbound other pkt = Ok (id, dst', frame).
Proof.
  intros (Hid & _ & Hs & ->)%WrapOutbound_Ok Hpos Hr. unfold slen in *.
  set (li := bytes_of_string id) in *. set (ld := bytes_of_string (addr_String dst)) in *.
  assert (Hmax : maxEnvelopeName = 1024) by done.
  unfold UnwrapOutbound.
  destruct (_ <? 1 + 2 + 1 + 2 + 1) eqn:E0; zbool; [exfalso; len_lia|].
  cbn [hd app drop]. rewrite bool_decide_eq_true_2 by done. cbn [negb]. rewrite drop_0.
  destruct (take_prefixed li (be_put 2 (len ld) ++ ld ++ frame) ltac:(lia)) as [E1 E2].
  destruct (take_prefixed ld frame ltac:(lia)) as [E3 E4].
  rewrite E1, E2, take_len_app, drop_len_app, E3, E4, take_len_app, drop_len_app.
  rewrite (proj2 (Z.eqb_neq (len li) 0)), (proj2 (Z.eqb_neq (len ld) 0)) by lia.
  destruct (len li >? maxEnvelopeName) eqn:E5; zbool; [lia|].
  destruct (len ld >? maxEnvelopeName) eqn:E6; zbool; [lia|].
  destruct (_ <? len li + 2) eqn:E7; zbool; [exfalso; len_lia|].
  destruct (_ <? len ld) eqn:E8; zbool; [exfalso; len_lia|].
  unfold ld, li. by rewrite !string_bytes, Hr.
Qed.

Lemma Unwrap_WrapInbound src src' payload :
  0 < slen (addr_String src) <= maxEnvelopeName ->
  ResolveUDPAddr other (addr_String src) = Some src' ->
  UnwrapInbound other (WrapInbound src payload) = Ok (src', payload).
Proof.
  intros Hs Hr. unfold WrapInbound, UnwrapInbound, slen in *. rewrite appendU16_put.
  set (ls := bytes_of_string (addr_String src)) in *. assert (Hmax : maxEnvelopeName = 1024) by done.
  rewrite <- app_assoc.
  destruct (_ <? 1 + 2 + 1) eqn:E0; zbool; [exfalso; len_lia|].
  cbn [hd app drop]. rewrite bool_decide_eq_true_2 by done. cbn [negb]. rewrite drop_0.
  destruct (take_prefixed ls payload ltac:(lia)) as [E1 E2].
  rewrite E1, E2, take_len_app, drop_len_app.
  rewrite (proj2 (Z.eqb_neq (len ls) 0)) by lia.
  destruct (len ls >? maxEnvelopeName) eqn:E5; zbool; [lia|].
  destruct (_ <? len ls) eqn:E8; zbool; [exfalso; len_lia|].
  unfold ls. by rewrite string_bytes, Hr.
Qed.

(** The 16-byte form the resolver gives an IPv4 address. *)
Definition mapped_v4 (a : UDPAddr) (p4 : list byte) : UDPAddr :=
  MkUDPAddr (v4InV6Prefix ++ p4) (Port a) "".

Lemma String_nonempty a : 0 < slen (addr_String a).
Proof.
  pose proof (slen_nonneg (addr_String a)).
  destruct (Z.eq_dec (slen (addr_String a)) 0) as [E|]; [|lia]. apply slen_zero in E.
  assert (Hj : forall h p, JoinHostPort h p <> ""%string).
  { intros h p. unfold JoinHostPort. destruct (has_colon h); [done|]. by destruct h. }
  unfold addr_String in E. by destruct (bool_decide _); apply Hj in E.
Qed.

(** Envelopes round trip: what an agent wraps for an IPv4 destination the box unwraps
    to the same name, destination and frame; and what the box wraps for an IPv4 source the
    agent unwraps to that source and payload. Addresses come back in 16-byte form. *)
Theorem envelopes_roundtrip (id : string) (a : UDPAddr) (p4 frame pkt : list byte)
    (H4 : To4 (IP a) = Some p4) (Hz : Zone a = ""%string) (Hp : 0 <= Port a < 65536) :
  (WrapOutbound id (Some a) frame = Ok pkt ->
   UnwrapOutbound other pkt = Ok (id, mapped_v4 a p4, frame)) /\
  UnwrapInbound other (WrapInbound a frame) = Ok (mapped_v4 a p4, frame).
Proof.
  assert (Hr : ResolveUDPAddr other (addr_String a) = Some (mapped_v4 a p4)).
  { unfold ResolveUDPAddr. by rewrite (parse_v4_String a p4). }
  pose proof (String_nonempty a). pose proof (String_v4_len a p4 H4 Hz Hp). split.
  - intros Hw. by apply (Unwrap_WrapOutbound id a).
  - apply Unwrap_WrapInbound; [|done]. change maxEnvelopeName with 1024. lia.
Qed.

(** ** Outbound *)

(** The box forwards exactly what its private host wraps: a datagram leaves only for
    a packet that came from the private host's address and unwraps to a destination and a
    frame; it is that frame, to that destination, from the socket of that flow's mapping,
    which is then alive; anything else only counts as dropped. *)
Theorem outbound_forwarding (listen : string -> option Z) (c : Config) (b0 b : Box)
    (es : list event) (pkt : list byte) (src : option UDPAddr) (now : Time) (bound : option Z)
    (wrote : bool) (Hnew : New listen c = Ok b0) (Hrun : run other b0 es = Some b) :
  exists o b', handleOutbound other pkt src now bound wrote b = Some (o, b') /\
    match o with
    | Some d => addrKey src = addrKey (PrivateHost c) /\
        (exists id, UnwrapOutbound other pkt = Ok (id, to d, bytes d)) /\
        (exists e, alive now b' (keyOf b (to d)) = Some e /\ pubConn e = Some (from_sock d)) /\
        Outbound (stats b') = u64 (Outbound (stats b) + 1)
    | None => Dropped (stats b') = u64 (Dropped (stats b) + 1) /\
        (addrKey src <> addrKey (PrivateHost c) -> b' = incDropped b)
    end.
Proof.
  destruct (New_Inv _ _ _ Hnew) as (I0 & _ & _). pose proof (New_cfg _ _ _ Hnew) as Hc0.
  destruct (run_Inv other b0 es I0) as (b1 & Hb1 & I & (Hc & _ & Hk)).
  rewrite Hrun in Hb1. injection Hb1 as <-.
  assert (Hkey : privateHostKey b = addrKey (PrivateHost c)).
  { rewrite Hk. unfold New in Hnew. repeat (destr_in Hnew; try done);
      by apply Ok_inj in Hnew as <-. }
  unfold handleOutbound. rewrite Hkey.
  destruct (bool_decide (addrKey src = addrKey (PrivateHost c))) eqn:Ek; zbool; cbn [negb].
  2:{ by eexists _, _. }
  destruct (UnwrapOutbound other pkt) as [[[id dst] inner]|] eqn:Eu; [|by eexists _, _].
  destruct (outboundSocket_spec b dst now bound I) as (r & b' & -> & I' & (Hc' & _) & _ & Hst & _ & Hr).
  cbn [mbind option_bind].
  destruct r as [s|]; [destruct wrote|]; (eexists _, _; split; [done|]); cbn; rewrite ?Hst;
    try (split; done).
  destruct Hr as (e & Hm & Hp & Hl & _). split_and!; try done; [by exists id|].
  exists e. split; [|done]. unfold alive. cbn. rewrite Hm.
  unfold lastSeenExpired. rewrite Hl. unfold Sub.
  replace (now - now) with 0 by lia.
  destruct (_ >? 0) eqn:E1; [|done]. cbn [andb].
  destruct (_ >? MappingTTL _) eqn:E2; [|done]. zbool. unfold minDuration, maxDuration in *. lia.
Qed.
End Envelopes.

(** ** Replies *)

(** The mapping of a flow that left at [t] from [s]: alive, and refreshed by [now]. *)
Definition held (b : Box) (dst : UDPAddr) (s : sock) (t now : Time) : Prop :=
  exists e, mappings b !! keyOf b dst = Some e /\ pubConn e = Some s /\ t <= lastSeen e <= now /\
    (restricted b = true -> ipKey (IP dst) ∈ default ∅ (contactIP e)).

Lemma silent_within ttl t l now limit :
  silent ttl t limit = false -> t <= l -> now <= limit -> silent ttl l now = false.
Proof.
  unfold silent. destruct (ttl >? 0); [|done]. cbn [andb]. intros H H1 H2. zbool.
  rewrite Z.gtb_ltb. apply Z.ltb_ge. unfold Sub in *. lia.
Qed.

Lemma held_alive b dst s t now limit :
  held b dst s t now -> now <= limit -> silent (MappingTTL (cfg b)) t limit = false ->
  exists e, alive limit b (keyOf b dst) = Some e /\ mappings b !! keyOf b dst = Some e /\
    pubConn e = Some s /\ t <= lastSeen e <= now /\
    (restricted b = true -> ipKey (IP dst) ∈ default ∅ (contactIP e)).
Proof.
  intros (e & Hm & Hp & Hl & Hc) Hn Hs. exists e. split_and!; try done; try lia.
  rewrite (silent_alive limit b _ e Hm).
  by rewrite (silent_within _ t (lastSeen e) limit limit Hs) by lia.
Qed.

Lemma flows_timed_le es : forall t t', timed t es = Some t' -> t <= t'.
Proof.
  induction es as [|e es IH]; intros t t' H; cbn in H; [injection H as <-; lia|].
  destruct (time_of e) as [t1|]; [|by apply IH]. destruct (t <=? t1) eqn:E; [|done].
  apply IH in H. zbool. lia.
Qed.

Lemma held_le b dst s t now now' : held b dst s t now -> now <= now' -> held b dst s t now'.
Proof. intros (e & ? & ? & ? & ?) ?. exists e. split_and!; try done; lia. Qed.

(** Steps that keep the mappings, or only drop expired ones. *)
Lemma held_reclaim b dst s t now now' limit :
  Inv b -> held b dst s t now -> now <= now' <= limit ->
  silent (MappingTTL (cfg b)) t limit = false -> held (reclaim_expired now' b) dst s t now'.
Proof.
  intros I (e & Hm & Hp & Hl & Hc) Hn Hs.
  destruct (reclaim_expired_spec now' b I) as (_ & (Hcfg & _) & Hm'). exists e.
  unfold keyOf, symmetric, restricted in *. rewrite Hcfg, Hm', Hm.
  change (lastSeenExpired e now' (MappingTTL (cfg b)))
    with (silent (MappingTTL (cfg b)) (lastSeen e) now').
  rewrite (silent_within _ t _ _ limit Hs) by lia. split_and!; try done; lia.
Qed.

Lemma held_out b dst s t now now' dst' bound r b' limit :
  Inv b -> held b dst s t now -> now <= now' <= limit ->
  silent (MappingTTL (cfg b)) t limit = false ->
  outboundSocket dst' now' bound b = Some (r, b') -> held b' dst s t now'.
Proof.
  intros I H Hn Hs E.
  destruct (outboundSocket_spec b dst' now' bound I) as (r' & b2 & E2 & _ & (Hc & _) & _ & _ & Hoth & Hr).
  rewrite E in E2. injection E2 as <- <-.
  destruct (held_alive b dst s t now now' H) as (e & Ha & Hm & Hp & Hl & Hips); try lia.
  { apply (silent_within _ t t now' limit); [done|lia|lia]. }
  assert (Hk : keyOf b' dst = keyOf b dst) by (unfold keyOf, symmetric; by rewrite Hc).
  assert (Hre : restricted b' = restricted b) by (unfold restricted; by rewrite Hc).
  unfold held. rewrite Hk, Hre. destruct (decide (keyOf b dst' = keyOf b dst)) as [Ek|Ek].
  2:{ exists e. rewrite Hoth by congruence. split_and!; try done; lia. }
  rewrite Ek in Hr. destruct r as [s'|]; [|destruct Hr; congruence].
  destruct Hr as (e' & Hm' & Hp' & Hl' & Hc' & Hsock & _). exists e'.
  specialize (Hsock e Ha). split_and!; try done; try congruence; try lia.
  intros Hr. rewrite (Hc' Hr). unfold contacts. rewrite Ha. cbn [default from_option id].
  specialize (Hips Hr). set_solver.
Qed.

Section Replies.
Context (other : string -> option UDPAddr).

Lemma step_held b e o b' dst s t now now' limit :
  Inv b -> held b dst s t now -> e <> EvClose ->
  match time_of e with Some t' => now <= t' /\ now' = t' | None => now' = now end ->
  now' <= limit -> silent (MappingTTL (cfg b)) t limit = false ->
  step other b e = Some (o, b') -> held b' dst s t now'.
Proof.
  intros I H Hne Ht Hl Hs E.
  destruct e as [tm pkt src bound wrote|tm s' pkt src wrote| |tm|tm|]; cbn [time_of] in Ht;
    cbn [step] in E; try (destruct Ht as [Ht ->]); try done.
  - unfold handleOutbound in E. destruct (negb _).
    { injection E as _ <-. by apply (held_le b _ _ _ now). }
    destruct (UnwrapOutbound other pkt) as [[[sid dst'] inner]|].
    2:{ injection E as _ <-. by apply (held_le b _ _ _ now). }
    destruct (outboundSocket dst' tm bound b) as [[r b1]|] eqn:Eo; [|done].
    pose proof (held_out b dst s t now tm dst' bound r b1 limit I H ltac:(lia) Hs Eo) as H1.
    cbn [mbind option_bind] in E. by destruct r; [destruct wrote|]; injection E as _ <-.
  - unfold handleInbound in E. assert (Hk : held b dst s t tm) by by apply (held_le b _ _ _ now).
    repeat destr_in E; by injection E as _ <-.
  - injection E as _ <-. by subst.
  - injection E as _ <-. unfold cleanup. destruct (_ <=? 0); [by apply (held_le b _ _ _ now)|].
    by apply (held_reclaim b dst s t now tm limit).
  - injection E as _ <-. by apply (held_reclaim b dst s t now tm limit).
Qed.

Lemma run_held es : forall b b' dst s t now now' limit,
  Inv b -> held b dst s t now -> Forall (fun e => e <> EvClose) es -> timed now es = Some now' ->
  now' <= limit -> silent (MappingTTL (cfg b)) t limit = false ->
  run other b es = Some b' -> held b' dst s t now'.
Proof.
  induction es as [|e es IH]; intros b b' dst s t now now' limit I H Hne Ht Hl Hs E.
  { cbn in Ht, E. injection Ht as <-. by injection E as <-. }
  cbn [timed run] in Ht, E. destruct (step_Inv other b e I) as (o & b1 & Es & I1 & (Hc & _) & _).
  rewrite Es in E. cbn [mbind option_bind] in E.
  pose proof (Forall_inv Hne) as Hne1. apply Forall_inv_tail in Hne.
  assert (Hstep : exists t', timed t' es = Some now' /\
            match time_of e with Some t1 => now <= t1 /\ t' = t1 | None => t' = now end).
  { destruct (time_of e) as [t'|]; [|by exists now].
    destruct (now <=? t') eqn:El; [|done]. zbool. by exists t'. }
  destruct Hstep as (t' & Ht' & Htm). pose proof (flows_timed_le es t' now' Ht').
  apply (IH b1 b' dst s t t' now' limit); try done; [|by rewrite Hc].
  apply (step_held b e o b1 dst s t now t' limit); try done. lia.
Qed.

(** A flow that is held lets its own peer's replies in. *)
Lemma held_lookup b dst s t now src limit :
  Inv b -> held b dst s t now -> now <= limit -> silent (MappingTTL (cfg b)) t limit = false ->
  ipKey (IP src) = ipKey (IP dst) -> Port src = Port dst -> lookupInbound s src limit b = true.
Proof.
  intros I H Hn Hs Hip Hport.
  destruct (held_alive b dst s t now limit H Hn Hs) as (e & Ha & _ & Hp & _ & Hc).
  unfold keyOf in Ha. destruct (symmetric b) eqn:Hsym.
  - apply lookup_sym; [done..|]. exists e. by rewrite Hip, Hport.
  - apply lookup_cone; [done..|]. exists e. split; [done|]. by rewrite Hip.
Qed.

(** Replies come back: once the box has forwarded a datagram, then whatever other
    traffic, cleanups and statistics come in between, and until the TTL has passed since, a
    datagram from the address and port it went to, received on the socket it left from, is
    delivered to the private host in an envelope with its true source. This holds for all
    three behaviours, and without a TTL for as long as the box is open. *)
Theorem reply_delivered (listen : string -> option Z) (c : Config) (host : UDPAddr) (b0 b1 b2 b : Box)
    (es1 es2 : list event) (pkt : list byte) (from : option UDPAddr) (t : Time) (bound : option Z)
    (d : datagram) (t1 now : Time) (src : UDPAddr) (payload : list byte)
    (Hnew : New listen c = Ok b0) (Hhost : PrivateHost c = Some host)
    (Hrun1 : run other b0 es1 = Some b1)
    (Hout : handleOutbound other pkt from t bound true b1 = Some (Some d, b2))
    (Hopen : Forall (fun e => e <> EvClose) es2) (Hclock : timed t es2 = Some t1)
    (Hrun2 : run other b2 es2 = Some b)
    (Hnow : t1 <= now) (Httl : silent (MappingTTL c) t now = false)
    (Hip : ipKey (IP src) = ipKey (IP (to d))) (Hport : Port src = Port (to d)) :
  (handleInbound (from_sock d) payload src now true b).1
  = Some (MkDatagram (from_sock d) host (WrapInbound src payload)).
Proof.
  destruct (New_Inv _ _ _ Hnew) as (I0 & _ & _). pose proof (New_cfg _ _ _ Hnew) as Hc0.
  destruct (run_Inv other b0 es1 I0) as (b1' & E1 & I1 & (Hc1 & _)).
  rewrite Hrun1 in E1. injection E1 as <-.
  unfold handleOutbound in Hout. destruct (negb _); [done|].
  destruct (UnwrapOutbound other pkt) as [[[sid dst] inner]|]; [|done].
  destruct (outboundSocket_spec b1 dst t bound I1) as (r & b1' & E & I1' & (Hc & _) & _ & _ & _ & Hr).
  rewrite E in Hout. cbn [mbind option_bind] in Hout. destruct r as [s|]; [|done].
  injection Hout as <- <-. cbn [from_sock to] in *.
  destruct Hr as (e & Hm & Hp & Hl & Hips & _).
  assert (H : held (incOutbound b1') dst s t t).
  { exists e. unfold keyOf, restricted, symmetric in *. cbn. rewrite Hc. split_and!; try done; try lia.
    intros Hr. rewrite (Hips Hr). cbn. set_solver. }
  assert (I2 : Inv (incOutbound b1')) by by apply inc_Inv.
  assert (Hc2 : cfg (incOutbound b1') = c) by (cbn; congruence).
  pose proof (flows_timed_le es2 t t1 Hclock).
  pose proof (run_held es2 _ b dst s t t t1 now I2 H Hopen Hclock Hnow) as H2.
  rewrite Hc2 in H2. specialize (H2 Httl Hrun2).
  destruct (run_Inv other _ es2 I2) as (b' & E2 & I & (Hcb & _)).
  rewrite Hrun2 in E2. injection E2 as <-. rewrite Hc2 in Hcb.
  unfold handleInbound. rewrite (held_lookup b dst s t t1 src now), Hcb, Hhost; try done.
  by rewrite Hcb.
Qed.
End Replies.

(** ** Closing *)

(** of a full-cone or restricted box that has a mapping returns an error: it
    closes the public socket once for the box and once for the mapping. *)
Lemma Close_twice b :
  Inv b -> closed b = false -> symmetric b = false -> mappings b <> ∅ -> (Close b).1 = true.
Proof.
  intros I Hc Hs Hm. unfold Close. rewrite Hc.
  pose proof (inv_fixed _ I) as Hf. rewrite Hs in Hf. rewrite Hf.
  pose proof (closeConn_live (Some (doorConn b)) (live b)) as E1.
  destruct (closeConn (Some (doorConn b)) (live b)) as [e1 l1].
  pose proof (closeConn_live (Some 1%nat) l1) as E2.
  destruct (closeConn (Some 1%nat) l1) as [e2 l2]. cbn [snd] in E1, E2.
  assert (Hent : forall ke, ke ∈ map_to_list (mappings b) -> pubConn ke.2 = Some 1%nat).
  { intros [k e] Hin%elem_of_map_to_list. pose proof (inv_entry _ I k e Hin) as Ho.
    unfold entry_ok in Ho. rewrite Hs in Ho. destruct Ho as (_ & E & _). cbn. congruence. }
  destruct (map_to_list (mappings b)) as [|ke ms] eqn:El.
  { by apply map_to_list_empty_iff in El. }
  cbn [fold_right]. pose proof (close_fold ms l2 1%nat) as Hl.
  destruct (fold_right _ _ ms) as [e3 l3]. cbn [snd] in Hl.
  rewrite (Hent ke) by by left. unfold closeConn.
  rewrite bool_decide_eq_false_2; [cbn; by rewrite !orb_true_r|].
  rewrite Hl, E2. set_solver.
Qed.

(** ** The theorems at concrete inputs *)

Module Demo.
Definition no_host : string -> option UDPAddr := fun _ => None.
Definition listen : string -> option Z := fun _ => Some 7000.
Definition v4_addr (ip : list byte) (port : Z) := MkUDPAddr ip port "".
Definition host := v4_addr [x0a; x00; x00; x01] 4001.
Definition peer_addr := v4_addr [xc0; x00; x02; x02] 4002.
Definition stranger := v4_addr [xc0; x00; x02; x03] 4003.
Definition config (bh : Behavior) : Config :=
  MkConfig "a" bh (Some (v4_addr [xc6; x33; x64; x01] 7000)) (Some (v4_addr [x0a; x00; x00; x02] 7001))
    (Some host) (30 * Second).
Definition box (bh : Behavior) : Box :=
  match New listen (config bh) with Ok b => b | Err _ => MkBox (config bh) 0%nat None 0 "" ∅ (MkStats 0 0 0 0) false 1 ∅ end.
Definition packet : list byte :=
  match WrapOutbound "a" (Some peer_addr) [x01; x02] with Ok p => p | Err _ => [] end.

(** An outbound datagram, a cleanup 10 s later, and another flow at 12 s. *)
Definition traffic : list event :=
  [EvOut 0 packet (Some host) (Some 7100) true; EvCleanup (10 * Second);
   EvOut (12 * Second) packet (Some host) (Some 7101) true].
Definition after (bh : Behavior) : Box :=
  match run no_host (box bh) traffic with Some b => b | None => box bh end.

Lemma box_New bh : New listen (config bh) = Ok (box bh).
Proof. by destruct bh. Qed.

Lemma after_run bh : run no_host (box bh) traffic = Some (after bh).
Proof.
  assert (E : match run no_host (box bh) traffic with Some _ => true | None => false end = true)
    by (destruct bh; vm_compute; reflexivity).
  unfold after. by destruct (run no_host (box bh) traffic).
Qed.

(** The first flow: the datagram it leaves as, and the box after it. *)
Definition first bh : option (option datagram * Box) :=
  handleOutbound no_host packet (Some host) 0 (Some 7100) true (box bh).
Definition sent bh : datagram :=
  match first bh with Some (Some d, _) => d | _ => MkDatagram 0%nat stranger [] end.
Definition mid bh : Box := match first bh with Some (_, b) => b | None => box bh end.

Lemma first_ok bh : first bh = Some (Some (sent bh), mid bh).
Proof.
  assert (E : match first bh with Some (Some _, _) => true | _ => false end = true)
    by (destruct bh; vm_compute; reflexivity).
  unfold sent, mid. by destruct (first bh) as [[[d|] b]|].
Qed.

Lemma rest_run bh : run no_host (mid bh) (List.tl traffic) = Some (after bh).
Proof.
  pose proof (after_run bh) as H. unfold traffic in H. cbn [run step] in H.
  fold (first bh) in H. rewrite first_ok in H. exact H.
Qed.

Lemma traffic_open : Forall (fun e => e <> EvClose) traffic.
Proof. repeat constructor; done. Qed.
End Demo.

Example sockets_accounted_witness :
  New Demo.listen (Demo.config BehaviorSymmetric) = Ok (Demo.box BehaviorSymmetric) /\
  exists b, run Demo.no_host (Demo.box BehaviorSymmetric) (Demo.traffic ++ [EvClose]) = Some b /\
    (closed b = false -> forall s, s ∈ live b <->
       s = doorConn b \/ fixedConn b = Some s \/
       exists k e, mappings b !! k = Some e /\ pubConn e = Some s) /\
    (closed b = true -> live b = ∅) /\
    (Behaviour (Demo.config BehaviorSymmetric) = BehaviorSymmetric -> forall k k' e e',
       mappings b !! k = Some e -> mappings b !! k' = Some e' -> pubConn e = pubConn e' -> k = k').
Proof.
  split; [exact (Demo.box_New _)|].
  exact (sockets_accounted Demo.no_host Demo.listen _ _ _ (Demo.box_New _)).
Defined.

Example envelopes_roundtrip_witness :
  UnwrapOutbound Demo.no_host Demo.packet
  = Ok ("a"%string, mapped_v4 Demo.peer_addr [xc0; x00; x02; x02], [x01; x02]) /\
  UnwrapInbound Demo.no_host (WrapInbound Demo.peer_addr [x01; x02])
  = Ok (mapped_v4 Demo.peer_addr [xc0; x00; x02; x02], [x01; x02]).
Proof.
  destruct (envelopes_roundtrip Demo.no_host "a" Demo.peer_addr [xc0; x00; x02; x02] [x01; x02]
              Demo.packet) as [H1 H2]; [reflexivity|reflexivity|by split|].
  split; [|exact H2]. apply H1. reflexivity.
Defined.

Example outbound_forwarding_witness :
  exists o b', handleOutbound Demo.no_host Demo.packet (Some Demo.host) (20 * Second) None true
                 (Demo.after BehaviorFullCone) = Some (o, b') /\
    match o with
    | Some d => addrKey (Some Demo.host) = addrKey (Some Demo.host) /\
        (exists id, UnwrapOutbound Demo.no_host Demo.packet = Ok (id, to d, bytes d)) /\
        (exists e, alive (20 * Second) b' (keyOf (Demo.after BehaviorFullCone) (to d)) = Some e /\
           pubConn e = Some (from_sock d)) /\
        Outbound (stats b') = u64 (Outbound (stats (Demo.after BehaviorFullCone)) + 1)
    | None => Dropped (stats b') = u64 (Dropped (stats (Demo.after BehaviorFullCone)) + 1) /\
        (addrKey (Some Demo.host) <> addrKey (Some Demo.host) -> b' = incDropped (Demo.after BehaviorFullCone))
    end.
Proof.
  exact (outbound_forwarding Demo.no_host Demo.listen (Demo.config BehaviorFullCone)
           (Demo.box BehaviorFullCone) (Demo.after BehaviorFullCone) Demo.traffic Demo.packet
           (Some Demo.host) (20 * Second) None true (Demo.box_New _) (Demo.after_run _)).
Defined.

(** The restricted box lets the contacted peer in and keeps a stranger out. *)
Example admission_spec_witness :
  (handleInbound 1%nat [x09] Demo.peer_addr (20 * Second) true (Demo.after BehaviorAddressRestricted)).1
  = Some (MkDatagram 1%nat Demo.host (WrapInbound Demo.peer_addr [x09])) /\
  (handleInbound 1%nat [x09] Demo.stranger (20 * Second) true (Demo.after BehaviorAddressRestricted)).1
  = None.
Proof.
  split; [|reflexivity].
  destruct (admission_spec Demo.no_host Demo.listen (Demo.config BehaviorAddressRestricted) Demo.host
           (Demo.box BehaviorAddressRestricted) (Demo.after BehaviorAddressRestricted) Demo.traffic
           0 (12 * Second) (20 * Second) 1%nat [x09] Demo.peer_addr (Demo.box_New _) eq_refl
           Demo.traffic_open eq_refl ltac:(by vm_compute) (Demo.after_run _)) as [[_ H] _].
  apply H. eexists [_], _, []. split; [reflexivity|]. split; [reflexivity|]. cbn. by split.
Defined.

Example reply_delivered_witness :
  let b := Demo.after BehaviorSymmetric in
  from_sock (Demo.sent BehaviorSymmetric) = 1%nat /\
  (handleInbound 1%nat [x09] Demo.peer_addr (20 * Second) true b).1
  = Some (MkDatagram 1%nat Demo.host (WrapInbound Demo.peer_addr [x09])) /\
  (handleInbound 1%nat [x09] Demo.peer_addr (50 * Second) true b).1 = None.
Proof.
  intros b. assert (Hs : from_sock (Demo.sent BehaviorSymmetric) = 1%nat) by reflexivity.
  split_and!; [exact Hs| |reflexivity]. rewrite <- Hs at 1 2.
  apply (reply_delivered Demo.no_host Demo.listen (Demo.config BehaviorSymmetric) Demo.host
           (Demo.box BehaviorSymmetric) (Demo.box BehaviorSymmetric) (Demo.mid BehaviorSymmetric) b []
           (List.tl Demo.traffic) Demo.packet (Some Demo.host) 0 (Some 7100)
           (Demo.sent BehaviorSymmetric) (12 * Second) (20 * Second) Demo.peer_addr [x09]
           (Demo.box_New _) eq_refl eq_refl (Demo.first_ok BehaviorSymmetric) (Forall_inv_tail Demo.traffic_open)
           eq_refl (Demo.rest_run BehaviorSymmetric)); [by vm_compute|reflexivity..].
Defined.
