(* ===== verification/NatRun.v ===== *)
(** * The NAT box's process: [Run] and [Close] (src/internal/nat/nat.go)

    [Run] starts a reader for the door, one for the public socket, the cleanup's ticker, and
    a reader for every socket a symmetric mapping opens; it waits for its context or for
    [Close], closes the box and waits for all of them. [Close] runs once, in steps, and the
    readers run in between: a datagram read before a socket was closed is handled after.

    A goroutine's turn is a read, or handling what it has read (one critical section and
    one write, whose outcome is an input). *)

From S2P Require Import Prelude GoBytes GoRuntime GoNet Nat NatSafety.
From S2P Require NatTraffic.

(** Where [closeOnce] is. *)
Inductive once_pos :=
| Idle
| AtSignal                    (* before [close(b.closeCh)] *)
| AtFlag                      (* before [b.closed = true] *)
| AtDoor
| AtFixed
| AtMappings                  (* before the last critical section *)
| Finished.

Inductive main_pos :=
| Serving                     (* at [Run]'s [select] *)
| AtClose                     (* in [b.Close] *)
| Draining                    (* in [b.wg.Wait] *)
| Returned.

(** A reader: in its read, or with a datagram; its sender is there. *)
Inductive reader_pos :=
| AtRead
| Holding (pkt : list byte) (src : UDPAddr)
| Ended.

Record Running := MkRunning {
  box : Box;
  closeCh : bool;
  ctx : bool;
  once : once_pos;
  main : main_pos;
  outbound : reader_pos;             (* [serveOutbound] *)
  fixed : reader_pos;                (* [serveInboundFixed]; [Ended] when there is none *)
  ticker : bool;                     (* the cleanup's goroutine is running *)
  readers : gmap sock reader_pos     (* [serveInboundSymmetric], one a socket *)
}.
#[export] Instance Running_eta : Eta Running := fun p =>
  MkRunning (box p) (closeCh p) (ctx p) (once p) (main p) (outbound p) (fixed p) (ticker p) (readers p).
Implicit Types p : Running.

(** What a read gives: a datagram, or an error while the socket is open. *)
Abbreviation read_result := (option (list byte * UDPAddr)).

Section Run.
Context (other : string -> option UDPAddr).

(** ** [Close] *)

(** The last critical section: the sockets of the mappings are closed. *)
Definition close_mappings (b : Box) : Box :=
  b <| live := (fold_right (fun (ke : mappingKey * mappingEntry) '(e, l) =>
                  let '(e', l) := closeConn (pubConn ke.2) l in (e || e', l))
                (false, live b) (map_to_list (mappings b))).2 |>
    <| mappings := ∅ |>.

Definition close_step p : Running :=
  let b := box p in
  match once p with
  | Idle | Finished => p
  | AtSignal => p <| closeCh := true |> <| once := AtFlag |>
  | AtFlag => p <| box := b <| closed := true |> |> <| once := AtDoor |>
  | AtDoor => p <| box := b <| live := (closeConn (Some (doorConn b)) (live b)).2 |> |> <| once := AtFixed |>
  | AtFixed => p <| box := b <| live := (closeConn (fixedConn b) (live b)).2 |> |> <| once := AtMappings |>
  | AtMappings => p <| box := close_mappings b |> <| once := Finished |>
  end.

(** A call of [Close]: the first one runs, the others wait for its end. *)
Definition close_call p : Running :=
  match once p with Idle => p <| once := AtSignal |> | _ => p end.

(** ** The goroutines *)

(** The read of a goroutine that leaves when the context is done. *)
Definition read_turn (open : bool) (r : read_result) p : reader_pos * Running :=
  if open then
    match r with
    | Some (pkt, src) => (Holding pkt src, p)
    | None => if ctx p then (Ended, p) else (AtRead, p <| box := incDropped (box p) |>)
    end
  else (Ended, p).

Definition is_live (s : sock) p : bool := bool_decide (s ∈ live (box p)).

(** A turn of [serveOutbound]. [None] is a panic. A socket that [outboundSocket] opens gets
    its reader. *)
Definition out_turn (r : read_result) (now : Time) (bound : option Z) (wrote : bool) p : option Running :=
  match outbound p with
  | Ended => Some p
  | AtRead =>
      let '(q, p) := read_turn (is_live (doorConn (box p)) p) r p in Some (p <| outbound := q |>)
  | Holding pkt src =>
      '(_, b) ← handleOutbound other pkt (Some src) now bound wrote (box p);
      let spawned :=
        if bool_decide (opened b = opened (box p)) then readers p
        else <[opened (box p) := AtRead]> (readers p) in
      Some (p <| box := b |> <| outbound := AtRead |> <| readers := spawned |>)
  end.

(** A turn of [serveInboundFixed]. *)
Definition fixed_turn (r : read_result) (now : Time) (wrote : bool) p : Running :=
  match fixedConn (box p) with
  | None => p
  | Some s =>
      match fixed p with
      | Ended => p
      | AtRead => let '(q, p) := read_turn (is_live s p) r p in p <| fixed := q |>
      | Holding pkt src =>
          p <| box := (handleInbound s pkt src now wrote (box p)).2 |> <| fixed := AtRead |>
      end
  end.

(** A turn of [serveInboundSymmetric] on [s]: only its socket's closing ends it. *)
Definition sym_turn (s : sock) (r : read_result) (now : Time) (wrote : bool) p : Running :=
  match readers p !! s with
  | None | Some Ended => p
  | Some AtRead =>
      if is_live s p then
        match r with
        | Some (pkt, src) => p <| readers := <[s := Holding pkt src]> (readers p) |>
        | None => p <| box := incDropped (box p) |>
        end
      else p <| readers := <[s := Ended]> (readers p) |>
  | Some (Holding pkt src) =>
      p <| box := (handleInbound s pkt src now wrote (box p)).2 |>
        <| readers := <[s := AtRead]> (readers p) |>
  end.

(** A turn of the cleanup's goroutine; [tick] is which of the ready channels it takes. *)
Definition tick_turn (tick : bool) (now : Time) p : Running :=
  if ticker p then
    if tick then p <| box := Nat.cleanup now (box p) |>
    else if ctx p || closeCh p then p <| ticker := false |> else p
  else p.

Definition ended (q : reader_pos) : bool := match q with Ended => true | _ => false end.

(** The counter of the WaitGroup is zero. *)
Definition all_done p : bool :=
  ended (outbound p) && ended (fixed p) && negb (ticker p) &&
  forallb (fun sq : sock * reader_pos => ended sq.2) (map_to_list (readers p)).

Definition main_turn p : Running :=
  match main p with
  | Serving => if ctx p || closeCh p then p <| main := AtClose |> else p
  | AtClose => match once p with Finished => p <| main := Draining |> | _ => close_call p end
  | Draining => if all_done p then p <| main := Returned |> else p
  | Returned => p
  end.

Inductive nevent :=
| NCancel
| NMain
| NClose                      (* someone else calls [Close] *)
| NCloser                     (* whoever runs [closeOnce]'s function *)
| NOut (r : read_result) (now : Time) (bound : option Z) (wrote : bool)
| NFixed (r : read_result) (now : Time) (wrote : bool)
| NSym (s : sock) (r : read_result) (now : Time) (wrote : bool)
| NTick (tick : bool) (now : Time)
| NStats (now : Time).

Definition nstep p (e : nevent) : option Running :=
  match e with
  | NCancel => Some (p <| ctx := true |>)
  | NMain => Some (main_turn p)
  | NClose => Some (close_call p)
  | NCloser => Some (close_step p)
  | NOut r now bound wrote => out_turn r now bound wrote p
  | NFixed r now wrote => Some (fixed_turn r now wrote p)
  | NSym s r now wrote => Some (sym_turn s r now wrote p)
  | NTick tick now => Some (tick_turn tick now p)
  | NStats now => Some (p <| box := (Box_Stats now (box p)).2 |>)
  end.

Fixpoint nrun p (es : list nevent) : option Running :=
  match es with [] => Some p | e :: es => p ← nstep p e; nrun p es end.
End Run.

(** [Run] has just been called on a box. *)
Definition running (b : Box) : Running :=
  MkRunning b false false Idle Serving AtRead (match fixedConn b with Some _ => AtRead | None => Ended end) true ∅.

(** ** The box under its goroutines *)

(** Every open socket belongs to the box or to a mapping, and no mapping of a restricted box
    is without its addresses. (Half of [NatSafety.Inv]: while [Close] is under way the other
    half does not hold.) *)
Record BoxOk (b : Box) : Prop := {
  ok_live s : s ∈ live b -> s = doorConn b \/ fixedConn b = Some s \/ mapped b s;
  ok_contacts k e : restricted b = true -> mappings b !! k = Some e -> is_Some (contactIP e)
}.

Record same_parts (b b' : Box) : Prop := {
  sp_cfg : cfg b' = cfg b;
  sp_door : doorConn b' = doorConn b;
  sp_fixed : fixedConn b' = fixedConn b;
  sp_closed : closed b' = closed b
}.

(** Sockets are only closed. *)
Definition closes (b b' : Box) : Prop := same_parts b b' /\ opened b' = opened b /\ live b' ⊆ live b.

(** Or one is opened, unless the box is closed. *)
Definition opens (b b' : Box) : Prop :=
  closes b b' \/
  same_parts b b' /\ closed b = false /\ opened b' = S (opened b) /\ live b' ⊆ {[opened b]} ∪ live b.

#[local] Instance closes_refl : Reflexive closes.
Proof. by split; [constructor|split]. Qed.
#[local] Instance closes_trans : Transitive closes.
Proof.
  intros a b c ([] & ? & ?) ([] & ? & ?). split; [constructor; congruence|]. split; [congruence|]. by transitivity (live b).
Qed.

Lemma closes_opens a b c : closes a b -> opens b c -> opens a c.
Proof.
  intros Hab [Hbc|(S & Hc & Ho & Hl)]; [left; by transitivity b|right].
  destruct Hab as ([E1 E2 E3 E4] & Eo & El), S as [F1 F2 F3 F4].
  split; [constructor; congruence|]. split; [congruence|]. rewrite <- Eo. split; [done|]. set_solver.
Qed.

Lemma BoxOk_stats b st : BoxOk b -> BoxOk (b <| stats := st |>) /\ closes b (b <| stats := st |>).
Proof. intros [H1 H2]. split; [by constructor|]. by split; [constructor|split]. Qed.

Lemma reclaim_closes k e b : closes b (reclaimLocked k e b).
Proof.
  split; [by constructor|]. split; [done|]. cbn. destruct (pubConn e); [|done]. case_bool_decide; [done|set_solver].
Qed.

Lemma reclaim_ok k e b : mappings b !! k = Some e -> BoxOk b -> BoxOk (reclaimLocked k e b).
Proof.
  intros He [Hl Hc]. constructor.
  - intros s Hs. destruct (Hl s (proj2 (proj2 (reclaim_closes k e b)) s Hs)) as [->|[Hf|(k' & e' & H & Hp)]];
      [by left|by right; left|].
    destruct (decide (k' = k)) as [->|Hne].
    + rewrite He in H. injection H as <-. right. left. cbn in Hs |- *. rewrite Hp in Hs.
      destruct (bool_decide_reflect (Some s = fixedConn b)) as [->|]; [done|set_solver].
    + right. right. exists k', e'. cbn. by rewrite lookup_delete_ne.
  - intros k' e' Hr H. cbn in H. apply lookup_delete_Some in H as [_ H]. by apply (Hc k' e').
Qed.

Lemma reclaim_expired_ok now b : BoxOk b -> BoxOk (reclaim_expired now b) /\ closes b (reclaim_expired now b).
Proof.
  intros B. unfold reclaim_expired.
  assert (Hl : forall ke, ke ∈ filter (fun ke => lastSeenExpired ke.2 now (MappingTTL (cfg b)) = true) (map_to_list (mappings b)) ->
             mappings b !! ke.1 = Some ke.2).
  { intros [k e] Hin. apply list_elem_of_filter in Hin as [_ Hin]. by apply elem_of_map_to_list in Hin. }
  assert (Hd : NoDup (filter (fun ke => lastSeenExpired ke.2 now (MappingTTL (cfg b)) = true) (map_to_list (mappings b))).*1).
  { eapply sublist_NoDup; [apply (NoDup_fst_map_to_list (mappings b))|]. apply fmap_sublist, sublist_filter. }
  revert Hl Hd. generalize (filter (fun ke => lastSeenExpired ke.2 now (MappingTTL (cfg b)) = true) (map_to_list (mappings b))).
  intros l Hl Hd.
  enough (H : BoxOk (fold_right (fun ke b => reclaimLocked ke.1 ke.2 b) b l) /\
              closes b (fold_right (fun ke b => reclaimLocked ke.1 ke.2 b) b l) /\
              forall k, k ∉ l.*1 -> mappings (fold_right (fun ke b => reclaimLocked ke.1 ke.2 b) b l) !! k = mappings b !! k)
    by by destruct H as (? & ? & _).
  induction l as [|[k e] l IH]; [by split_and!|].
  cbn [fmap list_fmap fst] in Hd. apply list.NoDup_cons in Hd as [Hk Hd].
  destruct IH as (B' & C' & M'); [intros ke Hke; apply Hl; by right|done|]. cbn [fold_right fst snd].
  set (b' := fold_right _ b l) in *.
  assert (He : mappings b' !! k = Some e) by (rewrite M' by done; apply (Hl (k, e)); by left).
  split; [by apply reclaim_ok|]. split; [transitivity b'; [done|apply reclaim_closes]|].
  intros k' Hn. cbn in Hn |- *. apply not_elem_of_cons in Hn as [Hne Hn]. by rewrite lookup_delete_ne, M'.
Qed.

Lemma cleanup_ok now b : BoxOk b -> BoxOk (Nat.cleanup now b) /\ closes b (Nat.cleanup now b).
Proof. intros B. unfold Nat.cleanup. destruct (_ <=? _); [done|by apply reclaim_expired_ok]. Qed.

(** A mapping stored under a key that had none, or had one with the same socket. *)
Lemma insert_ok b k e :
  BoxOk b -> (forall e0, mappings b !! k = Some e0 -> pubConn e0 = pubConn e) ->
  (restricted b = true -> is_Some (contactIP e)) -> BoxOk (b <| mappings := <[k := e]> (mappings b) |>).
Proof.
  intros [Hl Hc] Hold Hnew. constructor.
  - intros s Hs. destruct (Hl s Hs) as [->|[Hf|(k' & e' & H & Hp)]]; [by left|by right; left|right; right].
    destruct (decide (k' = k)) as [->|Hne].
    + exists k, e. cbn. rewrite lookup_insert_eq. split; [done|]. by rewrite <- (Hold e').
    + exists k', e'. cbn. by rewrite lookup_insert_ne.
  - intros k' e' Hr H. cbn in H. apply lookup_insert_Some in H as [[<- <-]|[_ H]]; [by apply Hnew|by apply (Hc k' e')].
Qed.

Lemma current_ok key now b e b' : BoxOk b -> current key now b = (e, b') ->
  BoxOk b' /\ closes b b' /\ mappings b' !! key = e.
Proof.
  intros B. unfold current. destruct (mappings b !! key) as [e0|] eqn:He; [|by intros [= <- <-]].
  destruct (_ && _); intros [= <- <-]; [|by split_and!].
  split; [by apply reclaim_ok|]. split; [apply reclaim_closes|]. cbn. apply lookup_delete_eq.
Qed.

Lemma outboundSocket_ok dst now bound b : BoxOk b ->
  exists r b', outboundSocket dst now bound b = Some (r, b') /\ BoxOk b' /\ opens b b'.
Proof.
  intros B. unfold outboundSocket. fold (symmetric b). fold (restricted b).
  set (key := if symmetric b then _ else _ : mappingKey).
  destruct (current key now b) as [e b1] eqn:E. destruct (current_ok key now b e b1 B E) as (B1 & C1 & He).
  assert (Hr : restricted b1 = restricted b) by (unfold restricted; by rewrite (sp_cfg _ _ (proj1 C1))).
  assert (Hput : forall e1, (forall e0, mappings b1 !! key = Some e0 -> pubConn e0 = pubConn e1) ->
            (restricted b = true -> is_Some (contactIP e1)) ->
            BoxOk (b1 <| mappings := <[key := e1]> (mappings b1) |>) /\
            opens b (b1 <| mappings := <[key := e1]> (mappings b1) |>)).
  { intros e1 H1 H2. split; [apply insert_ok; [done|done|by rewrite Hr]|].
    apply (closes_opens b b1); [done|left]. by split; [constructor|split]. }
  destruct e as [e0|].
  - destruct (restricted b) eqn:Er.
    + cbn [contactIP upd eta mappingEntry_eta]. destruct (ok_contacts _ B1 key e0 Hr He) as [ips Hips]. rewrite Hips.
      eexists _, _. split; [reflexivity|]. apply Hput; [|by eexists]. intros e2 H2. rewrite He in H2. by injection H2 as <-.
    + eexists _, _. split; [reflexivity|]. apply Hput; [|done]. intros e2 H2. rewrite He in H2. by injection H2 as <-.
  - destruct (symmetric b) eqn:Es; cbn [negb].
    + destruct (closed b1) eqn:Ec; [eexists _, _; split; [reflexivity|]; split; [done|by left]|].
      destruct bound as [port|]; [|eexists _, _; split; [reflexivity|]; split; [done|by left]].
      eexists _, _. split; [reflexivity|]. split.
      * constructor; cbn.
        -- intros s [->%elem_of_singleton|Hs]%elem_of_union; [|destruct (ok_live _ B1 s Hs) as [->|[Hf|(k & e1 & H & Hp)]];
             [by left|by right; left|]].
           ++ right. right. eexists key, _. cbn. by rewrite lookup_insert_eq.
           ++ right. right. exists k, e1. cbn. rewrite lookup_insert_ne; [done|]. intros <-. congruence.
        -- intros k e1 Hr' [[<- <-]|[_ H]]%lookup_insert_Some; [by eexists|]. by apply (ok_contacts _ B1 k e1).
      * apply (closes_opens b b1); [done|right]. by split; [constructor|split_and!].
    + eexists _, _. split; [reflexivity|]. apply Hput; [congruence|]. intros ->. by eexists.
Qed.

(** ** The process *)

Section Process.
Context (other : string -> option UDPAddr).

Lemma handleOutbound_ok pkt src now bound wrote b : BoxOk b ->
  exists d b', handleOutbound other pkt src now bound wrote b = Some (d, b') /\ BoxOk b' /\ opens b b'.
Proof.
  intros B. unfold handleOutbound.
  assert (Hd : forall b', BoxOk b' -> opens b b' -> BoxOk (incDropped b') /\ opens b (incDropped b')).
  { intros b' B' O. split; [by apply BoxOk_stats|].
    destruct O as [C|([] & ? & ? & ?)]; [left|right]; [|by split; [constructor|split_and!]].
    transitivity b'; [done|]. by apply BoxOk_stats. }
  destruct (negb _); [eexists _, _; split; [reflexivity|]; apply Hd; [done|by left]|].
  destruct (UnwrapOutbound other pkt) as [[[id dst] inner]|e]; [|eexists _, _; split; [reflexivity|]; apply Hd; [done|by left]].
  destruct (outboundSocket_ok dst now bound b B) as (r & b' & E & B' & O). rewrite E. cbn [mbind option_bind].
  destruct r as [s|e]; [|eexists _, _; split; [reflexivity|]; by apply Hd].
  destruct wrote; eexists _, _; (split; [reflexivity|]); [|by apply Hd].
  split; [by apply BoxOk_stats|].
  destruct O as [C|([] & ? & ? & ?)]; [left|right]; [|by split; [constructor|split_and!]].
  transitivity b'; [done|]. by apply BoxOk_stats.
Qed.

Lemma handleInbound_ok s pkt src now wrote b : BoxOk b ->
  BoxOk (handleInbound s pkt src now wrote b).2 /\ closes b (handleInbound s pkt src now wrote b).2.
Proof. intros B. unfold handleInbound. repeat (destr; cbn [snd]); by apply BoxOk_stats. Qed.

(** How far [Close] is. *)
Definition stage (o : once_pos) : nat :=
  match o with
  | Idle => 0 | AtSignal => 1 | AtFlag => 2 | AtDoor => 3 | AtFixed => 4 | AtMappings => 5 | Finished => 6
  end.

Definition attended (rs : gmap sock reader_pos) (s : sock) : Prop := exists q, rs !! s = Some q /\ q <> Ended.

Record Base p : Prop := {
  ba_box : BoxOk (box p);
  ba_signal : (2 <= stage (once p))%nat -> closeCh p = true;
  ba_flag : (3 <= stage (once p))%nat -> closed (box p) = true;
  ba_door : (4 <= stage (once p))%nat -> doorConn (box p) ∉ live (box p);
  ba_fixed s : (5 <= stage (once p))%nat -> fixedConn (box p) = Some s -> s ∉ live (box p);
  ba_all : (6 <= stage (once p))%nat -> live (box p) = ∅;
  ba_started : closeCh p = true -> (2 <= stage (once p))%nat;
  ba_none : fixedConn (box p) = None -> fixed p = Ended;
  ba_readers s : s ∈ live (box p) -> s = doorConn (box p) \/ fixedConn (box p) = Some s \/ attended (readers p) s;
  ba_fresh s q : readers p !! s = Some q -> (s < opened (box p))%nat
}.

(** A step that only closes sockets, and takes no reader from an open one. *)
Lemma Base_closes p p' : Base p -> BoxOk (box p') -> closes (box p) (box p') ->
  once p' = once p -> closeCh p' = closeCh p -> (fixed p = Ended -> fixed p' = Ended) ->
  (forall s, s ∈ live (box p') -> attended (readers p) s -> attended (readers p') s) ->
  (forall s q, readers p' !! s = Some q -> is_Some (readers p !! s)) -> Base p'.
Proof.
  intros B Bx ([E1 E2 E3 E4] & Eo & El) Ho Hc Hf Hr Hd. constructor; rewrite ?Ho, ?Hc, ?E2, ?E3, ?E4, ?Eo; try apply B; try done.
  - intros Hs Hin. by apply (ba_door _ B Hs), El.
  - intros s Hs E Hin. by apply (ba_fixed _ B s Hs E), El.
  - intros Hs. pose proof (ba_all _ B Hs). set_solver.
  - intros E. by apply Hf, (ba_none _ B).
  - intros s Hs. destruct (ba_readers _ B s (El s Hs)) as [->|[E|E]]; auto.
  - intros s q Hq. destruct (Hd s q Hq) as [q' Hq']. by apply (ba_fresh _ B s q').
Qed.

Ltac closes_step := apply Base_closes; try done.

Lemma read_turn_spec open r p q p' : read_turn open r p = (q, p') ->
  p' = p \/ p' = p <| box := incDropped (box p) |>.
Proof. unfold read_turn. repeat destr; intros [= <- <-]; auto. Qed.

Lemma Base_dropped p : Base p -> Base (p <| box := incDropped (box p) |>).
Proof.
  intros B. apply (Base_closes p); try done; by apply BoxOk_stats, B.
Qed.

Lemma close_mappings_live (b : Box) s :
  s ∈ live (close_mappings b) <-> s ∈ live b /\ forall ke, ke ∈ map_to_list (mappings b) -> pubConn ke.2 <> Some s.
Proof. unfold close_mappings. cbn [live upd eta Box_eta]. apply close_fold. Qed.

Lemma close_step_Base p : Base p -> Base (close_step p).
Proof.
  intros B. unfold close_step. destruct (once p) eqn:Eo; try done.
  - destruct B as [? ? ? ? ? ? ? ? ? ?]. rewrite Eo in *. constructor; cbn; try done; lia.
  - destruct B as [Bx B2 B3 B4 B5 B6 B7 B8 B9 B10]. rewrite Eo in *. cbn in *.
    constructor; cbn; try solve [done|lia|auto|by destruct Bx].
  - destruct B as [Bx B2 B3 B4 B5 B6 B7 B8 B9 B10]. rewrite Eo in *. cbn in *.
    constructor; cbn; try solve [done|lia|auto].
    + destruct Bx as [H1 H2]. constructor; [|done]. intros s Hs. cbn in Hs. apply (H1 s). set_solver.
    + set_solver.
    + intros s Hs. apply B9. set_solver.
  - destruct B as [Bx B2 B3 B4 B5 B6 B7 B8 B9 B10]. rewrite Eo in *. cbn in *.
    rewrite closeConn_live. constructor; cbn; try solve [done|lia|auto].
    + destruct Bx as [H1 H2]. constructor; [|done]. intros s Hs. cbn in Hs. apply (H1 s).
      destruct (fixedConn (box p)); set_solver.
    + intros _. specialize (B4 ltac:(lia)). destruct (fixedConn (box p)); set_solver.
    + intros s _ E. rewrite E. set_solver.
    + intros s Hs. apply B9. destruct (fixedConn (box p)); set_solver.
  - destruct B as [Bx B2 B3 B4 B5 B6 B7 B8 B9 B10]. rewrite Eo in *. cbn in *.
    assert (Hl : live (close_mappings (box p)) = ∅).
    { apply set_eq. intros s. split; [|set_solver]. intros Hs. exfalso.
      apply close_mappings_live in Hs as [Hs Hm]. destruct (ok_live _ Bx s Hs) as [->|[E|(k & e & He & Hp)]].
      - by apply (B4 ltac:(lia)).
      - by apply (B5 s ltac:(lia)).
      - apply (Hm (k, e)); [by apply elem_of_map_to_list|done]. }
    constructor; cbn [box once closeCh fixed readers stage upd eta Running_eta]; rewrite ?Hl; try solve [done|lia|intros; apply not_elem_of_empty|intros s Hs; by apply elem_of_empty in Hs|auto].
    constructor; [rewrite Hl; intros s Hs; by apply elem_of_empty in Hs|]. intros k e _ H. cbn in H. by rewrite lookup_empty in H.
Qed.

(** Steps that leave the box, the readers and [Close] alone. *)
Lemma Base_same p p' : Base p -> box p' = box p -> once p' = once p -> closeCh p' = closeCh p ->
  (fixed p = Ended -> fixed p' = Ended) -> readers p' = readers p -> Base p'.
Proof.
  intros B E1 E2 E3 E4 E5. apply (Base_closes p); rewrite ?E1, ?E5; try done. apply B.
Qed.

Lemma attended_insert rs s s' q : q <> Ended -> attended rs s' -> attended (<[s := q]> rs) s'.
Proof.
  intros Hq (q' & E & Hn). destruct (decide (s = s')) as [<-|Hne]; [exists q|exists q'].
  - by rewrite lookup_insert_eq.
  - by rewrite lookup_insert_ne.
Qed.

Lemma insert_known (rs : gmap sock reader_pos) s s' q q' :
  is_Some (rs !! s) -> <[s := q]> rs !! s' = Some q' -> is_Some (rs !! s').
Proof. intros Hs [[<- _]|[_ H]]%lookup_insert_Some; [done|by eexists]. Qed.

Lemma out_turn_Base r now bound wrote p : Base p ->
  exists p', out_turn other r now bound wrote p = Some p' /\ Base p'.
Proof.
  intros B. unfold out_turn. destruct (outbound p) as [|pkt src|]; [| |by exists p].
  - destruct (read_turn _ r p) as [q p1] eqn:E. eexists. split; [reflexivity|].
    assert (B1 : Base p1) by (destruct (read_turn_spec _ _ _ _ _ E) as [-> | ->]; [done|by apply Base_dropped]).
    by apply (Base_same p1).
  - destruct (handleOutbound_ok pkt (Some src) now bound wrote (box p) (ba_box _ B)) as (d & b & E & Bb & O).
    rewrite E. cbn [mbind option_bind]. eexists. split; [reflexivity|].
    destruct O as [C|(S & Hc & Ho & Hl)].
    + rewrite bool_decide_eq_true_2 by apply C.
      apply (Base_closes p); try done.
    + rewrite bool_decide_eq_false_2 by lia. destruct S as [E1 E2 E3 E4]. destruct B as [Bx B2 B3 B4 B5 B6 B7 B8 B9 B10].
      assert (Hst : (stage (once p) < 3)%nat).
      { destruct (decide (3 <= stage (once p))%nat) as [H3|]; [|lia]. rewrite (B3 H3) in Hc. done. }
      constructor; cbn; rewrite ?E2, ?E3, ?E4, ?Ho; try solve [done|lia].
      * intros s Hs. apply Hl, elem_of_union in Hs as [->%elem_of_singleton|Hs].
        -- right. right. exists AtRead. by rewrite lookup_insert_eq.
        -- destruct (B9 s Hs) as [?|[?|?]]; auto. right. right. by apply attended_insert.
      * intros s q [[<- _]|[_ H]]%lookup_insert_Some; [lia|]. specialize (B10 s q H). lia.
Qed.

Lemma fixed_turn_Base r now wrote p : Base p -> Base (fixed_turn r now wrote p).
Proof.
  intros B. unfold fixed_turn. destruct (fixedConn (box p)) as [s|] eqn:Ef; [|done].
  destruct (fixed p) as [|pkt src|] eqn:Eq; [| |done].
  - destruct (read_turn _ r p) as [q p1] eqn:E.
    destruct (read_turn_spec _ _ _ _ _ E) as [-> | ->]; [apply (Base_same p)|apply (Base_same (p <| box := incDropped (box p) |>))];
      try done; [congruence|by apply Base_dropped|cbn; congruence].
  - destruct (handleInbound_ok s pkt src now wrote (box p) (ba_box _ B)) as [Bb C].
    apply (Base_closes p); try done. cbn. congruence.
Qed.

Lemma sym_turn_Base s r now wrote p : Base p -> Base (sym_turn s r now wrote p).
Proof.
  intros B. unfold sym_turn. destruct (readers p !! s) as [[|pkt src|]|] eqn:Eq; [| |done|done].
  - destruct (is_live s p) eqn:El; [destruct r as [[pkt src]|]|].
    + apply (Base_closes p); try done; [apply B|intros s' _; by apply attended_insert|].
      intros s' q. cbn. apply insert_known. by rewrite Eq.
    + by apply Base_dropped.
    + apply (Base_closes p); try done; [apply B| |].
      * intros s' Hs' (q & E & Hn). unfold is_live in El. zbool. exists q. cbn.
        rewrite lookup_insert_ne; [done|]. intros ->. done.
      * intros s' q. cbn. apply insert_known. by rewrite Eq.
  - destruct (handleInbound_ok s pkt src now wrote (box p) (ba_box _ B)) as [Bb C].
    apply (Base_closes p); try done; [intros s' _; by apply attended_insert|].
    intros s' q. cbn. apply insert_known. by rewrite Eq.
Qed.

Lemma tick_turn_Base tick now p : Base p -> Base (tick_turn tick now p).
Proof.
  intros B. unfold tick_turn. destruct (ticker p); [|done]. destruct tick.
  - destruct (cleanup_ok now (box p) (ba_box _ B)) as [Bb C]. apply (Base_closes p); try done.
  - destruct (_ || _); [by apply (Base_same p)|done].
Qed.

Lemma close_call_Base p : Base p -> Base (close_call p).
Proof.
  intros B. unfold close_call. destruct (once p) eqn:Eo; try done.
  destruct B as [Bx B2 B3 B4 B5 B6 B7 B8 B9 B10]. rewrite Eo in *. cbn in *.
  constructor; cbn; try solve [done|lia|auto].
Qed.

Lemma nstep_Base p e : Base p -> exists p', nstep other p e = Some p' /\ Base p'.
Proof.
  intros B. destruct e as [| | | |r now bound wrote|r now wrote|s r now wrote|tick now|now]; cbn [nstep];
    try (eexists; split; [reflexivity|]).
  - by apply (Base_same p).
  - unfold main_turn. destruct (main p).
    + destruct (_ || _); [by apply (Base_same p)|done].
    + destruct (once p) eqn:Eo; try by apply close_call_Base. apply (Base_same p); try done.
    + destruct (all_done p); [by apply (Base_same p)|done].
    + done.
  - by apply close_call_Base.
  - by apply close_step_Base.
  - by apply out_turn_Base.
  - by apply fixed_turn_Base.
  - by apply sym_turn_Base.
  - by apply tick_turn_Base.
  - destruct (reclaim_expired_ok now (box p) (ba_box _ B)) as [Bb C]. apply (Base_closes p); try done.
Qed.

(** ** Returning *)

Lemma box_done_spec p : all_done p = true <->
  outbound p = Ended /\ fixed p = Ended /\ ticker p = false /\ forall s q, readers p !! s = Some q -> q = Ended.
Proof.
  unfold all_done. split.
  - intros H. zbool. rewrite forallb_forall in *. split_and!.
    + by destruct (outbound p).
    + by destruct (fixed p).
    + done.
    + intros s q Hq. assert (Hin : In (s, q) (map_to_list (readers p))) by by apply list_elem_of_In, elem_of_map_to_list.
      match goal with H : forall x, In x _ -> _ |- _ => specialize (H _ Hin) end. by destruct q.
  - intros (-> & -> & -> & H). cbn [ended andb negb]. apply forallb_forall. intros [s q] Hin.
    apply list_elem_of_In, elem_of_map_to_list in Hin. by rewrite (H s q Hin).
Qed.

Lemma box_close_frame p :
  main (close_step p) = main p /\ outbound (close_step p) = outbound p /\ fixed (close_step p) = fixed p /\
  ticker (close_step p) = ticker p /\ readers (close_step p) = readers p /\ ctx (close_step p) = ctx p.
Proof. unfold close_step. by destruct (once p). Qed.

Lemma close_call_frame p :
  main (close_call p) = main p /\ outbound (close_call p) = outbound p /\ fixed (close_call p) = fixed p /\
  ticker (close_call p) = ticker p /\ readers (close_call p) = readers p /\ ctx (close_call p) = ctx p.
Proof. unfold close_call. by destruct (once p). Qed.

Definition is_turn (e : nevent) : bool :=
  match e with NOut _ _ _ _ | NFixed _ _ _ | NSym _ _ _ _ | NTick _ _ => true | _ => false end.

(** Goroutines that are done take no turns. *)
Lemma done_turn p e : all_done p = true -> is_turn e = true -> nstep other p e = Some p.
Proof.
  intros Hd He. apply box_done_spec in Hd as (Ho & Hf & Ht & Hr). destruct e; try done; cbn [nstep].
  - unfold out_turn. by rewrite Ho.
  - unfold fixed_turn. rewrite Hf. by destruct (fixedConn _).
  - unfold sym_turn. destruct (readers p !! s) as [q|] eqn:Eq; [|done]. by rewrite (Hr s q Eq).
  - unfold tick_turn. by rewrite Ht.
Qed.

Lemma box_done_step p e p' : all_done p = true -> nstep other p e = Some p' -> all_done p' = true.
Proof.
  intros Hd E. destruct (is_turn e) eqn:He; [rewrite (done_turn p e Hd He) in E; by injection E as <-|].
  apply box_done_spec in Hd as (Ho & Hf & Ht & Hr).
  assert (Hg : outbound p' = outbound p -> fixed p' = fixed p -> ticker p' = ticker p -> readers p' = readers p ->
            all_done p' = true) by (intros E1 E2 E3 E4; apply box_done_spec; by rewrite E1, E2, E3, E4).
  destruct e; try done; cbn [nstep] in E; injection E as <-; try by apply Hg.
  - unfold main_turn. destruct (close_call_frame p) as (_ & ? & ? & ? & ? & _).
    apply box_done_spec. destruct (main p); [destruct (_ || _)|destruct (once p)|destruct (all_done p)|]; cbn;
      repeat match goal with H : _ (close_call p) = _ |- _ => rewrite H end; done.
  - destruct (close_call_frame p) as (_ & ? & ? & ? & ? & _). by apply Hg.
  - destruct (box_close_frame p) as (_ & ? & ? & ? & ? & _). by apply Hg.
Qed.

(** [Run] waits for [Close], and for its goroutines. *)
Definition Main p : Prop :=
  match main p with
  | Serving | AtClose => True
  | Draining => once p = Finished
  | Returned => once p = Finished /\ all_done p = true
  end.

Lemma once_step p e p' : nstep other p e = Some p' -> once p = Finished -> once p' = Finished.
Proof.
  intros E Ho. destruct e; cbn [nstep] in E; try (injection E as <-).
  - done.
  - unfold main_turn, close_call. rewrite Ho. destruct (main p); repeat destr; done.
  - unfold close_call. by rewrite Ho.
  - unfold close_step. by rewrite Ho.
  - unfold out_turn in E. destruct (outbound p) as [|pkt src|]; [| |by injection E as <-].
    + destruct (read_turn _ r p) as [q p1] eqn:Er. injection E as <-.
      by destruct (read_turn_spec _ _ _ _ _ Er) as [-> | ->].
    + destruct (handleOutbound _ _ _ _ _ _ _) as [[d b]|]; [|done]. by injection E as <-.
  - unfold fixed_turn. destruct (fixedConn _); [|done]. destruct (fixed p); try done.
    destruct (read_turn _ r p) as [q p1] eqn:Er. by destruct (read_turn_spec _ _ _ _ _ Er) as [-> | ->].
  - unfold sym_turn. repeat destr; done.
  - unfold tick_turn. repeat destr; done.
  - done.
Qed.

Lemma main_step p e p' : nstep other p e = Some p' -> e <> NMain -> main p' = main p.
Proof.
  intros E He. destruct e; try done; cbn [nstep] in E; try (injection E as <-; done).
  - injection E as <-. apply close_call_frame.
  - injection E as <-. apply box_close_frame.
  - unfold out_turn in E. destruct (outbound p) as [|pkt src|]; [| |by injection E as <-].
    + destruct (read_turn _ r p) as [q p1] eqn:Er. injection E as <-.
      by destruct (read_turn_spec _ _ _ _ _ Er) as [-> | ->].
    + destruct (handleOutbound _ _ _ _ _ _ _) as [[d b]|]; [|done]. by injection E as <-.
  - injection E as <-. unfold fixed_turn. destruct (fixedConn _); [|done]. destruct (fixed p); try done.
    destruct (read_turn _ r p) as [q p1] eqn:Er. by destruct (read_turn_spec _ _ _ _ _ Er) as [-> | ->].
  - injection E as <-. unfold sym_turn. repeat destr; done.
  - injection E as <-. unfold tick_turn. repeat destr; done.
Qed.

Lemma Main_step p e p' : Main p -> nstep other p e = Some p' -> Main p'.
Proof.
  intros M E. assert (Hm : e = NMain \/ e <> NMain) by (destruct e; auto; right; done). destruct Hm as [->|Hm].
  - cbn [nstep] in E. injection E as <-. unfold main_turn, Main in *. destruct (main p) eqn:Em.
    + destruct (_ || _); cbn; by rewrite ?Em.
    + unfold close_call. destruct (once p) eqn:Eo; cbn; rewrite ?Em, ?Eo; done.
    + destruct (all_done p) eqn:Ed; cbn; [by split|by rewrite Em].
    + by rewrite Em.
  - unfold Main in *. rewrite (main_step p e p' E Hm). destruct (main p); try done.
    + by apply (once_step p e).
    + destruct M as [Ho Hd]. split; [by apply (once_step p e)|by apply (box_done_step p e)].
Qed.

Lemma nrun_kept es : forall p, Base p -> Main p -> exists p', nrun other p es = Some p' /\ Base p' /\ Main p'.
Proof.
  induction es as [|e es IH]; intros p B M; [by exists p|]. destruct (nstep_Base p e B) as (p1 & E & B1).
  destruct (IH p1 B1 (Main_step p e p1 M E)) as (p' & E' & H'). exists p'. split; [|done]. cbn [nrun]. by rewrite E.
Qed.

Lemma nrun_app es1 : forall p es2, nrun other p (es1 ++ es2) = p' ← nrun other p es1; nrun other p' es2.
Proof.
  induction es1 as [|e es1 IH]; intros p es2; [done|]. cbn [nrun app]. destruct (nstep other p e); [|done]. apply IH.
Qed.
End Process.

(** ** What [Run] promises *)

(** The turns a reader has left once its socket is closed. *)
Definition left_over (q : reader_pos) : nat := match q with Ended => 0 | AtRead => 1 | Holding _ _ => 2 end.

(** The turns that count towards a goroutine's end. *)
Definition out_count (e : nevent) : bool := match e with NOut _ _ _ _ => true | _ => false end.
Definition fixed_count (e : nevent) : bool := match e with NFixed _ _ _ => true | _ => false end.
Definition tick_count (e : nevent) : bool := match e with NTick false _ => true | _ => false end.
Definition sym_count (s : sock) (e : nevent) : bool := match e with NSym s' _ _ _ => bool_decide (s' = s) | _ => false end.
Definition turns (f : nevent -> bool) (es : list nevent) : nat := length (List.filter f es).

Section Promises.
Context (other : string -> option UDPAddr).

(** After [Close], each goroutine has at most so many turns left, and there is no new one. *)
Record winding (known : gset sock) (ko kf kt : nat) (ks : sock -> nat) p : Prop := {
  wi_base : Base p;
  wi_once : once p = Finished;
  wi_out : (left_over (outbound p) <= ko)%nat;
  wi_fixed : (left_over (fixed p) <= kf)%nat;
  wi_tick : ticker p = true -> (1 <= kt)%nat;
  wi_known s q : readers p !! s = Some q -> s ∈ known /\ (left_over q <= ks s)%nat
}.

Definition spend (b : bool) (k : nat) : nat := if b then pred k else k.

Lemma winding_weaken known ko kf kt ks p p' : winding known ko kf kt ks p -> Base p' -> once p' = Finished ->
  outbound p' = outbound p -> fixed p' = fixed p -> ticker p' = ticker p -> readers p' = readers p ->
  winding known ko kf kt ks p'.
Proof. intros [] B O E1 E2 E3 E4. constructor; rewrite ?E1, ?E2, ?E3, ?E4; done. Qed.

Lemma dead_read s r p : s ∉ live (box p) -> read_turn (is_live s p) r p = (Ended, p).
Proof. intros Hs. unfold is_live. by rewrite bool_decide_eq_false_2. Qed.

Lemma box_winding_step known ko kf kt ks p e p' : winding known ko kf kt ks p -> nstep other p e = Some p' ->
  winding known (spend (out_count e) ko) (spend (fixed_count e) kf) (spend (tick_count e) kt)
    (fun s => spend (sym_count s e) (ks s)) p'.
Proof.
  intros V E. pose proof V as [B O Vo Vf Vt Vk].
  destruct (nstep_Base other p e B) as (p1 & E1 & B'). rewrite E in E1. injection E1 as <-.
  pose proof (once_step other p e p' E O) as O'.
  assert (Hdead : forall s, s ∉ live (box p)).
  { intros s. rewrite (ba_all _ B); [apply not_elem_of_empty|]. rewrite O. cbn. lia. }
  assert (Hshut : closed (box p) = true) by (apply (ba_flag _ B); rewrite O; cbn; lia).
  destruct e as [| | | |r now bound wrote|r now wrote|s r now wrote|tick now|now]; cbn [nstep] in E;
    cbn [out_count fixed_count tick_count sym_count spend].
  - injection E as <-. by apply (winding_weaken _ _ _ _ _ p).
  - injection E as <-. unfold main_turn, close_call in *. rewrite O in *.
    apply (winding_weaken _ _ _ _ _ p); try done; by (destruct (main p); repeat destr).
  - injection E as <-. unfold close_call in *. rewrite O in *. done.
  - injection E as <-. unfold close_step in *. rewrite O in *. done.
  - unfold out_turn in E. destruct (outbound p) as [|pkt src|] eqn:Eo.
    + rewrite dead_read in E by done. injection E as <-. constructor; try done. cbn. lia.
    + destruct (handleOutbound_ok other pkt (Some src) now bound wrote (box p) (ba_box _ B)) as (d & b & Eh & _ & C).
      rewrite Eh in E. cbn [mbind option_bind] in E.
      destruct C as [C|(_ & Hc & _)]; [|congruence]. rewrite bool_decide_eq_true_2 in E by apply C.
      injection E as <-. constructor; try done. cbn in Vo |- *. lia.
    + injection E as <-. constructor; try done. rewrite Eo. cbn. lia.
  - injection E as <-. unfold fixed_turn in *. destruct (fixedConn (box p)) as [s|] eqn:Ef.
    2:{ constructor; try done. rewrite (ba_none _ B Ef). cbn. lia. }
    destruct (fixed p) as [|pkt src|] eqn:Eq.
    + rewrite dead_read in * by done. constructor; try done. cbn. lia.
    + constructor; try done. cbn in Vf |- *. lia.
    + constructor; try done. rewrite Eq. cbn. lia.
  - injection E as <-. unfold sym_turn in *. destruct (readers p !! s) as [q|] eqn:Eq.
    2:{ constructor; try done. intros s' q' Hq. destruct (Vk s' q' Hq) as [Hk Hle]. split; [done|].
        rewrite bool_decide_eq_false_2 by congruence. done. }
    destruct (Vk s q Eq) as [Hks Hls].
    assert (Hmove : forall q2 rs, rs = <[s := q2]> (readers p) -> (left_over q2 <= pred (ks s))%nat ->
              forall s' q', rs !! s' = Some q' -> s' ∈ known /\ (left_over q' <= spend (bool_decide (s = s')) (ks s'))%nat).
    { intros q2 rs -> Hle s' q' [[<- <-]|[Hne H]]%lookup_insert_Some.
      - split; [done|]. by rewrite bool_decide_eq_true_2.
      - rewrite bool_decide_eq_false_2 by done. by apply Vk. }
    destruct q as [|pkt src|].
    + unfold is_live in *. rewrite bool_decide_eq_false_2 in * by done. constructor; try done.
      by eapply Hmove; [reflexivity|cbn; lia].
    + constructor; try done. eapply Hmove; [reflexivity|]. cbn in Hls |- *. lia.
    + constructor; try done. apply (Hmove Ended); [by rewrite insert_id|cbn; lia].
  - injection E as <-. unfold tick_turn in *. destruct (ticker p) eqn:Et.
    + destruct tick; [constructor; try done; cbn; by rewrite Et|].
      assert (closeCh p = true) as Hch by (apply (ba_signal _ B); rewrite O; cbn; lia).
      rewrite Hch, orb_true_r in *. by constructor.
    + constructor; try done. rewrite Et. done.
  - injection E as <-. by apply (winding_weaken _ _ _ _ _ p).
Qed.

Lemma box_winding_run known es : forall ko kf kt ks p p', winding known ko kf kt ks p -> nrun other p es = Some p' ->
  winding known (ko - turns out_count es) (kf - turns fixed_count es) (kt - turns tick_count es)
    (fun s => ks s - turns (sym_count s) es)%nat p'.
Proof.
  unfold turns. induction es as [|e es IH]; intros ko kf kt ks p p' V E; cbn [nrun List.filter] in *.
  { injection E as <-. destruct V as [B O Vo Vf Vt Vk].
    constructor; cbn [length]; rewrite ?Nat.sub_0_r; try done. intros s q Hq. rewrite Nat.sub_0_r. by apply Vk. }
  destruct (nstep other p e) as [p1|] eqn:E1; [|done]. cbn [mbind option_bind] in E.
  assert (Hs : forall (b : bool) k n, (spend b k - n)%nat = (k - (if b then S n else n))%nat)
    by (intros [] k n; cbn; lia).
  destruct (IH _ _ _ _ _ _ (box_winding_step _ _ _ _ _ _ _ _ V E1) E) as [B O Vo Vf Vt Vk].
  rewrite Hs in *. constructor; try done.
  - by destruct (out_count e).
  - by destruct (fixed_count e).
  - by destruct (tick_count e).
  - intros s q Hq. destruct (Vk s q Hq) as [Hk Hl]. split; [done|]. rewrite Hs in Hl. by destruct (sym_count s e).
Qed.

(** [Run] on its way out. *)
Definition next (o : once_pos) : once_pos :=
  match o with
  | Idle => Idle | AtSignal => AtFlag | AtFlag => AtDoor | AtDoor => AtFixed | AtFixed => AtMappings
  | AtMappings | Finished => Finished
  end.

Lemma close_step_once p : once (close_step p) = next (once p).
Proof. unfold close_step. destruct (once p) eqn:E; cbn; by rewrite ?E. Qed.

Lemma main_turn_spec p : ctx p || closeCh p = true -> Main p ->
  readers (main_turn p) = readers p /\ main (main_turn p) <> Serving /\
  (main p <> Serving -> once (main_turn p) <> Idle) /\ once (main_turn p) = match main p with AtClose => once (close_call p) | _ => once p end.
Proof.
  intros Ho M. unfold main_turn, Main in *. destruct (main p) eqn:Em.
  - rewrite Ho. by split_and!.
  - unfold close_call. destruct (once p) eqn:Eo; cbn; rewrite ?Em, ?Eo; by split_and!.
  - destruct (all_done p); cbn; rewrite ?Em, ?M; by split_and!.
  - destruct M as [Hf _]. rewrite Em, Hf. by split_and!.
Qed.

Lemma under_way p : Base p -> Main p -> ctx p || closeCh p = true ->
  let p2 := close_step (close_step (close_step (close_step (close_step (main_turn (main_turn p)))))) in
  once p2 = Finished /\ readers p2 = readers p /\ main p2 <> Serving.
Proof.
  intros B M Ho p2. destruct (main_turn_spec p Ho M) as (R1 & S1 & _ & _).
  assert (M1 : Main (main_turn p)) by by apply (Main_step other p NMain).
  assert (Ho1 : ctx (main_turn p) || closeCh (main_turn p) = true).
  { rewrite <- Ho. unfold main_turn, close_call. repeat destr; done. }
  destruct (main_turn_spec (main_turn p) Ho1 M1) as (R2 & S2 & N2 & _). specialize (N2 S1).
  assert (Hc : forall q, readers (close_step q) = readers q /\ main (close_step q) = main q).
  { intros q. by destruct (box_close_frame q) as (? & _ & _ & _ & ? & _). }
  split_and!.
  - unfold p2. rewrite !close_step_once. by destruct (once (main_turn (main_turn p))).
  - unfold p2. by rewrite !(proj1 (Hc _)), R2.
  - unfold p2. by rewrite !(proj2 (Hc _)).
Qed.

Lemma prelude p : Base p -> Main p -> ctx p || closeCh p = true ->
  exists p2, nrun other p ([NMain; NMain] ++ replicate 5 NCloser) = Some p2 /\
    once p2 = Finished /\ readers p2 = readers p /\ main p2 <> Serving.
Proof. intros B M Ho. eexists. split; [reflexivity|]. by apply under_way. Qed.

Lemma left_serving es : forall p p', nrun other p es = Some p' -> main p <> Serving -> main p' <> Serving.
Proof.
  induction es as [|e es IH]; intros p p' E Hm; cbn [nrun] in E; [by injection E as <-|].
  destruct (nstep other p e) as [p1|] eqn:E1; [|done]. apply (IH p1 p' E).
  assert (He : e = NMain \/ e <> NMain) by (destruct e; auto; right; done). destruct He as [->|He].
  - cbn in E1. injection E1 as <-. unfold main_turn, close_call. destruct (main p) eqn:Em;
      [destruct (_ || _)|destruct (once p)|destruct (all_done p)|]; cbn; congruence.
  - by rewrite (main_step other p e p1 E1 He).
Qed.

Context (listen : string -> option Z) (c : Config) (b0 : Box) (Hnew : New listen c = Ok b0).

Lemma running_Base : Base (running b0).
Proof.
  destruct (New_Inv listen c b0 Hnew) as (I & Hc & Hm). constructor; cbn; try solve [lia|done].
  - constructor; [intros s Hs; by apply (inv_live _ I Hc s)|]. intros k e _. by rewrite Hm, lookup_empty.
  - by intros ->.
  - intros s Hs. apply (inv_live _ I Hc s) in Hs as [->|[Hf|(k & e & He & _)]]; [by left|by right; left|].
    by rewrite Hm, lookup_empty in He.
Qed.

(** [C33] The box's goroutines never panic; every socket that is open is the door, the public
    socket, or one that has its reader; and once [Run] has returned every socket is closed,
    no goroutine is left, and it stays that way. *)
Theorem run_accounted (es es' : list nevent) :
  exists p, nrun other (running b0) es = Some p /\
    (forall s, s ∈ live (box p) -> s = doorConn (box p) \/ fixedConn (box p) = Some s \/ attended (readers p) s) /\
    (main p = Returned ->
     live (box p) = ∅ /\ all_done p = true /\ closed (box p) = true /\
     exists p', nrun other p es' = Some p' /\ live (box p') = ∅ /\ all_done p' = true /\ main p' = Returned).
Proof.
  assert (M0 : Main (running b0)) by done.
  destruct (nrun_kept other es (running b0) running_Base M0) as (p & E & B & M). exists p. split; [done|].
  split; [apply (ba_readers _ B)|]. intros Hr.
  assert (Hm : forall p, Base p -> Main p -> main p = Returned ->
            live (box p) = ∅ /\ all_done p = true /\ closed (box p) = true).
  { clear. intros p B M Hr. unfold Main in M. rewrite Hr in M. destruct M as [O D]. split_and!; try done.
    - apply (ba_all _ B). rewrite O. cbn. lia.
    - apply (ba_flag _ B). rewrite O. cbn. lia. }
  destruct (Hm p B M Hr) as (H1 & H2 & H3). split_and!; try done.
  destruct (nrun_kept other es' p B M) as (p' & E' & B' & M'). exists p'. split; [done|].
  assert (Hr' : main p' = Returned).
  { clear -Hr E'. revert p Hr E'. induction es' as [|e es IH]; intros p Hr E; cbn [nrun] in E; [by injection E as <-|].
    destruct (nstep other p e) as [p1|] eqn:E1; [|done]. apply (IH p1); [|done].
    assert (He : e = NMain \/ e <> NMain) by (destruct e; auto; right; done). destruct He as [->|He].
    - cbn in E1. injection E1 as <-. unfold main_turn. by rewrite Hr.
    - by rewrite (main_step other p e p1 E1 He). }
  by destruct (Hm p' B' M' Hr') as (? & ? & _).
Qed.

(** [C34] [Run] returns: from every state in which its context is done or someone has called
    [Close], once [Run] has had two turns and [Close] its five steps, nothing keeps it from
    returning: whatever else happens in whatever order, after two turns of each reader and
    one of the ticker's goroutine that sees the end, it does. *)
Theorem box_stops (es es' : list nevent) (p p' : Running)
    (Hrun : nrun other (running b0) es = Some p) (Hover : ctx p || closeCh p = true)
    (Hrun' : nrun other p ([NMain; NMain] ++ replicate 5 NCloser ++ es' ++ [NMain; NMain]) = Some p')
    (Hout : (2 <= turns out_count es')%nat) (Hfixed : (2 <= turns fixed_count es')%nat)
    (Htick : (1 <= turns tick_count es')%nat)
    (Hsym : forall s, is_Some (readers p !! s) -> (2 <= turns (sym_count s) es')%nat) :
  main p' = Returned.
Proof.
  destruct (nrun_kept other es (running b0) running_Base I) as (p0 & E0 & B & M). rewrite Hrun in E0. injection E0 as <-.
  destruct (prelude p B M Hover) as (p2 & E2 & O2 & R2 & S2).
  destruct (nrun_kept other ([NMain; NMain] ++ replicate 5 NCloser) p B M) as (p2' & E2' & B2 & M2).
  rewrite E2 in E2'. apply (inj Some) in E2' as <-.
  rewrite (app_assoc [NMain; NMain]), nrun_app, E2 in Hrun'. cbn [mbind option_bind] in Hrun'.
  rewrite nrun_app in Hrun'. destruct (nrun other p2 es') as [p3|] eqn:E3; [|done].
  cbn [mbind option_bind nrun nstep] in Hrun'. injection Hrun' as <-.
  assert (V : winding (dom (readers p2)) 2 2 1 (fun _ => 2%nat) p2).
  { constructor; try done; [by destruct (outbound p2); cbn; lia|by destruct (fixed p2); cbn; lia|].
    intros s q Hq. split; [apply elem_of_dom; by eexists|destruct q; cbn; lia]. }
  destruct (box_winding_run _ _ _ _ _ _ _ _ V E3) as [B3 O3 Vo Vf Vt Vk].
  assert (Hd : all_done p3 = true).
  { apply box_done_spec. split_and!.
    - destruct (outbound p3); cbn in Vo; (done || lia).
    - destruct (fixed p3); cbn in Vf; (done || lia).
    - destruct (ticker p3); [specialize (Vt eq_refl); lia|done].
    - intros s q Hq. destruct (Vk s q Hq) as [Hk Hl]. apply elem_of_dom in Hk. rewrite R2 in Hk.
      specialize (Hsym s Hk). destruct q; cbn in Hl; (done || lia). }
  assert (S3 : main p3 <> Serving) by by apply (left_serving es' p2).
  assert (Hret : forall q, main q = Returned -> main (main_turn q) = Returned) by (intros q Hq; unfold main_turn; by rewrite Hq).
  assert (Hdr : forall q, main q = Draining -> all_done q = true -> main (main_turn q) = Returned).
  { intros q Hq Ha. unfold main_turn. by rewrite Hq, Ha. }
  destruct (main p3) eqn:Em; [done| | |].
  - assert (E4 : main_turn p3 = p3 <| main := Draining |>) by (unfold main_turn; by rewrite Em, O3).
    rewrite E4. apply Hdr; [done|exact Hd].
  - by apply Hret, Hdr.
  - by apply Hret, Hret.
Qed.
End Promises.

(** ** Concrete runs *)

Lemma rest_runs other p0 es1 es2 p : nrun other p0 es1 = Some p ->
  match nrun other p0 (es1 ++ es2) with Some _ => true | None => false end = true -> is_Some (nrun other p es2).
Proof.
  intros E H. rewrite nrun_app, E in H. cbn [mbind option_bind] in H.
  destruct (nrun other p es2) as [p'|]; [by exists p'|discriminate].
Qed.

Module Demo.
Definition box_of : Running -> Box := box.
Import NatTraffic.Demo.

(** Two turns of everyone after the shutdown's beginning; the mapping's socket is 1. *)
Definition over_bytes : read_result := Some (packet, host).
Definition closing : list nevent := [NMain; NMain] ++ replicate 5 NCloser.
Definition turns_of_all : list nevent :=
  [NOut None 0 None false; NOut None 0 None false; NFixed None 0 false; NFixed None 0 false; NTick false 0;
   NSym 1%nat None 0 false; NSym 1%nat None 0 false].

(** A symmetric box with one flow; its context ends. *)
Definition flowing : list nevent := [NOut over_bytes 0 None true; NOut None 0 (Some 7100) true; NCancel].

Definition flows (x : option Running) : bool :=
  match x with
  | Some p => ctx p && bool_decide (dom (readers p) = {[1%nat]}) && bool_decide (1%nat ∈ live (box_of p))
  | None => false
  end.
Lemma flowing_check : flows (nrun no_host (running (box BehaviorSymmetric)) flowing) = true.
Proof. vm_compute. reflexivity. Qed.
Lemma flowing_runs : exists p, nrun no_host (running (box BehaviorSymmetric)) flowing = Some p /\
  ctx p = true /\ dom (readers p) = {[1%nat]}.
Proof.
  pose proof flowing_check as H. destruct (nrun _ _ _) as [p|]; [|discriminate]. unfold flows in H. zbool.
  by exists p.
Qed.

Definition ending : list nevent := closing ++ turns_of_all ++ [NMain; NMain].
Lemma ending_check : match nrun no_host (running (box BehaviorSymmetric)) (flowing ++ ending) with Some _ => true | None => false end = true.
Proof. vm_compute. reflexivity. Qed.
Lemma box_ending_runs p : nrun no_host (running (box BehaviorSymmetric)) flowing = Some p ->
  is_Some (nrun no_host p ending).
Proof. intros E. exact (rest_runs no_host _ flowing ending p E ending_check). Qed.

(** A datagram read before [Close] and handled after it makes a mapping on the closed box,
    which [Stats] goes on counting. *)
Example mapping_after_close :
  match nrun no_host (running (box BehaviorFullCone))
    ([NOut over_bytes 0 None true; NCancel] ++ closing ++ [NOut None 0 None false] ++ turns_of_all ++ [NMain; NMain]) with
  | Some p => main p = Returned /\ Mappings (Box_Stats 0 (box_of p)).1 = 1 /\ live (box_of p) = ∅
  | None => False
  end.
Proof. vm_compute. by split_and!. Qed.
End Demo.
#[local] Opaque nrun.

Example run_accounted_witness : exists p, nrun NatTraffic.Demo.no_host (running (NatTraffic.Demo.box BehaviorSymmetric))
    (Demo.flowing ++ Demo.ending) = Some p /\
  (main p = Returned -> live (box p) = ∅).
Proof.
  destruct (run_accounted NatTraffic.Demo.no_host _ _ _ (NatTraffic.Demo.box_New BehaviorSymmetric)
              (Demo.flowing ++ Demo.ending) []) as (p & E & _ & H).
  exists p. split; [exact E|]. intros Hm. exact (proj1 (H Hm)).
Defined.

Example box_stops_witness : exists p p',
  nrun NatTraffic.Demo.no_host (running (NatTraffic.Demo.box BehaviorSymmetric)) Demo.flowing = Some p /\
  nrun NatTraffic.Demo.no_host p Demo.ending = Some p' /\ main p' = Returned.
Proof.
  destruct Demo.flowing_runs as (p & E & Hc & Hd). destruct (Demo.box_ending_runs p E) as [p' E'].
  exists p, p'. split; [exact E|]. split; [exact E'|].
  apply (box_stops NatTraffic.Demo.no_host _ _ _ (NatTraffic.Demo.box_New BehaviorSymmetric) Demo.flowing
           Demo.turns_of_all p p' E).
  - rewrite Hc. reflexivity.
  - exact E'.
  - exact (le_n 2).
  - exact (le_n 2).
  - exact (le_n 1).
  - intros s Hs. apply elem_of_dom in Hs. rewrite Hd in Hs. apply elem_of_singleton in Hs as ->. exact (le_n 2).
Defined.
