(* ===== verification/Tun.v ===== *)
(** * Routing between the TUN device and the peers (src/internal/tun/router.go, fake.go)

    The IPv4 check on packets read from the device, the route table with its counters,
    and the in-memory device the tests use. Where a packet is sent to is the router's
    client's: a sink is any value, and [Send] on it is an argument. The theorems relate
    the router to a grammar of IPv4 datagrams and to the history of its own calls. *)

From S2P Require Import Prelude GoBytes GoRuntime GoNet.

(** ** Addresses ([netip.Addr]) *)

Inductive Addr :=
| NoAddr                                   (* the zero [netip.Addr] *)
| Addr4 (a b c d : byte)
| Addr6 (ip : list byte) (zone : string).  (* IPv4-mapped addresses included *)

#[export] Instance Addr_eq_dec : EqDecision Addr.
Proof. solve_decision. Defined.
#[export] Instance Addr_countable : Countable Addr.
Proof.
  refine (inj_countable'
    (fun x => match x with
              | NoAddr => None
              | Addr4 a b c d => Some (inl (a, b, c, d))
              | Addr6 ip z => Some (inr (ip, z))
              end)
    (fun x => match x with
              | None => NoAddr
              | Some (inl (a, b, c, d)) => Addr4 a b c d
              | Some (inr (ip, z)) => Addr6 ip z
              end) _).
  by intros [].
Defined.

Definition Is4 (a : Addr) : bool := match a with Addr4 _ _ _ _ => true | _ => false end.

(** ** IPv4 datagrams *)

(** [pkt[i]]; only used below the length checked before. *)
Definition at_ (pkt : list byte) (i : nat) : byte := nth i pkt x00.

Definition parseIPv4 (pkt : list byte) : option (Addr * Addr) :=
  if (len pkt <? 20) || negb (Z.shiftr (u8 (at_ pkt 0)) 4 =? 4) then None
  else
    let ihl := Z.land (u8 (at_ pkt 0)) 0x0f * 4 in
    if (ihl <? 20) || (len pkt <? ihl) then None
    else
      let total := Z.lor (Z.shiftl (u8 (at_ pkt 2)) 8) (u8 (at_ pkt 3)) in
      if (total <? ihl) || (len pkt <? total) then None
      else Some (Addr4 (at_ pkt 12) (at_ pkt 13) (at_ pkt 14) (at_ pkt 15),
                 Addr4 (at_ pkt 16) (at_ pkt 17) (at_ pkt 18) (at_ pkt 19)).

(** ** The router *)

Section Router.
Context {S : Type}.                        (* the sinks *)

Record Router := MkRouter {
  routes : gmap Addr S;
  PktsIn : Z;
  PktsRouted : Z;
  PktsDropped : Z
}.
#[export] Instance Router_eta : Eta Router := fun r =>
  MkRouter (routes r) (PktsIn r) (PktsRouted r) (PktsDropped r).

Definition NewRouter : Router := MkRouter ∅ 0 0 0.

Definition SetRoute (dst : Addr) (s : option S) (r : Router) : Router :=
  if negb (Is4 dst) then r
  else match s with
       | None => r <| routes := delete dst (routes r) |>
       | Some s => r <| routes := <[dst := s]> (routes r) |>
       end.

Definition HasRoute (dst : Addr) (r : Router) : bool :=
  match routes r !! dst with Some _ => true | None => false end.

(** [RoutePacket]. [Send] is the sink's: whether it succeeds, and what it does to the
    client's state [w]; [None] is a panic in it. *)
Definition RoutePacket {W} (Send : S -> list byte -> W -> option (bool * W)) (pkt : list byte)
    (r : Router) (w : W) : option (bool * Router * W) :=
  match parseIPv4 pkt with
  | None => Some (false, r <| PktsDropped := u64 (PktsDropped r + 1) |>, w)
  | Some (_, dst) =>
      match routes r !! dst with
      | None =>
          Some (false, r <| PktsIn := u64 (PktsIn r + 1) |>
                         <| PktsDropped := u64 (PktsDropped r + 1) |>, w)
      | Some sink =>
          '(sent, w) ← Send sink pkt w;
          if negb sent then
            Some (false, r <| PktsIn := u64 (PktsIn r + 1) |>
                           <| PktsDropped := u64 (PktsDropped r + 1) |>, w)
          else
            Some (true, r <| PktsIn := u64 (PktsIn r + 1) |>
                          <| PktsRouted := u64 (PktsRouted r + 1) |>, w)
      end
  end.

(** ** Histories of calls *)

Inductive event :=
| EvSetRoute (dst : Addr) (s : option S)
| EvRoute (pkt : list byte) (sent : bool).   (* [sent]: what the sink's [Send] returns *)

(** A sink that records what it is given. *)
Definition record (sent : bool) (s : S) (pkt : list byte) (log : list (S * list byte))
    : option (bool * list (S * list byte)) := Some (sent, log ++ [(s, pkt)]).

Definition step (rw : Router * list (S * list byte)) (e : event)
    : option (Router * list (S * list byte)) :=
  match e with
  | EvSetRoute dst s => Some (SetRoute dst s rw.1, rw.2)
  | EvRoute pkt sent => '(_, r, w) ← RoutePacket (record sent) pkt rw.1 rw.2; Some (r, w)
  end.

Fixpoint run (rw : Router * list (S * list byte)) (es : list event)
    : option (Router * list (S * list byte)) :=
  match es with
  | [] => Some rw
  | e :: es => rw ← step rw e; run rw es
  end.
End Router.
Arguments Router S : clear implicits.
Arguments event S : clear implicits.

(** ** The in-memory device *)

Definition defaultMTU : Z := 1500.

Record BufferDevice := MkBufferDevice {
  name : string;
  mtu : Z;
  buf : list (list byte);
  closed : bool
}.
#[export] Instance BufferDevice_eta : Eta BufferDevice := fun d =>
  MkBufferDevice (name d) (mtu d) (buf d) (closed d).

Definition NewBufferDevice (nm : string) (m : Z) : BufferDevice :=
  MkBufferDevice nm (if m <=? 0 then defaultMTU else m) [] false.

Inductive read := Blocked | AtEOF | Got (p : list byte).

(** [Read] into a buffer of [n] bytes. A blocked read goes on when a packet is written or
    the device is closed. *)
Definition Read (n : Z) (d : BufferDevice) : read * BufferDevice :=
  match buf d with
  | [] => (if closed d then AtEOF else Blocked, d)
  | p :: ps => (Got (take (Z.to_nat n) p), d <| buf := ps |>)
  end.

(** Whether [Write] succeeds, and the device after it. *)
Definition Write (p : list byte) (d : BufferDevice) : bool * BufferDevice :=
  if closed d then (false, d) else (true, d <| buf := buf d ++ [p] |>).

Definition Close (d : BufferDevice) : BufferDevice := d <| closed := true |>.

(** ** Datagrams: the check is the grammar of RFC 791 *)

(** An IPv4 datagram of header length [ihl] words, followed by padding. *)
Definition ipv4 (ihl : Z) (tos : byte) (mid src dst opts payload pad : list byte) : list byte :=
  [byte_of (64 + ihl); tos] ++ be_put 2 (4 * ihl + len payload) ++ mid ++ src ++ dst ++ opts
    ++ payload ++ pad.

Definition quad (a : Addr) : list byte :=
  match a with Addr4 a b c d => [a; b; c; d] | _ => [] end.

Definition is_ipv4 (src dst : Addr) (pkt : list byte) : Prop :=
  exists ihl tos mid opts payload pad, 5 <= ihl <= 15 /\ len mid = 8 /\ len opts = 4 * ihl - 20 /\
    4 * ihl + len payload < 65536 /\ Is4 src = true /\ Is4 dst = true /\
    pkt = ipv4 ihl tos mid (quad src) (quad dst) opts payload pad.

Lemma lor_bytes a b : Z.lor (Z.shiftl (u8 a) 8) (u8 b) = be_get [a; b].
Proof.
  change (be_get [a; b]) with ((0 * 256 + u8 a) * 256 + u8 b).
  pose proof (Z.add_lor_land (Z.shiftl (u8 a) 8) (u8 b)) as H.
  assert (E : Z.land (Z.shiftl (u8 a) 8) (u8 b) = 0).
  { apply Z.bits_inj'. intros n Hn. rewrite Z.land_spec, Z.bits_0.
    destruct (Z.lt_ge_cases n 8); [by rewrite Z.shiftl_spec_low|].
    rewrite (Z.bits_above_log2 (u8 b)), andb_false_r; [done| |].
    - apply u8_range.
    - pose proof (u8_range b). destruct (Z.eq_dec (u8 b) 0) as [->|]; [cbn; lia|].
      apply Z.log2_lt_pow2; [lia|]. assert (2 ^ 8 <= 2 ^ n) by (apply Z.pow_le_mono_r; lia). lia. }
  rewrite E in H. rewrite (Z.shiftl_mul_pow2 (u8 a) 8) in * by lia. lia.
Qed.

Lemma low_nibble v ihl : v = 64 + ihl -> 0 <= ihl < 16 -> Z.land v 0x0f = ihl /\ Z.shiftr v 4 = 4.
Proof.
  intros -> H. rewrite (Z.land_ones _ 4), Z.shiftr_div_pow2 by lia. change (2 ^ 4) with 16.
  split; [|]; Z.to_euclidean_division_equations; lia.
Qed.

Lemma parseIPv4_is_ipv4 pkt src dst : parseIPv4 pkt = Some (src, dst) -> is_ipv4 src dst pkt.
Proof.
  unfold parseIPv4. intros H. destruct (_ || _) eqn:E1; [done|]. zbool.
  destruct pkt as [|b0 [|b1 [|b2 [|b3 [|b4 [|b5 [|b6 [|b7 [|b8 [|b9 [|b10 [|b11 [|b12 [|b13 [|b14
    [|b15 [|b16 [|b17 [|b18 [|b19 rest]]]]]]]]]]]]]]]]]]]]; try (exfalso; len_lia).
  cbn [at_ nth] in *. rewrite lor_bytes in H. set (ihl := Z.land (u8 b0) 0x0f) in *.
  destruct ((ihl * 4 <? 20) || _) eqn:E2; [done|].
  destruct ((be_get [b2; b3] <? ihl * 4) || _) eqn:E3; [done|]. zbool. injection H as <- <-.
  assert (Hb : u8 b0 = 64 + ihl /\ 0 <= ihl < 16).
  { unfold ihl in *. rewrite (Z.land_ones _ 4) in * by lia. rewrite Z.shiftr_div_pow2 in * by lia.
    change (2 ^ 4) with 16 in *. Z.to_euclidean_division_equations; lia. }
  pose proof (be_get_range [b2; b3]) as Ht. 
  change (256 ^ len [b2; b3]) with 65536 in Ht.
  set (total := be_get [b2; b3]) in *. rewrite !len_cons in *. pose proof (len_nonneg rest).
  assert (F1 : len (take (Z.to_nat (4 * ihl - 20)) rest) = 4 * ihl - 20) by (apply len_take; lia).
  assert (F2 : len (drop (Z.to_nat (4 * ihl - 20)) rest) = len rest - (4 * ihl - 20))
    by (apply len_drop; lia).
  set (r2 := drop (Z.to_nat (4 * ihl - 20)) rest) in *.
  assert (F3 : len (take (Z.to_nat (total - 4 * ihl)) r2) = total - 4 * ihl) by (apply len_take; lia).
  exists ihl, b1, [b4; b5; b6; b7; b8; b9; b10; b11], (take (Z.to_nat (4 * ihl - 20)) rest),
    (take (Z.to_nat (total - 4 * ihl)) r2), (drop (Z.to_nat (total - 4 * ihl)) r2).
  split_and!; try done; try lia. unfold ipv4. rewrite F3.
  replace (4 * ihl + (total - 4 * ihl)) with total by lia.
  change (be_put 2 total) with (be_put (length [b2; b3]) total). unfold total. rewrite be_put_get.
  rewrite <- (proj1 Hb), byte_of_u8. cbn [app quad]. rewrite take_drop. unfold r2. by rewrite take_drop.
Qed.

Lemma is_ipv4_parseIPv4 pkt src dst : is_ipv4 src dst pkt -> parseIPv4 pkt = Some (src, dst).
Proof.
  intros (ihl & tos & mid & opts & payload & pad & Hi & Hm & Ho & Ht & Hs & Hd & ->).
  destruct src as [|s0 s1 s2 s3|], dst as [|d0 d1 d2 d3|]; try done. cbn [quad].
  assert (Hmid : exists m0 m1 m2 m3 m4 m5 m6 m7, mid = [m0; m1; m2; m3; m4; m5; m6; m7]).
  { destruct mid as [|m0 [|m1 [|m2 [|m3 [|m4 [|m5 [|m6 [|m7 [|]]]]]]]]]; try (exfalso; len_lia).
    by exists m0, m1, m2, m3, m4, m5, m6, m7. }
  destruct Hmid as (m0 & m1 & m2 & m3 & m4 & m5 & m6 & m7 & ->).
  pose proof (len_nonneg payload). pose proof (len_nonneg pad). pose proof (len_nonneg opts).
  assert (Hbe : exists t0 t1, be_put 2 (4 * ihl + len payload) = [t0; t1] /\
            be_get [t0; t1] = 4 * ihl + len payload).
  { eexists _, _. split; [reflexivity|]. change [?a; ?b] with (be_put 2 (4 * ihl + len payload)).
    apply be_get_put_small. change (256 ^ Z.of_nat 2) with 65536. lia. }
  destruct Hbe as (t0 & t1 & Hbe & Hg). unfold ipv4. rewrite Hbe. cbn [app].
  destruct (low_nibble (u8 (byte_of (64 + ihl))) ihl) as [L1 L2]; [|lia|].
  { rewrite u8_byte_of. apply Z.mod_small. lia. }
  unfold parseIPv4. cbn [at_ nth]. rewrite L1, L2, lor_bytes, Hg. cbn [negb Z.eqb Pos.eqb].
  rewrite !len_cons, !len_app.
  repeat match goal with |- context [?x <? ?y] => destruct (Z.ltb_spec x y); [exfalso; lia|] end.
  done.
Qed.

(** The router takes exactly the datagrams of the IPv4 grammar for valid, and reads
    their true source and destination. *)
Theorem parseIPv4_iff (pkt : list byte) (src dst : Addr) :
  parseIPv4 pkt = Some (src, dst) <-> is_ipv4 src dst pkt.
Proof. split; [apply parseIPv4_is_ipv4|apply is_ipv4_parseIPv4]. Qed.

(** ** Routing, from the history of calls *)

Section Routing.
Context {S : Type}.
Implicit Types (es h : list (event S)) (r : Router S).

(** The sink a history of calls leaves installed for an IPv4 address: the last one set,
    unless it was taken away. *)
Fixpoint installed (h : list (event S)) (dst : Addr) : option S :=
  match h with
  | [] => None
  | EvSetRoute d s :: h' => if bool_decide (d = dst) then s else installed h' dst
  | EvRoute _ _ :: h' => installed h' dst
  end.

(** What one call is to do after a history (most recent call first). *)
Inductive outcome := Malformed | NoRoute | Failed (s : S) | Routed (s : S).

Definition outcome_of (h : list (event S)) (pkt : list byte) (sent : bool) : outcome :=
  match parseIPv4 pkt with
  | None => Malformed
  | Some (_, dst) =>
      match installed h dst with
      | None => NoRoute
      | Some s => if sent then Routed s else Failed s
      end
  end.

Fixpoint outcomes (h es : list (event S)) : list (outcome * list byte) :=
  match es with
  | [] => []
  | e :: es =>
      match e with EvRoute pkt sent => [(outcome_of h pkt sent, pkt)] | _ => [] end
      ++ outcomes (e :: h) es
  end.

(** What reached a sink, and the counters, of a list of outcomes. *)
Definition handed (o : outcome * list byte) : list (S * list byte) :=
  match o.1 with Failed s | Routed s => [(s, o.2)] | _ => [] end.
Definition count (P : outcome -> bool) (os : list (outcome * list byte)) : Z :=
  len (List.filter (fun o => P o.1) os).
Definition valid (o : outcome) : bool := match o with Malformed => false | _ => true end.
Definition routed (o : outcome) : bool := match o with Routed _ => true | _ => false end.

(** The table a history leads to. *)
Definition table_of (h : list (event S)) (r : Router S) : Prop :=
  forall dst, routes r !! dst = if Is4 dst then installed h dst else None.

Lemma SetRoute_table h r dst s :
  table_of h r -> table_of (EvSetRoute dst s :: h) (SetRoute dst s r).
Proof.
  intros H d. unfold SetRoute. cbn [installed]. destruct (Is4 dst) eqn:E; cbn [negb].
  - case_bool_decide as Hd; [subst d; rewrite E|]; destruct s as [s|]; cbn.
    + apply lookup_insert_eq. + apply lookup_delete_eq.
    + rewrite lookup_insert_ne by done. apply H.
    + rewrite lookup_delete_ne by done. apply H.
  - rewrite H. destruct (Is4 d) eqn:Ed; [|done]. rewrite bool_decide_eq_false_2; [done|].
    intros ->. congruence.
Qed.

Lemma u64_add a b : u64 (u64 a + b) = u64 (a + b).
Proof. unfold u64. by rewrite Zplus_mod_idemp_l. Qed.

Lemma parse_Is4 pkt src dst : parseIPv4 pkt = Some (src, dst) -> Is4 dst = true.
Proof. intros H%parseIPv4_is_ipv4. by destruct H as (?&?&?&?&?&?&_&_&_&_&_&?&_). Qed.

Lemma route_step h r log pkt sent :
  table_of h r ->
  exists r', step (r, log) (EvRoute pkt sent)
             = Some (r', log ++ handed (outcome_of h pkt sent, pkt)) /\
    table_of (EvRoute pkt sent :: h) r' /\
    PktsIn r' = (if valid (outcome_of h pkt sent) then u64 (PktsIn r + 1) else PktsIn r) /\
    PktsRouted r' = (if routed (outcome_of h pkt sent) then u64 (PktsRouted r + 1) else PktsRouted r) /\
    PktsDropped r' = (if routed (outcome_of h pkt sent) then PktsDropped r else u64 (PktsDropped r + 1)).
Proof.
  intros H. cbn [step fst snd]. unfold RoutePacket, outcome_of.
  destruct (parseIPv4 pkt) as [[src dst]|] eqn:E.
  2:{ eexists. cbn. rewrite app_nil_r. by split_and!. }
  rewrite H, (parse_Is4 _ _ _ E). destruct (installed h dst) as [s|].
  2:{ eexists. cbn. rewrite app_nil_r. by split_and!. }
  cbn. destruct sent; eexists; (split; [done|]); by split_and!.
Qed.

Lemma run_outcomes es : forall h r log,
  table_of h r ->
  exists r', run (r, log) es = Some (r', log ++ concat (map handed (outcomes h es))) /\
    u64 (PktsIn r') = u64 (PktsIn r + count valid (outcomes h es)) /\
    u64 (PktsRouted r') = u64 (PktsRouted r + count routed (outcomes h es)) /\
    u64 (PktsDropped r') = u64 (PktsDropped r + count (fun o => negb (routed o)) (outcomes h es)).
Proof.
  induction es as [|e es IH]; intros h r log H.
  { exists r. cbn. rewrite app_nil_r. split_and!; try done; by rewrite Z.add_0_r. }
  destruct e as [dst s|pkt sent]; cbn [run outcomes].
  - destruct (IH (EvSetRoute dst s :: h) (SetRoute dst s r) log) as (r' & E & C); [by apply SetRoute_table|].
    exists r'. cbn [step mbind option_bind fst snd app]. split; [exact E|].
    unfold SetRoute in C. destruct (negb _); [exact C|]. by destruct s.
  - destruct (route_step h r log pkt sent H) as (r1 & -> & H1 & C1 & C2 & C3).
    cbn [mbind option_bind].
    destruct (IH _ r1 (log ++ handed (outcome_of h pkt sent, pkt)) H1) as (r' & E & D1 & D2 & D3).
    exists r'. split; [rewrite E; cbn [app map concat]; by rewrite <- app_assoc|].
    rewrite D1, D2, D3, C1, C2, C3. unfold count. cbn [app List.filter fst].
    split_and!; [destruct (valid _)|destruct (routed _)|destruct (routed _)];
      cbn [negb]; rewrite ?len_cons, ?u64_add; f_equal; lia.
Qed.

(** [C31] The router is determined by the history of its calls: in any sequence of route
    changes and packets from a new router, every packet that is a valid datagram for an
    address whose last [SetRoute] installed a sink is handed to that sink, unchanged and
    in order, and no other packet reaches any sink; the counters are the numbers of valid
    packets, of packets a sink took, and of all others. *)
Theorem routing_exact (es : list (event S)) :
  exists r, run (NewRouter, []) es = Some (r, concat (map handed (outcomes [] es))) /\
    u64 (PktsIn r) = u64 (count valid (outcomes [] es)) /\
    u64 (PktsRouted r) = u64 (count routed (outcomes [] es)) /\
    u64 (PktsDropped r) = u64 (count (fun o => negb (routed o)) (outcomes [] es)).
Proof. apply (run_outcomes es [] NewRouter []). intros d. cbn. by destruct (Is4 d). Qed.
End Routing.

(** For the router's clients: a packet leaves the table alone, and [Send] is only called
    on the sink its destination is routed to. *)
Lemma RoutePacket_keeps {S W} (Send : S -> list byte -> W -> option (bool * W)) (Q : W -> Prop)
    (pkt : list byte) (r : Router S) (w : W) :
  (forall src dst s, parseIPv4 pkt = Some (src, dst) -> routes r !! dst = Some s ->
     exists ok w', Send s pkt w = Some (ok, w') /\ Q w') ->
  Q w ->
  exists ok r' w', RoutePacket Send pkt r w = Some (ok, r', w') /\ routes r' = routes r /\ Q w'.
Proof.
  intros HS HQ. unfold RoutePacket.
  destruct (parseIPv4 pkt) as [[src dst]|]; [|by eexists _, _, _].
  destruct (routes r !! dst) as [s|] eqn:Er; [|by eexists _, _, _].
  destruct (HS src dst s eq_refl Er) as (ok & w' & -> & Q'). cbn [mbind option_bind].
  destruct ok; by eexists _, _, _.
Qed.

(** ** The in-memory device is a queue *)

Fixpoint writes (ps : list (list byte)) (d : BufferDevice) : BufferDevice :=
  match ps with [] => d | p :: ps => writes ps (Write p d).2 end.
Fixpoint reads (n : Z) (k : nat) (d : BufferDevice) : list read * BufferDevice :=
  match k with
  | O => ([], d)
  | Datatypes.S k => let '(x, d) := Read n d in let '(xs, d) := reads n k d in (x :: xs, d)
  end.

Lemma writes_buf ps : forall d, closed d = false -> buf (writes ps d) = buf d ++ ps /\ closed (writes ps d) = false.
Proof.
  induction ps as [|p ps IH]; intros d Hc; cbn [writes]; [by rewrite app_nil_r|].
  assert (Hw : buf (Write p d).2 = buf d ++ [p] /\ closed (Write p d).2 = false)
    by (unfold Write; by rewrite Hc).
  destruct Hw as [Hb Hc']. destruct (IH _ Hc') as [-> ->]. rewrite Hb. by rewrite <- app_assoc.
Qed.

Lemma reads_buf n ps : forall d,
  buf d = ps -> reads n (length ps) d = (map (fun p => Got (take (Z.to_nat n) p)) ps, d <| buf := [] |>).
Proof.
  induction ps as [|p ps IH]; intros d E; cbn [length reads map].
  - destruct d; cbn in *; by subst.
  - unfold Read. rewrite E, IH by done. done.
Qed.

(** What was written before the device is closed is still read, in order, cut to the
    reader's buffer; after that reads end. *)
Theorem device_queue (nm : string) (m n : Z) (ps : list (list byte)) :
  let d := Close (writes ps (NewBufferDevice nm m)) in
  exists d', reads n (length ps) d = (map (fun p => Got (take (Z.to_nat n) p)) ps, d') /\
    Read n d' = (AtEOF, d') /\ forall p, Write p d' = (false, d').
Proof.
  intros d. destruct (writes_buf ps (NewBufferDevice nm m) eq_refl) as [E _].
  eexists. split; [apply reads_buf; exact E|]. by split.
Qed.
