(* ===== verification/TunDevices.v ===== *)
(** * The operating systems' TUN devices (src/internal/tun/tun_linux.go, tun_darwin.go, tun_other.go)

    Opening a device and moving packets through it. The kernel is an argument: opening a
    path, the TUNSETIFF request, and what reading and writing the device file do. A file
    that was opened is counted, so that a failed open can be seen to leave none behind. *)

From S2P Require Import Prelude GoBytes GoRuntime GoNet.
From S2P Require Tun.

(** What the kernel reports. *)
Abbreviation errno := nat.

Inductive open_err :=
| OpenFile (e : errno)              (* opening the file failed *)
| NameTooLong
| SetIff (e : errno)                (* the TUNSETIFF request failed *)
| NoCandidate                       (* [io.EOF]: no path to try *)
| Unsupported.

Inductive dev_err := DevErr (e : errno) | DevUnexpectedEOF.

(** An open device: its name, its MTU. *)
Record device := MkDevice { Name : string; MTU : Z }.

Definition mtu_of (mtu : Z) : Z := if mtu <=? 0 then Tun.defaultMTU else mtu.

(** ** Linux *)

Definition tunPath : string := "/dev/net/tun".
Definition IFNAMSIZ : Z := 16.
Definition iffTun : Z := 0x0001.
Definition iffNoPI : Z := 0x1000.

Section Linux.
(** A 16-bit integer as the machine stores it. *)
Context (native16 : Z -> list byte).

(** [ifreqTun]: the 40 bytes of the request. *)
Definition ifreqTun (name : string) : res open_err (list byte) :=
  if slen name >=? IFNAMSIZ then Err NameTooLong
  else
    let ifr := replicate 40 x00 in
    let n := take (Z.to_nat (IFNAMSIZ - 1)) (bytes_of_string name) in
    let ifr := n ++ drop (length n) ifr in
    let flags := native16 (Z.lor iffTun iffNoPI) in
    Ok (take (Z.to_nat IFNAMSIZ) ifr ++ flags ++ drop (Z.to_nat IFNAMSIZ + length flags) ifr).

(** The loop of [ifrName]. *)
Fixpoint until_zero (buf : list byte) : list byte :=
  match buf with
  | [] => []
  | b :: buf => if bool_decide (b = x00) then [] else b :: until_zero buf
  end.

Definition ifrName (ifr : list byte) : string :=
  string_of_bytes (until_zero (take (Z.to_nat (IFNAMSIZ - 1)) ifr)).

(** [openDevice]: the outcome, and whether a file is left open. [openFile] is the opening of
    the clone device, [ioctl] the request, which gives it back with the name chosen. *)
Definition linux_openDevice (openFile : res errno ()) (ioctl : list byte -> res errno (list byte))
    (name : string) (mtu : Z) : res open_err device * bool :=
  let mtu := mtu_of mtu in
  let name := if bool_decide (name = ""%string) then "meshlink%d"%string else name in
  match openFile with
  | Err e => (Err (OpenFile e), false)
  | Ok _ =>
      match ifreqTun name with
      | Err e => (Err e, false)
      | Ok ifr =>
          match ioctl ifr with
          | Err e => (Err (SetIff e), false)
          | Ok ifr => (Ok (MkDevice (ifrName ifr) mtu), true)
          end
      end
  end.
End Linux.

(** [linuxDevice.Read] and [Write]: the file's. [f] is the file's read of a number of bytes,
    or its write. *)
Definition linuxDevice_Read (f : Z -> res errno (list byte)) (n : Z) : res errno (list byte) := f n.
Definition linuxDevice_Write (f : list byte -> res errno Z) (p : list byte) : res errno Z := f p.

(** ** macOS *)

Definition utunHeaderLen : Z := 4.

(** [strings.HasPrefix] and [strings.TrimPrefix]. *)
Definition HasPrefix (s prefix : string) : bool := String.prefix prefix s.
Definition TrimPrefix (s prefix : string) : string :=
  if HasPrefix s prefix
  then String.substring (String.length prefix) (String.length s - String.length prefix) s else s.

Definition candidates (name : string) : list string :=
  if bool_decide (name = ""%string)
  then map (fun i => ("/dev/utun" +:+ Itoa (Z.of_nat i))%string) (seq 0 16)
  else if HasPrefix name "/dev/" then [name]
  else [("/dev/" +:+ name)%string].

(** The loop over the candidates. *)
Fixpoint try_open (openFile : string -> res errno ()) (mtu : Z) (lastErr : option errno)
    (paths : list string) : res open_err device * bool :=
  match paths with
  | [] => (match lastErr with None => Err NoCandidate | Some e => Err (OpenFile e) end, false)
  | path :: paths =>
      match openFile path with
      | Err e => try_open openFile mtu (Some e) paths
      | Ok _ => (Ok (MkDevice (TrimPrefix path "/dev/") mtu), true)
      end
  end.

Definition darwin_openDevice (openFile : string -> res errno ()) (name : string) (mtu : Z)
    : res open_err device * bool :=
  try_open openFile (mtu_of mtu) None (candidates name).

(** [utunDevice.Read] into a buffer of [n] bytes. *)
Definition utunDevice_Read (f : Z -> res errno (list byte)) (n : Z) : res dev_err (list byte) :=
  match f (n + utunHeaderLen) with
  | Err e => Err (DevErr e)
  | Ok buf =>
      if len buf <? utunHeaderLen then Err DevUnexpectedEOF
      else Ok (take (Z.to_nat n) (drop (Z.to_nat utunHeaderLen) buf))
  end.

(** [utunDevice.Write]. *)
Definition utunDevice_Write (f : list byte -> res errno Z) (p : list byte) : res errno Z :=
  f (replicate (Z.to_nat utunHeaderLen) x00 ++ p).

(** ** Other platforms *)

Definition other_openDevice (name : string) (mtu : Z) : res open_err device * bool := (Err Unsupported, false).

(** The device file of macOS: every packet behind a header. *)
Definition headed (hdr : list byte) (f : Z -> res errno (list byte)) (n : Z) : res errno (list byte) :=
  match f (n - utunHeaderLen) with Ok p => Ok (hdr ++ p) | Err e => Err e end.

(** ** The Linux request *)

Section LinuxTheorems.
Context (native16 : Z -> list byte) (Hnative : forall z, length (native16 z) = 2%nat).

Lemma until_zero_name l k : x00 ∉ l -> until_zero (l ++ x00 :: k) = l.
Proof.
  induction l as [|b l IH]; intros H; cbn; [done|].
  rewrite bool_decide_eq_false_2 by set_solver. f_equal. apply IH. set_solver.
Qed.

Lemma until_zero_all l : x00 ∉ l -> until_zero l = l.
Proof.
  induction l as [|b l IH]; intros H; cbn; [done|].
  rewrite bool_decide_eq_false_2 by set_solver. f_equal. apply IH. set_solver.
Qed.

Lemma ifreqTun_bytes name :
  slen name < IFNAMSIZ ->
  exists k, ifreqTun native16 name
    = Ok (bytes_of_string name ++ replicate (16 - length (bytes_of_string name)) x00 ++
          native16 (Z.lor iffTun iffNoPI) ++ k) /\ length k = 22%nat.
Proof.
  intros H. unfold ifreqTun, slen, IFNAMSIZ, len in *.
  destruct (_ >=? 16) eqn:E; zbool; [lia|]. set (l := bytes_of_string name) in *.
  assert (take (Z.to_nat (16 - 1)) l = l) as -> by (apply take_ge; lia).
  exists (replicate 22 x00). rewrite Hnative. split; [|done]. f_equal.
  rewrite drop_replicate, take_app, drop_app, !take_replicate, (take_ge l), (drop_ge l), drop_replicate by lia.
  rewrite app_nil_l, <- !app_assoc. f_equal.
  replace (Z.to_nat 16 - length l)%nat with (16 - length l)%nat by lia.
  f_equal; [f_equal; lia|]. f_equal. f_equal. lia.
Qed.

(** The kernel is asked for exactly the name given, or refused: a name of less than 16 bytes
    without a zero byte is read back from the request it makes, which is 40 bytes long; a
    longer one is an error, never a truncated name. *)
Theorem ifreq_roundtrip (name : string) :
  (slen name < IFNAMSIZ /\ x00 ∉ bytes_of_string name ->
   exists ifr, ifreqTun native16 name = Ok ifr /\ len ifr = 40 /\ ifrName ifr = name /\
     take 2 (drop 16 ifr) = native16 (Z.lor iffTun iffNoPI)) /\
  (IFNAMSIZ <= slen name -> ifreqTun native16 name = Err NameTooLong).
Proof.
  split.
  - intros [Hl Hz]. destruct (ifreqTun_bytes name Hl) as (k & E & Hk).
    eexists. split; [exact E|]. unfold slen, IFNAMSIZ, len in *.
    set (l := bytes_of_string name) in *. split_and!.
    + rewrite !length_app, length_replicate, Hnative. lia.
    + unfold ifrName, IFNAMSIZ. rewrite take_app, (take_ge l) by lia.
      rewrite take_app, take_replicate.
      destruct (Z.to_nat (16 - 1) - length l)%nat as [|m] eqn:Em.
      * assert (length l = 15%nat) by lia. cbn. rewrite app_nil_r, until_zero_all by done. apply string_bytes.
      * replace (S m `min` (16 - length l))%nat with (S m) by lia. cbn [replicate].
        rewrite <- app_comm_cons, until_zero_name by done. apply string_bytes.
    + rewrite app_assoc, drop_app_len by (rewrite length_app, length_replicate; lia).
      by rewrite take_app_len by apply Hnative.
  - intros H. unfold ifreqTun. destruct (_ >=? _) eqn:E; zbool; [done|lia].
Qed.

(** Opening leaves nothing behind: on every platform a file is left open exactly when the
    open succeeded, and the device then has a positive MTU. *)
Theorem open_leaves_nothing (openFile : res errno ()) (openPath : string -> res errno ())
    (ioctl : list byte -> res errno (list byte)) (name : string) (mtu : Z) :
  let ok (x : res open_err device * bool) :=
    match x.1 with Ok d => x.2 = true /\ 0 < MTU d | Err _ => x.2 = false end in
  ok (linux_openDevice native16 openFile ioctl name mtu) /\ ok (darwin_openDevice openPath name mtu) /\
  ok (other_openDevice name mtu).
Proof.
  intros ok. assert (Hm : 0 < mtu_of mtu).
  { unfold mtu_of. destruct (mtu <=? 0) eqn:E; zbool; [done|lia]. }
  split_and!; [| |done].
  - unfold linux_openDevice. destruct openFile; [|done]. destruct (ifreqTun _ _); [|done].
    by destruct (ioctl _).
  - unfold darwin_openDevice. generalize (@None errno). induction (candidates name) as [|p ps IH]; intros last; cbn.
    + by destruct last.
    + destruct (openPath p); [done|]. apply IH.
Qed.
End LinuxTheorems.

(** ** The macOS devices *)

Lemma string_app_cons c p s : String.String c p +:+ s = String.String c (p +:+ s).
Proof. reflexivity. Qed.

Lemma HasPrefix_app p s : HasPrefix (p +:+ s) p = true.
Proof.
  unfold HasPrefix. induction p as [|c p IH]; [by destruct s|]. rewrite string_app_cons. cbn.
  destruct (Ascii.ascii_dec c c); [exact IH|done].
Qed.

Lemma substring_all s : String.substring 0 (String.length s) s = s.
Proof. induction s as [|c s IH]; cbn; [done|by rewrite IH]. Qed.

Lemma substring_app p s : String.substring (String.length p) (String.length s) (p +:+ s) = s.
Proof. induction p as [|c p IH]; [apply substring_all|]. by rewrite string_app_cons. Qed.

Lemma TrimPrefix_app p s : TrimPrefix (p +:+ s) p = s.
Proof.
  unfold TrimPrefix. rewrite HasPrefix_app.
  assert (H : (String.length (p +:+ s) = String.length p + String.length s)%nat).
  { induction p as [|c p IH]; [done|]. rewrite string_app_cons. cbn. by rewrite IH. }
  rewrite H. replace (_ - _)%nat with (String.length s) by lia. apply substring_app.
Qed.

Lemma try_open_Ok openFile mtu d b : forall paths last,
  try_open openFile mtu last paths = (Ok d, b) <->
  b = true /\ MTU d = mtu /\
  exists pre path post, paths = pre ++ path :: post /\
    (forall p, p ∈ pre -> is_ok (openFile p) = false) /\ openFile path = Ok () /\
    Name d = TrimPrefix path "/dev/".
Proof.
  induction paths as [|path paths IH]; intros last; cbn.
  - split; [by destruct last|]. intros (_ & _ & pre & ? & ? & H & _). by destruct pre.
  - destruct (openFile path) as [[]|e] eqn:E.
    + split.
      * intros [= <- <-]. split_and!; try done. exists [], path, paths. split_and!; try done. set_solver.
      * intros (-> & Hm & pre & p & post & H & Hpre & Hp & Hn). destruct d as [n m]. cbn in *.
        destruct pre as [|q pre]; cbn in H; injection H as <- ->; [by subst|].
        specialize (Hpre path ltac:(set_solver)). by rewrite E in Hpre.
    + rewrite IH. split; intros (-> & Hm & pre & p & post & H & Hpre & Hp & Hn); (split; [done|]); (split; [done|]).
      * exists (path :: pre), p, post. rewrite H. split_and!; try done.
        intros q [->|Hq]%elem_of_cons; [by rewrite E|by apply Hpre].
      * destruct pre as [|q pre]; cbn in H; injection H as <- ->; [by rewrite E in Hp|].
        exists pre, p, post. split_and!; try done. intros q Hq. apply Hpre. set_solver.
Qed.

(** The first candidate that opens: without a name [openDevice] takes the first of
    /dev/utun0 to /dev/utun15 the kernel gives out, and the device bears that name; a name
    that is given, with /dev/ or without, is the only one tried, and the device bears it. *)
Theorem utun_open (openFile : string -> res errno ()) (name : string) (mtu : Z) (d : device) (b : bool) :
  (darwin_openDevice openFile name mtu = (Ok d, b) <->
   b = true /\ MTU d = mtu_of mtu /\
   exists pre path post, candidates name = pre ++ path :: post /\
     (forall p, p ∈ pre -> is_ok (openFile p) = false) /\ openFile path = Ok () /\
     Name d = TrimPrefix path "/dev/") /\
  (name <> ""%string -> HasPrefix name "/dev/" = false -> darwin_openDevice openFile name mtu = (Ok d, b) ->
   Name d = name /\ openFile ("/dev/" +:+ name)%string = Ok ()).
Proof.
  split; [apply try_open_Ok|]. intros Hn Hp H. apply try_open_Ok in H as (_ & _ & pre & path & post & H & _ & Ho & Hd).
  unfold candidates in H. rewrite bool_decide_eq_false_2, Hp in H by done.
  destruct pre as [|q pre]; cbn in H; [|by destruct pre]. injection H as <- <-.
  split; [|exact Ho]. rewrite Hd. apply TrimPrefix_app.
Qed.

(** The platforms agree on packets: over a file that puts a header before each packet,
    [utunDevice.Read] reads just what [linuxDevice.Read] reads over one that does not, and
    what [utunDevice.Write] hands to the file is the packet behind a zero header, so that a
    packet written comes back from [Read] as it was, up to the buffer. Only the counts
    differ: a full write counts the header too. *)
Theorem platforms_agree (hdr : list byte) (f : Z -> res errno (list byte)) (n : Z) (p : list byte)
    (Hn : 0 <= n) (Hhdr : len hdr = utunHeaderLen)
    (Hf : forall k q, f k = Ok q -> len q <= k) :
  utunDevice_Read (headed hdr f) n =
    match linuxDevice_Read f n with Ok q => Ok q | Err e => Err (DevErr e) end /\
  utunDevice_Write (fun frame => Ok (len frame)) p = Ok (len p + utunHeaderLen) /\
  linuxDevice_Write (fun frame => Ok (len frame)) p = Ok (len p) /\
  exists frame, (forall g, utunDevice_Write g p = g frame) /\
    utunDevice_Read (fun k => Ok (take (Z.to_nat k) frame)) n = Ok (take (Z.to_nat n) p).
Proof.
  unfold utunHeaderLen in *. split_and!.
  - unfold utunDevice_Read, linuxDevice_Read, headed, utunHeaderLen. replace (n + 4 - 4) with n by lia.
    destruct (f n) as [q|e] eqn:E; [|done]. specialize (Hf n q E).
    destruct (len (hdr ++ q) <? 4) eqn:El; zbool; [len_lia|].
    rewrite drop_app_len by (unfold len in Hhdr; lia). by rewrite take_ge by (unfold len in Hf; lia).
  - unfold utunDevice_Write, utunHeaderLen. rewrite len_app, len_replicate by lia. f_equal. lia.
  - done.
  - exists (replicate 4 x00 ++ p). split; [done|]. unfold utunDevice_Read, utunHeaderLen.
    destruct (len _ <? 4) eqn:El; zbool.
    + unfold len in El. rewrite length_take, length_app, length_replicate in El. lia.
    + replace (Z.to_nat (n + 4)) with (4 + Z.to_nat n)%nat by lia. change (Z.to_nat 4) with 4%nat. cbn.
      unfold drop. by rewrite take_take, Nat.min_id.
Qed.

(** A frame shorter than its header is an error, not a packet. *)
Theorem short_frame_refused (f : Z -> res errno (list byte)) (n : Z) (frame : list byte) :
  f (n + utunHeaderLen) = Ok frame -> len frame < utunHeaderLen ->
  utunDevice_Read f n = Err DevUnexpectedEOF.
Proof. intros E H. unfold utunDevice_Read. rewrite E. by rewrite (proj2 (Z.ltb_lt _ _)). Qed.

(** ** Witnesses *)

Definition little (z : Z) : list byte := [byte_of z; byte_of (Z.shiftr z 8)].

Example ifreq_roundtrip_witness :
  exists ifr, ifreqTun little "meshlink%d" = Ok ifr /\ ifrName ifr = "meshlink%d"%string.
Proof.
  destruct (proj1 (ifreq_roundtrip little (fun _ => eq_refl) "meshlink%d")) as (ifr & E & _ & Hn & _).
  - split; [by vm_compute|]. by_compute.
  - by exists ifr.
Defined.

Example open_leaves_nothing_witness :
  linux_openDevice little (Ok ()) (fun _ => Err 16%nat) "tun0" 0 = (Err (SetIff 16%nat), false) /\
  let x := darwin_openDevice (fun _ => Ok ()) "utun3" 0 in
  match x.1 with Ok d => x.2 = true /\ 0 < MTU d | Err _ => x.2 = false end.
Proof.
  split; [reflexivity|].
  exact (proj1 (proj2 (open_leaves_nothing little (Ok ()) (fun _ => Ok ()) (fun x => Ok x) "utun3" 0))).
Defined.

Example platforms_agree_witness :
  utunDevice_Read (headed [x00; x00; x00; x02] (fun n => Ok (take (Z.to_nat n) [x45; x00; x01]))) 1500 = Ok [x45; x00; x01] /\
  utunDevice_Write (fun frame => Ok (len frame)) [x45] = Ok 5.
Proof.
  destruct (platforms_agree [x00; x00; x00; x02]
              (fun n => if n <? 0 then Err 5%nat else Ok (take (Z.to_nat n) [x45; x00; x01])) 1500 [x45])
    as (H1 & H2 & _).
  - lia.
  - reflexivity.
  - intros k q. destruct (k <? 0) eqn:E; [done|]. zbool. intros [= <-]. unfold len. rewrite length_take. lia.
  - split; [exact H1|exact H2].
Defined.

Example short_frame_witness : utunDevice_Read (fun _ => Ok [x00; x00]) 1500 = Err DevUnexpectedEOF.
Proof. apply (short_frame_refused (fun _ => Ok [x00; x00]) 1500 [x00; x00]); [reflexivity|by vm_compute]. Defined.

(** A kernel that gives out any path but the first. *)
Definition busy (path : string) : res errno () :=
  if bool_decide (path = "/dev/utun0"%string) then Err 16%nat else Ok ().

Example utun_open_witness :
  darwin_openDevice busy "" 0 = (Ok (MkDevice "utun1" 1500), true) /\
  Name (MkDevice "utun7" 1500) = "utun7"%string /\ busy "/dev/utun7" = Ok ().
Proof.
  split; [reflexivity|].
  apply (proj2 (utun_open busy "utun7" 0 (MkDevice "utun7" 1500) true)); [done|reflexivity|reflexivity].
Defined.
