(* ===== verification/Agent.v ===== *)
(** * The agent (src/internal/agent/agent.go, status.go, tunbridge.go)

    The client that puts the parts together: it registers with the coordinator, keeps one
    peer session per announced agent, demultiplexes the data socket, answers pings, and
    bridges the TUN device. Its goroutines share the state under locks; [step] is one
    critical section or one hand-over of theirs, and a run interleaves them in any order.

    Peers are shared by pointer: [refs] are the addresses, [heap] what is behind them. A
    [None] result is a Go panic. The network's part of address resolution, json.Unmarshal,
    the order of map ranges, the clock, fresh randomness and the outcome of writes are
    inputs. *)

From stdpp Require Import sorting.
From S2P Require Import Prelude GoBytes GoRuntime GoNet Disco NoiseLib Noisework Protocol.
From S2P Require Relay Control Stun Nat Tun PeerSession.

(** ** The liveness ping *)

Record pingMsg := MkPing { Cmd : string; S_ : Z; Ts : Z }.

(** [json.Unmarshal] into a [pingMsg]. *)
Class PingJson := { UnmarshalPing : list byte -> option pingMsg }.

Definition MarshalPing (m : pingMsg) : list byte :=
  json_object [("cmd"%string, json_string (Cmd m)); ("s"%string, json_int (S_ m));
               ("ts"%string, json_int (Ts m))].

Definition decodePingMsg `{PingJson} (payload : list byte) : option pingMsg :=
  match UnmarshalPing payload with
  | None => None
  | Some m =>
      if negb (bool_decide (Cmd m = "ping"%string)) && negb (bool_decide (Cmd m = "pong"%string))
      then None else Some m
  end.

(** [time.Now().UnixNano()], and the time [time.Unix(0, ns)]. *)
Definition unixEpoch : Time := 62135596800 * Second.
Definition UnixNano (t : Time) : Z := i64 (t - unixEpoch).
Definition Unix0 (ns : Z) : Time := ns + unixEpoch.

Definition rttHistoryDepth : Z := 5.

(** Go's [s <= t] on strings: by bytes. *)
Definition string_le (s t : string) : Prop := String.leb s t = true.
#[export] Instance string_le_dec s t : Decision (string_le s t).
Proof. unfold string_le. apply _. Defined.

(** ** State *)

Abbreviation ref := nat.
Abbreviation chan := nat.

(** [Config]: the fields the model reads. *)
Record Config := MkConfig {
  Name : string;
  CoordKey : string;
  Coordinator : string;
  TunName : string;
  TunIP : string;
  TunPeers : gmap string string
}.

(** [tunBridge]; [dev_mtu] is the device's. *)
Record tunBridge := MkBridge {
  router : Tun.Router ref;
  ipByPeer : gmap string Tun.Addr;
  dev_mtu : Z;
  dev_closed : bool
}.
#[export] Instance tunBridge_eta : Eta tunBridge := fun b =>
  MkBridge (router b) (ipByPeer b) (dev_mtu b) (dev_closed b).

(** A [ProbeRTT] call in progress: the peer found, its session up, the ping sent, the
    waiter registered. *)
Inductive probe :=
| Found (id : string) (r : ref)
| Ready (id : string) (r : ref)
| Sent (id : string) (seq ts : Z)
| Waiting (id : string) (seq ts : Z) (done_ : chan).

(** A [Ping] call: its arguments, and where it is. *)
Record PingResult := MkPingResult {
  pr_Peer : string; pr_Count : Z; pr_Received : Z; pr_AvgRTT : Duration; pr_Path : string;
  pr_Established : bool
}.
Inductive ping_err := PingCancelled | NoSuchPeer | PingWait (e : PeerSession.wait_err).

(** The loop's variables: the peer, [i], [res.Received] and [total]. *)
Record rounds := MkRounds { g_peer : ref; g_i : Z; g_received : Z; g_total : Duration }.
#[export] Instance rounds_eta : Eta rounds := fun g =>
  MkRounds (g_peer g) (g_i g) (g_received g) (g_total g).

Inductive ping_pos :=
| WaitingPeers                                (* in [WaitPeers] *)
| LookingUp                                   (* before [a.peers[target]] *)
| Establishing (r : ref)                      (* in [WaitEstablished] *)
| AtRound (g : rounds)                        (* before the loop's condition *)
| PingSent (g : rounds) (seq ts : Z)
| PingWaiting (g : rounds) (seq ts : Z) (done_ : chan)
| Pausing (g : rounds)                        (* between two rounds *)
| PingReturned (res : option PingResult) (err : option ping_err).

Record ping := MkPingCall { target : string; count : Z; interval : Duration; pos : ping_pos }.
#[export] Instance ping_eta : Eta ping := fun g => MkPingCall (target g) (count g) (interval g) (pos g).

(** Which branch a select takes: the one of its channel or none, that of its timer, or
    that of the cancelled context. *)
Inductive branch := OnChannel | OnTimer | OnContext.

Section Agent.
Context {L : NoiseLib}.

Record Agent := MkAgent {
  cfg : Config;
  kp : Keypair;
  door : option UDPAddr;
  relay : option UDPAddr;
  pub : option UDPAddr;
  heap : gmap ref (PeerSession.Node L);
  next : ref;
  peers : gmap string ref;
  peerCancel : gmap string ref;      (* each context named by the peer it runs *)
  cancelled : gset ref;
  bridge : option tunBridge;
  inhand : gmap ref (list byte);     (* what a peerMessageLoop has taken and not handled *)
  pingOut : gmap Z chan;
  chans : gmap chan (option Time);   (* the waiters' channels, of capacity one *)
  nextChan : chan;
  probes : gmap nat probe;
  pings : gmap nat ping;
  lastRTT : gmap string Duration;
  rttHist : gmap string (list Duration);
  queryCh : option Message;
  closed : bool
}.

#[export] Instance Agent_eta : Eta Agent := fun a =>
  MkAgent (cfg a) (kp a) (door a) (relay a) (pub a) (heap a) (next a) (peers a) (peerCancel a)
    (cancelled a) (bridge a) (inhand a) (pingOut a) (chans a) (nextChan a) (probes a)
    (pings a) (lastRTT a) (rttHist a) (queryCh a) (closed a).

Implicit Types a : Agent.

(** What leaves the agent: a datagram on the data socket, a packet on the TUN device. *)
Inductive out :=
| Wire (dst : UDPAddr) (pkt : list byte)
| Device (pkt : list byte).

(** ** Sending *)

Inductive agent_err :=
| NatErr (e : Nat.nat_err) | RelayErr (e : Relay.relay_err) | RelayNotConfigured | MissingAddress.

(** [sendDatagram]: what is handed to the socket. Writing to a nil address fails. *)
Definition sendDatagram a (dst : option UDPAddr) (pkt : list byte) : res agent_err out :=
  match door a with
  | Some d =>
      match Nat.WrapOutbound (Name (cfg a)) dst pkt with
      | Err e => Err (NatErr e)
      | Ok wrapped => Ok (Wire d wrapped)
      end
  | None => match dst with None => Err MissingAddress | Some d => Ok (Wire d pkt) end
  end.

Definition SendDirect a (dst : option UDPAddr) (frame : list byte) : res agent_err out :=
  sendDatagram a dst frame.

Definition SendRelay a (peerID : string) (frame : list byte) : res agent_err out :=
  match relay a with
  | None => Err RelayNotConfigured
  | Some r =>
      match Relay.WrapPacket (Name (cfg a)) peerID frame with
      | Err e => Err (RelayErr e)
      | Ok pkt => sendDatagram a (Some r) pkt
      end
  end.

(** What a peer hands to its transport. *)
Definition emit a (o : PeerSession.output) : res agent_err out :=
  match o with
  | PeerSession.SendDirect dst frame => SendDirect a dst frame
  | PeerSession.SendRelay id frame => SendRelay a id frame
  end.

Definition emitted a (os : list PeerSession.output) : list out :=
  omap (fun o => match emit a o with Ok w => Some w | Err _ => None end) os.

(** A step of one peer, with what it sends. *)
Definition on_peer (r : ref) (e : PeerSession.event) a : option (Agent * list out) :=
  n ← heap a !! r;
  '(n, os) ← PeerSession.node_step (relay a) n e;
  Some (a <| heap := <[r := n]> (heap a) |>, emitted a os).

(** ** Peers *)

Section Steps.
Context `{Json, PingJson, RangeOrder}.
(** The network's part of address resolution, and [netip.ParseAddr]. *)
Context (other : string -> option UDPAddr) (parse : string -> option Tun.Addr).

(** [setPeerSink]; a peer without an overlay address has the zero one. *)
Definition setPeerSink (id : string) (s : option ref) (b : tunBridge) : tunBridge :=
  b <| router := Tun.SetRoute (default Tun.NoAddr (ipByPeer b !! id)) s (router b) |>.

Definition sink (id : string) (s : option ref) a : Agent :=
  a <| bridge := setPeerSink id s <$> bridge a |>.

(** The first endpoint of an announced peer, if it resolves. *)
Definition firstEndpoint (info : PeerInfo) : option UDPAddr :=
  match elems (pi_Endpoints info) with
  | [] => None
  | ep :: _ => ResolveUDPAddr other ep
  end.

(** The body of [applyPeers]'s loop over the announced peers. *)
Definition track (info : PeerInfo) a : option Agent :=
  if bool_decide (pi_ID info = Name (cfg a)) then Some a
  else
    let directEP := firstEndpoint info in
    match peers a !! pi_ID info with
    | Some r =>
        match directEP with
        | Some _ => fst <$> on_peer r (PeerSession.EvSetDirectEP directEP) a
        | None => Some a
        end
    | None =>
        match ParsePublicKeyHex (pi_PubKey info) with
        | Err _ => Some a
        | Ok key =>
            let r := next a in
            let np := PeerSession.New (Name (cfg a)) (pi_ID info) key directEP (kp a) in
            Some (sink (pi_ID info) (Some r)
                    (a <| next := S r |>
                       <| heap := <[r := PeerSession.MkNode np PeerSession.NotStarted]> (heap a) |>
                       <| peers := <[pi_ID info := r]> (peers a) |>
                       <| peerCancel := <[pi_ID info := r]> (peerCancel a) |>))
        end
    end.

(** Its loop over the tracked peers: one that was not announced is dropped. *)
Definition untrack (seen : gset string) (ir : string * ref) a : option Agent :=
  let '(id, r) := ir in
  if bool_decide (id ∈ seen) then Some a
  else
    let a := sink id None a in
    let a :=
      match peerCancel a !! id with
      | Some c => a <| cancelled := {[c]} ∪ cancelled a |>
                    <| peerCancel := delete id (peerCancel a) |>
      | None => a
      end in
    '(a, _) ← on_peer r PeerSession.EvClose a;
    Some (a <| peers := delete id (peers a) |>).

Fixpoint each {A} (f : A -> Agent -> option Agent) (l : list A) a : option Agent :=
  match l with
  | [] => Some a
  | x :: l => a ← f x a; each f l a
  end.

Definition seen_of (name : string) (infos : list PeerInfo) : gset string :=
  list_to_set (filter (fun id => id <> name) (map pi_ID infos)).

Definition applyPeers (now : Time) (infos : list PeerInfo) a : option Agent :=
  a ← each track infos a;
  each (untrack (seen_of (Name (cfg a)) infos)) (ranged now (map_to_list (peers a))) a.

(** ** The data socket *)

(** The peer a datagram from [src] belongs to, and the frame for it. *)
Definition demux (now : Time) (src : UDPAddr) (frame : list byte) a : option (ref * list byte) :=
  let by_endpoint :=
    match List.find (fun ir : string * ref =>
             match heap a !! ir.2 with
             | Some n => match PeerSession.DirectEP (PeerSession.peer n) with
                         | Some ep => bool_decide (addr_String src = addr_String ep)
                         | None => false
                         end
             | None => false
             end) (ranged now (map_to_list (peers a))) with
    | Some (_, r) => Some (r, frame)
    | None => None
    end in
  match relay a with
  | Some ra =>
      if bool_decide (addr_String src = addr_String ra) then
        match Relay.ParsePacket frame with
        | Ok (rid, _, payload) => (fun r => (r, payload)) <$> peers a !! rid
        | Err _ => None
        end
      else by_endpoint
  | None => by_endpoint
  end.

(** The source and the payload of a datagram read: behind a NAT box they are in the
    inbound envelope. *)
Definition unwrap (src : UDPAddr) (pkt : list byte) a : option (UDPAddr * list byte) :=
  match door a with
  | None => Some (src, pkt)
  | Some _ => match Nat.UnwrapInbound other pkt with Ok x => Some x | Err _ => None end
  end.

(** The body of [receiveLoop]. *)
Definition receive (now : Time) (rnd : list byte) (src : UDPAddr) (pkt : list byte) a
    : option (Agent * list out) :=
  match unwrap src pkt a with
  | None => Some (a, [])
  | Some (extSrc, frame) =>
      match demux now extSrc frame a with
      | None => Some (a, [])
      | Some (r, f) => on_peer r (PeerSession.EvFrame now rnd (Some extSrc) f) a
      end
  end.

(** ** Payloads *)

(** [peerMessageLoop] takes the next payload of a peer's channel. *)
Definition take_payload (r : ref) a : option (Agent * list out) :=
  match inhand a !! r with
  | Some _ => Some (a, [])
  | None =>
      n ← heap a !! r;
      match PeerSession.recvQ (PeerSession.peer n) with
      | [] => Some (a, [])
      | payload :: _ => on_peer r PeerSession.EvRecv (a <| inhand := <[r := payload]> (inhand a) |>)
      end
  end.

(** A send into a channel of capacity one that nobody else sends to. *)
Definition signal (c : chan) (t : Time) (cs : gmap chan (option Time)) : gmap chan (option Time) :=
  match cs !! c with Some None => <[c := Some t]> cs | _ => cs end.

Definition dispatchPing (now : Time) (r : ref) (m : pingMsg) a : option (Agent * list out) :=
  if bool_decide (Cmd m = "ping"%string) then
    on_peer r (PeerSession.EvSend now (MarshalPing (MkPing "pong" (S_ m) (Ts m)))) a
  else if bool_decide (Cmd m = "pong"%string) then
    let ch := pingOut a !! S_ m in
    let a := a <| pingOut := delete (S_ m) (pingOut a) |> in
    Some (match ch with Some c => a <| chans := signal c now (chans a) |> | None => a end, [])
  else Some (a, []).

(** [tunBridge.inbound]: the packet written to the device, if any. *)
Definition inbound (payload : list byte) (b : tunBridge) : list out :=
  if len payload >? dev_mtu b then [] else if dev_closed b then [] else [Device payload].

Definition handlePeerPayload (now : Time) (r : ref) (payload : list byte) a
    : option (Agent * list out) :=
  match payload with
  | [] => Some (a, [])
  | b0 :: _ =>
      match bridge a with
      | Some b =>
          match (if bool_decide (b0 = x7b) then decodePingMsg payload else None) with
          | Some m => dispatchPing now r m a
          | None => Some (a, inbound payload b)
          end
      | None =>
          match decodePingMsg payload with
          | None => Some (a, [])
          | Some m => dispatchPing now r m a
          end
      end
  end.

(** [peerMessageLoop] handles the payload it has taken. *)
Definition handle_payload (now : Time) (r : ref) a : option (Agent * list out) :=
  match inhand a !! r with
  | None => Some (a, [])
  | Some payload => handlePeerPayload now r payload (a <| inhand := delete r (inhand a) |>)
  end.

(** ** The TUN device *)

(** [peer.Send] as a sink of the router: whether it succeeds. The datagrams are kept. *)
Definition peerSend (now : Time) (wrote : bool) (r : ref) (pkt : list byte) (w : Agent * list out)
    : option (bool * (Agent * list out)) :=
  let '(a, outs) := w in
  n ← heap a !! r;
  '(res, p) ← PeerSession.Send (PeerSession.peer n) now pkt;
  let a := a <| heap := <[r := PeerSession.MkNode p (PeerSession.pc n)]> (heap a) |> in
  match res with
  | Err _ => Some (false, (a, outs))
  | Ok o =>
      match emit a o with
      | Err _ => Some (false, (a, outs))
      | Ok x => Some (wrote, (a, outs ++ [x]))
      end
  end.

(** A packet read from the device ([tunBridge.run]). *)
Definition from_device (now : Time) (wrote : bool) (pkt : list byte) a : option (Agent * list out) :=
  match bridge a, pkt with
  | Some b, _ :: _ =>
      '(_, rt, w) ← Tun.RoutePacket (peerSend now wrote) pkt (router b) (a, []);
      let '(a, outs) := w in
      Some (a <| bridge := (fun b => b <| router := rt |>) <$> bridge a |>, outs)
  | _, _ => Some (a, [])
  end.

(** [newTunBridge]. [mtu] is the opened device's, [None] if opening it fails. *)
Inductive bridge_err := OpenTun | BadTunIP | BadTunPeer.

Definition newTunBridge (mtu : option Z) (c : Config)
    : res bridge_err (option tunBridge) :=
  if bool_decide (TunName c = ""%string) then Ok None
  else
    match mtu with
    | None => Err OpenTun
    | Some m =>
        if negb (bool_decide (TunIP c = ""%string)) && bool_decide (parse (TunIP c) = None)
        then Err BadTunIP
        else if bool_decide (map_Forall (fun _ ip => is_Some (parse ip)) (TunPeers c))
        then Ok (Some (MkBridge Tun.NewRouter (omap parse (TunPeers c)) m false))
        else Err BadTunPeer
    end.

(** [attachBridge]: the peers known already get their routes. *)
Definition attachBridge (now : Time) (b : tunBridge) a : Agent :=
  a <| bridge := Some (fold_left (fun b ir => setPeerSink ir.1 (Some ir.2) b)
                         (ranged now (map_to_list (peers a))) b) |>.

(** [Run]'s use of them. *)
Definition open_bridge (now : Time) (mtu : option Z) a : Agent :=
  match bridge a, newTunBridge mtu (cfg a) with
  | None, Ok (Some b) => attachBridge now b a
  | _, _ => a
  end.

(** ** The control plane *)

Definition publicEndpoints a : list string :=
  Relay.ptr_String (pub a) ::
  match relay a with Some r => [addr_String r] | None => [] end.

(** What [register] sends. *)
Definition registration a : Message :=
  MkMessage TypeRegister (Name (cfg a)) (PublicHex (kp a)) (Some (publicEndpoints a)) None "" 0 0 0.

(** A message of [ctrlReaderLoop], decrypted. *)
Definition control_message (now : Time) (plain : list byte) a : option Agent :=
  match DecodeLine plain with
  | Err _ => Some a
  | Ok msg =>
      if bool_decide (Type_ msg = TypePeerList) then applyPeers now (elems (Peers msg)) a
      else if bool_decide (Type_ msg = TypeQueryResult) then
        Some (match queryCh a with None => a <| queryCh := Some msg |> | Some _ => a end)
      else Some a
  end.

(** [QueryCoordinator], up to its write, and its wait; [sent] says whether the session is
    there and the write succeeded. *)
Definition query_drain a : Agent := a <| queryCh := None |>.
Definition query_line : res proto_err (list byte) :=
  EncodeLine (MkMessage TypeQuery "" "" None None "" 0 0 0).
Definition query_take a : option Message * Agent :=
  match queryCh a with
  | Some m => (Some m, a <| queryCh := None |>)
  | None => (None, a)
  end.

(** ** STUN over the data socket *)

(** The loop of [resolvePublicEndpoint], over what the socket returns up to its deadline;
    [None] while it is still waiting. The decoder's own [None] never happens. *)
Fixpoint awaitEndpoint (txid : list byte) (reads : list (option (list byte))) a
    : option (res (option Stun.stun_err) UDPAddr) :=
  match reads with
  | [] => None
  | None :: _ => Some (Err None)               (* the read failed, or timed out *)
  | Some dgram :: reads =>
      let raw := take 1500 dgram in
      match (match door a with
             | None => Some raw
             | Some _ => match Nat.UnwrapInbound other raw with
                         | Ok (_, payload) => Some payload
                         | Err _ => None
                         end
             end) with
      | None => awaitEndpoint txid reads a
      | Some buf =>
          if (len buf <? 20) || negb (bool_decide (take 2 buf = [x01; x01]))
          then awaitEndpoint txid reads a
          else if negb (bool_decide (take 12 (drop 8 buf) = txid)) then awaitEndpoint txid reads a
          else r ← Stun.DecodeXORMappedAddress buf;
               Some (match r with Ok addr => Ok addr | Err e => Err (Some e) end)
      end
  end.

(** The request sent, and the outcome; [stun] is the server's address, if it resolved. *)
Definition resolvePublicEndpoint (stun : option UDPAddr) (txid : list byte) (wrote : bool)
    (reads : list (option (list byte))) a : list out * option (res (option Stun.stun_err) UDPAddr) :=
  match stun with
  | None => ([], Some (Err None))
  | Some dst =>
      match sendDatagram a (Some dst) (Stun.EncodeBindingRequest txid) with
      | Err _ => ([], Some (Err None))
      | Ok o => ([o], if wrote then awaitEndpoint txid reads a else Some (Err None))
      end
  end.

(** ** Pings and round-trip times *)

Definition recordRTT (peerID : string) (rtt : Duration) a : Agent :=
  let hist := rtt :: default [] (rttHist a !! peerID) in
  let hist := if len hist >? rttHistoryDepth then take (Z.to_nat rttHistoryDepth) hist else hist in
  a <| lastRTT := <[peerID := rtt]> (lastRTT a) |> <| rttHist := <[peerID := hist]> (rttHist a) |>.

Definition dropPing (seq : Z) a : Agent := a <| pingOut := delete seq (pingOut a) |>.

(** [ProbeRTT] number [i] looks its peer up. *)
Definition probe_start (i : nat) (peerID : string) a : Agent :=
  match probes a !! i, peers a !! peerID with
  | None, Some r => a <| probes := <[i := Found peerID r]> (probes a) |>
  | _, _ => a
  end.

(** It waits for the peer's session. *)
Definition probe_wait (i : nat) (ctx : bool) a : option Agent :=
  match probes a !! i with
  | Some (Found id r) =>
      n ← heap a !! r;
      Some (match PeerSession.WaitEstablished (PeerSession.peer n) ctx with
            | None => a
            | Some (Ok _) => a <| probes := <[i := Ready id r]> (probes a) |>
            | Some (Err _) => a <| probes := delete i (probes a) |>
            end)
  | _ => Some a
  end.

(** It sends its ping. [t1] and [t2] are its two readings of the clock. *)
Definition probe_send (i : nat) (t1 t2 now : Time) (wrote : bool) a : option (Agent * list out) :=
  match probes a !! i with
  | Some (Ready id r) =>
      let seq := u64 (UnixNano t1) in
      let ts := UnixNano t2 in
      '(ok, w) ← peerSend now wrote r (MarshalPing (MkPing "ping" seq ts)) (a, []);
      let '(a, outs) := w in
      Some (a <| probes := if ok : bool then <[i := Sent id seq ts]> (probes a)
                           else delete i (probes a) |>, outs)
  | _ => Some (a, [])
  end.

(** A new channel, registered as the waiter for the pong to [seq]. *)
Definition await_pong (seq : Z) a : chan * Agent :=
  let c := nextChan a in
  (c, a <| nextChan := S c |> <| chans := <[c := None]> (chans a) |>
        <| pingOut := <[seq := c]> (pingOut a) |>).

(** It registers its waiter. *)
Definition probe_register (i : nat) a : Agent :=
  match probes a !! i with
  | Some (Sent id seq ts) =>
      let '(c, a) := await_pong seq a in
      a <| probes := <[i := Waiting id seq ts c]> (probes a) |>
  | _ => a
  end.

(** It is woken by its pong, or gives up ([ctx] done). *)
Definition probe_finish (i : nat) (gives_up : bool) a : Agent :=
  match probes a !! i with
  | Some (Waiting id seq ts c) =>
      if gives_up then dropPing seq (a <| probes := delete i (probes a) |>)
      else
        match chans a !! c with
        | Some (Some got) =>
            dropPing seq
              (recordRTT id (Sub got (Unix0 ts))
                 (a <| probes := delete i (probes a) |> <| chans := <[c := None]> (chans a) |>))
        | _ => a
        end
  | _ => a
  end.

(** ** The [Ping] command *)

(** A call. *)
Definition ping_start (j : nat) (target : string) (count : Z) (interval : Duration) a : Agent :=
  match pings a !! j with
  | None => a <| pings := <[j := MkPingCall target count interval WaitingPeers]> (pings a) |>
  | Some _ => a
  end.

(** A turn of [WaitPeers]' loop, [None] when it goes on. *)
Definition WaitPeers (ctx : bool) a : option (res ping_err unit) :=
  if negb (bool_decide (peers a = ∅)) then Some (Ok tt)
  else if ctx then Some (Err PingCancelled) else None.

Definition on_context (br : branch) : bool := match br with OnContext => true | _ => false end.

Definition set_pos (j : nat) (g : ping) (p : ping_pos) a : Agent :=
  a <| pings := <[j := g <| pos := p |>]> (pings a) |>.

(** What follows a round: the pause, or the next round. *)
Definition next_round (g : ping) (x : rounds) : ping_pos :=
  if (interval g >? 0) && (g_i x + 1 <? count g) then Pausing x else AtRound (x <| g_i := g_i x + 1 |>).

(** The result at the end, and the one of a call cancelled in a round. *)
Definition ping_result (g : ping) (x : rounds) (path : Path) : PingResult :=
  MkPingResult (target g) (count g) (g_received x)
    (if g_received x >? 0 then g_total x ÷ g_received x else 0) (Path_String path) true.
Definition cancelled_result (g : ping) (x : rounds) : PingResult :=
  MkPingResult (target g) (count g) (g_received x) 0 "" true.

(** A step of call [j]: which branch its select takes, its readings of the clock, and
    whether its ping is written. *)
Definition ping_step (j : nat) (br : branch) (t1 t2 now : Time) (wrote : bool) a
    : option (Agent * list out) :=
  match pings a !! j with
  | None => Some (a, [])
  | Some g =>
      let at_ p := set_pos j g p in
      match pos g with
      | WaitingPeers =>
          Some (match WaitPeers (on_context br) a with
                | None => a
                | Some (Err e) => at_ (PingReturned None (Some e)) a
                | Some (Ok _) => at_ LookingUp a
                end, [])
      | LookingUp =>
          Some (at_ (match peers a !! target g with
                     | None => PingReturned None (Some NoSuchPeer)
                     | Some r => Establishing r
                     end) a, [])
      | Establishing r =>
          n ← heap a !! r;
          Some (match PeerSession.WaitEstablished (PeerSession.peer n) (on_context br) with
                | None => a
                | Some (Err e) => at_ (PingReturned None (Some (PingWait e))) a
                | Some (Ok _) => at_ (AtRound (MkRounds r 0 0 0)) a
                end, [])
      | AtRound x =>
          if g_i x <? count g then
            let seq := u64 (UnixNano t1) in
            let ts := UnixNano t2 in
            '(_, w) ← peerSend now wrote (g_peer x) (MarshalPing (MkPing "ping" seq ts)) (a, []);
            let '(a, outs) := w in
            Some (at_ (PingSent x seq ts) a, outs)          (* an error is only logged *)
          else
            n ← heap a !! g_peer x;
            Some (at_ (PingReturned (Some (ping_result g x (PeerSession.path (PeerSession.peer n)))) None) a, [])
      | PingSent x seq ts =>
          let '(c, a) := await_pong seq a in Some (at_ (PingWaiting x seq ts c) a, [])
      | PingWaiting x seq ts c =>
          Some (match br with
                | OnContext =>
                    at_ (PingReturned (Some (cancelled_result g x)) (Some PingCancelled)) (dropPing seq a)
                | OnTimer => at_ (next_round g x) (dropPing seq a)
                | OnChannel =>
                    match chans a !! c with
                    | Some (Some got) =>
                        let x := x <| g_total := i64 (g_total x + Sub got (Unix0 ts)) |>
                                   <| g_received := i64 (g_received x + 1) |> in
                        at_ (next_round g x) (a <| chans := <[c := None]> (chans a) |>)
                    | _ => a
                    end
                end, [])
      | Pausing x =>
          match br with
          | OnContext =>
              n ← heap a !! g_peer x;
              Some (at_ (PingReturned (Some (ping_result g x (PeerSession.path (PeerSession.peer n)))) None) a, [])
          | OnTimer => Some (at_ (AtRound (x <| g_i := g_i x + 1 |>)) a, [])
          | OnChannel => Some (a, [])
          end
      | PingReturned _ _ => Some (a, [])
      end
  end.

(** ** Status *)

Record PeerStatus := MkPeerStatus {
  ps_ID : string;
  ps_Established : bool;
  ps_Path : string;
  ps_LastRTT : Duration;
  ps_RTTHistory : list Duration;
  ps_RekeyCount : Z;
  ps_SessionAge : Duration;
  ps_BytesSent : Z;
  ps_BytesRecv : Z;
  ps_DirectEP : string
}.

(** [sort.Strings] on distinct strings. *)
Definition sortStrings (l : list string) : list string := merge_sort string_le l.

Definition peerStatus (now : Time) a (id : string) : option PeerStatus :=
  r ← peers a !! id;
  n ← heap a !! r;
  let p := PeerSession.peer n in
  Some (MkPeerStatus (PeerSession.ID p) (PeerSession.Established p) (Path_String (PeerSession.path p))
          (default 0 (lastRTT a !! id)) (default [] (rttHist a !! id))
          (PeerSession.rekeyCount p) (PeerSession.SessionAge p now)
          (PeerSession.bytesTx p) (PeerSession.bytesRx p)
          (match PeerSession.DirectEP p with Some ep => addr_String ep | None => "" end)).

(** [Status]'s peers. *)
Definition Status (now : Time) a : list PeerStatus :=
  omap (peerStatus now a) (sortStrings (map fst (map_to_list (peers a)))).

(** ** Start, end, and runs *)

(** [New], once the key is loaded and the socket bound. *)
Inductive new_err := ResolveDoor | ResolveRelay.

Definition New (c : Config) (k : Keypair) (natDoor relayAddr : string) : res new_err Agent :=
  let resolve s := ResolveUDPAddr other s in
  if negb (bool_decide (natDoor = ""%string)) && bool_decide (resolve natDoor = None)
  then Err ResolveDoor
  else if negb (bool_decide (relayAddr = ""%string)) && bool_decide (resolve relayAddr = None)
  then Err ResolveRelay
  else
    Ok (MkAgent c k
          (if bool_decide (natDoor = ""%string) then None else resolve natDoor)
          (if bool_decide (relayAddr = ""%string) then None else resolve relayAddr)
          None ∅ 0%nat ∅ ∅ ∅ None ∅ ∅ ∅ 0%nat ∅ ∅ ∅ ∅ None false).

(** [Close]: the bridge's device and every peer are closed, every context cancelled. (The
    closed data socket only shows in what is no longer read and written.) *)
Definition close_peer (ir : string * ref) a : option Agent := fst <$> on_peer ir.2 PeerSession.EvClose a.

Definition Close (now : Time) a : option Agent :=
  if closed a then Some a
  else
    let a := a <| closed := true |>
               <| bridge := (fun b => b <| dev_closed := true |>) <$> bridge a |>
               <| cancelled := list_to_set (map snd (map_to_list (peerCancel a))) ∪ cancelled a |>
               <| peerCancel := ∅ |> in
    each close_peer (ranged now (map_to_list (peers a))) a.

Inductive event :=
| EvEndpoint (ep : UDPAddr)                                     (* [setup] learns [pub] *)
| EvDatagram (now : Time) (rnd : list byte) (src : UDPAddr) (pkt : list byte)
| EvControl (now : Time) (plain : list byte)
| EvLoop (r : ref) (now : Time) (rnd : list byte) (wrote : bool)  (* a stage of a peer's [Run] *)
| EvExit (r : ref)
| EvTake (r : ref)
| EvHandle (now : Time) (r : ref)
| EvDevice (now : Time) (wrote : bool) (pkt : list byte)
| EvBridge (now : Time) (mtu : option Z)
| EvProbe (i : nat) (id : string)
| EvProbeWait (i : nat) (ctx : bool)
| EvProbeSend (i : nat) (t1 t2 now : Time) (wrote : bool)
| EvProbeRegister (i : nat)
| EvProbeFinish (i : nat) (gives_up : bool)
| EvPing (j : nat) (target : string) (count : Z) (interval : Duration)
| EvPingStep (j : nat) (br : branch) (t1 t2 now : Time) (wrote : bool)
| EvQueryDrain
| EvQueryTake
| EvClose (now : Time).

(** [EvLoop] and [EvExit] of an address where no peer is are no events. *)
Definition at_peer (r : ref) (e : PeerSession.event) a : option (Agent * list out) :=
  match heap a !! r with Some _ => on_peer r e a | None => Some (a, []) end.

Definition quietly (x : option Agent) : option (Agent * list out) := (fun a => (a, [])) <$> x.

Definition step a (e : event) : option (Agent * list out) :=
  match e with
  | EvEndpoint ep => Some (a <| pub := Some ep |>, [])
  | EvDatagram now rnd src pkt => receive now rnd src pkt a
  | EvControl now plain => quietly (control_message now plain a)
  | EvLoop r now rnd wrote => at_peer r (PeerSession.EvLoop now rnd wrote) a
  | EvExit r =>
      if bool_decide (r ∈ cancelled a) ||
         match heap a !! r with
         | Some n => PeerSession.done_ (PeerSession.peer n)
         | None => false
         end
      then at_peer r PeerSession.EvExit a else Some (a, [])
  | EvTake r => match heap a !! r with Some _ => take_payload r a | None => Some (a, []) end
  | EvHandle now r => handle_payload now r a
  | EvDevice now wrote pkt => from_device now wrote pkt a
  | EvBridge now mtu => Some (open_bridge now mtu a, [])
  | EvProbe i id => Some (probe_start i id a, [])
  | EvProbeWait i ctx => quietly (probe_wait i ctx a)
  | EvProbeSend i t1 t2 now wrote => probe_send i t1 t2 now wrote a
  | EvProbeRegister i => Some (probe_register i a, [])
  | EvProbeFinish i gives_up => Some (probe_finish i gives_up a, [])
  | EvPing j target count interval => Some (ping_start j target count interval a, [])
  | EvPingStep j br t1 t2 now wrote => ping_step j br t1 t2 now wrote a
  | EvQueryDrain => Some (query_drain a, [])
  | EvQueryTake => Some ((query_take a).2, [])
  | EvClose now => quietly (Close now a)
  end.

Fixpoint run a (es : list event) : option (Agent * list out) :=
  match es with
  | [] => Some (a, [])
  | e :: es => '(a, os) ← step a e; '(a, os') ← run a es; Some (a, os ++ os')
  end.
End Steps.
End Agent.

Arguments Agent L : clear implicits.
