(* ===== verification/AgentSafety.v ===== *)
(** * What the agent guarantees in every interleaving

    The invariant of the agent's shared state, kept by every step of every goroutine, and
    with it: no step panics; a peer's session is authenticated under a key the coordinator
    announced for its name; routes lead to tracked peers at their own overlay addresses;
    no ping's waiter outlives the call that waits. *)

From S2P Require Import Prelude GoBytes GoRuntime GoNet Disco NoiseLib Noisework Protocol.
From S2P Require Import Agent.
From S2P Require PeerSession PeerSafety Tun Nat Relay.

Section Safety.
Context {L : NoiseLib} {W : NoiseLaws L} {XX : XXLaws L} {J : Json} {PJ : PingJson} {RO : RangeOrder}.
Context (other : string -> option UDPAddr) (parse : string -> option Tun.Addr).
Implicit Types (a : Agent L) (n : PeerSession.Node L).

Abbreviation pID n := (PeerSession.ID (PeerSession.peer n)).
Abbreviation pKey n := (PeerSession.peerKey (PeerSession.peer n)).

(** The peer a [Ping] call holds. *)
Definition ping_ref (p : ping_pos) : option ref :=
  match p with
  | Establishing r => Some r
  | AtRound g | PingSent g _ _ | PingWaiting g _ _ _ | Pausing g => Some (g_peer g)
  | WaitingPeers | LookingUp | PingReturned _ _ => None
  end.

(** A call of [ProbeRTT] or [Ping] that waits on [c] for the pong to [seq]. *)
Definition waits a (seq : Z) (c : chan) : Prop :=
  (exists i id ts, probes a !! i = Some (Waiting id seq ts c)) \/
  (exists j g x ts, pings a !! j = Some g /\ pos g = PingWaiting x seq ts c).

(** The peers of the [Ping] calls, and the channels registered for pongs: they hold no
    pong yet, and each is registered once. *)
Record PingInv (h : gmap ref (PeerSession.Node L)) (gs : gmap nat ping) (po : gmap Z chan)
    (cs : gmap chan (option Time)) (nc : chan) : Prop := {
  pi_ref j g r : gs !! j = Some g -> ping_ref (pos g) = Some r -> is_Some (h !! r);
  pi_quiet s c : po !! s = Some c -> cs !! c = Some None /\ (c < nc)%nat;
  pi_inj s s' c : po !! s = Some c -> po !! s' = Some c -> s = s'
}.

Record Inv a : Prop := {
  inv_heap r n : heap a !! r = Some n -> PeerSafety.Inv (PeerSession.peer n) /\ (r < next a)%nat;
  inv_peers id r : peers a !! id = Some r ->
    id <> Name (cfg a) /\ exists n, heap a !! r = Some n /\ pID n = id;
  inv_cancel id c : peerCancel a !! id = Some c -> peers a !! id = Some c;
  inv_routes b dst r : bridge a = Some b -> Tun.routes (router b) !! dst = Some r ->
    Tun.Is4 dst = true /\ exists id, peers a !! id = Some r /\ ipByPeer b !! id = Some dst;
  inv_inhand r p : inhand a !! r = Some p -> is_Some (heap a !! r);
  inv_found i id r :
    probes a !! i = Some (Found id r) \/ probes a !! i = Some (Ready id r) -> is_Some (heap a !! r);
  inv_waiter seq c : pingOut a !! seq = Some c -> waits a seq c;
  inv_pings : PingInv (heap a) (pings a) (pingOut a) (chans a) (nextChan a)
}.

(** The heap only grows, and waiters only go. *)
Lemma PingInv_heap h h' gs po cs nc :
  (forall r, is_Some (h !! r) -> is_Some (h' !! r)) -> PingInv h gs po cs nc -> PingInv h' gs po cs nc.
Proof. intros Hh [H1 H2 H3]. constructor; [intros; apply Hh|..]; eauto. Qed.

Lemma PingInv_delete h gs po cs nc s : PingInv h gs po cs nc -> PingInv h gs (delete s po) cs nc.
Proof.
  intros [H1 H2 H3]. constructor; [done| |].
  - intros s' c H. apply lookup_delete_Some in H as [_ H]. by apply (H2 s').
  - intros s1 s2 c H H'. apply lookup_delete_Some in H as [_ H], H' as [_ H']. by eapply H3.
Qed.

(** What any step keeps: the configuration, and every peer under its name and key; peers
    made on the way satisfy [P]. *)
Record Ext (P : string -> list byte -> Prop) a a' : Prop := {
  ext_cfg : cfg a' = cfg a; ext_kp : kp a' = kp a;
  ext_door : door a' = door a; ext_relay : relay a' = relay a;
  ext_old r n : heap a !! r = Some n ->
    exists n', heap a' !! r = Some n' /\ pID n' = pID n /\ pKey n' = pKey n;
  ext_new r n' : heap a' !! r = Some n' -> heap a !! r = None -> P (pID n') (pKey n')
}.

Lemma Ext_refl P a : Ext P a a.
Proof. constructor; try done; [by eauto|congruence]. Qed.

Lemma Ext_weaken (P Q : string -> list byte -> Prop) a a' :
  (forall id k, P id k -> Q id k) -> Ext P a a' -> Ext Q a a'.
Proof. intros HPQ []. constructor; eauto. Qed.

Lemma Ext_trans P a1 a2 a3 : Ext P a1 a2 -> Ext P a2 a3 -> Ext P a1 a3.
Proof.
  intros [] []. constructor; try congruence.
  - intros r n Hn. destruct (ext_old0 r n Hn) as (n' & H' & ? & ?).
    destruct (ext_old1 r n' H') as (n'' & ? & ? & ?). exists n''. split_and!; congruence.
  - intros r n'' H'' Hn. destruct (heap a2 !! r) as [n'|] eqn:E; [|by eapply ext_new1].
    destruct (ext_old1 r n' E) as (m & Hm & E1 & E2). assert (m = n'') as -> by congruence.
    rewrite E1, E2. by eapply ext_new0.
Qed.

(** Steps that leave the heap alone. *)
Lemma Ext_heap P a a' :
  cfg a' = cfg a -> kp a' = kp a -> door a' = door a -> relay a' = relay a ->
  heap a' = heap a -> Ext P a a'.
Proof. intros ? ? ? ? E. constructor; try done; rewrite E; [by eauto|congruence]. Qed.

(** ** One peer steps *)

Lemma Inv_heap_upd a r n n' :
  Inv a -> heap a !! r = Some n -> PeerSafety.Step (PeerSession.peer n) (PeerSession.peer n') ->
  let a' := a <| heap := <[r := n']> (heap a) |> in
  Inv a' /\ forall P, Ext P a a'.
Proof.
  intros [Ih Ip Ic Ir Ii If Iw Ig] Hn [Hi (Hid & Hkey & _) _ _] a'.
  assert (Hs : forall r', is_Some (heap a !! r') -> is_Some (heap a' !! r')).
  { intros r' H. apply lookup_insert_is_Some'. by right. }
  split; [constructor|intros P; constructor]; try done; unfold a' in *; cbn; try by eauto.
  - intros r' n1 H. apply lookup_insert_Some in H as [[<- <-]|[_ H]]; [|by eauto].
    split; [done|]. by destruct (Ih _ _ Hn).
  - intros id r' H. destruct (Ip id r' H) as (Hne & n1 & H1 & E). split; [done|].
    destruct (decide (r = r')) as [<-|Hr].
    + exists n'. rewrite lookup_insert_eq. split; [done|]. congruence.
    + exists n1. by rewrite lookup_insert_ne.
  - by apply (PingInv_heap (heap a)).
  - intros r' n1 H. destruct (decide (r = r')) as [<-|Hr].
    + exists n'. rewrite lookup_insert_eq. split_and!; congruence.
    + exists n1. by rewrite lookup_insert_ne.
  - intros r' n1 H1 H2. apply lookup_insert_Some in H1 as [[<- <-]|[_ H1]]; congruence.
Qed.

Lemma on_peer_Inv a r n e :
  Inv a -> heap a !! r = Some n ->
  exists n' os, PeerSession.node_step (relay a) n e = Some (n', os) /\
    on_peer r e a = Some (a <| heap := <[r := n']> (heap a) |>, emitted a os) /\
    PeerSafety.Step (PeerSession.peer n) (PeerSession.peer n') /\
    Inv (a <| heap := <[r := n']> (heap a) |>) /\
    forall P, Ext P a (a <| heap := <[r := n']> (heap a) |>).
Proof.
  intros I Hn. destruct (inv_heap _ I r n Hn) as [Hi _].
  destruct (PeerSafety.node_step_Good (relay a) n e Hi) as (n' & os & E & S).
  exists n', os. destruct (Inv_heap_upd a r n n' I Hn S) as [I' X].
  split_and!; try done. unfold on_peer. rewrite Hn. cbn [mbind option_bind]. by rewrite E.
Qed.

(** The outcome of a step: it does not panic, and keeps the invariant. *)
Definition Good P a (x : option (Agent L * list out)) : Prop :=
  exists a' os, x = Some (a', os) /\ Inv a' /\ Ext P a a'.
Definition Good1 P a (x : option (Agent L)) : Prop := exists a', x = Some a' /\ Inv a' /\ Ext P a a'.

Lemma Good_same P a os : Inv a -> Good P a (Some (a, os)).
Proof. intros I. exists a, os. split_and!; [done..|apply Ext_refl]. Qed.
Lemma Good1_same P a : Inv a -> Good1 P a (Some a).
Proof. intros I. exists a. split_and!; [done..|apply Ext_refl]. Qed.

Lemma on_peer_Good P a r e : Inv a -> is_Some (heap a !! r) -> Good P a (on_peer r e a).
Proof.
  intros I [n Hn]. destruct (on_peer_Inv a r n e I Hn) as (n' & os & _ & E & _ & I' & X).
  rewrite E. eexists _, _. split_and!; [done..|apply X].
Qed.

Lemma Good_Good1 P a x : Good P a x -> Good1 P a (fst <$> x).
Proof. intros (a' & os & -> & I & X). by exists a'. Qed.

Lemma Good1_each {A} P (f : A -> Agent L -> option (Agent L)) (Q : Agent L -> Prop) l : forall a,
  (forall x a, x ∈ l -> Inv a -> Q a -> exists a', f x a = Some a' /\ Inv a' /\ Ext P a a' /\ Q a') ->
  Inv a -> Q a -> exists a', each f l a = Some a' /\ Inv a' /\ Ext P a a' /\ Q a'.
Proof.
  induction l as [|x l IH]; intros a Hf I HQ.
  { exists a. split_and!; [done..|apply Ext_refl|done]. }
  cbn [each]. destruct (Hf x a) as (a1 & -> & I1 & X1 & Q1); [by left|done..|].
  cbn [mbind option_bind]. destruct (IH a1) as (a2 & E & I2 & X2 & Q2); try done.
  { intros y b Hy. apply Hf. by right. }
  exists a2. split_and!; try done. by eapply Ext_trans.
Qed.

(** ** Routes *)

Lemma setPeerSink_routes id (s : option ref) b dst r :
  Tun.routes (router (setPeerSink id s b)) !! dst = Some r ->
  (s = Some r /\ Tun.Is4 dst = true /\ ipByPeer b !! id = Some dst) \/
  (Tun.routes (router b) !! dst = Some r /\
   (Tun.Is4 dst = true -> s = None -> ipByPeer b !! id <> Some dst)).
Proof.
  unfold setPeerSink, Tun.SetRoute. destruct (Tun.Is4 _) eqn:E4; cbn [negb].
  2:{ intros H. right. split; [done|]. intros H4 _ Hip. rewrite Hip in E4. cbn in E4. congruence. }
  assert (Hip : ipByPeer b !! id = Some (default Tun.NoAddr (ipByPeer b !! id)))
    by (destruct (ipByPeer b !! id); [done|by cbn in E4]).
  set (d := default _ _) in *. destruct s as [s|]; cbn; intros H.
  - apply lookup_insert_Some in H as [[<- <-]|[Hne H]]; [by left|right]. split; [done|]. by intros _ [=].
  - apply lookup_delete_Some in H as [Hne H]. right. split; [done|]. congruence.
Qed.

Lemma Inv_sink id (s : option ref) a :
  (forall r, s = Some r -> peers a !! id = Some r) -> Inv a ->
  Inv (sink id s a) /\ forall P, Ext P a (sink id s a).
Proof.
  intros Hs I. split; [|intros P; by apply Ext_heap].
  constructor; try apply I. intros b dst r Hb Hr. cbn in Hb.
  destruct (bridge a) as [b0|] eqn:E; [|done]. injection Hb as <-.
  change (ipByPeer (setPeerSink id s b0)) with (ipByPeer b0).
  apply setPeerSink_routes in Hr as [(-> & H4 & Hip)|[Hr _]].
  - split; [done|]. exists id. split; [by apply Hs|done].
  - exact (inv_routes _ I b0 dst r E Hr).
Qed.

(** ** The peer list *)

Lemma track_Good info a :
  Inv a ->
  Good1 (fun id k => id = pi_ID info /\ ParsePublicKeyHex (pi_PubKey info) = Ok k) a
    (track other info a).
Proof.
  intros I. unfold track. case_bool_decide as Hme; [by apply Good1_same|].
  destruct (peers a !! pi_ID info) as [r|] eqn:Hr.
  { destruct (firstEndpoint other info); [|by apply Good1_same].
    apply Good_Good1, on_peer_Good; [done|]. destruct (inv_peers _ I _ _ Hr) as (_ & n & Hn & _). by exists n. }
  destruct (ParsePublicKeyHex (pi_PubKey info)) as [key|] eqn:Ek; [|by apply Good1_same].
  assert (Hfresh : heap a !! next a = None).
  { destruct (heap a !! next a) as [n|] eqn:E; [|done]. apply (inv_heap _ I) in E as [_ E]. lia. }
  set (np := PeerSession.New _ _ _ _ _). set (a1 := a <| next := _ |> <| heap := _ |> <| peers := _ |> <| peerCancel := _ |>).
  assert (I1 : Inv a1).
  { destruct I as [Ih Ip Ic Ir Ii If Iw Ig]. constructor; unfold a1; cbn.
    - intros r n H. apply lookup_insert_Some in H as [[<- <-]|[_ H]]; [|destruct (Ih _ _ H); split; [done|lia]].
      split; [apply PeerSafety.Inv_New|lia].
    - intros id r H. apply lookup_insert_Some in H as [[<- <-]|[Hne H]].
      + split; [done|]. exists (PeerSession.MkNode np PeerSession.NotStarted). by rewrite lookup_insert_eq.
      + destruct (Ip id r H) as (? & n & Hn & ?). split; [done|]. exists n.
        rewrite lookup_insert_ne; [done|]. intros <-. congruence.
    - intros id c H. apply lookup_insert_Some in H as [[<- <-]|[Hne H]]; [by rewrite lookup_insert_eq|].
      rewrite lookup_insert_ne by done. by apply Ic.
    - intros b dst r Hb H. destruct (Ir b dst r Hb H) as (H4 & id & Hid & Hip). split; [done|].
      exists id. split; [|done]. rewrite lookup_insert_ne; [done|]. intros <-. congruence.
    - intros r p H. apply lookup_insert_is_Some'. right. by eapply Ii.
    - intros i id r H. apply lookup_insert_is_Some'. right. by eapply If.
    - exact Iw.
    - apply (PingInv_heap (heap a)); [|done]. intros r H. apply lookup_insert_is_Some'. by right. }
  destruct (Inv_sink (pi_ID info) (Some (next a)) a1) as [I2 X2]; [|done|].
  { intros r [= <-]. unfold a1. cbn. apply lookup_insert_eq. }
  eexists. split; [done|]. split; [exact I2|]. eapply Ext_trans; [|apply X2].
  constructor; try done; unfold a1; cbn.
  - intros r n H. exists n. rewrite lookup_insert_ne; [done|]. intros <-. congruence.
  - intros r n' H1 H2. apply lookup_insert_Some in H1 as [[<- <-]|[_ H1]]; [|congruence].
    split; [done|]. cbn. exact eq_refl.
Qed.

Lemma Inv_delete id a :
  Inv a -> peerCancel a !! id = None ->
  (forall b dst r, bridge a = Some b -> Tun.routes (router b) !! dst = Some r ->
     ipByPeer b !! id <> Some dst) ->
  Inv (a <| peers := delete id (peers a) |>).
Proof.
  intros [Ih Ip Ic Ir Ii If Iw Ig] Hc Hr. constructor; cbn; try done.
  - intros id' r H. apply lookup_delete_Some in H as [_ H]. by apply Ip.
  - intros id' c H. rewrite lookup_delete_ne; [by apply Ic|]. intros <-. congruence.
  - intros b dst r Hb H. destruct (Ir b dst r Hb H) as (H4 & id' & Hid & Hip). split; [done|].
    exists id'. split; [|done]. rewrite lookup_delete_ne; [done|]. intros <-. by apply (Hr b dst r).
Qed.

(** The context of a dropped peer is cancelled. *)
Definition cancel_peer (id : string) a : Agent L :=
  match peerCancel a !! id with
  | Some c => a <| cancelled := {[c]} ∪ cancelled a |> <| peerCancel := delete id (peerCancel a) |>
  | None => a
  end.

Lemma cancel_peer_Inv id a :
  Inv a -> Inv (cancel_peer id a) /\ peerCancel (cancel_peer id a) !! id = None /\
    (forall P, Ext P a (cancel_peer id a)) /\ heap (cancel_peer id a) = heap a /\
    peers (cancel_peer id a) = peers a /\ bridge (cancel_peer id a) = bridge a.
Proof.
  intros [Ih Ip Ic Ir Ii If Iw Ig]. unfold cancel_peer. destruct (peerCancel a !! id) as [c|] eqn:E.
  - split_and!; try done; [|cbn; apply lookup_delete_eq|by intros P; apply Ext_heap].
    constructor; cbn; try done. intros id' c' H. apply lookup_delete_Some in H as [_ H]. by apply Ic.
  - split_and!; try done. intros P. apply Ext_refl.
Qed.

Lemma untrack_Good P seen id r a :
  Inv a -> peers a !! id = Some r ->
  exists a', untrack seen (id, r) a = Some a' /\ Inv a' /\ Ext P a a' /\
    peers a' = (if bool_decide (id ∈ seen) then peers a else delete id (peers a)) /\
    (forall r', (r' = r -> id ∈ seen) -> heap a' !! r' = heap a !! r') /\
    (id ∉ seen -> exists n, heap a' !! r = Some n /\ PeerSession.closed (PeerSession.peer n) = true /\
                    PeerSession.done_ (PeerSession.peer n) = true).
Proof.
  intros I Hr. unfold untrack. case_bool_decide as Hs.
  { exists a. split_and!; try done. apply Ext_refl. }
  destruct (Inv_sink id None a) as [I1 X1]; [done|done|]. set (a1 := sink id None a) in *.
  destruct (cancel_peer_Inv id a1 I1) as (I2 & Hc & X2 & Hh & Hp & Hb).
  fold (cancel_peer id a1). set (a2 := cancel_peer id a1) in *.
  destruct (inv_peers _ I id r Hr) as (_ & n & Hn & _).
  assert (Hn2 : heap a2 !! r = Some n) by (rewrite Hh; exact Hn).
  destruct (on_peer_Inv a2 r n PeerSession.EvClose I2 Hn2) as (n' & os & En & E & _ & I3 & X3).
  rewrite E. cbn [mbind option_bind]. eexists. split; [done|]. split; [|split; [|split; [|split]]].
  - apply Inv_delete; [exact I3|exact Hc|].
    intros b dst r' Hb' H. change (bridge a2 = Some b) in Hb'. rewrite Hb in Hb'. cbn in Hb'.
    destruct (bridge a) as [b0|] eqn:Eb; [|done]. injection Hb' as <-.
    pose proof H as H'. apply (inv_routes _ I1 (setPeerSink id None b0)) in H' as [H4 _];
      [|unfold a1, sink; cbn; by rewrite Eb].
    apply setPeerSink_routes in H as [([=] & _)|[_ H]]. by apply H.
  - eapply Ext_trans; [apply X1|]. eapply Ext_trans; [apply X2|].
    eapply Ext_trans; [apply X3|]. by apply Ext_heap.
  - cbn. by rewrite Hp.
  - intros r' Hne. cbn. rewrite lookup_insert_ne by (intros <-; by apply Hs, Hne). by rewrite Hh.
  - intros _. exists n'. cbn. rewrite lookup_insert_eq. cbn in En. injection En as <- _. done.
Qed.

Lemma tracked_inj id id' (r : ref) a :
  Inv a -> peers a !! id = Some r -> peers a !! id' = Some r -> id = id'.
Proof.
  intros I H1 H2. destruct (inv_peers _ I id r H1) as (_ & n & Hn & <-).
  destruct (inv_peers _ I id' r H2) as (_ & n' & Hn' & <-). congruence.
Qed.

(** The whole loop over a list of tracked peers. *)
Lemma untrack_each P seen l : forall a,
  Inv a -> NoDup l.*1 -> (forall id r, (id, r) ∈ l -> peers a !! id = Some r) ->
  exists a', each (untrack seen) l a = Some a' /\ Inv a' /\ Ext P a a' /\
    (forall id, peers a' !! id = if bool_decide (id ∈ l.*1) && negb (bool_decide (id ∈ seen))
                                then None else peers a !! id) /\
    (forall r', (forall id, (id, r') ∈ l -> id ∈ seen) -> heap a' !! r' = heap a !! r') /\
    (forall id r', (id, r') ∈ l -> id ∉ seen ->
       exists n, heap a' !! r' = Some n /\ PeerSession.closed (PeerSession.peer n) = true /\
         PeerSession.done_ (PeerSession.peer n) = true).
Proof.
  induction l as [|[id r] l IH]; intros a I Hnd Hin.
  { exists a. split_and!; [done|done|apply Ext_refl|done|done|].
    intros id r' H. by apply not_elem_of_nil in H. }
  cbn [fmap list_fmap fst] in Hnd. apply list.NoDup_cons in Hnd as [Hid Hnd]. cbn [each].
  assert (Hr : peers a !! id = Some r) by (apply Hin; by left).
  destruct (untrack_Good P seen id r a I Hr) as (a1 & -> & I1 & X1 & Hp1 & Hh1 & Hc1).
  cbn [mbind option_bind].
  assert (Hne : forall id' r', (id', r') ∈ l -> id' <> id).
  { intros id' r' H ->. apply Hid. apply list_elem_of_fmap. by exists (id, r'). }
  destruct (IH a1) as (a2 & E & I2 & X2 & Hp2 & Hh2 & Hc2); [done|done| |].
  { intros id' r' H. rewrite Hp1. case_bool_decide; [apply Hin; by right|].
    rewrite lookup_delete_ne by (apply not_eq_sym; by eapply Hne). apply Hin. by right. }
  exists a2. split_and!; [done|done|by eapply Ext_trans| | |].
  - intros id'. rewrite Hp2, Hp1. cbn [fmap list_fmap fst].
    destruct (decide (id' = id)) as [->|Hn].
    + rewrite (bool_decide_eq_false_2 (id ∈ l.*1)) by done.
      rewrite (bool_decide_eq_true_2 (id ∈ id :: _)) by by left. cbn [andb].
      case_bool_decide; cbn [negb]; [done|apply lookup_delete_eq].
    + rewrite (bool_decide_ext (id' ∈ id :: l.*1) (id' ∈ l.*1)).
      2:{ rewrite elem_of_cons. split; [by intros [|]|by right]. }
      destruct (_ && _); [done|]. case_bool_decide; [done|]. by apply lookup_delete_ne.
  - intros r' Hseen. rewrite Hh2 by (intros id' H; apply Hseen; by right).
    apply Hh1. intros ->. apply Hseen. by left.
  - intros id' r' [[= -> ->]|H]%elem_of_cons Hns; [|by eapply Hc2].
    destruct (Hc1 Hns) as (n & Hn & Hc). exists n. split; [|done]. rewrite Hh2; [done|].
    intros id' H. exfalso. apply (Hne id' r H). eapply tracked_inj; [exact I| |exact Hr].
    apply Hin. by right.
Qed.

(** What the coordinator announced in a peer list. *)
Definition announced (infos : list PeerInfo) (id : string) (k : list byte) : Prop :=
  exists info, info ∈ infos /\ id = pi_ID info /\ ParsePublicKeyHex (pi_PubKey info) = Ok k.

Lemma tracked_perm now a :
  NoDup (ranged now (map_to_list (peers a))).*1 /\
  (forall id r, (id, r) ∈ ranged now (map_to_list (peers a)) <-> peers a !! id = Some r).
Proof.
  pose proof (ranged_perm _ now (map_to_list (peers a))) as Hp. split.
  - rewrite Hp. apply NoDup_fst_map_to_list.
  - intros id r. rewrite Hp. apply elem_of_map_to_list.
Qed.

Lemma applyPeers_Good now infos a : Inv a -> Good1 (announced infos) a (applyPeers other now infos a).
Proof.
  intros I. unfold applyPeers.
  destruct (Good1_each (announced infos) (track other) (fun _ => True) infos a) as (a1 & E1 & I1 & X1 & _);
    [|done|done|].
  { intros info b Hin Ib _. destruct (track_Good info b Ib) as (b' & Eb & Ib' & Xb).
    exists b'. split_and!; try done. eapply Ext_weaken; [|exact Xb].
    intros id k [-> Hk]. by exists info. }
  rewrite E1. cbn [mbind option_bind]. destruct (tracked_perm now a1) as [Hnd Hin].
  destruct (untrack_each (announced infos) (seen_of (Name (cfg a1)) infos) _ a1 I1 Hnd
              (fun id r => proj1 (Hin id r))) as (a2 & E2 & I2 & X2 & _).
  exists a2. split_and!; [exact E2|done|by eapply Ext_trans].
Qed.

(** ** Datagrams, payloads, the device, probes *)

Lemma demux_tracked now src frame a r f :
  demux now src frame a = Some (r, f) -> exists id, peers a !! id = Some r.
Proof.
  unfold demux. set (find := List.find _ _).
  assert (Hf : forall id r', find = Some (id, r') -> peers a !! id = Some r').
  { intros id r' H. apply List.find_some in H as [H _]. apply list_elem_of_In in H.
    by apply (tracked_perm now a). }
  assert (Hby : match find with Some (_, r') => Some (r', frame) | None => None end = Some (r, f) ->
            exists id, peers a !! id = Some r).
  { destruct find as [[id r']|]; [|done]. intros [= <- <-]. exists id. by apply Hf. }
  destruct (relay a) as [ra|]; [|exact Hby]. case_bool_decide; [|exact Hby].
  destruct (Relay.ParsePacket frame) as [[[rid ?] payload]|]; [|done].
  destruct (peers a !! rid) as [r'|] eqn:E; [|done]. cbn. intros [= <- <-]. by exists rid.
Qed.

Lemma tracked_heap a (id : string) (r : ref) : Inv a -> peers a !! id = Some r -> is_Some (heap a !! r).
Proof. intros I H. destruct (inv_peers _ I id r H) as (_ & n & Hn & _). by exists n. Qed.

Lemma receive_Good P now rnd src pkt a : Inv a -> Good P a (receive other now rnd src pkt a).
Proof.
  intros I. unfold receive. destruct (unwrap other src pkt a) as [[ext frame]|]; [|by apply Good_same].
  destruct (demux now ext frame a) as [[r f]|] eqn:E; [|by apply Good_same].
  apply demux_tracked in E as [id Hid]. apply on_peer_Good; [done|]. by eapply tracked_heap.
Qed.

Lemma take_payload_Good P (r : ref) a : Inv a -> is_Some (heap a !! r) -> Good P a (take_payload r a).
Proof.
  intros I [n Hn]. unfold take_payload. destruct (inhand a !! r) eqn:Eh; [by apply Good_same|].
  rewrite Hn. cbn [mbind option_bind].
  destruct (PeerSession.recvQ (PeerSession.peer n)) as [|payload ps]; [by apply Good_same|].
  set (a1 := a <| inhand := _ |>). assert (I1 : Inv a1).
  { destruct I as [Ih Ip Ic Ir Ii If Iw Ig]. constructor; unfold a1; cbn; try done.
    intros r' p H. apply lookup_insert_Some in H as [[<- _]|[_ H]]; [by exists n|by eapply Ii]. }
  destruct (on_peer_Good P a1 r PeerSession.EvRecv I1) as (a' & os & E & I' & X); [by exists n|].
  exists a', os. split_and!; try done. eapply Ext_trans; [|exact X]. by apply Ext_heap.
Qed.

(** A pending ping's waiter is forgotten. *)
Lemma Inv_forget seq a : Inv a -> Inv (a <| pingOut := delete seq (pingOut a) |>).
Proof.
  intros [Ih Ip Ic Ir Ii If Iw Ig]. constructor; cbn; try done.
  - intros s c H. apply lookup_delete_Some in H as [_ H]. by apply Iw.
  - by apply PingInv_delete.
Qed.

(** A pong is handed to a channel nobody is registered with any more. *)
Lemma Inv_signal c now a :
  Inv a -> (forall s, pingOut a !! s <> Some c) -> Inv (a <| chans := signal c now (chans a) |>).
Proof.
  intros [Ih Ip Ic Ir Ii If Iw [H1 H2 H3]] Hc. constructor; cbn; try done. constructor; [done| |done].
  intros s c' H. destruct (H2 s c' H) as [Hq Hn]. split; [|done]. unfold signal.
  destruct (chans a !! c) as [[|]|]; try done. rewrite lookup_insert_ne; [done|]. intros <-. by apply (Hc s).
Qed.

Lemma dispatchPing_Good P now r m a :
  Inv a -> is_Some (heap a !! r) -> Good P a (dispatchPing now r m a).
Proof.
  intros I Hr. unfold dispatchPing. case_bool_decide; [by apply on_peer_Good|].
  case_bool_decide; [|by apply Good_same].
  pose proof (Inv_forget (S_ m) a I) as I1.
  destruct (pingOut a !! S_ m) as [c|] eqn:E;
    (eexists _, _; split; [done|]; split; [|by apply Ext_heap]); [|exact I1].
  apply (Inv_signal c now (a <| pingOut := delete (S_ m) (pingOut a) |>) I1). cbn. intros s Hs.
  apply lookup_delete_Some in Hs as [Hne Hs]. by apply Hne, (pi_inj _ _ _ _ _ (inv_pings _ I) _ _ c).
Qed.

Lemma handle_payload_Good P now r a : Inv a -> Good P a (handle_payload now r a).
Proof.
  intros I. unfold handle_payload. destruct (inhand a !! r) as [payload|] eqn:E; [|by apply Good_same].
  assert (Hr : is_Some (heap a !! r)) by by eapply (inv_inhand _ I).
  set (a1 := a <| inhand := _ |>). assert (I1 : Inv a1).
  { destruct I as [Ih Ip Ic Ir Ii If Iw Ig]. constructor; unfold a1; cbn; try done.
    intros r' p H. apply lookup_delete_Some in H as [_ H]. by eapply Ii. }
  assert (Hx : Good P a1 (handlePeerPayload now r payload a1)).
  { unfold handlePeerPayload. destruct payload as [|b0 ps]; [by apply Good_same|].
    destruct (bridge a1); [destruct (if bool_decide _ then _ else _)|destruct (decodePingMsg _)];
      first [by apply dispatchPing_Good|by apply Good_same]. }
  destruct Hx as (a' & os & Ex & I' & X). exists a', os. split_and!; try done.
  eapply Ext_trans; [|exact X]. by apply Ext_heap.
Qed.

Lemma peerSend_Inv now wrote (r : ref) pkt a outs :
  Inv a -> is_Some (heap a !! r) ->
  exists ok a' outs', peerSend now wrote r pkt (a, outs) = Some (ok, (a', outs')) /\
    Inv a' /\ (forall P, Ext P a a') /\ peers a' = peers a /\ bridge a' = bridge a /\
    probes a' = probes a /\ pingOut a' = pingOut a /\ pings a' = pings a /\
    (forall r', is_Some (heap a !! r') -> is_Some (heap a' !! r')).
Proof.
  intros I [n Hn]. unfold peerSend. rewrite Hn. cbn [mbind option_bind].
  destruct (inv_heap _ I r n Hn) as [Hi _].
  destruct (PeerSafety.Send_Good (PeerSession.peer n) now pkt Hi) as (res & p' & -> & S).
  cbn [mbind option_bind].
  destruct (Inv_heap_upd a r n (PeerSession.MkNode p' (PeerSession.pc n)) I Hn S) as [I' X].
  set (a' := a <| heap := _ |>) in *.
  assert (Hd : exists ok outs', match res with
             | Ok o => match emit a' o with Ok x => Some (wrote, (a', outs ++ [x])) | Err _ => Some (false, (a', outs)) end
             | Err _ => Some (false, (a', outs)) end = Some (ok, (a', outs'))).
  { destruct res as [o|]; [destruct (emit a' o)|]; eauto. }
  destruct Hd as (ok & outs' & Hd). exists ok, a', outs'. split_and!; try done.
  intros r' H. apply lookup_insert_is_Some'. by right.
Qed.

Lemma from_device_Good P now wrote pkt a : Inv a -> Good P a (from_device now wrote pkt a).
Proof.
  intros I. unfold from_device. destruct (bridge a) as [b|] eqn:Eb; [|by apply Good_same].
  destruct pkt as [|b0 ps] eqn:Epkt; [by apply Good_same|]. rewrite <- Epkt. clear Epkt.
  destruct (Tun.RoutePacket_keeps (peerSend now wrote)
              (fun w => Inv w.1 /\ Ext P a w.1 /\ bridge w.1 = bridge a) pkt (router b) (a, []))
    as (ok & rt & [a' outs] & E & Hr & I' & X & Hb).
  - intros src dst r _ Hrt. destruct (inv_routes _ I b dst r Eb Hrt) as (_ & id & Hid & _).
    destruct (peerSend_Inv now wrote r pkt a [] I (tracked_heap _ _ _ I Hid))
      as (ok & a' & outs' & -> & I' & X & _ & Hb & _).
    eexists _, _. split; [done|]. by split_and!.
  - split_and!; [done|apply Ext_refl|done].
  - rewrite E. cbn [mbind option_bind]. cbn [fst] in *. eexists _, _. split; [done|].
    split; [|eapply Ext_trans; [exact X|by apply Ext_heap]].
    destruct I' as [Ih Ip Ic Ir Ii If Iw Ig]. constructor; cbn; try done.
    intros b1 dst r Hb1 Hrt. rewrite Hb, Eb in Hb1. injection Hb1 as <-.
    cbn in Hrt. rewrite Hr in Hrt. apply (Ir b dst r); [congruence|done].
Qed.

Lemma open_bridge_Good P now mtu a :
  Inv a -> Inv (open_bridge parse now mtu a) /\ Ext P a (open_bridge parse now mtu a).
Proof.
  intros I. unfold open_bridge. destruct (bridge a) as [|] eqn:Eb; [split; [done|apply Ext_refl]|].
  destruct (newTunBridge parse mtu (cfg a)) as [[b|]|] eqn:En; try (split; [done|apply Ext_refl]).
  split; [|by apply Ext_heap].
  assert (Hb : Tun.routes (router b) = ∅).
  { unfold newTunBridge in En. repeat (destr_in En; try done). by injection En as <-. }
  destruct (tracked_perm now a) as [_ Hin].
  assert (Hfold : forall l b, (forall id r, (id, r) ∈ l -> peers a !! id = Some r) ->
            (forall dst r, Tun.routes (router b) !! dst = Some r ->
               Tun.Is4 dst = true /\ exists id, peers a !! id = Some r /\ ipByPeer b !! id = Some dst) ->
            forall dst r, Tun.routes (router (fold_left (fun b ir => setPeerSink ir.1 (Some ir.2) b) l b)) !! dst = Some r ->
              Tun.Is4 dst = true /\ exists id, peers a !! id = Some r /\
                ipByPeer (fold_left (fun b ir => setPeerSink ir.1 (Some ir.2) b) l b) !! id = Some dst).
  { induction l as [|[id r] l IH]; intros b0 Hl H0; [exact H0|]. cbn [fold_left fst snd]. apply IH.
    - intros id' r' H. apply Hl. by right.
    - intros dst r' H. change (ipByPeer (setPeerSink id (Some r) b0)) with (ipByPeer b0).
      apply setPeerSink_routes in H as [([= ->] & H4 & Hip)|[H _]]; [|by apply H0].
      split; [done|]. exists id. split; [|done]. apply Hl. by left. }
  destruct I as [Ih Ip Ic Ir Ii If Iw Ig]. constructor; cbn; try done.
  intros b1 dst r [= <-]. apply Hfold; [intros id r'; apply Hin|].
  intros dst' r'. rewrite Hb, lookup_empty. done.
Qed.

(** Probes: only their own bookkeeping changes. *)
Lemma Inv_probes a i pr :
  Inv a ->
  (forall id seq ts c, probes a !! i = Some (Waiting id seq ts c) -> pingOut a !! seq <> Some c) ->
  (forall id r, pr = Some (Found id r) \/ pr = Some (Ready id r) -> is_Some (heap a !! r)) ->
  Inv (a <| probes := partial_alter (fun _ => pr) i (probes a) |>).
Proof.
  intros [Ih Ip Ic Ir Ii If Iw Ig] Hnw Hpr. constructor; cbn; try done.
  - intros i' id r H. destruct (decide (i = i')) as [<-|Hne].
    + rewrite lookup_partial_alter_eq in H. by eapply Hpr.
    + rewrite lookup_partial_alter_ne in H by done. by eapply If.
  - intros seq c H. destruct (Iw seq c H) as [(i' & id & ts & H')|]; [|by right].
    left. exists i', id, ts. cbn. rewrite lookup_partial_alter_ne; [done|].
    intros <-. by apply (Hnw id seq ts c).
Qed.

(** The same for the [Ping] calls. *)
Lemma Inv_set_pos a j g p :
  Inv a -> pings a !! j = Some g ->
  (forall x seq ts c, pos g = PingWaiting x seq ts c -> pingOut a !! seq <> Some c) ->
  (forall r, ping_ref p = Some r -> is_Some (heap a !! r)) -> Inv (set_pos j g p a).
Proof.
  intros [Ih Ip Ic Ir Ii If Iw Ig] Hg Hnw Hp. constructor; cbn; try done.
  - intros seq c H. destruct (Iw seq c H) as [|(j' & g' & x & ts & H' & E)]; [by left|].
    right. exists j', g', x, ts. split; [|done]. cbn. rewrite lookup_insert_ne; [done|].
    intros <-. rewrite Hg in H'. injection H' as <-. by apply (Hnw x seq ts c).
  - destruct Ig as [H1 H2 H3]. constructor; [|done|done].
    intros j' g' r H. apply lookup_insert_Some in H as [[<- <-]|[_ H]]; [apply Hp|by apply (H1 j')].
Qed.

(** A taken pong leaves its channel empty. *)
Lemma Inv_take c a : Inv a -> Inv (a <| chans := <[c := None]> (chans a) |>).
Proof.
  intros [Ih Ip Ic Ir Ii If Iw [H1 H2 H3]]. constructor; cbn; try done. constructor; [done| |done].
  intros s c' H. destruct (H2 s c' H) as [Hq Hn]. split; [|done].
  destruct (decide (c = c')) as [<-|Hne]; [apply lookup_insert_eq|by rewrite lookup_insert_ne].
Qed.

(** A registered channel holds nothing. *)
Lemma quiet_channel a seq c t : Inv a -> chans a !! c = Some (Some t) -> pingOut a !! seq <> Some c.
Proof. intros I H E. apply (pi_quiet _ _ _ _ _ (inv_pings _ I)) in E as [E _]. congruence. Qed.

(** A call registers its waiter, and waits. *)
Lemma await_pong_Inv seq a a' :
  Inv a -> let '(c, b) := await_pong seq a in
  heap a' = heap b -> peers a' = peers b -> cfg a' = cfg b -> next a' = next b ->
  peerCancel a' = peerCancel b -> bridge a' = bridge b -> inhand a' = inhand b ->
  pingOut a' = pingOut b -> chans a' = chans b -> nextChan a' = nextChan b ->
  waits a' seq c -> (forall s c', waits a s c' -> waits a' s c') ->
  (forall i id r, probes a' !! i = Some (Found id r) \/ probes a' !! i = Some (Ready id r) ->
     probes a !! i = Some (Found id r) \/ probes a !! i = Some (Ready id r)) ->
  (forall j g r, pings a' !! j = Some g -> ping_ref (pos g) = Some r -> is_Some (heap a !! r)) ->
  Inv a'.
Proof.
  intros [Ih Ip Ic Ir Ii If Iw [H1 H2 H3]]. unfold await_pong. cbn.
  intros Eh Ep Ec En Epc Eb Ei Epo Ecs Enc Hw Hold Hf Hr. constructor; rewrite ?Eh, ?Ep, ?Ec, ?En, ?Epc, ?Eb, ?Ei; try done.
  - intros i id r H. by apply (If i id r), Hf.
  - rewrite Epo. intros s c H. apply lookup_insert_Some in H as [[<- <-]|[_ H]]; [done|].
    by apply Hold, Iw.
  - rewrite Epo, Ecs, Enc. constructor; [done| |].
    + intros s c H. apply lookup_insert_Some in H as [[<- <-]|[_ H]].
      * split; [apply lookup_insert_eq|lia].
      * destruct (H2 s c H) as [Hq Hn]. split; [|lia]. by rewrite lookup_insert_ne by lia.
    + intros s s' c H H'. apply lookup_insert_Some in H as [[<- <-]|[Hs H]], H' as [[<- E']|[Hs' H']]; try done.
      * apply H2 in H' as [_ ?]. lia.
      * subst. apply H2 in H as [_ ?]. lia.
      * by apply (H3 s s' c).
Qed.

Lemma probe_start_Inv i id a : Inv a -> Inv (probe_start i id a).
Proof.
  intros I. unfold probe_start. destruct (probes a !! i) eqn:E; [done|].
  destruct (peers a !! id) as [r|] eqn:Er; [|done].
  apply (Inv_probes a i (Some (Found id r)) I); [by rewrite E|].
  intros id' r' [[= <- <-]|]; [|done]. by eapply tracked_heap.
Qed.

Lemma probe_wait_Good P i ctx a : Inv a -> Good1 P a (probe_wait i ctx a).
Proof.
  intros I. unfold probe_wait. destruct (probes a !! i) as [[id r| | |]|] eqn:E; try by apply Good1_same.
  assert (Hr : is_Some (heap a !! r)) by (apply (inv_found _ I i id); by left). pose proof Hr as [n Hn].
  rewrite Hn. cbn [mbind option_bind]. destruct (PeerSession.WaitEstablished _ ctx) as [[|]|];
    [| |by apply Good1_same]; (eexists; split; [done|]; split; [|by apply Ext_heap]).
  - apply (Inv_probes a i (Some (Ready id r)) I); [by rewrite E|]. intros id' r' [|[= <- <-]]; done.
  - apply (Inv_probes a i None I); [by rewrite E|]. by intros id' r' [|].
Qed.

Lemma probe_send_Good P i t1 t2 now wrote a : Inv a -> Good P a (probe_send i t1 t2 now wrote a).
Proof.
  intros I. unfold probe_send. destruct (probes a !! i) as [[|id r| |]|] eqn:E; try by apply Good_same.
  destruct (peerSend_Inv now wrote r (MarshalPing (MkPing "ping" (u64 (UnixNano t1)) (UnixNano t2))) a []
              I (inv_found _ I i id r (or_intror E))) as (ok & a' & outs & -> & I' & X & _ & _ & Hp & _).
  cbn [mbind option_bind]. eexists _, _. split; [done|].
  split; [|eapply Ext_trans; [apply X|by apply Ext_heap]].
  rewrite <- Hp in E. destruct ok.
  - apply (Inv_probes a' i (Some (Sent id (u64 (UnixNano t1)) (UnixNano t2))) I'); [by rewrite E|].
    by intros id' r' [|].
  - apply (Inv_probes a' i None I'); [by rewrite E|]. by intros id' r' [|].
Qed.

Lemma probe_register_Inv i a : Inv a -> Inv (probe_register i a).
Proof.
  intros I. unfold probe_register. destruct (probes a !! i) as [[| |id seq ts|]|] eqn:E; try done.
  apply (await_pong_Inv seq a _ I); try done; unfold waits; cbn.
  - left. exists i, id, ts. apply lookup_insert_eq.
  - intros s c [(i' & id' & ts' & H)|]; [|by right]. left. exists i', id', ts'.
    rewrite lookup_insert_ne; [done|]. intros <-. congruence.
  - intros i' id' r [H|H]; apply lookup_insert_Some in H as [[_ ?]|[_ H]]; (done || by eauto).
  - intros j g r. by apply (pi_ref _ _ _ _ _ (inv_pings _ I)).
Qed.

Lemma probe_finish_Inv i g a : Inv a -> Inv (probe_finish i g a).
Proof.
  intros I. unfold probe_finish. destruct (probes a !! i) as [[| | |id seq ts c]|] eqn:E; try done.
  assert (Hd : Inv (dropPing seq a <| probes := delete i (probes a) |>)).
  { apply (Inv_probes (dropPing seq a) i None); [by apply Inv_forget| |by intros id' r' [|]].
    cbn. rewrite E. intros id' seq' ts' c' [= <- <- <- <-]. by rewrite lookup_delete_eq. }
  destruct g; [exact Hd|]. destruct (chans a !! c) as [[got|]|]; try done.
  pose proof (Inv_take c _ Hd) as [Ih Ip Ic Ir Ii If Iw Ig]. by constructor.
Qed.

(** [Ping] calls. *)
Lemma ping_start_Inv j t k d a : Inv a -> Inv (ping_start j t k d a).
Proof.
  intros [Ih Ip Ic Ir Ii If Iw [H1 H2 H3]]. unfold ping_start.
  destruct (pings a !! j) eqn:E; [by constructor|]. constructor; cbn; try done.
  - intros seq c H. destruct (Iw seq c H) as [|(j' & g' & x & ts & H' & E')]; [by left|].
    right. exists j', g', x, ts. split; [|done]. cbn. rewrite lookup_insert_ne; [done|]. congruence.
  - constructor; [|done|done]. intros j' g r H. apply lookup_insert_Some in H as [[_ <-]|[_ H]]; [done|].
    by apply (H1 j').
Qed.

Lemma ping_step_Good P j br t1 t2 now wrote a :
  Inv a -> Good P a (ping_step j br t1 t2 now wrote a).
Proof.
  intros I. unfold ping_step. destruct (pings a !! j) as [g|] eqn:Eg; [|by apply Good_same].
  assert (Hset : forall p, (forall x seq ts c, pos g <> PingWaiting x seq ts c) ->
            (forall r, ping_ref p = Some r -> is_Some (heap a !! r)) -> Good P a (Some (set_pos j g p a, []))).
  { intros p Hp Hr. eexists _, _. split; [done|]. split; [|by apply Ext_heap].
    apply Inv_set_pos; [done..| |done]. intros x seq ts c E. by apply Hp in E. }
  assert (Hrd : forall r, ping_ref (pos g) = Some r -> is_Some (heap a !! r)).
  { intros r. by apply (pi_ref _ _ _ _ _ (inv_pings _ I) j g). }
  destruct (pos g) as [| |r|x|x seq ts|x seq ts c|x|res err] eqn:Ep.
  - destruct (WaitPeers _ a) as [[]|]; [by apply Hset..|by apply Good_same].
  - apply Hset; [done|]. destruct (peers a !! target g) as [r|] eqn:Er; [|done].
    intros r' [= <-]. by eapply tracked_heap.
  - destruct (Hrd r eq_refl) as [n Hn]. rewrite Hn. cbn [mbind option_bind].
    destruct (PeerSession.WaitEstablished _ _) as [[[]|e]|]; [|by apply Hset|by apply Good_same].
    apply Hset; [done|]. intros r' [= <-]. by exists n.
  - destruct (Hrd (g_peer x) eq_refl) as [n Hn]. destruct (g_i x <? count g).
    + destruct (peerSend_Inv now wrote (g_peer x) (MarshalPing (MkPing "ping" (u64 (UnixNano t1)) (UnixNano t2)))
                  a [] I (Hrd (g_peer x) eq_refl))
        as (ok & a' & outs & -> & I' & X & _ & _ & _ & _ & Hg & Hr). cbn [mbind option_bind].
      eexists _, _. split; [done|]. split; [|eapply Ext_trans; [apply X|by apply Ext_heap]].
      rewrite <- Hg in Eg. apply Inv_set_pos; [done..| |].
      * intros x' seq ts c E. congruence.
      * intros r [= <-]. by apply Hr, (Hrd (g_peer x)).
    + rewrite Hn. cbn [mbind option_bind]. by apply Hset.
  - eexists _, _. split; [done|]. split; [|by apply Ext_heap].
    apply (await_pong_Inv seq a _ I); try done; unfold waits; cbn.
    + right. eexists j, _, x, ts. split; [apply lookup_insert_eq|done].
    + intros s c [|(j' & g' & x' & ts' & H & E)]; [by left|]. right. exists j', g', x', ts'.
      split; [|done]. rewrite lookup_insert_ne; [done|]. congruence.
    + intros j' g' r H. apply lookup_insert_Some in H as [[_ <-]|[_ H]]; [apply Hrd|].
      by apply (pi_ref _ _ _ _ _ (inv_pings _ I) j').
  - assert (Hfin : forall p b, Inv b -> pings b = pings a -> heap b = heap a -> cfg b = cfg a -> kp b = kp a ->
              door b = door a -> relay b = relay a -> pingOut b !! seq <> Some c ->
              (forall r, ping_ref p = Some r -> r = g_peer x) -> Good P a (Some (set_pos j g p b, []))).
    { intros p b Ib E1 E2 E3 E4 E5 E6 Hq Hp. eexists _, _. split; [done|]. split; [|by apply Ext_heap].
      apply Inv_set_pos; [done|by rewrite E1| |].
      - intros x' seq' ts' c' E. rewrite Ep in E. by injection E as <- <- <- <-.
      - intros r ->%Hp. rewrite E2. by apply Hrd. }
    assert (Hnext : forall y, g_peer y = g_peer x ->
              forall r, ping_ref (next_round g y) = Some r -> r = g_peer x).
    { intros y Hy r. unfold next_round. destruct (_ && _); intros [= <-]; done. }
    assert (Hd : pingOut (dropPing seq a) !! seq <> Some c) by (cbn; by rewrite lookup_delete_eq).
    destruct br.
    + destruct (chans a !! c) as [[got|]|] eqn:Ec; [|by apply Good_same..].
      apply Hfin; [by apply Inv_take|done..|exact (quiet_channel a seq c got I Ec)|by apply Hnext].
    + apply Hfin; [by apply Inv_forget|done..|by apply Hnext].
    + apply Hfin; [by apply Inv_forget|done..].
  - destruct (Hrd (g_peer x) eq_refl) as [n Hn].
    destruct br; [by apply Good_same|by apply Hset|]. rewrite Hn. by apply Hset.
  - by apply Good_same.
Qed.

Lemma probe_finish_Ext P i g a : Ext P a (probe_finish i g a).
Proof.
  unfold probe_finish. repeat destr; by apply Ext_heap.
Qed.

(** ** Steps and runs *)

Lemma Close_Good P now a : Inv a -> Good1 P a (Close now a).
Proof.
  intros I. unfold Close. destruct (closed a); [by apply Good1_same|].
  set (a1 := a <| closed := true |> <| bridge := _ |> <| cancelled := _ |> <| peerCancel := _ |>).
  assert (I1 : Inv a1).
  { destruct I as [Ih Ip Ic Ir Ii If Iw Ig]. constructor; unfold a1; cbn; try done.
    intros b dst r Hb. destruct (bridge a) as [b0|]; [|done]. injection Hb as <-.
    exact (Ir b0 dst r eq_refl). }
  destruct (tracked_perm now a) as [_ Hin].
  destruct (Good1_each P close_peer (fun b => forall id r, peers a !! id = Some r -> is_Some (heap b !! r))
              (ranged now (map_to_list (peers a))) a1) as (a2 & E & I2 & X2 & _).
  - intros [id r] b Hx Ib Hq. apply Hin in Hx.
    destruct (on_peer_Good P b r PeerSession.EvClose Ib (Hq id r Hx)) as (b' & os & E & Ib' & X).
    unfold close_peer. cbn [snd]. rewrite E. exists b'. split_and!; try done.
    intros id' r' H'. destruct (Hq id' r' H') as [n Hn]. destruct (ext_old _ _ _ X r' n Hn) as (n' & ? & _).
    by exists n'.
  - exact I1.
  - intros id r H. by apply (tracked_heap a id r).
  - exists a2. split_and!; [exact E|done|]. apply (Ext_trans P a a1 a2); [by apply Ext_heap|exact X2].
Qed.

(** The keys an event announces. *)
Definition announces (e : event) (id : string) (k : list byte) : Prop :=
  match e with
  | EvControl _ plain =>
      exists msg, DecodeLine plain = Ok msg /\ Type_ msg = TypePeerList /\
        announced (elems (Peers msg)) id k
  | _ => False
  end.

Lemma quietly_Good P a x : Good1 P a x -> Good P a (quietly x).
Proof. intros (a' & -> & I & X). exists a', []. by split_and!. Qed.

Lemma at_peer_Good P (r : ref) e a : Inv a -> Good P a (at_peer r e a).
Proof.
  intros I. unfold at_peer. destruct (heap a !! r) eqn:E; [|by apply Good_same].
  apply on_peer_Good; [done|by eexists].
Qed.

Lemma Good_quiet P a a' : Inv a' -> Ext P a a' -> Good P a (Some (a', [])).
Proof. intros. by exists a', []. Qed.

Lemma Inv_light a p q :
  Inv a -> Inv (a <| pub := p |> <| queryCh := q |>).
Proof. intros []. by constructor. Qed.

Lemma step_Good a e : Inv a -> Good (announces e) a (step other parse a e).
Proof.
  intros I. destruct e; cbn [step].
  - apply Good_quiet; [by apply (Inv_light a (Some ep) (queryCh a))|by apply Ext_heap].
  - by apply receive_Good.
  - apply quietly_Good. unfold control_message.
    destruct (DecodeLine plain) as [msg|] eqn:Ed; [|by apply Good1_same].
    case_bool_decide as Ht.
    { destruct (applyPeers_Good now (elems (Peers msg)) a I) as (a' & E & I' & X').
      exists a'. split_and!; try done. eapply Ext_weaken; [|exact X'].
      intros id k Hk. by exists msg. }
    case_bool_decide; [|by apply Good1_same]. eexists. split; [done|].
    destruct (queryCh a); [by split; [|apply Ext_refl]|].
    split; [by apply (Inv_light a (pub a) (Some msg))|by apply Ext_heap].
  - by apply at_peer_Good.
  - destruct (_ || _); [by apply at_peer_Good|by apply Good_same].
  - destruct (heap a !! r) eqn:E; [|by apply Good_same]. apply take_payload_Good; [done|by eexists].
  - by apply handle_payload_Good.
  - by apply from_device_Good.
  - destruct (open_bridge_Good (announces (EvBridge now mtu)) now mtu a I). by apply Good_quiet.
  - apply Good_quiet; [by apply probe_start_Inv|].
    unfold probe_start. repeat destr; by apply Ext_heap.
  - by apply quietly_Good, probe_wait_Good.
  - by apply probe_send_Good.
  - apply Good_quiet; [by apply probe_register_Inv|].
    unfold probe_register, await_pong. repeat destr; by apply Ext_heap.
  - apply Good_quiet; [by apply probe_finish_Inv|apply probe_finish_Ext].
  - apply Good_quiet; [by apply ping_start_Inv|].
    unfold ping_start. repeat destr; by apply Ext_heap.
  - by apply ping_step_Good.
  - apply Good_quiet; [by apply (Inv_light a (pub a) None)|by apply Ext_heap].
  - apply Good_quiet; unfold query_take; destruct (queryCh a); try done.
    + by apply (Inv_light a (pub a) None).
    + by apply Ext_heap.
    + apply Ext_refl.
  - by apply quietly_Good, Close_Good.
Qed.

Lemma run_Good es : forall a,
  Inv a -> Good (fun id k => exists e, e ∈ es /\ announces e id k) a (run other parse a es).
Proof.
  induction es as [|e es IH]; intros a I; cbn [run]; [by apply Good_same|].
  destruct (step_Good a e I) as (a1 & os1 & -> & I1 & X1). cbn [mbind option_bind].
  destruct (IH a1 I1) as (a2 & os2 & -> & I2 & X2). cbn [mbind option_bind].
  eexists _, _. split; [done|]. split; [done|]. eapply Ext_trans.
  - eapply Ext_weaken; [|exact X1]. intros id k Hk. exists e. split; [by left|done].
  - eapply Ext_weaken; [|exact X2]. intros id k (e' & Hin & Hk). exists e'. split; [by right|done].
Qed.

Lemma agent_New_Inv c k d r a : New other c k d r = Ok a -> Inv a /\ heap a = ∅.
Proof.
  unfold New. intros E. repeat (destr_in E; try done); apply Ok_inj in E as <-; (split; [|done]);
    constructor; cbn; lazymatch goal with |- PingInv _ _ _ _ _ => constructor | _ => idtac end;
    intros *; rewrite ?lookup_empty; first [done|by intros []].
Qed.

Lemma established_key (p : PeerSession.Peer L) :
  PeerSafety.Inv p -> PeerSession.Established p = true ->
  PeerSession.RemoteStatic p = Some (PeerSession.peerKey p).
Proof.
  intros [Hs _ _]. unfold PeerSafety.session_ok, PeerSession.Established, PeerSession.RemoteStatic,
    PeerSession.deref in *. destruct (PeerSession.sess p) as [q|]; [|congruence].
  destruct Hs as (_ & s & Hs & Hst). intros _. cbn. rewrite Hs. cbn. congruence.
Qed.

(** A tracked peer was announced, and a session with it has the key announced. *)
Lemma tracked_announced (c : Config) (k : Keypair) (natDoor relayAddr : string) (a0 a : Agent L)
    (es : list event) (os : list out) id r :
  New other c k natDoor relayAddr = Ok a0 -> run other parse a0 es = Some (a, os) ->
  peers a !! id = Some r ->
  exists n key, heap a !! r = Some n /\ PeerSession.ID (PeerSession.peer n) = id /\
    (exists now plain msg info, EvControl now plain ∈ es /\ DecodeLine plain = Ok msg /\
       Type_ msg = TypePeerList /\ info ∈ elems (Peers msg) /\ pi_ID info = id /\
       ParsePublicKeyHex (pi_PubKey info) = Ok key) /\
    (PeerSession.Established (PeerSession.peer n) = true ->
     PeerSession.RemoteStatic (PeerSession.peer n) = Some key).
Proof.
  intros Hnew Hrun Hr. destruct (agent_New_Inv _ _ _ _ _ Hnew) as [I0 Hh].
  destruct (run_Good es a0 I0) as (a' & os' & E & I & X'). assert (a' = a) as -> by congruence.
  destruct (inv_peers _ I id r Hr) as (_ & n & Hn & Hid).
  exists n, (pKey n). split_and!; [done|done| |].
  - destruct (ext_new _ _ _ X' r n Hn) as (e & Hin & Ha); [by rewrite Hh|].
    destruct e as [| |now plain| | | | | | | | | | | | | | | |]; try done.
    destruct Ha as (msg & Hd & Ht & info & Hi & Hpid & Hk).
    exists now, plain, msg, info. split_and!; try done. congruence.
  - apply established_key. by destruct (inv_heap _ I r n Hn).
Qed.

(** Only announced keys: whatever arrives on the data socket, the control connection
    and the TUN device, in any interleaving of the agent's goroutines, no step panics, and
    every session the agent holds with a peer was authenticated under a key that the
    coordinator announced for that peer's name in some peer list. *)
Theorem announced_keys (c : Config) (k : Keypair) (natDoor relayAddr : string) (a0 : Agent L)
    (es : list event) (Hnew : New other c k natDoor relayAddr = Ok a0) :
  exists a os, run other parse a0 es = Some (a, os) /\
    forall id r, peers a !! id = Some r ->
      exists n key, heap a !! r = Some n /\ PeerSession.ID (PeerSession.peer n) = id /\
        (exists now plain msg info, EvControl now plain ∈ es /\ DecodeLine plain = Ok msg /\
           Type_ msg = TypePeerList /\ info ∈ elems (Peers msg) /\ pi_ID info = id /\
           ParsePublicKeyHex (pi_PubKey info) = Ok key) /\
        (PeerSession.Established (PeerSession.peer n) = true ->
         PeerSession.RemoteStatic (PeerSession.peer n) = Some key).
Proof.
  destruct (agent_New_Inv _ _ _ _ _ Hnew) as [I0 Hh].
  destruct (run_Good es a0 I0) as (a & os & E & _). exists a, os. split; [exact E|].
  intros id r. by apply (tracked_announced c k natDoor relayAddr a0 a es os).
Qed.

(** [C19] The agent's tables are well formed in every reachable state: a peer is tracked
    under its own name, never under the agent's, and no two names share one; a route leads
    from a peer's own overlay address, an IPv4 address, to that peer; and a pending ping has
    a [ProbeRTT] or [Ping] call that is waiting for it right now, on a channel of its own
    that holds no pong yet. *)
Theorem agent_tables (c : Config) (k : Keypair) (natDoor relayAddr : string) (a0 a : Agent L)
    (es : list event) (os : list out) (Hnew : New other c k natDoor relayAddr = Ok a0)
    (Hrun : run other parse a0 es = Some (a, os)) :
  (forall id r, peers a !! id = Some r -> id <> Name c /\
     exists n, heap a !! r = Some n /\ PeerSession.ID (PeerSession.peer n) = id) /\
  (forall id id' r, peers a !! id = Some r -> peers a !! id' = Some r -> id = id') /\
  (forall b dst r, bridge a = Some b -> Tun.routes (router b) !! dst = Some r ->
     Tun.Is4 dst = true /\ exists id, peers a !! id = Some r /\ ipByPeer b !! id = Some dst) /\
  (forall seq ch, pingOut a !! seq = Some ch ->
     waits a seq ch /\ chans a !! ch = Some None /\
     forall seq', pingOut a !! seq' = Some ch -> seq' = seq).
Proof.
  destruct (agent_New_Inv _ _ _ _ _ Hnew) as [I0 _].
  destruct (run_Good es a0 I0) as (a' & os' & E & I & X'). assert (a' = a) as -> by congruence.
  assert (Hc : cfg a = c).
  { rewrite (ext_cfg _ _ _ X'). unfold New in Hnew. repeat (destr_in Hnew; try done);
      by apply Ok_inj in Hnew as <-. }
  split_and!; [| |apply I|].
  - intros id r Hr. rewrite <- Hc. by apply (inv_peers _ I).
  - intros id id' r. by apply tracked_inj.
  - intros seq ch H. split_and!; [by apply (inv_waiter _ I)|by apply (pi_quiet _ _ _ _ _ (inv_pings _ I) seq)|].
    intros seq' H'. by apply (pi_inj _ _ _ _ _ (inv_pings _ I) seq' seq ch).
Qed.
End Safety.
