(* ===== verification/AgentPeers.v ===== *)
(** * Peer lists (src/internal/agent/agent.go)

    What the tracked peers are after a peer list of the coordinator. *)

From S2P Require Import Prelude GoBytes GoRuntime GoNet Disco NoiseLib Noisework Protocol.
From S2P Require Import Agent AgentSafety.
From S2P Require PeerSession PeerSafety Tun Nat Relay.

Section Peers.
Context {L : NoiseLib} {W : NoiseLaws L} {XX : XXLaws L} {J : Json} {PJ : PingJson} {RO : RangeOrder}.
Context (other : string -> option UDPAddr) (parse : string -> option Tun.Addr).
Implicit Types (a : Agent L) (n : PeerSession.Node L).

(** ** The peer list *)

Definition with_ep n (ep : option UDPAddr) : PeerSession.Node L :=
  PeerSession.MkNode (PeerSession.SetDirectEP (PeerSession.peer n) ep) (PeerSession.pc n).

Lemma with_ep_same n : with_ep n (PeerSession.DirectEP (PeerSession.peer n)) = n.
Proof. by destruct n as [[]]. Qed.
Lemma with_ep_twice n ep ep' : with_ep (with_ep n ep) ep' = with_ep n ep'.
Proof. done. Qed.

(** The endpoint a list of announcements leaves a peer with: the last that resolved. *)
Definition refresh (info : PeerInfo) (ep : option UDPAddr) : option UDPAddr :=
  match firstEndpoint other info with Some e => Some e | None => ep end.
Fixpoint endpoint (infos : list PeerInfo) (id : string) (ep : option UDPAddr) : option UDPAddr :=
  match infos with
  | [] => ep
  | info :: infos =>
      endpoint infos id (if bool_decide (pi_ID info = id) then refresh info ep else ep)
  end.

Definition good_key (info : PeerInfo) : Prop := exists k, ParsePublicKeyHex (pi_PubKey info) = Ok k.

Lemma track_spec info a :
  Inv a -> exists a', track other info a = Some a' /\ Inv a' /\ cfg a' = cfg a /\
    (forall id, is_Some (peers a' !! id) <->
       is_Some (peers a !! id) \/ (id = pi_ID info /\ id <> Name (cfg a) /\ good_key info)) /\
    (forall id r n, peers a !! id = Some r -> heap a !! r = Some n ->
       peers a' !! id = Some r /\
       heap a' !! r = Some (with_ep n (if bool_decide (pi_ID info = id)
                                       then refresh info (PeerSession.DirectEP (PeerSession.peer n))
                                       else PeerSession.DirectEP (PeerSession.peer n)))).
Proof.
  intros I. destruct (track_Good other info a I) as (a' & E & I' & X). exists a'.
  split; [exact E|]. split; [exact I'|]. split; [apply X|]. clear X I'.
  unfold track in E. case_bool_decide as Hme.
  { injection E as <-. split.
    - intros id. split; [by left|]. intros [|(-> & ? & _)]; done.
    - intros id r n Hr Hn. split; [done|]. destruct (inv_peers _ I id r Hr) as [Hne _].
      rewrite bool_decide_eq_false_2 by congruence. by rewrite with_ep_same. }
  assert (Hsame : forall (info' := info), peers a !! pi_ID info <> None \/ ~ good_key info ->
            forall id, is_Some (peers a !! id) <->
              is_Some (peers a !! id) \/ (id = pi_ID info /\ id <> Name (cfg a) /\ good_key info)).
  { intros _ Hor id. split; [by left|]. intros [|(-> & _ & Hg)]; [done|].
    destruct Hor as [Hp|]; [|done]. by apply not_eq_None_Some. }
  destruct (peers a !! pi_ID info) as [r0|] eqn:Hr0.
  - unfold refresh. destruct (firstEndpoint other info) as [ep|] eqn:Eep.
    + destruct (inv_peers _ I _ _ Hr0) as (_ & n0 & Hn0 & Hid0).
      destruct (on_peer_Inv a r0 n0 (PeerSession.EvSetDirectEP (Some ep)) I Hn0) as (n' & os & En & Eo & _).
      rewrite Eo in E. cbn in E, En. injection E as <-. injection En as <- _. cbn. split.
      * apply Hsame. left. congruence.
      * intros id r n Hr Hn. split; [done|]. case_bool_decide as Hid.
        -- subst id. assert (r0 = r) as -> by congruence. assert (n0 = n) as -> by congruence.
           apply lookup_insert_eq.
        -- rewrite lookup_insert_ne, with_ep_same; [done|]. intros ->.
           destruct (inv_peers _ I id r Hr) as (_ & n1 & Hn1 & E1). congruence.
    + injection E as <-. split; [apply Hsame; left; congruence|].
      intros id r n Hr Hn. split; [done|]. destruct (bool_decide _); by rewrite with_ep_same.
  - destruct (ParsePublicKeyHex (pi_PubKey info)) as [key|] eqn:Ek.
    + injection E as <-. cbn. split.
      * intros id. rewrite lookup_insert_is_Some'. split.
        -- intros [<-|]; [right|by left]. split_and!; try done. by exists key.
        -- intros [|(-> & _ & _)]; [by right|by left].
      * intros id r n Hr Hn. rewrite !lookup_insert_ne.
        -- split; [done|]. rewrite bool_decide_eq_false_2 by congruence. by rewrite with_ep_same.
        -- intros <-. apply (inv_heap _ I) in Hn as [_ Hn]. lia.
        -- intros <-. congruence.
    + injection E as <-. split; [apply Hsame; right; by intros [k Hk]; congruence|].
      intros id r n Hr Hn. split; [done|]. rewrite bool_decide_eq_false_2 by congruence.
      by rewrite with_ep_same.
Qed.

Lemma track_each infos : forall a,
  Inv a -> exists a', each (track other) infos a = Some a' /\ Inv a' /\ cfg a' = cfg a /\
    (forall id, is_Some (peers a' !! id) <->
       is_Some (peers a !! id) \/
       (id <> Name (cfg a) /\ exists info, info ∈ infos /\ pi_ID info = id /\ good_key info)) /\
    (forall id r n, peers a !! id = Some r -> heap a !! r = Some n ->
       peers a' !! id = Some r /\
       heap a' !! r = Some (with_ep n (endpoint infos id (PeerSession.DirectEP (PeerSession.peer n))))).
Proof.
  induction infos as [|info infos IH]; intros a I; cbn [each].
  { exists a. split_and!; try done.
    - intros id. split; [by left|]. intros [|(_ & info & Hin & _)]; [done|]. by apply not_elem_of_nil in Hin.
    - intros id r n Hr Hn. cbn. by rewrite with_ep_same. }
  destruct (track_spec info a I) as (a1 & -> & I1 & Hc1 & Hp1 & Hh1). cbn [mbind option_bind].
  destruct (IH a1 I1) as (a2 & E & I2 & Hc2 & Hp2 & Hh2). exists a2.
  split_and!; [done|done|congruence| |].
  - intros id. rewrite Hp2, Hp1, Hc1. split.
    + intros [[|(-> & Hne & Hk)]|(Hne & i & Hin & Hi)]; [by left|right..].
      * split; [done|]. exists info. by split; [left|].
      * split; [done|]. exists i. by split; [right|].
    + intros [|(Hne & i & [->|Hin]%elem_of_cons & Hid & Hk)]; [by left; left|left; right|right].
      * by split.
      * split; [done|]. by exists i.
  - intros id r n Hr Hn. destruct (Hh1 id r n Hr Hn) as [Hr1 Hn1].
    destruct (Hh2 id r _ Hr1 Hn1) as [Hr2 Hn2]. split; [exact Hr2|].
    rewrite with_ep_twice in Hn2. cbn [endpoint]. by rewrite Hn2.
Qed.

(** [C25] A peer list is applied exactly: the agent then tracks the announced names other
    than its own that it tracked before or that came with a valid key; a peer it keeps is
    the same, sessions, handshakes and queues included, but for its endpoint, which is the
    last that was announced and resolved; a peer it drops is closed. *)
Theorem peer_list_applied (c : Config) (k : Keypair) (natDoor relayAddr : string) (a0 a : Agent L)
    (es : list event) (os : list out) (now : Time) (infos : list PeerInfo)
    (Hnew : New other c k natDoor relayAddr = Ok a0)
    (Hrun : run other parse a0 es = Some (a, os)) :
  exists a', applyPeers other now infos a = Some a' /\
    (forall id, is_Some (peers a' !! id) <->
       id <> Name c /\ id ∈ map pi_ID infos /\
       (is_Some (peers a !! id) \/ exists info, info ∈ infos /\ pi_ID info = id /\ good_key info)) /\
    (forall id r n, peers a !! id = Some r -> heap a !! r = Some n ->
       if bool_decide (id ∈ map pi_ID infos)
       then peers a' !! id = Some r /\
            heap a' !! r = Some (with_ep n (endpoint infos id (PeerSession.DirectEP (PeerSession.peer n))))
       else exists n', heap a' !! r = Some n' /\ PeerSession.closed (PeerSession.peer n') = true /\
            PeerSession.done_ (PeerSession.peer n') = true).
Proof.
  destruct (agent_New_Inv _ _ _ _ _ _ Hnew) as [I0 _].
  destruct (run_Good other parse es a0 I0) as (a1 & os' & E & I & X'). assert (a1 = a) as -> by congruence.
  assert (Hc : cfg a = c).
  { rewrite (ext_cfg _ _ _ X'). unfold New in Hnew. repeat (destr_in Hnew; try done);
      by apply Ok_inj in Hnew as <-. }
  destruct (track_each infos a I) as (a1 & E1 & I1 & Hc1 & Hp1 & Hh1).
  destruct (tracked_perm now a1) as [Hnd Hin].
  destruct (untrack_each (fun _ _ => True) (seen_of (Name (cfg a1)) infos) _ a1 I1 Hnd
              (fun id r => proj1 (Hin id r))) as (a2 & E2 & _ & _ & Hp2 & Hh2 & Hd2).
  exists a2. unfold applyPeers. rewrite E1. split; [exact E2|].
  assert (Hseen : forall id, id ∈ seen_of (Name (cfg a1)) infos <-> id <> Name c /\ id ∈ map pi_ID infos).
  { intros id. unfold seen_of. rewrite elem_of_list_to_set, list_elem_of_filter. by rewrite Hc1, Hc. }
  assert (Hkey : forall id, id ∈ (ranged now (map_to_list (peers a1))).*1 <-> is_Some (peers a1 !! id)).
  { intros id. rewrite list_elem_of_fmap. split.
    - intros ([id' r] & -> & H). apply Hin in H. by exists r.
    - intros [r Hr]. exists (id, r). split; [done|]. by apply Hin. }
  split.
  - intros id. rewrite Hp2.
    destruct (bool_decide (id ∈ (ranged now (map_to_list (peers a1))).*1)) eqn:Ek; cbn [andb].
    + apply bool_decide_eq_true_1, Hkey in Ek. case_bool_decide as Es; cbn [negb].
      * apply Hseen in Es as [Es1 Es2]. split; [|done]. intros _. split_and!; try done.
        apply Hp1 in Ek as [|(_ & Hi)]; [by left|by right].
      * split; [by intros []|]. intros (H1 & H2 & _). exfalso. by apply Es, Hseen.
    + apply bool_decide_eq_false_1 in Ek. rewrite Hkey in Ek. split; [done|]. intros (H1 & _ & H2).
      exfalso. apply Ek, Hp1. rewrite Hc. destruct H2; [by left|by right].
  - intros id r n Hr Hn. destruct (Hh1 id r n Hr Hn) as [Hr1 Hn1].
    assert (Hne : id <> Name c) by (rewrite <- Hc; by apply (inv_peers _ I id r)).
    case_bool_decide as Hi.
    + assert (Hs : id ∈ seen_of (Name (cfg a1)) infos) by by apply Hseen.
      rewrite Hp2, Hr1. rewrite (bool_decide_eq_true_2 (id ∈ seen_of _ _)) by done.
      cbn [negb]. rewrite andb_false_r. split; [done|]. rewrite Hh2; [done|].
      intros id' H. apply Hin in H. by rewrite (tracked_inj id' id r a1 I1 H Hr1).
    + apply (Hd2 id r); [by apply Hin|]. rewrite Hseen. by intros [_ ?].
Qed.
End Peers.
