(* ===== verification/AgentNet.v ===== *)
(** * Agents on the network (src/internal/agent over nat, relay, peer and tun)

    The agent's paths composed with the other components: what a datagram can touch,
    agents behind NAT boxes, the relayed path, and registration with the coordinator. *)

From S2P Require Import Prelude GoBytes GoRuntime GoNet Disco NoiseLib Noisework Protocol.
From S2P Require Import Agent AgentSafety.
From S2P Require PeerSession PeerSafety PeerHandshake Tun Nat NatSafety NatTraffic Relay Coordinator.

Section Net.
Context {L : NoiseLib} {W : NoiseLaws L} {XX : XXLaws L} {J : Json} {PJ : PingJson} {RO : RangeOrder}.
Context (other : string -> option UDPAddr) (parse : string -> option Tun.Addr).
Implicit Types (a : Agent L) (n : PeerSession.Node L).

(** ** What a datagram can touch *)

(** The peer [r], tracked as [id], is the one a datagram from [src] with this frame names:
    on the relayed path by its name, else by its endpoint. *)
Definition named (a : Agent L) (src : UDPAddr) (frame : list byte) (id : string) (r : ref) : Prop :=
  peers a !! id = Some r /\
  match relay a with
  | Some ra =>
      if bool_decide (addr_String src = addr_String ra)
      then exists to payload, Relay.ParsePacket frame = Ok (id, to, payload)
      else exists n ep, heap a !! r = Some n /\ PeerSession.DirectEP (PeerSession.peer n) = Some ep /\
             addr_String src = addr_String ep
  | None => exists n ep, heap a !! r = Some n /\ PeerSession.DirectEP (PeerSession.peer n) = Some ep /\
              addr_String src = addr_String ep
  end.

Lemma demux_named now src frame a r f :
  demux now src frame a = Some (r, f) -> exists id, named a src frame id r.
Proof.
  unfold demux, named. set (find := List.find _ _).
  assert (Hf : forall id r', find = Some (id, r') -> peers a !! id = Some r' /\
            exists n ep, heap a !! r' = Some n /\ PeerSession.DirectEP (PeerSession.peer n) = Some ep /\
              addr_String src = addr_String ep).
  { intros id r' H. apply List.find_some in H as [H Hb]. apply list_elem_of_In in H.
    split; [by apply (tracked_perm now a)|]. cbn [snd] in Hb.
    destruct (heap a !! r') as [n|]; [|done]. exists n.
    destruct (PeerSession.DirectEP (PeerSession.peer n)) as [ep|] eqn:E; [|done]. exists ep.
    split; [done|]. split; [done|]. by apply bool_decide_eq_true_1 in Hb. }
  assert (Hby : match find with Some (_, r') => Some (r', frame) | None => None end = Some (r, f) ->
            exists id, peers a !! id = Some r /\
            exists n ep, heap a !! r = Some n /\ PeerSession.DirectEP (PeerSession.peer n) = Some ep /\
              addr_String src = addr_String ep).
  { destruct find as [[id r']|]; [|done]. intros [= <- <-]. exists id. by apply Hf. }
  destruct (relay a) as [ra|]; [|exact Hby]. case_bool_decide; [|exact Hby].
  destruct (Relay.ParsePacket frame) as [[[rid to] payload]|] eqn:E; [|done].
  destruct (peers a !! rid) as [r'|] eqn:Er; [|done]. cbn. intros [= <- <-]. exists rid.
  split; [done|]. by exists to, payload.
Qed.

(** [C26] A datagram touches nothing but the peer it names: whatever arrives on the data
    socket of a reachable agent, its tables stay as they are, and so does every peer but
    the one that the relay header (on the relayed path) or the external source (on the
    direct one) names. *)
Theorem datagram_isolated (c : Config) (k : Keypair) (natDoor relayAddr : string) (a0 a : Agent L)
    (es : list event) (os : list out) (now : Time) (rnd : list byte) (src : UDPAddr) (pkt : list byte)
    (Hnew : New other c k natDoor relayAddr = Ok a0)
    (Hrun : run other parse a0 es = Some (a, os)) :
  exists h outs, receive other now rnd src pkt a = Some (a <| heap := h |>, outs) /\
    forall r n, heap a !! r = Some n ->
      h !! r = Some n \/
      exists ext frame id, unwrap other src pkt a = Some (ext, frame) /\ named a ext frame id r.
Proof.
  destruct (agent_New_Inv _ _ _ _ _ _ Hnew) as [I0 _].
  destruct (run_Good other parse es a0 I0) as (a1 & os' & E & I & _). assert (a1 = a) as -> by congruence.
  assert (Hid : a = a <| heap := heap a |>) by by destruct a.
  unfold receive. destruct (unwrap other src pkt a) as [[ext frame]|].
  2:{ exists (heap a), []. split; [by rewrite <- Hid|]. by left. }
  destruct (demux now ext frame a) as [[r f]|] eqn:Ed.
  2:{ exists (heap a), []. split; [by rewrite <- Hid|]. by left. }
  apply demux_named in Ed as [id Hn]. destruct (inv_peers _ I id r (proj1 Hn)) as (_ & n & Hr & _).
  destruct (on_peer_Inv a r n (PeerSession.EvFrame now rnd (Some ext) f) I Hr) as (n' & os1 & _ & Eo & _).
  exists (<[r := n']> (heap a)), (emitted a os1). split; [exact Eo|].
  intros r1 n1 H1. destruct (decide (r = r1)) as [<-|Hne]; [right|left; by rewrite lookup_insert_ne].
  by exists ext, frame, id.
Qed.

(** ** Behind a NAT box *)

(** [C27] A NAT box between an agent and the network is transparent: what the agent sends
    to an IPv4 address through the box's door leaves the box, if it leaves, as the same
    datagram to the same address (in 16-byte form); and what the box delivers of a datagram
    from an IPv4 source, the agent takes for that datagram from that source. *)
Theorem door_transparent (a : Agent L) (b b' : Nat.Box) (door : UDPAddr) (now : Time)
    (bound : option Z) (wrote : bool) (p4 : list byte) (d : Nat.datagram)
    (Hdoor : Agent.door a = Some door) :
  (forall dst frame pkt from,
     To4 (IP dst) = Some p4 -> Zone dst = ""%string -> 0 <= Port dst < 65536 ->
     sendDatagram a (Some dst) frame = Ok (Wire door pkt) ->
     Nat.handleOutbound other pkt from now bound wrote b = Some (Some d, b') ->
     Nat.to d = NatTraffic.mapped_v4 dst p4 /\ Nat.bytes d = frame) /\
  (forall src s payload any,
     To4 (IP src) = Some p4 -> Zone src = ""%string -> 0 <= Port src < 65536 ->
     Nat.handleInbound s payload src now wrote b = (Some d, b') ->
     unwrap other any (Nat.bytes d) a = Some (NatTraffic.mapped_v4 src p4, payload)).
Proof.
  assert (Hr : forall x, To4 (IP x) = Some p4 -> Zone x = ""%string -> 0 <= Port x < 65536 ->
            ResolveUDPAddr other (addr_String x) = Some (NatTraffic.mapped_v4 x p4)).
  { intros x H4 Hz Hp. unfold ResolveUDPAddr. by rewrite (parse_v4_String x p4). }
  split.
  - intros dst frame pkt from H4 Hz Hp Hs Ho. unfold sendDatagram in Hs. rewrite Hdoor in Hs.
    destruct (Nat.WrapOutbound (Name (cfg a)) (Some dst) frame) as [w|] eqn:Ew; [|done].
    apply Ok_inj in Hs. injection Hs as ->.
    apply (NatTraffic.Unwrap_WrapOutbound other _ dst (NatTraffic.mapped_v4 dst p4)) in Ew;
      [|apply NatTraffic.String_nonempty|by apply Hr].
    unfold Nat.handleOutbound in Ho. destruct (negb _); [done|]. rewrite Ew in Ho.
    destruct (Nat.outboundSocket _ _ _ _) as [[[s|] b1]|]; [|done|done]. cbn [mbind option_bind] in Ho.
    destruct wrote; [|done]. by injection Ho as <- <-.
  - intros src s payload any H4 Hz Hp Hi. unfold Nat.handleInbound in Hi.
    destruct (negb _); [done|]. destruct (Nat.PrivateHost _); [|done]. destruct wrote; [|done].
    injection Hi as <- _. cbn [Nat.bytes]. unfold unwrap. rewrite Hdoor.
    rewrite (NatTraffic.Unwrap_WrapInbound other src (NatTraffic.mapped_v4 src p4)); [done| |by apply Hr].
    split; [apply NatTraffic.String_nonempty|].
    pose proof (String_v4_len src p4 H4 Hz Hp). change Nat.maxEnvelopeName with 1024. lia.
Qed.

(** ** The relayed path *)

(** A frame crosses the relay unchanged: what one agent sends to a peer over the
    relay, and the relay forwards, reaches at the agent it arrives at the very session
    that agent keeps for the sender's name. *)
Theorem relay_path (a b : Agent L) (s s' : Relay.Server) (id : string) (r : ref) (ra ra' rsrc : UDPAddr)
    (frame pkt fwd : list byte) (from to : option UDPAddr) (now now' : Time) (rnd : list byte) (wrote : bool)
    (Hda : door a = None) (Hdb : door b = None)
    (Hsend : SendRelay a id frame = Ok (Wire ra pkt))
    (Hfwd : Relay.handlePacket s now wrote pkt from = (s', Some (to, fwd)))
    (Hrb : relay b = Some ra') (Hsrc : addr_String rsrc = addr_String ra')
    (Hpeer : peers b !! Name (cfg a) = Some r) :
  receive other now' rnd rsrc fwd b = on_peer r (PeerSession.EvFrame now' rnd (Some rsrc) frame) b.
Proof.
  destruct (Relay.handlePacket_case _ _ _ _ _ _ _ _ Hfwd) as [-> _].
  unfold SendRelay, sendDatagram in Hsend. destruct (relay a) as [x|]; [|done].
  destruct (Relay.WrapPacket (Name (cfg a)) id frame) as [w|] eqn:Ew; [|done].
  rewrite Hda in Hsend. apply Ok_inj in Hsend. injection Hsend as _ ->.
  unfold receive, unwrap. rewrite Hdb. unfold demux. rewrite Hrb, bool_decide_eq_true_2 by done.
  rewrite (proj2 (Relay.ParsePacket_Ok_Wrap _ _ _ _) Ew). by rewrite Hpeer.
Qed.

(** ** Registration *)

(** What an agent registers itself with passes the coordinator's checks, for the identity
    it authenticated with, when its name and addresses are within the coordinator's bounds. *)
Theorem registration_accepted (a : Agent L) (plain : list byte)
    (Hname : 0 < slen (Name (cfg a)) <= Coordinator.maxIDLen)
    (Hpub : slen (Relay.ptr_String (pub a)) <= Coordinator.maxEndpointLen)
    (Hrelay : forall r, relay a = Some r -> slen (addr_String r) <= Coordinator.maxEndpointLen)
    (Hline : DecodeLine plain = Ok (registration a)) :
  Coordinator.dispatch (Public (kp a)) plain
  = Coordinator.Registering (Public (kp a)) (registration a).
Proof.
  unfold Coordinator.dispatch. rewrite Hline. cbn [Type_ registration].
  rewrite (bool_decide_eq_true_2 (TypeRegister = TypeRegister)) by done. cbn [negb andb].
  rewrite (bool_decide_eq_false_2 (TypeRegister = TypeQuery)) by done.
  unfold Coordinator.validateRegistration. cbn [ID PubKey registration Endpoints].
  assert (Hn : Name (cfg a) <> ""%string) by (intros E; rewrite E in Hname; by destruct Hname).
  rewrite bool_decide_eq_false_2 by done.
  destruct (slen (Name (cfg a)) >? Coordinator.maxIDLen) eqn:E1; zbool; [lia|].
  change (elems (Some ?l)) with l.
  assert (E2 : (len (publicEndpoints a) >? Coordinator.maxEndpointsPerPeer) = false).
  { unfold publicEndpoints. by destruct (relay a). }
  rewrite E2. assert (E3 : existsb (fun ep => slen ep >? Coordinator.maxEndpointLen) (publicEndpoints a) = false).
  { unfold publicEndpoints. destruct (existsb _ _) eqn:E; [|done]. exfalso.
    apply existsb_exists in E as (ep & Hin & Hgt). zbool. destruct Hin as [<-|Hin]; [lia|].
    destruct (relay a) as [r|] eqn:Er; [|done]. destruct Hin as [<-|[]].
    specialize (Hrelay r eq_refl). lia. }
  rewrite E3. unfold PublicHex. by rewrite bool_decide_eq_true_2.
Qed.

End Net.
