(* ===== verification/AgentCalls.v ===== *)
(** * What the agent's calls report (src/internal/agent/agent.go, status.go)

    The round-trip times [ProbeRTT] records and what a [Ping] returns, against the
    measurements of the run. *)

From S2P Require Import Prelude GoBytes GoRuntime GoNet Disco NoiseLib Noisework Protocol.
From S2P Require Import Agent AgentSafety.
From S2P Require PeerSession PeerSafety Tun Nat Relay.

Section Calls.
Context {L : NoiseLib} {W : NoiseLaws L} {XX : XXLaws L} {J : Json} {PJ : PingJson} {RO : RangeOrder}.
Context (other : string -> option UDPAddr) (parse : string -> option Tun.Addr).
Implicit Types (a : Agent L) (n : PeerSession.Node L).

(** ** Round-trip times *)

(** No TUN device is configured, and none is open. *)
Definition no_tun a : Prop := TunName (cfg a) = ""%string /\ bridge a = None.

Definition same_rtt a a' : Prop :=
  rttHist a' = rttHist a /\ lastRTT a' = lastRTT a /\ (no_tun a -> no_tun a') /\
  (closed a = true -> closed a' = true).
Definition same_books a a' : Prop := same_rtt a a' /\ pings a' = pings a.

Lemma on_peer_rtt r e a a' os : on_peer r e a = Some (a', os) -> same_books a a'.
Proof.
  unfold on_peer. intros H. destruct (heap a !! r) as [n|]; [|done]. cbn [mbind option_bind] in H.
  destruct (PeerSession.node_step _ n e) as [[n' os']|]; [|done]. cbn in H. by injection H as <- _.
Qed.

Lemma same_books_trans a1 a2 a3 : same_books a1 a2 -> same_books a2 a3 -> same_books a1 a3.
Proof. unfold same_books, same_rtt. intuition congruence. Qed.

Lemma bridge_books f a a1 : same_books a a1 -> same_books a (a1 <| bridge := f <$> bridge a1 |>).
Proof.
  intros H. eapply same_books_trans; [exact H|]. split; [|done]. split_and!; [done..| |done].
  intros [Hn Hb]. split; [exact Hn|]. cbn. by rewrite Hb.
Qed.

Lemma each_rtt {A} (f : A -> Agent L -> option (Agent L)) l : forall a a',
  (forall x a a', f x a = Some a' -> same_books a a') -> each f l a = Some a' -> same_books a a'.
Proof.
  induction l as [|x l IH]; intros a a' Hf H; cbn [each] in H; [by injection H as <-|].
  destruct (f x a) as [a1|] eqn:E; [|done]. cbn in H.
  eapply same_books_trans; [by eapply Hf|by eapply IH].
Qed.

Lemma applyPeers_rtt now infos a a' : applyPeers other now infos a = Some a' -> same_books a a'.
Proof.
  unfold applyPeers. intros H. destruct (each _ infos a) as [a1|] eqn:E; [|done]. cbn [mbind option_bind] in H.
  eapply same_books_trans; eapply each_rtt; try exact E; try exact H; clear.
  - intros info a a' H. unfold track in H. repeat (destr_in H; try done);
      try (injection H as <-; first [done|by apply bridge_books]); unfold on_peer in H; destruct (heap a !! _); try done;
      cbn in H; by injection H as <-.
  - intros [id r] a a' H. unfold untrack in H. destruct (bool_decide _); [by injection H as <-|].
    destruct (on_peer r PeerSession.EvClose _) as [[x1 os]|] eqn:Ex; [|done]. cbn in H. injection H as <-.
    apply on_peer_rtt in Ex. assert (Hs : same_books a x1).
    { eapply same_books_trans; [|exact Ex]. pose proof (bridge_books (setPeerSink id None) a a) as Hk.
      destruct (peerCancel _ !! id); by apply Hk. }
    exact Hs.
Qed.

Lemma peerSend_rtt now wrote r pkt a outs ok a' outs' :
  peerSend now wrote r pkt (a, outs) = Some (ok, (a', outs')) -> same_books a a'.
Proof.
  unfold peerSend. intros H. destruct (heap a !! r) as [n|]; [|done]. cbn [mbind option_bind] in H.
  destruct (PeerSession.Send _ now pkt) as [[res p]|]; [|done]. cbn [mbind option_bind] in H.
  destruct res as [o|]; [destruct (emit _ o)|]; by injection H as _ <- _.
Qed.

Lemma ping_step_rtt j br t1 t2 now wrote a a' os :
  ping_step j br t1 t2 now wrote a = Some (a', os) -> same_rtt a a'.
Proof.
  unfold ping_step. intros H. destruct (pings a !! j) as [g|]; [|by injection H as <- _].
  destruct (pos g) as [| |r|x|x seq ts|x seq ts c|x|]; try by injection H as <- _.
  - destruct (WaitPeers _ a) as [[]|]; by injection H as <- _.
  - destruct (heap a !! r); [|done]. cbn [mbind option_bind] in H.
    destruct (PeerSession.WaitEstablished _ _) as [[|]|]; by injection H as <- _.
  - destruct (_ <? _).
    + destruct (peerSend _ _ _ _ _) as [[ok [a1 outs]]|] eqn:E; [|done]. apply peerSend_rtt in E.
      cbn in H. injection H as <- _. exact (proj1 E).
    + destruct (heap a !! g_peer x); [|done]. cbn in H. by injection H as <- _.
  - injection H as <- _. destruct br; [destruct (chans a !! c) as [[|]|]|..]; done.
  - destruct br; [by injection H as <- _..|]. destruct (heap a !! g_peer x); [|done]. by injection H as <- _.
Qed.

Lemma handle_payload_rtt now r a a' os : handle_payload now r a = Some (a', os) -> same_books a a'.
Proof.
  unfold handle_payload. intros H. destruct (inhand a !! r) as [payload|]; [|by injection H as <- _].
  assert (Hd : forall m a1, dispatchPing now r m a1 = Some (a', os) -> same_books a1 a').
  { intros m a1 Hm. unfold dispatchPing in Hm. destruct (bool_decide _); [by apply on_peer_rtt in Hm|].
    destruct (bool_decide _); [destruct (pingOut a1 !! _)|]; by injection Hm as <- _. }
  unfold handlePeerPayload in H. destruct payload as [|b0 ps]; [by injection H as <- _|].
  destruct (bridge _); [destruct (if bool_decide _ then _ else _)|destruct (decodePingMsg _)];
    first [by apply Hd in H|by injection H as <- _].
Qed.

Lemma from_device_rtt now wrote pkt a a' os : from_device now wrote pkt a = Some (a', os) -> same_books a a'.
Proof.
  unfold from_device. intros H. destruct (bridge a) as [b|]; [|by injection H as <- _].
  destruct pkt as [|b0 ps]; [by injection H as <- _|]. unfold Tun.RoutePacket in H.
  destruct (Tun.parseIPv4 _) as [[s d]|]; [|cbn in H; injection H as <- _; by apply bridge_books].
  destruct (Tun.routes (router b) !! d) as [r|]; [|cbn in H; injection H as <- _; by apply bridge_books].
  destruct (peerSend _ _ _ _ _) as [[ok [a1 outs]]|] eqn:E; [|done]. apply peerSend_rtt in E.
  cbn [mbind option_bind] in H. destruct ok; cbn in H; injection H as <- _; exact (bridge_books _ _ _ E).
Qed.

Lemma close_peers_books l : forall a a', each close_peer l a = Some a' -> same_books a a'.
Proof.
  intros a a' E. apply each_rtt in E; [exact E|]. intros [id r] a2 a3 H. unfold close_peer in H.
  destruct (on_peer _ _ a2) as [[a4 os']|] eqn:E'; [|done]. injection H as <-. by apply on_peer_rtt in E'.
Qed.

Lemma Close_rtt now a a' : Close now a = Some a' -> same_books a a' /\ closed a' = true.
Proof.
  unfold Close. intros E. destruct (closed a) eqn:Ec; [by injection E as <-|].
  apply close_peers_books in E. split; [|by apply E]. eapply same_books_trans; [|exact E].
  exact (bridge_books (fun b => b <| dev_closed := true |>) a (a <| closed := true |>) ltac:(done)).
Qed.

(** Only the calls of [ProbeRTT] and [Ping] write in these books. *)
Definition is_call (e : event) : bool :=
  match e with EvProbeFinish _ _ | EvPing _ _ _ _ | EvPingStep _ _ _ _ _ _ => true | _ => false end.

Lemma step_books a e a' os :
  step other parse a e = Some (a', os) -> is_call e = false -> same_books a a'.
Proof.
  intros H He. destruct e; try done; cbn [step] in H.
  - by injection H as <- _.
  - unfold receive in H. destruct (unwrap _ _ _ _) as [[x y]|]; [|by injection H as <- _].
    destruct (demux _ _ _ _) as [[r f]|]; [|by injection H as <- _]. by apply on_peer_rtt in H.
  - unfold quietly, control_message in H. destruct (DecodeLine plain); [|by injection H as <- _].
    destruct (bool_decide _); [|destruct (bool_decide _); [destruct (queryCh a)|]; by injection H as <- _].
    destruct (applyPeers _ _ _ _) as [a1|] eqn:E; [|done]. injection H as <- _. by apply applyPeers_rtt in E.
  - unfold at_peer in H. destruct (heap a !! r); [by apply on_peer_rtt in H|by injection H as <- _].
  - destruct (_ || _); [|by injection H as <- _]. unfold at_peer in H.
    destruct (heap a !! r); [by apply on_peer_rtt in H|by injection H as <- _].
  - destruct (heap a !! r) as [n|] eqn:En; [|by injection H as <- _]. unfold take_payload in H.
    destruct (inhand a !! r); [by injection H as <- _|]. rewrite En in H. cbn [mbind option_bind] in H.
    destruct (PeerSession.recvQ _); [by injection H as <- _|]. apply on_peer_rtt in H. exact H.
  - by apply handle_payload_rtt in H.
  - by apply from_device_rtt in H.
  - injection H as <- _. unfold open_bridge. destruct (bridge a); [done|].
    destruct (newTunBridge _ _ _) as [[b|]|] eqn:En; [|done..]. split; [|done]. split_and!; [done..| |done].
    intros [Hn _]. unfold newTunBridge in En. by rewrite bool_decide_eq_true_2 in En by done.
  - injection H as <- _. unfold probe_start. by repeat destr.
  - unfold quietly, probe_wait in H. destruct (probes a !! i) as [[id r| | |]|]; try by injection H as <- _.
    destruct (heap a !! r) as [n|]; [|done]. cbn [mbind option_bind] in H.
    destruct (PeerSession.WaitEstablished _ _) as [[|]|]; by injection H as <- _.
  - unfold probe_send in H. destruct (probes a !! i) as [[|id r| |]|]; try by injection H as <- _.
    destruct (peerSend _ _ _ _ _) as [[ok [a1 outs]]|] eqn:E; [|done]. apply peerSend_rtt in E.
    cbn in H. injection H as <- _. exact E.
  - injection H as <- _. unfold probe_register, await_pong. by repeat destr.
  - by injection H as <- _.
  - injection H as <- _. unfold query_take. by destruct (queryCh a).
  - unfold quietly in H. destruct (Close now a) as [a1|] eqn:E; [|done]. injection H as <- _.
    by apply Close_rtt in E as [? _].
Qed.

Lemma step_no_tun a e a' os : no_tun a -> step other parse a e = Some (a', os) -> no_tun a'.
Proof.
  intros N H. destruct (is_call e) eqn:Ec; [|by destruct (step_books a e a' os H Ec) as [(_ & _ & Hs & _) _]; apply Hs].
  destruct e; try done; cbn [step] in H.
  - injection H as <- _. unfold probe_finish, recordRTT. by repeat destr.
  - injection H as <- _. unfold ping_start. by repeat destr.
  - apply ping_step_rtt in H as (_ & _ & Hs & _). by apply Hs.
Qed.

Lemma run_no_tun es : forall a a' os, no_tun a -> run other parse a es = Some (a', os) -> no_tun a'.
Proof.
  induction es as [|e es IH]; intros a a' os N H; cbn [run] in H; [by injection H as <- _|].
  destruct (step other parse a e) as [[a1 os1]|] eqn:E; [|done]. cbn [mbind option_bind] in H.
  destruct (run other parse a1 es) as [[a2 os2]|] eqn:E2; [|done]. cbn in H. injection H as <- _.
  eapply IH; [|exact E2]. by eapply step_no_tun.
Qed.

Lemma step_closed a e a' os : closed a = true -> step other parse a e = Some (a', os) -> closed a' = true.
Proof.
  intros N H. destruct (is_call e) eqn:Ec; [|by destruct (step_books a e a' os H Ec) as [(_ & _ & _ & Hs) _]; apply Hs].
  destruct e; try done; cbn [step] in H.
  - injection H as <- _. unfold probe_finish, recordRTT. by repeat destr.
  - injection H as <- _. unfold ping_start. by repeat destr.
  - apply ping_step_rtt in H as (_ & _ & _ & Hs). by apply Hs.
Qed.

Lemma run_closed es : forall a a' os, closed a = true -> run other parse a es = Some (a', os) -> closed a' = true.
Proof.
  induction es as [|e es IH]; intros a a' os N H; cbn [run] in H; [by injection H as <- _|].
  destruct (step other parse a e) as [[a1 os1]|] eqn:E; [|done]. cbn [mbind option_bind] in H.
  destruct (run other parse a1 es) as [[a2 os2]|] eqn:E2; [|done]. cbn in H. injection H as <- _.
  eapply IH; [|exact E2]. by eapply step_closed.
Qed.

(** The measurement an event completes: the probe it wakes, and the pong's time less the
    ping's. *)
Definition measured a (e : event) : list (string * Duration) :=
  match e with
  | EvProbeFinish i false =>
      match probes a !! i with
      | Some (Waiting id _ ts c) =>
          match chans a !! c with Some (Some got) => [(id, Sub got (Unix0 ts))] | _ => [] end
      | _ => []
      end
  | _ => []
  end.

Fixpoint measurements a (es : list event) : list (string * Duration) :=
  match es with
  | [] => []
  | e :: es => measured a e ++
      match step other parse a e with Some (a', _) => measurements a' es | None => [] end
  end.

(** The measurements of one peer, latest first. *)
Definition rtts (ms : list (string * Duration)) (id : string) : list Duration :=
  rev (map snd (filter (fun m => m.1 = id) ms)).
Definition rtt_rep (ms : list (string * Duration)) a : Prop :=
  forall id, default [] (rttHist a !! id) = take 5 (rtts ms id) /\
    lastRTT a !! id = head (rtts ms id).

Lemma recordRTT_rep ms id d a : rtt_rep ms a -> rtt_rep (ms ++ [(id, d)]) (recordRTT id d a).
Proof.
  intros R id'. destruct (R id') as [R1 R2]. unfold rtts in *. rewrite list.filter_app, map_app, rev_app_distr.
  unfold recordRTT. cbn [rttHist lastRTT upd eta Agent_eta]. destruct (decide (id = id')) as [->|Hne].
  - rewrite !lookup_insert_eq, filter_cons_True by done. cbn [filter list_filter map rev app snd head default from_option id].
    split; [|done]. rewrite R1. set (l := rev _).
    destruct (len (d :: take 5 l) >? rttHistoryDepth) eqn:E.
    + change (Z.to_nat rttHistoryDepth) with 5%nat. cbn [take]. by rewrite take_take.
    + zbool. unfold rttHistoryDepth in E. cbn [take]. f_equal.
      destruct (Nat.le_gt_cases (length l) 4) as [Hl|Hl]; [by rewrite !take_ge by lia|].
      exfalso. rewrite len_cons in E. unfold len in E. rewrite length_take in E. lia.
  - rewrite !lookup_insert_ne, filter_cons_False by done. cbn [filter list_filter map rev app]. by split.
Qed.

Lemma step_rtt ms a e a' os : rtt_rep ms a -> step other parse a e = Some (a', os) ->
  rtt_rep (ms ++ measured a e) a'.
Proof.
  intros R H.
  assert (Hsame : same_rtt a a' -> measured a e = [] -> rtt_rep (ms ++ measured a e) a').
  { intros (E1 & E2 & _) ->. rewrite app_nil_r. intros id. rewrite E1, E2. apply R. }
  destruct (is_call e) eqn:Ec.
  2:{ destruct (step_books a e a' os H Ec) as [Hs _]. apply Hsame; [done|]. by destruct e. }
  destruct e; try done; cbn [step] in H.
  - injection H as <- _. unfold probe_finish in *. cbn [measured] in *.
    destruct (probes a !! i) as [[| | |id seq ts c]|]; try (destruct gives_up; by apply Hsame).
    destruct gives_up; [by apply Hsame|]. destruct (chans a !! c) as [[got|]|]; try by apply Hsame.
    apply (recordRTT_rep ms id (Sub got (Unix0 ts)) (a <| probes := _ |> <| chans := _ |>)). exact R.
  - apply Hsame; [|done]. injection H as <- _. unfold ping_start. by repeat destr.
  - apply Hsame; [|done]. by apply ping_step_rtt in H.
Qed.

(** The round-trip times an agent shows are the measured ones: after any run, a
    peer's history is its last five measurements (a pong's arrival less the time in its
    ping), latest first, and the last round-trip time is the latest of them. *)
Theorem rtt_history (c : Config) (k : Keypair) (natDoor relayAddr : string) (a0 a : Agent L)
    (es : list event) (os : list out) (id : string) (Hnew : New other c k natDoor relayAddr = Ok a0)
    (Hrun : run other parse a0 es = Some (a, os)) :
  default [] (rttHist a !! id) = take 5 (rtts (measurements a0 es) id) /\
  lastRTT a !! id = head (rtts (measurements a0 es) id).
Proof.
  assert (H : forall es ms a1 os, rtt_rep ms a1 -> run other parse a1 es = Some (a, os) ->
            rtt_rep (ms ++ measurements a1 es) a).
  { clear. induction es as [|e es IH]; intros ms a1 os R H; cbn [run measurements] in *.
    - injection H as <- _. by rewrite app_nil_r.
    - destruct (step other parse a1 e) as [[a2 os1]|] eqn:E; [|done]. cbn [mbind option_bind] in H.
      destruct (run other parse a2 es) as [[a3 os2]|] eqn:Er; [|done]. cbn in H. injection H as <- _.
      rewrite app_assoc. eapply IH; [|exact Er]. by eapply step_rtt. }
  apply (H es [] a0 os); [|done]. intros id'. unfold New in Hnew.
  repeat (destr_in Hnew; try done); apply Ok_inj in Hnew as <-; cbn; by rewrite !lookup_empty.
Qed.

(** ** What a [Ping] returns *)

(** The round-trip time a step of [Ping] call [j] takes from its channel. *)
Definition pong_of (j : nat) a (e : event) : list Duration :=
  match e with
  | EvPingStep j' OnChannel _ _ _ _ =>
      if decide (j' = j) then
        match pos <$> pings a !! j with
        | Some (PingWaiting _ _ ts c) =>
            match chans a !! c with Some (Some got) => [Sub got (Unix0 ts)] | _ => [] end
        | _ => []
        end
      else []
  | _ => []
  end.

Fixpoint pongs (j : nat) a (es : list event) : list Duration :=
  match es with
  | [] => []
  | e :: es => pong_of j a e ++
      match step other parse a e with Some (a', _) => pongs j a' es | None => [] end
  end.

Definition total (ds : list Duration) : Z := foldr Z.add 0 ds.

(** [time.Duration]'s average over the pongs received. *)
Definition average (ds : list Duration) : Duration :=
  if len ds >? 0 then i64 (total ds) ÷ len ds else 0.

(** The loop's variables after the pongs [ds], with at most [m] of them by then. *)
Definition rounds_ok (ds : list Duration) (m : Z) (x : rounds) : Prop :=
  0 <= g_i x /\ g_received x = len ds /\ len ds <= m /\ g_total x = i64 (total ds).

Definition pos_ok (ds : list Duration) (g : ping) : Prop :=
  match pos g with
  | WaitingPeers | LookingUp | Establishing _ => ds = []
  | AtRound x => rounds_ok ds (g_i x) x /\ g_i x <= Z.max 0 (count g)
  | PingSent x _ _ | PingWaiting x _ _ _ => rounds_ok ds (g_i x) x /\ g_i x < count g
  | Pausing x => rounds_ok ds (g_i x + 1) x /\ g_i x + 1 < count g
  | PingReturned (Some res) err =>
      pr_Peer res = target g /\ pr_Count res = count g /\ pr_Established res = true /\
      pr_Received res = len ds /\ len ds <= Z.max 0 (count g) /\
      (err = None -> pr_AvgRTT res = average ds)
  | PingReturned None err => ds = [] /\ err <> None
  end.

(** Pings are counted in an [int]. *)
Definition int_count (e : event) : Prop :=
  match e with EvPing _ _ n _ => n < 2 ^ 63 | _ => True end.

Definition pings_ok (ds : nat -> list Duration) a : Prop := forall j,
  match pings a !! j with
  | None => ds j = []
  | Some g => count g < 2 ^ 63 /\ pos_ok (ds j) g
  end.

Lemma total_snoc ds d : i64 (i64 (total ds) + d) = i64 (total (ds ++ [d])).
Proof.
  assert (E : total (ds ++ [d]) = total ds + d).
  { unfold total. induction ds as [|x ds IH]; cbn; [lia|]. rewrite IH. lia. }
  rewrite E. apply i64_add_l.
Qed.

Lemma next_round_ok ds g x :
  rounds_ok ds (g_i x + 1) x -> g_i x < count g -> pos_ok ds (g <| pos := next_round g x |>).
Proof.
  unfold next_round. intros (H0 & H1 & H2 & H3) Hi. unfold pos_ok, rounds_ok. cbn.
  destruct ((interval g >? 0) && (g_i x + 1 <? count g)) eqn:E; zbool; split_and!; cbn; try done; lia.
Qed.

Lemma ping_result_ok ds g x m path :
  rounds_ok ds m x -> m <= Z.max 0 (count g) ->
  pos_ok ds (g <| pos := PingReturned (Some (ping_result g x path)) None |>).
Proof.
  intros (H0 & H1 & H2 & H3) Hm. unfold pos_ok. cbn. split_and!; try done; [lia|].
  intros _. unfold average. by rewrite H1, H3.
Qed.

(** A step of call [j] moves its position on, and adds the pong it takes. *)
Lemma ping_step_ok j br t1 t2 now wrote a a' os g ds :
  pings a !! j = Some g -> count g < 2 ^ 63 -> pos_ok ds g ->
  ping_step j br t1 t2 now wrote a = Some (a', os) ->
  exists p, pings a' = <[j := g <| pos := p |>]> (pings a) /\
    pos_ok (ds ++ pong_of j a (EvPingStep j br t1 t2 now wrote)) (g <| pos := p |>).
Proof.
  intros Eg Hc Hok H. unfold ping_step in H. rewrite Eg in H.
  assert (Hpong : (forall x seq ts c, pos g <> PingWaiting x seq ts c) ->
            ds ++ pong_of j a (EvPingStep j br t1 t2 now wrote) = ds).
  { intros Hp. cbn. rewrite Eg. cbn [fmap option_fmap option_map].
    destruct br; try apply app_nil_r. destruct (decide _); [|apply app_nil_r].
    destruct (pos g) eqn:E; try apply app_nil_r. by destruct (Hp g0 seq ts done_). }
  assert (Hstay : forall ds', pos_ok ds' g -> exists p,
            pings a = <[j := g <| pos := p |>]> (pings a) /\ pos_ok ds' (g <| pos := p |>)).
  { intros ds' Hd. exists (pos g). assert (g <| pos := pos g |> = g) as -> by by destruct g.
    by rewrite insert_id. }
  assert (Hset : forall b p ds', pings b = pings a -> pos_ok ds' (g <| pos := p |>) -> exists p',
            pings (set_pos j g p b) = <[j := g <| pos := p' |>]> (pings a) /\ pos_ok ds' (g <| pos := p' |>)).
  { intros b p ds' E Hd. exists p. split; [|done]. unfold set_pos. cbn. by rewrite E. }
  pose proof Hok as Hok0. unfold pos_ok in Hok.
  destruct (pos g) as [| |r|x|x seq ts|x seq ts c|x|res err] eqn:Ep.
  - rewrite Hpong by done. destruct (WaitPeers _ a) as [[]|]; injection H as <- _;
      first [by apply Hstay|by apply Hset].
  - rewrite Hpong by done. injection H as <- _. apply Hset; [done|]. by destruct (peers a !! target g).
  - rewrite Hpong by done. destruct (heap a !! r); [|done]. cbn [mbind option_bind] in H.
    destruct (PeerSession.WaitEstablished _ _) as [[]|]; injection H as <- _;
      [apply Hset; [done|]..|by apply Hstay]; [|by unfold pos_ok].
    subst ds. unfold pos_ok, rounds_ok. cbn. split_and!; try done; lia.
  - rewrite Hpong by done. destruct (g_i x <? count g) eqn:Ei; zbool.
    + destruct (peerSend _ _ _ _ _) as [[ok [a1 outs]]|] eqn:E; [|done]. apply peerSend_rtt in E as [_ E].
      cbn in H. injection H as <- _. apply Hset; [done|]. unfold pos_ok. cbn.
      split; [apply Hok|done].
    + destruct (heap a !! g_peer x); [|done]. injection H as <- _. apply Hset; [done|].
      apply (ping_result_ok _ _ _ (g_i x)); apply Hok.
  - rewrite Hpong by done. injection H as <- _. by apply Hset.
  - destruct Hok as [Hx Hi]. injection H as <- _.
    assert (Hn : forall ds', rounds_ok ds' (g_i x) x -> rounds_ok ds' (g_i x + 1) x).
    { intros ds' (? & ? & ? & ?). split_and!; done || lia. }
    unfold pong_of. rewrite decide_True, Eg by done. cbn [fmap option_fmap option_map]. rewrite Ep.
    destruct br.
    + destruct (chans a !! c) as [[got|]|]; [|rewrite app_nil_r; by apply Hstay..].
      apply Hset; [done|]. apply next_round_ok; [|done].
      destruct Hx as (H0 & H1 & H2 & H3). unfold rounds_ok. cbn. rewrite len_app, H1, H3, total_snoc.
      change (len [_]) with 1. pose proof (len_nonneg ds). rewrite i64_small by lia. split_and!; done || lia.
    + rewrite app_nil_r. apply Hset; [done|]. apply next_round_ok; [by apply Hn|done].
    + rewrite app_nil_r. apply Hset; [done|]. destruct Hx as (? & ? & ? & ?). unfold pos_ok. cbn.
      split_and!; done || lia.
  - rewrite Hpong by done. destruct Hok as [Hx Hi]. destruct br.
    + injection H as <- _. by apply Hstay.
    + injection H as <- _. apply Hset; [done|]. destruct Hx as (? & ? & ? & ?).
      unfold pos_ok, rounds_ok. cbn. split_and!; done || lia.
    + destruct (heap a !! g_peer x); [|done]. injection H as <- _. apply Hset; [done|].
      apply (ping_result_ok _ _ _ (g_i x + 1)); [done|lia].
  - rewrite Hpong by done. injection H as <- _. by apply Hstay.
Qed.

Lemma step_pings ds a e a' os :
  pings_ok ds a -> int_count e -> step other parse a e = Some (a', os) ->
  pings_ok (fun j => ds j ++ pong_of j a e) a'.
Proof.
  intros R He H.
  assert (Hsame : forall b, pings b = pings a -> (forall j, pong_of j a e = []) ->
            pings_ok (fun j => ds j ++ pong_of j a e) b).
  { intros b E Hp j. rewrite E, Hp, app_nil_r. apply R. }
  destruct (is_call e) eqn:Ec.
  2:{ destruct (step_books a e a' os H Ec) as [_ E]. apply Hsame; [done|]. intros j. by destruct e. }
  destruct e as [| | | | | | | | | | | | |i up|j target cnt interval|j br t1 t2 now wrote| | |];
    try done; cbn [step] in H.
  - injection H as <- _. apply Hsame; [|done]. unfold probe_finish. by repeat destr.
  - injection H as <- _. unfold ping_start. pose proof (R j) as Rj.
    destruct (pings a !! j) as [g|] eqn:Eg; [by apply Hsame|].
    intros j'. cbn. rewrite app_nil_r. destruct (decide (j = j')) as [<-|Hne].
    + by rewrite lookup_insert_eq.
    + rewrite lookup_insert_ne by done. apply R.
  - pose proof (R j) as Rj. destruct (pings a !! j) as [g|] eqn:Eg.
    + destruct Rj as [Hc Hp].
      destruct (ping_step_ok j br t1 t2 now wrote a a' os g (ds j) Eg Hc Hp H) as (p & E & Hp').
      intros j'. rewrite E. destruct (decide (j = j')) as [<-|Hne]; [by rewrite lookup_insert_eq|].
      rewrite lookup_insert_ne by done.
      assert (Hnil : pong_of j' a (EvPingStep j br t1 t2 now wrote) = []).
      { cbn. destruct br; try done. by rewrite decide_False. }
      rewrite Hnil, app_nil_r. apply R.
    + apply Hsame; [unfold ping_step in H; rewrite Eg in H; by injection H as <- _|].
      intros j'. cbn. destruct br; try done. destruct (decide (j = j')) as [<-|]; [by rewrite Eg|done].
Qed.

(** What [Ping] reports is what it measured: after any run, the result of a call that has
    returned names its target and count, has received as many pongs as its steps took from
    their channels, at most one per round, and, unless the call was cancelled in a round,
    averages their round-trip times, 0 if there were none. *)
Theorem ping_report (c : Config) (k : Keypair) (natDoor relayAddr : string) (a0 a : Agent L)
    (es : list event) (os : list out) (j : nat) (g : ping) (res : PingResult) (err : option ping_err)
    (Hnew : New other c k natDoor relayAddr = Ok a0) (Hint : Forall int_count es)
    (Hrun : run other parse a0 es = Some (a, os))
    (Hg : pings a !! j = Some g) (Hret : pos g = PingReturned (Some res) err) :
  let ds := pongs j a0 es in
  pr_Peer res = target g /\ pr_Count res = count g /\ pr_Received res = len ds /\
  len ds <= Z.max 0 (count g) /\ (err = None -> pr_AvgRTT res = average ds).
Proof.
  assert (H : forall es ds a1 os, pings_ok ds a1 -> Forall int_count es ->
            run other parse a1 es = Some (a, os) -> pings_ok (fun j => ds j ++ pongs j a1 es) a).
  { clear. induction es as [|e es IH]; intros ds a1 os R He H; cbn [run pongs] in *.
    - injection H as <- _. intros j. rewrite app_nil_r. apply R.
    - destruct (step other parse a1 e) as [[a2 os1]|] eqn:E; [|done]. cbn [mbind option_bind] in H.
      destruct (run other parse a2 es) as [[a3 os2]|] eqn:Er; [|done]. cbn in H. injection H as <- _.
      pose proof (step_pings ds a1 e a2 os1 R (Forall_inv He) E) as R2.
      specialize (IH _ a2 os2 R2 (Forall_inv_tail He) Er). intros j. specialize (IH j).
      cbn in IH. by rewrite <- app_assoc in IH. }
  intros ds. assert (R0 : pings_ok (fun _ => []) a0).
  { intros j'. unfold New in Hnew. repeat (destr_in Hnew; try done); apply Ok_inj in Hnew as <-; cbn;
      by rewrite lookup_empty. }
  specialize (H es _ a0 os R0 Hint Hrun j). cbn [app] in H. rewrite Hg in H. destruct H as [_ Hp].
  unfold pos_ok in Hp. rewrite Hret in Hp. by destruct Hp as (? & ? & _ & ? & ? & ?).
Qed.
End Calls.
