(* ===== verification/Tunnel.v ===== *)
(** * The overlay, from one TUN device to the other

    Two agents whose peer sessions are linked: what one reads from its device is what the
    other writes to its own. *)

From S2P Require Import Prelude GoBytes GoRuntime GoNet Framing Disco NoiseLib Noisework Protocol.
From S2P Require Import Agent AgentSafety.
From S2P Require PeerSession PeerSafety PeerHandshake Tun Nat Relay.

#[local] Existing Instance PeerSession.Peer_eta.

Section Tunnel.
Context {L : NoiseLib} {W : NoiseLaws L} {XX : XXLaws L} {J : Json} {PJ : PingJson} {RO : RangeOrder}.
Context (other : string -> option UDPAddr) (parse : string -> option Tun.Addr).
Implicit Types (a b : Agent L) (n : PeerSession.Node L).

(** ** Data datagrams and the sender's fields *)

Lemma Send_direct (p p' : PeerSession.Peer L) now d o :
  PeerSession.Send p now d = Some (Ok o, p') -> PeerSession.path p <> PathRelay ->
  exists f w ep, o = PeerSession.SendDirect (Some ep) f /\ PeerSession.DirectEP p = Some ep /\
    Parse f = Ok (TypeData, w) /\ PeerSession.DirectEP p' = PeerSession.DirectEP p.
Proof.
  unfold PeerSession.Send, PeerSession.encryptLocked. intros H Hp.
  destruct (PeerSession.sess p) as [q|]; [|done].
  destruct (PeerSession.sessions p !! q) as [s|]; [|done]. cbn [mbind option_bind] in H.
  destruct (_ >? _); [done|]. destruct (Noisework.Send s d) as [[[nonce ct]|e] s']; [|done].
  destruct (Frame TypeData (be_put 8 nonce ++ ct)) as [f|] eqn:Ef; [|done].
  cbn [mbind option_bind] in H. unfold PeerSession.sendFrame in H.
  rewrite bool_decide_eq_false_2 in H by done. cbn in H.
  destruct (PeerSession.DirectEP p) as [ep|] eqn:Ed; [|done]. injection H as <- <-.
  exists f, (be_put 8 nonce ++ ct), ep. split_and!; try done. by apply Parse_Ok_Frame.
Qed.

Lemma onData_ep (p p' : PeerSession.Peer L) w :
  PeerSession.onData p w = Some p' -> PeerSession.DirectEP p' = PeerSession.DirectEP p.
Proof.
  unfold PeerSession.onData. intros H. destruct (_ || _); [by injection H as <-|].
  destruct (PeerSession.sess p) as [q|]; [|by injection H as <-].
  destruct (PeerSession.sessions p !! q) as [s|]; [|done]. cbn [mbind option_bind] in H.
  destruct (_ <? 8); [by injection H as <-|].
  destruct (PeerSession.replay p) as [rw|]; [|by injection H as <-].
  destruct (Replay.Check rw _) as [fresh|]; [|done]. cbn [mbind option_bind] in H.
  destruct (negb fresh); [by injection H as <-|].
  destruct (DecryptAt s _ _) as [[plain|e] s']; [|by injection H as <-].
  destruct (Replay.Commit rw _) as [w'|]; [|done]. cbn [mbind option_bind] in H.
  destruct (_ && _); by injection H as <-.
Qed.

(** ** A tunnel *)

(** Only [r]'s endpoint is [src], and [src] is not the relay. *)
Definition sole_source b (src : UDPAddr) (r : ref) : Prop :=
  match relay b with Some ra => addr_String src <> addr_String ra | None => True end /\
  (exists id, peers b !! id = Some r) /\
  forall id r', peers b !! id = Some r' ->
    (r' = r <-> exists n ep, heap b !! r' = Some n /\
       PeerSession.DirectEP (PeerSession.peer n) = Some ep /\ addr_String src = addr_String ep).

Lemma sole_source_demux b src r now f : sole_source b src r -> demux now src f b = Some (r, f).
Proof.
  intros (Hr & (id & Hid) & Hs). unfold demux.
  set (P := fun ir : string * ref => match heap b !! ir.2 with Some n =>
              match PeerSession.DirectEP (PeerSession.peer n) with
              | Some ep => bool_decide (addr_String src = addr_String ep) | None => false end
            | None => false end).
  assert (HP : forall id r', peers b !! id = Some r' -> P (id, r') = true <-> r' = r).
  { intros id' r' H. rewrite (Hs id' r' H). unfold P. cbn [snd]. split.
    - destruct (heap b !! r') as [n|]; [|done].
      destruct (PeerSession.DirectEP (PeerSession.peer n)) as [ep|] eqn:E; [|done].
      intros Hb%bool_decide_eq_true_1. by exists n, ep.
    - intros (n & ep & -> & -> & E). by apply bool_decide_eq_true_2. }
  destruct (tracked_perm now b) as [_ Hin].
  assert (Hfind : exists id', List.find P (ranged now (map_to_list (peers b))) = Some (id', r)).
  { destruct (List.find P _) as [[id' r']|] eqn:E.
    - apply List.find_some in E as [E1 E2]. apply list_elem_of_In, Hin in E1.
      apply (HP id' r' E1) in E2 as ->. by exists id'.
    - exfalso. assert (Hx : P (id, r) = false).
      { apply (List.find_none _ _ E). apply list_elem_of_In. by apply Hin. }
      by rewrite (proj2 (HP id r Hid) eq_refl) in Hx. }
  destruct Hfind as (id' & ->). destruct (relay b) as [ra|]; [|done].
  by rewrite bool_decide_eq_false_2.
Qed.

(** [a] reaches [b]: a route for [dst] to a peer with a direct path and a session linked to
    the one [b] keeps for the source [src], [k] nonces left, and an open device at [b]. *)
Record tunnel a b (dst : Tun.Addr) (epB src : UDPAddr) (rA rB : ref) (k limit : Z) : Prop := {
  t_doorA : door a = None;
  t_doorB : door b = None;
  t_route : exists ba, bridge a = Some ba /\ Tun.routes (router ba) !! dst = Some rA;
  t_device : exists bb, bridge b = Some bb /\ dev_closed bb = false /\ limit <= dev_mtu bb;
  t_source : sole_source b src rB;
  t_idle : inhand b !! rB = None;
  t_peers : exists nA nB, heap a !! rA = Some nA /\ heap b !! rB = Some nB /\
    PeerSession.path (PeerSession.peer nA) <> PathRelay /\
    PeerSession.DirectEP (PeerSession.peer nA) = Some epB /\
    PeerSession.recvQ (PeerSession.peer nB) = [] /\
    limit <= PeerHandshake.payload_limit (PeerSession.peer nA) /\
    PeerHandshake.linked (PeerSession.peer nA) (PeerSession.peer nB) /\
    PeerHandshake.can_send (PeerSession.peer nA) k
}.

(** An IPv4 packet does not look like a ping. *)
Lemma ipv4_not_json src dst pkt :
  Tun.is_ipv4 src dst pkt -> exists h rest, pkt = h :: rest /\ h <> x7b.
Proof.
  intros (ihl & tos & mid & opts & payload & pad & Hi & _ & _ & _ & _ & _ & ->).
  unfold Tun.ipv4. eexists _, _. split; [reflexivity|]. intros E.
  apply (f_equal u8) in E. rewrite u8_byte_of, Z.mod_small in E by lia.
  change (u8 x7b) with 123 in E. lia.
Qed.

(** Reading a packet with a route from the device. *)
Lemma from_device_routed a ba src dst (rA : ref) (nA : PeerSession.Node L) now pkt epB f pA' :
  door a = None -> bridge a = Some ba -> Tun.routes (router ba) !! dst = Some rA ->
  heap a !! rA = Some nA -> Tun.is_ipv4 src dst pkt ->
  PeerSession.Send (PeerSession.peer nA) now pkt = Some (Ok (PeerSession.SendDirect (Some epB) f), pA') ->
  exists a', from_device now true pkt a = Some (a', [Wire epB f]) /\
    heap a' = <[rA := PeerSession.MkNode pA' (PeerSession.pc nA)]> (heap a) /\
    door a' = None /\ relay a' = relay a /\ peers a' = peers a /\ inhand a' = inhand a /\
    exists ba', bridge a' = Some ba' /\ Tun.routes (router ba') = Tun.routes (router ba).
Proof.
  intros Hd Hb Hrt Hn Hip HS. destruct (ipv4_not_json src dst pkt Hip) as (h0 & rest & -> & _).
  pose proof (Tun.is_ipv4_parseIPv4 _ src dst Hip) as Hparse.
  unfold from_device. rewrite Hb. unfold Tun.RoutePacket. rewrite Hparse, Hrt.
  unfold peerSend. rewrite Hn. cbn [mbind option_bind]. rewrite HS. cbn [mbind option_bind].
  unfold emit, SendDirect, sendDatagram. cbn. rewrite Hd. cbn. rewrite Hb.
  eexists. split; [reflexivity|]. cbn. split_and!; try done. eexists. split; [done|]. done.
Qed.

(** A payload that is in the peer's queue reaches the device. *)
Lemma payload_to_device b bb src dst (rB : ref) (nB : PeerSession.Node L) now pkt :
  bridge b = Some bb -> dev_closed bb = false -> len pkt <= dev_mtu bb ->
  inhand b !! rB = None -> heap b !! rB = Some nB ->
  PeerSession.recvQ (PeerSession.peer nB) = [pkt] -> Tun.is_ipv4 src dst pkt ->
  exists b', run other parse b [EvTake rB; EvHandle now rB] = Some (b', [Device pkt]) /\
    heap b' = <[rB := PeerSession.MkNode (PeerSession.peer nB <| PeerSession.recvQ := [] |>)
                       (PeerSession.pc nB)]> (heap b) /\
    door b' = door b /\ relay b' = relay b /\ peers b' = peers b /\ bridge b' = bridge b /\
    inhand b' !! rB = None.
Proof.
  intros Hb Hop Hmtu Hih Hn Hq Hip. destruct (ipv4_not_json src dst pkt Hip) as (h0 & rest & -> & Hj).
  cbn [run step]. rewrite Hn. unfold take_payload. rewrite Hih, Hn. cbn [mbind option_bind].
  rewrite Hq. unfold on_peer. cbn [heap upd eta Agent_eta]. rewrite Hn.
  cbn [mbind option_bind PeerSession.node_step]. rewrite Hq. cbn [tail].
  unfold handle_payload. cbn. rewrite lookup_insert_eq. unfold handlePeerPayload. cbn. rewrite Hb.
  rewrite bool_decide_eq_false_2 by done. unfold inbound. rewrite Hop.
  destruct (len (h0 :: rest) >? dev_mtu bb) eqn:E; zbool; [lia|]. cbn.
  eexists. split; [reflexivity|]. cbn. split_and!; try done. apply lookup_delete_eq.
Qed.

Lemma sole_source_upd b b' src r n n' :
  sole_source b src r -> relay b' = relay b -> peers b' = peers b -> heap b !! r = Some n ->
  heap b' = <[r := n']> (heap b) ->
  PeerSession.DirectEP (PeerSession.peer n') = PeerSession.DirectEP (PeerSession.peer n) ->
  sole_source b' src r.
Proof.
  intros (H1 & H2 & H3) Er Ep Hn Eh Ed. unfold sole_source. rewrite Er, Ep. split_and!; [done..|].
  intros id r' H. rewrite (H3 id r' H), Eh. destruct (decide (r' = r)) as [->|Hne].
  - rewrite Hn, lookup_insert_eq. split.
    + intros (m & ep & [= <-] & Hm & E). exists n', ep. split_and!; congruence.
    + intros (m & ep & [= <-] & Hm & E). exists n, ep. split_and!; congruence.
  - by rewrite lookup_insert_ne.
Qed.

(** One packet: read from [a]'s device, carried by one datagram, written to [b]'s. *)
Lemma tunnel_step a b dst epB srcA rA rB k limit src pkt now1 now2 rnd :
  tunnel a b dst epB srcA rA rB k limit -> 1 <= k -> Tun.is_ipv4 src dst pkt -> len pkt <= limit ->
  exists a' f b',
    step other parse a (EvDevice now1 true pkt) = Some (a', [Wire epB f]) /\
    run other parse b [EvDatagram now2 rnd srcA f; EvTake rB; EvHandle now2 rB] = Some (b', [Device pkt]) /\
    tunnel a' b' dst epB srcA rA rB (k - 1) limit.
Proof.
  intros [DA DB (ba & Hba & Hrt) (bb & Hbb & Hop & Hmtu) Hsrc Hidle
    (nA & nB & HnA & HnB & Hpath & Hep & Hq & Hlim & Hl & Hc)] Hk Hip Hlen.
  assert (Hne : pkt <> []) by (destruct (ipv4_not_json src dst pkt Hip) as (? & ? & -> & _); done).
  destruct (PeerHandshake.deliver_step (relay b) (PeerSession.peer nA) (PeerSession.peer nB) k now1 now2 rnd
              (Some srcA) pkt Hl Hc Hk Hne) as (o & pA' & pB' & HS & HF & Hq' & Hl' & Hc' & Hpa & _);
    [lia|rewrite Hq; done|].
  destruct (Send_direct _ _ _ _ _ HS Hpath) as (f & w & ep & -> & Hd & Hw & HepA).
  assert (ep = epB) as -> by congruence. cbn [PeerHandshake.out_frame] in HF.
  assert (HepB : PeerSession.DirectEP pB' = PeerSession.DirectEP (PeerSession.peer nB)).
  { rewrite (PeerSafety.HandleFrame_data _ _ _ _ _ _ _ Hw) in HF. unfold PeerSession.quiet in HF.
    destruct (PeerSession.onData _ w) as [p|] eqn:E; [|done]. cbn in HF. injection HF as <-.
    by apply onData_ep in E. }
  rewrite Hq in Hq'. cbn [app] in Hq'.
  destruct (from_device_routed a ba src dst rA nA now1 pkt epB f pA' DA Hba Hrt HnA Hip HS)
    as (a' & Ea & Ha1 & Ha2 & _ & _ & _ & ba' & Ha3 & Ha4).
  set (nB1 := PeerSession.MkNode pB' (PeerSession.pc nB)). set (b1 := b <| heap := <[rB := nB1]> (heap b) |>).
  assert (HnB1 : heap b1 !! rB = Some nB1) by (unfold b1; cbn; apply lookup_insert_eq).
  destruct (payload_to_device b1 bb src dst rB nB1 now2 pkt Hbb Hop ltac:(lia) Hidle HnB1 Hq' Hip)
    as (b' & Eb & Hb1 & Hb2 & Hb3 & Hb4 & Hb5 & Hb6).
  assert (Er : receive other now2 rnd srcA f b = Some (b1, [])).
  { unfold receive, unwrap. rewrite DB, (sole_source_demux b srcA rB now2 f Hsrc). unfold on_peer.
    rewrite HnB. cbn [mbind option_bind PeerSession.node_step]. by rewrite HF. }
  exists a', f, b'. split; [exact Ea|]. split.
  { remember [EvTake rB; EvHandle now2 rB] as evs. cbn [run step]. rewrite Er. cbn [mbind option_bind].
    by rewrite Eb. }
  set (nB2 := PeerSession.MkNode (PeerSession.peer nB1 <| PeerSession.recvQ := [] |>) (PeerSession.pc nB1)) in *.
  constructor; [done|by rewrite Hb2| | | |done|].
  - exists ba'. split; [done|congruence].
  - exists bb. split_and!; [by rewrite Hb5|done|done].
  - apply (sole_source_upd b1 b' srcA rB nB1 nB2); try done.
    by apply (sole_source_upd b b1 srcA rB nB nB1).
  - exists (PeerSession.MkNode pA' (PeerSession.pc nA)), nB2. rewrite Ha1, Hb1, !lookup_insert_eq.
    cbn [PeerSession.peer]. split_and!; try done; [congruence|congruence|].
    unfold PeerHandshake.payload_limit in *. by rewrite Hpa.
Qed.

(** The packets one after the other, and what comes out of [b]'s device; [None] when a
    packet does not leave [a] as one datagram to [epB]. *)
Fixpoint carry a b (epB src : UDPAddr) (rB : ref) (now : Time) (rnd : list byte)
    (pkts : list (list byte)) : option (Agent L * Agent L * list out) :=
  match pkts with
  | [] => Some (a, b, [])
  | pkt :: pkts =>
      '(a, os) ← step other parse a (EvDevice now true pkt);
      match os with
      | [Wire ep f] =>
          if bool_decide (ep = epB) then
            '(b, ds) ← run other parse b [EvDatagram now rnd src f; EvTake rB; EvHandle now rB];
            '(a, b, ds') ← carry a b epB src rB now rnd pkts;
            Some (a, b, ds ++ ds')
          else None
      | _ => None
      end
  end.

(** [C3] The overlay delivers: two agents whose peer sessions are linked, one with a route
    to the other, carry IPv4 packets from the one's TUN device to the other's, each as one
    datagram to the peer's endpoint, unchanged and in order, as long as they fit the path
    and the device and nonces are left; and the tunnel stays as it was. *)
Theorem tunnel_delivers (a b : Agent L) (dst : Tun.Addr) (epB srcA : UDPAddr) (rA rB : ref)
    (limit : Z) (now : Time) (rnd : list byte) (pkts : list (list byte))
    (Htun : tunnel a b dst epB srcA rA rB (len pkts) limit)
    (Hpkts : Forall (fun pkt => (exists src, Tun.is_ipv4 src dst pkt) /\ len pkt <= limit) pkts) :
  exists a' b', carry a b epB srcA rB now rnd pkts = Some (a', b', map Device pkts) /\
    tunnel a' b' dst epB srcA rA rB 0 limit.
Proof.
  revert a b Htun. induction pkts as [|pkt pkts IH]; intros a b Htun; [by exists a, b|].
  destruct (Forall_inv Hpkts) as [[src Hip] Hlen]. apply Forall_inv_tail in Hpkts.
  rewrite len_cons in Htun. pose proof (len_nonneg pkts).
  destruct (tunnel_step a b dst epB srcA rA rB _ limit src pkt now now rnd Htun ltac:(lia) Hip Hlen)
    as (a1 & f & b1 & Ea & Eb & T1).
  replace (1 + len pkts - 1) with (len pkts) in T1 by lia.
  destruct (IH Hpkts a1 b1 T1) as (a2 & b2 & Ec & T2). exists a2, b2. split; [|exact T2].
  cbn [carry]. rewrite Ea. cbn [mbind option_bind]. rewrite bool_decide_eq_true_2 by done.
  rewrite Eb. cbn [mbind option_bind]. by rewrite Ec.
Qed.
End Tunnel.
