(* ===== verification/Overlay.v ===== *)
(** * The overlay forms (agent.go, tunbridge.go, peer.go composed)

    From two configured agents to packets between their TUN devices: each learns its public
    endpoint, is told by the coordinator who is there, opens its device; the peers' loops
    punch, the handshake crosses, and the two are joined by a tunnel in both directions. *)

From S2P Require Import Prelude GoBytes GoRuntime GoNet Framing Disco NoiseLib Noisework Protocol.
From S2P Require Import PeerLoop Agent AgentSafety AgentPeers Tunnel.
From S2P Require Replay Transport PeerSession PeerHandshake Tun Nat Relay Coordinator.

#[local] Existing Instance PeerSession.Peer_eta.

Section Overlay.
Context {L : NoiseLib} {W : NoiseLaws L} {XX : XXLaws L} {J : Json} {PJ : PingJson} {RO : RangeOrder}.
Context (other : string -> option UDPAddr) (parse : string -> option Tun.Addr).
Implicit Types (a b : Agent L) (n : PeerSession.Node L) (p : PeerSession.Peer L).

(** ** What the agents are told *)

(** The entry the coordinator keeps for an agent that registered on connection [c], as it
    is announced to everyone. *)
Definition announcement a (c : Coordinator.conn) : PeerInfo :=
  let m := registration a in
  Coordinator.peerInfo (Coordinator.MkRegistration (ID m) (PubKey m) (Endpoints m) c).

(** The text of a public endpoint reads back as an address of the same text. *)
Definition resolves (ext ep : UDPAddr) : Prop :=
  ResolveUDPAddr other (addr_String ext) = Some ep /\ addr_String ep = addr_String ext.

(** A configuration with a TUN device, in which [peer] has the overlay address [dst]. *)
Record tun_config (c : Config) (peer : string) (dst : Tun.Addr) : Prop := {
  tc_name : TunName c <> ""%string;
  tc_ip : TunIP c = ""%string \/ is_Some (parse (TunIP c));
  tc_peers : map_Forall (fun _ ip => is_Some (parse ip)) (TunPeers c);
  tc_peer : exists s, TunPeers c !! peer = Some s /\ parse s = Some dst;
  tc_v4 : Tun.Is4 dst = true
}.

(** ** An agent with one peer *)

Record pair_state a (r : ref) (id : string) n : Prop := {
  ps_door : door a = None;
  ps_peers : peers a = {[id := r]};
  ps_heap : heap a !! r = Some n;
  ps_inhand : inhand a !! r = None
}.

Lemma ranged_one {A} (now : Time) (x : A) : ranged now [x] = [x].
Proof. apply Permutation_singleton_r, ranged_perm. Qed.

Lemma track_self info a : pi_ID info = Name (cfg a) -> track other info a = Some a.
Proof. intros E. unfold track. by rewrite bool_decide_eq_true_2. Qed.

Lemma track_new info a key :
  pi_ID info <> Name (cfg a) -> peers a !! pi_ID info = None -> bridge a = None ->
  ParsePublicKeyHex (pi_PubKey info) = Ok key ->
  exists a', track other info a = Some a' /\ cfg a' = cfg a /\ door a' = door a /\ relay a' = relay a /\
    inhand a' = inhand a /\ bridge a' = None /\ peers a' = <[pi_ID info := next a]> (peers a) /\
    heap a' !! next a = Some (PeerSession.MkNode
      (PeerSession.New (Name (cfg a)) (pi_ID info) key (firstEndpoint other info) (kp a)) PeerSession.NotStarted).
Proof.
  intros Hne Hp Hb Hk. unfold track. rewrite bool_decide_eq_false_2, Hp, Hk by done.
  eexists. split; [done|]. cbn. rewrite Hb. split_and!; try done. apply lookup_insert_eq.
Qed.

(** The coordinator's list of the two, in either order, to an agent that has no peer yet. *)
Lemma applyPeers_pair now infos me info a key :
  infos ≡ₚ [me; info] -> pi_ID me = Name (cfg a) -> pi_ID info <> Name (cfg a) ->
  peers a = ∅ -> bridge a = None -> door a = None -> inhand a = ∅ ->
  ParsePublicKeyHex (pi_PubKey info) = Ok key ->
  exists a', applyPeers other now infos a = Some a' /\ cfg a' = cfg a /\ relay a' = relay a /\ bridge a' = None /\
    pair_state a' (next a) (pi_ID info) (PeerSession.MkNode
      (PeerSession.New (Name (cfg a)) (pi_ID info) key (firstEndpoint other info) (kp a)) PeerSession.NotStarted).
Proof.
  intros Hi Hme Hne Hp Hb Hd Hih Hk.
  destruct (track_new info a key Hne) as (a' & E & H1 & H2 & H3 & H4 & H5 & H6 & H7);
    [by rewrite Hp|done|done|].
  exists a'. split_and!; try done.
  2:{ constructor; [congruence|by rewrite H6, Hp|done|by rewrite H4, Hih]. }
  assert (Et : each (track other) infos a = Some a').
  { apply symmetry, Permutation_length_2_inv in Hi as [-> | ->]; cbn [each];
      rewrite ?(track_self me a Hme), ?E; cbn [mbind option_bind each]; rewrite ?E; try done.
    by rewrite track_self by congruence. }
  unfold applyPeers. rewrite Et. cbn [mbind option_bind]. rewrite H6, Hp.
  rewrite insert_empty, map_to_list_singleton, ranged_one. cbn [each untrack].
  rewrite bool_decide_eq_true_2; [done|]. unfold seen_of.
  rewrite elem_of_list_to_set, list_elem_of_filter, H1. split; [done|]. rewrite Hi. cbn. set_solver.
Qed.

(** ** From the configuration to a tracked peer *)

(** The public endpoint is learnt, the coordinator's list read, the device opened. *)
Definition startup (now : Time) (ext : UDPAddr) (plain : list byte) (mtu : Z) : list event :=
  [EvEndpoint ext; EvControl now plain; EvBridge now (Some mtu)].

Lemma bridge_opens now mtu a r id n dst :
  tun_config (cfg a) id dst -> bridge a = None -> pair_state a r id n ->
  exists a' ba, open_bridge parse now (Some mtu) a = a' /\ bridge a' = Some ba /\ dev_closed ba = false /\
    dev_mtu ba = mtu /\ Tun.routes (router ba) !! dst = Some r /\ relay a' = relay a /\ cfg a' = cfg a /\
    pair_state a' r id n.
Proof.
  intros [Hn Hip Hps (s & Hs & Hd) H4] Hb [P1 P2 P3 P4]. unfold open_bridge, newTunBridge.
  rewrite Hb, bool_decide_eq_false_2 by done.
  assert (Eip : (negb (bool_decide (TunIP (cfg a) = ""%string)) && bool_decide (parse (TunIP (cfg a)) = None)) = false).
  { destruct Hip as [-> | [x ->]]; [done|]. rewrite (bool_decide_eq_false_2 (Some x = None)) by done. apply andb_false_r. }
  rewrite Eip, bool_decide_eq_true_2 by done. unfold attachBridge.
  rewrite P2, map_to_list_singleton, ranged_one. cbn [fold_left fst snd].
  eexists _, _. split; [done|]. split; [done|]. unfold setPeerSink. cbn.
  rewrite lookup_omap, Hs. cbn. rewrite Hd. cbn. unfold Tun.SetRoute. rewrite H4. cbn.
  split_and!; try done; apply lookup_insert_eq.
Qed.

(** A new agent with a tracked peer, not running yet, a route to it and its device open. *)
Lemma startup_run (c : Config) (k : Keypair) (relayAddr : string) a0 now ext plain msg mtu info key dst cid ep :
  New other c k "" relayAddr = Ok a0 -> tun_config c (pi_ID info) dst ->
  DecodeLine plain = Ok msg -> Type_ msg = TypePeerList ->
  elems (Peers msg) ≡ₚ [announcement (a0 <| pub := Some ext |>) cid; info] ->
  pi_ID info <> Name c -> ParsePublicKeyHex (pi_PubKey info) = Ok key -> firstEndpoint other info = Some ep ->
  exists a ba, run other parse a0 (startup now ext plain mtu) = Some (a, []) /\
    bridge a = Some ba /\ dev_closed ba = false /\ dev_mtu ba = mtu /\ Tun.routes (router ba) !! dst = Some 0%nat /\
    relay a = relay a0 /\ cfg a = c /\
    pair_state a 0%nat (pi_ID info) (PeerSession.MkNode
      (PeerSession.New (Name c) (pi_ID info) key (Some ep) k) PeerSession.NotStarted).
Proof.
  intros Hnew Hc Hdec Ht Hl Hne Hk Hep. set (a1 := a0 <| pub := Some ext |>) in *.
  assert (H0 : cfg a1 = c /\ kp a1 = k /\ peers a1 = ∅ /\ bridge a1 = None /\ door a1 = None /\ inhand a1 = ∅ /\
               next a1 = 0%nat /\ relay a1 = relay a0).
  { unfold New in Hnew. repeat (destr_in Hnew; try done); by apply Ok_inj in Hnew as <-. }
  destruct H0 as (E1 & E2 & E3 & E4 & E5 & E6 & E7 & E8).
  destruct (applyPeers_pair now (elems (Peers msg)) _ info a1 key Hl) as (a2 & E & F1 & F2 & F3 & F4);
    [done|by rewrite E1|done..|]. rewrite E1, E2, E7, Hep in F4.
  rewrite <- E1, <- F1 in Hc.
  destruct (bridge_opens now mtu a2 _ _ _ dst Hc F3 F4) as (a3 & ba & G & G1 & G2 & G3 & G4 & G5 & G7 & G6).
  exists a3, ba. split; [|split_and!; try done; congruence].
  unfold startup. cbn [run step mbind option_bind]. fold a1. unfold control_message.
  rewrite Hdec, Ht, (bool_decide_eq_true_2 (TypePeerList = TypePeerList)), E by done.
  cbn. by rewrite G.
Qed.

(** ** The handshake between two peers *)

Lemma loop_punches ra (idA idB : string) (key : list byte) ep k now rnd m i :
  let p := PeerSession.New (L := L) idA idB key (Some ep) k in
  RoleIsInitiator idA idB = true -> HS1ResendInterval <= now ->
  (forall q, PeerSession.myKp q = k -> PeerSession.peerKey q = key ->
     PeerSession.startInitiator (L := L) q rnd = Some (m, i)) ->
  exists f pc, Parse f = Ok (TypeHS1, m) /\
    PeerSession.node_run ra (PeerSession.MkNode p PeerSession.NotStarted) (loops 5 now rnd)
    = Some (PeerSession.MkNode
        (p <| PeerSession.mode := PathDirect |> <| PeerSession.phaseStart := now |>
           <| PeerSession.initiatorHS := Some i |> <| PeerSession.hs1Frame := Some f |>
           <| PeerSession.lastHS1 := now |>) pc, [PeerSession.SendDirect (Some ep) f]).
Proof.
  intros p Hr Ht Hi.
  destruct (PeerHandshake.punch_first ra (p <| PeerSession.mode := PathDirect |> <| PeerSession.phaseStart := now |>)
              now rnd ep m i) as (f & Hf & E); try done.
  { apply PeerHandshake.Sub_ge; [done|]. cbn. lia. }
  { by apply Hi. }
  eexists f, _. split; [exact Hf|].
  cbn in E |- *. rewrite E. reflexivity.
Qed.

(** The loop's first messages and the three of the handshake, one after the other. *)
Lemma peers_meet raA raB (idA idB : string) (kA kB : Keypair) epA epB srcA srcB (t0 t1 t2 t3 : Time)
    (rA rB r2 r3 : list byte) :
  let new x y k ep key := PeerSession.MkNode (PeerSession.New (L := L) x y key (Some ep) k) PeerSession.NotStarted in
  RoleIsInitiator idA idB = true -> genuine kA -> genuine kB -> len rA = 32 -> len rB = 32 ->
  HS1ResendInterval <= t0 -> Second <= t1 ->
  PeerSession.framePath raB (Some srcA) = PathDirect -> PeerSession.framePath raA (Some srcB) = PathDirect ->
  exists nA nA' nB nB' nB'' f1 f2 f3,
    PeerSession.node_run raA (new idA idB kA epB (Public kB)) (loops 5 t0 rA) = Some (nA, [PeerSession.SendDirect (Some epB) f1]) /\
    PeerSession.node_run raB (new idB idA kB epA (Public kA)) (loops 1 t0 rB) = Some (nB, []) /\
    PeerSession.node_step raB nB (PeerSession.EvFrame t1 rB (Some srcA) f1) = Some (nB', [PeerSession.SendDirect (Some epA) f2]) /\
    PeerSession.node_step raA nA (PeerSession.EvFrame t2 r2 (Some srcB) f2) = Some (nA', [PeerSession.SendDirect (Some epB) f3]) /\
    PeerSession.node_step raB nB' (PeerSession.EvFrame t3 r3 (Some srcA) f3) = Some (nB'', []) /\
    PeerSession.DirectEP (PeerSession.peer nA) = Some epB /\ PeerSession.DirectEP (PeerSession.peer nB) = Some epA /\
    PeerSession.DirectEP (PeerSession.peer nB') = Some epA /\
    PeerHandshake.up PathDirect (PeerSession.peer nA') (PeerSession.peer nB'') (Public kB) epB /\
    PeerHandshake.up PathDirect (PeerSession.peer nB'') (PeerSession.peer nA') (Public kA) epA.
Proof.
  intros new Hrole HkA HkB HrA HrB Ht0 Ht1 HsA HsB.
  pose proof (RoleIsInitiator_asym _ _ Hrole) as HroleB.
  pose proof (genuine_public _ HkA) as LA. pose proof (genuine_public _ HkB) as LB.
  destruct (PeerHandshake.machines_run kA kB rA rB t2 t3 HkA HkB HrA HrB)
    as (m1 & i1 & m2 & r0 & r1 & r2' & m3 & i2 & i3 & r3' & sA & sB & M1 & N0 & M2 & M3 & M4 & M5 &
        M6 & Hm3 & PA & PB & _ & AB & BA & CA & CB).
  destruct (loop_punches raA idA idB (Public kB) epB kA t0 rA m1 i1 Hrole Ht0) as (f1 & pc & P1 & EA).
  { intros q Hk Hp. by apply M1. }
  set (a1 := _ <| PeerSession.lastHS1 := t0 |>) in EA.
  pose proof (loop_starts raB (PeerSession.New (L := L) idB idA (Public kA) (Some epA) kB) epA t0 rB eq_refl) as EB.
  set (b1 := _ <| PeerSession.phaseStart := t0 |>) in EB.
  assert (Hb1 : PeerSession.countHS1 b1 t1 = b1 <| PeerSession.hsBurstStart := t1 |> <| PeerSession.hsBurstCount := 1 |>)
    by (apply PeerHandshake.countHS1_fresh; cbn; lia).
  destruct (PeerHandshake.onHS1_first b1 t1 rB m1 m2 epA r0 r1 r2') as (f2 & P2 & E1); try done; [by rewrite Hb1|].
  rewrite Hb1 in E1. set (b2 := _ <| PeerSession.phaseStart := t1 |>) in E1.
  destruct (PeerHandshake.onHS2_first a1 t2 m2 m3 epB i1 i2 i3 0%nat [newSession DefaultRekeyEvery] [sA] sA)
    as (f3 & a3 & P3 & E2 & A1 & A2 & A3 & A4 & A5 & A6 & A7 & A8 & A9 & A10 & A11 & A12 & _); try done.
  destruct (PeerHandshake.onHS3_first b2 t3 m3 r2' r3' 0%nat [sB] sB)
    as (b3 & E3 & B1 & B2 & B3 & B4 & B5 & B6 & B7 & B8 & B9); try done.
  exists (PeerSession.MkNode a1 pc), (PeerSession.MkNode a3 pc), (PeerSession.MkNode b1 PeerSession.Waiting),
    (PeerSession.MkNode b2 PeerSession.Waiting), (PeerSession.MkNode b3 PeerSession.Waiting), f1, f2, f3.
  cbn [PeerSession.node_step PeerSession.peer PeerSession.pc].
  rewrite (PeerHandshake.HandleFrame_HS1 raB b1 t1 rB (Some srcA) f1 m1 _ P1 HsA HroleB), E1.
  rewrite (PeerHandshake.HandleFrame_HS2 raA a1 t2 r2 (Some srcB) f2 m2 _ P2 HsB Hrole), E2.
  rewrite (PeerHandshake.HandleFrame_HS3 raB b2 t3 r3 (Some srcA) f3 m3 _ P3 HsA HroleB), E3.
  split; [exact EA|]. split; [exact EB|]. split_and!; try done.
  - by apply (PeerHandshake.up_paired PathDirect a3 b3 sA sB).
  - by apply (PeerHandshake.up_paired PathDirect b3 a3 sB sA).
Qed.

(** ** The handshake between two agents *)

Lemma pair_heap a r id n h n' :
  pair_state a r id n -> h !! r = Some n' -> pair_state (a <| heap := h |>) r id n'.
Proof. by intros []. Qed.

Lemma on_peer_pair a r id n e n' os :
  pair_state a r id n -> PeerSession.node_step (relay a) n e = Some (n', os) ->
  on_peer r e a = Some (a <| heap := <[r := n']> (heap a) |>, emitted a os).
Proof. intros [_ _ P _] E. unfold on_peer. rewrite P. cbn [mbind option_bind]. by rewrite E. Qed.

Lemma run_after es1 : forall a a1 a2 es2 os1 os2,
  run other parse a es1 = Some (a1, os1) -> run other parse a1 es2 = Some (a2, os2) ->
  run other parse a (es1 ++ es2) = Some (a2, os1 ++ os2).
Proof.
  induction es1 as [|e es1 IH]; intros a a1 a2 es2 os1 os2 E1 E2; [by injection E1 as <- <-|].
  cbn [app run] in E1 |- *. destruct (step other parse a e) as [[a0 os0]|]; [|done]. cbn [mbind option_bind] in *.
  destruct (run other parse a0 es1) as [[a0' os0']|] eqn:E; [|done]. injection E1 as <- <-.
  rewrite (IH _ _ _ _ _ _ E E2). cbn. by rewrite <- app_assoc.
Qed.

(** Turns of the loop, each with its time and randomness: a node's and its agent's. *)
Definition turns (ts : list (Time * list byte)) : list PeerSession.event :=
  map (fun t => PeerSession.EvLoop t.1 t.2 true) ts.
Definition loop_turns (r : ref) (ts : list (Time * list byte)) : list event := map (fun t => EvLoop r t.1 t.2 true) ts.

Lemma run_turns ts r id : forall a n n' os,
  pair_state a r id n -> PeerSession.node_run (relay a) n (turns ts) = Some (n', os) ->
  exists h, run other parse a (loop_turns r ts) = Some (a <| heap := h |>, emitted a os) /\ h !! r = Some n'.
Proof.
  induction ts as [|[now rnd] ts IH]; intros a n n' os P E.
  - injection E as <- <-. exists (heap a). split; [by destruct a|apply P].
  - cbn [turns map fst snd PeerSession.node_run] in E. fold (turns ts) in E.
    destruct (PeerSession.node_step (relay a) n _) as [[n1 os1]|] eqn:E1; [|done]. cbn [mbind option_bind] in E.
    destruct (PeerSession.node_run _ _ _) as [[n2 os2]|] eqn:E2; [|done]. injection E as <- <-.
    destruct (IH (a <| heap := <[r := n1]> (heap a) |>) n1 n2 os2) as (h & E3 & Hh).
    { apply (pair_heap a r id n); [done|apply lookup_insert_eq]. }
    { exact E2. }
    exists h. split; [|exact Hh]. cbn [loop_turns map fst snd run step]. fold (loop_turns r ts). unfold at_peer.
    rewrite (ps_heap _ _ _ _ P), (on_peer_pair _ _ _ _ _ _ _ P E1). cbn [mbind option_bind].
    rewrite E3. cbn [mbind option_bind]. unfold emitted. by rewrite omap_app.
Qed.

Lemma pair_source a r id n src ep :
  pair_state a r id n -> PeerSession.DirectEP (PeerSession.peer n) = Some ep -> addr_String src = addr_String ep ->
  match relay a with Some ra => addr_String src <> addr_String ra | None => True end -> sole_source a src r.
Proof.
  intros [_ P2 P3 _] Hd Hs Hr. split; [done|]. rewrite P2. split; [exists id; apply lookup_singleton_eq|].
  intros id' r' [_ <-]%lookup_singleton_Some. split; [|done]. intros _. by exists n, ep.
Qed.

Lemma datagram_to_peer a r id n now rnd src ep f n' os :
  pair_state a r id n -> PeerSession.DirectEP (PeerSession.peer n) = Some ep -> addr_String src = addr_String ep ->
  match relay a with Some ra => addr_String src <> addr_String ra | None => True end ->
  PeerSession.node_step (relay a) n (PeerSession.EvFrame now rnd (Some src) f) = Some (n', os) ->
  exists a', run other parse a [EvDatagram now rnd src f] = Some (a', emitted a os) /\
    pair_state a' r id n' /\ relay a' = relay a /\ cfg a' = cfg a /\ bridge a' = bridge a.
Proof.
  intros P Hd Hs Hr E. eexists. split.
  - cbn [run step]. unfold receive, unwrap. rewrite (ps_door _ _ _ _ P).
    rewrite (sole_source_demux a src r now f) by by eapply pair_source.
    rewrite (on_peer_pair _ _ _ _ _ _ _ P E). cbn [mbind option_bind]. by rewrite app_nil_r.
  - split_and!; try done. apply (pair_heap a r id n); [done|apply lookup_insert_eq].
Qed.

Lemma emitted_direct a ep f : door a = None -> emitted a [PeerSession.SendDirect (Some ep) f] = [Wire ep f].
Proof. intros H. unfold emitted. cbn. unfold SendDirect, sendDatagram. by rewrite H. Qed.

(** ** The tunnel *)

Lemma tunnel_up a b r r' id id' nA nB keyA keyB epA epB src dst ba bb limit :
  pair_state a r id nA -> pair_state b r' id' nB ->
  PeerHandshake.up PathDirect (PeerSession.peer nA) (PeerSession.peer nB) keyB epB -> PeerHandshake.up PathDirect (PeerSession.peer nB) (PeerSession.peer nA) keyA epA ->
  bridge a = Some ba -> Tun.routes (router ba) !! dst = Some r ->
  bridge b = Some bb -> dev_closed bb = false -> limit <= dev_mtu bb -> limit <= maxPlaintextLen ->
  addr_String src = addr_String epA ->
  match relay b with Some ra => addr_String src <> addr_String ra | None => True end ->
  tunnel a b dst epB src r r' (MaxNonce + 1) limit.
Proof.
  intros PA PB UA UB Hba Hrt Hbb Hop Hmtu Hlim Hsrc Hra. constructor.
  - apply PA.
  - apply PB.
  - by exists ba.
  - by exists bb.
  - apply (pair_source b r' id' nB src epA); [done|apply UB|done|done].
  - apply PB.
  - exists nA, nB. split; [apply PA|]. split; [apply PB|]. destruct UA as [_ _ Hp He _ Hl Hn].
    split_and!; try done; [by rewrite Hp|apply UB|]. unfold PeerHandshake.payload_limit. by rewrite Hp.
Qed.

(** A member of the overlay: a new agent with its configuration and keys, not behind a NAT
    box, its public endpoint as it shows in its datagrams, and as it reads for the other;
    [dst] is what it calls its [peer], whose datagrams come from [from]. *)
Record member (c : Config) (k : Keypair) (relayAddr : string) a (ext ep from : UDPAddr) (peer : string)
    (dst : Tun.Addr) : Prop := {
  mb_new : New other c k "" relayAddr = Ok a;
  mb_keys : genuine k;
  mb_tun : tun_config c peer dst;
  mb_ext : resolves ext ep;
  mb_relay : match relay a with Some ra => addr_String from <> addr_String ra | None => True end
}.

Lemma located_announcement c k relayAddr a ext ep from peer dst cid :
  member c k relayAddr a ext ep from peer dst ->
  let info := announcement (a <| pub := Some ext |>) cid in
  pi_ID info = Name c /\ ParsePublicKeyHex (pi_PubKey info) = Ok (Public k) /\ firstEndpoint other info = Some ep.
Proof.
  intros [Hn Hk _ [He _] _]. assert (H0 : cfg a = c /\ kp a = k).
  { unfold New in Hn. repeat (destr_in Hn; try done); by apply Ok_inj in Hn as <-. }
  destruct H0 as [E1 E2]. cbn. rewrite E1, E2. split_and!; [done| |exact He].
  by apply ParsePublicKeyHex_PublicHex, genuine_public.
Qed.

(** A member's start, and turns of its peer's loop. *)
Lemma member_starts c k relayAddr a ext ep from peer dst now plain msg mtu info key ep' cid ts n' os :
  member c k relayAddr a ext ep from peer dst ->
  DecodeLine plain = Ok msg -> Type_ msg = TypePeerList ->
  elems (Peers msg) ≡ₚ [announcement (a <| pub := Some ext |>) cid; info] ->
  pi_ID info = peer -> peer <> Name c -> ParsePublicKeyHex (pi_PubKey info) = Ok key ->
  firstEndpoint other info = Some ep' ->
  PeerSession.node_run (relay a)
    (PeerSession.MkNode (PeerSession.New (L := L) (Name c) peer key (Some ep') k) PeerSession.NotStarted)
    (turns ts) = Some (n', os) ->
  exists a' ba, run other parse a (startup now ext plain mtu ++ loop_turns 0 ts)
      = Some (a', emitted a' os) /\
    bridge a' = Some ba /\ dev_closed ba = false /\ dev_mtu ba = mtu /\ Tun.routes (router ba) !! dst = Some 0%nat /\
    relay a' = relay a /\ cfg a' = c /\ pair_state a' 0%nat peer n'.
Proof.
  intros [Hn _ Ht _ _] Hd Hty Hl Hid Hne Hk He Hrun. subst peer.
  destruct (startup_run c k relayAddr a now ext plain msg mtu info key dst cid ep' Hn Ht Hd Hty Hl Hne Hk He)
    as (a1 & ba & E & B1 & B2 & B3 & B4 & R & C & P).
  rewrite <- R in Hrun. destruct (run_turns ts _ _ _ _ _ _ P Hrun) as (h & Eh & Hh).
  exists (a1 <| heap := h |>), ba. split.
  { exact (run_after _ _ _ _ _ _ _ E Eh). }
  split_and!; try done. by apply (pair_heap _ _ _ _ _ _ P).
Qed.

(** [C4] The overlay forms: two configured agents with keys of the right form, told of each
    other by the coordinator's list of the two as they registered, start, punch, and after
    the three handshake datagrams are authenticated under each other's key and joined by a
    tunnel in both directions, with every nonce of the session left. *)
Theorem overlay_forms (cA cB : Config) (kA kB : Keypair) (relayA relayB : string) (a b : Agent L)
    (extA extB epA epB : UDPAddr) (dstA dstB : Tun.Addr) (plain : list byte) (msg : Message)
    (cidA cidB : Coordinator.conn) (mtuA mtuB limit : Z) (t0 t1 t2 t3 : Time) (rA rB r2 r3 : list byte)
    (HA : member cA kA relayA a extA epA extB (Name cB) dstB)
    (HB : member cB kB relayB b extB epB extA (Name cA) dstA)
    (Hrole : RoleIsInitiator (Name cA) (Name cB) = true)
    (Hdec : DecodeLine plain = Ok msg) (Htype : Type_ msg = TypePeerList)
    (Hlist : elems (Peers msg) ≡ₚ [announcement (a <| pub := Some extA |>) cidA;
                                  announcement (b <| pub := Some extB |>) cidB])
    (HrA : len rA = 32) (HrB : len rB = 32) (Ht0 : HS1ResendInterval <= t0) (Ht1 : Second <= t1)
    (Hlimit : limit <= mtuA /\ limit <= mtuB /\ limit <= maxPlaintextLen) :
  exists a1 a2 b1 b2 b3 f1 f2 f3 nA nB,
    run other parse a (startup t0 extA plain mtuA ++ replicate 5 (EvLoop 0 t0 rA true)) = Some (a1, [Wire epB f1]) /\
    run other parse b (startup t0 extB plain mtuB ++ replicate 1 (EvLoop 0 t0 rB true)) = Some (b1, []) /\
    run other parse b1 [EvDatagram t1 rB extA f1] = Some (b2, [Wire epA f2]) /\
    run other parse a1 [EvDatagram t2 r2 extB f2] = Some (a2, [Wire epB f3]) /\
    run other parse b2 [EvDatagram t3 r3 extA f3] = Some (b3, []) /\
    pair_state a2 0%nat (Name cB) nA /\ pair_state b3 0%nat (Name cA) nB /\
    PeerHandshake.up PathDirect (PeerSession.peer nA) (PeerSession.peer nB) (Public kB) epB /\
    PeerHandshake.up PathDirect (PeerSession.peer nB) (PeerSession.peer nA) (Public kA) epA /\
    tunnel a2 b3 dstB epB extA 0%nat 0%nat (MaxNonce + 1) limit /\
    tunnel b3 a2 dstA epA extB 0%nat 0%nat (MaxNonce + 1) limit.
Proof.
  destruct Hlimit as (L1 & L2 & L3).
  assert (Hne : Name cA <> Name cB).
  { intros E. pose proof (RoleIsInitiator_asym _ _ Hrole) as H. rewrite E in H, Hrole. congruence. }
  destruct (located_announcement _ _ _ _ _ _ _ _ _ cidA HA) as (IA & KA & EA).
  destruct (located_announcement _ _ _ _ _ _ _ _ _ cidB HB) as (IB & KB & EB).
  pose proof (mb_ext _ _ _ _ _ _ _ _ _ HA) as [_ XA]. pose proof (mb_ext _ _ _ _ _ _ _ _ _ HB) as [_ XB].
  pose proof (mb_relay _ _ _ _ _ _ _ _ _ HA) as RA. pose proof (mb_relay _ _ _ _ _ _ _ _ _ HB) as RB.
  destruct (peers_meet (relay a) (relay b) (Name cA) (Name cB) kA kB epA epB extA extB t0 t1 t2 t3 rA rB r2 r3)
    as (nA & nA' & nB & nB' & nB'' & f1 & f2 & f3 & N1 & N2 & N3 & N4 & N5 & D1 & D2 & D3 & UA & UB); try done.
  { apply (mb_keys _ _ _ _ _ _ _ _ _ HA). }
  { apply (mb_keys _ _ _ _ _ _ _ _ _ HB). }
  { unfold PeerSession.framePath. destruct (relay b); [by rewrite bool_decide_eq_false_2|done]. }
  { unfold PeerSession.framePath. destruct (relay a); [by rewrite bool_decide_eq_false_2|done]. }
  destruct (member_starts _ _ _ _ _ _ _ _ _ t0 plain msg mtuA _ (Public kB) epB cidA (replicate 5 (t0, rA)) nA
              [PeerSession.SendDirect (Some epB) f1] HA Hdec Htype Hlist IB) as (a1 & ba & S1 & A1 & A2 & A3 & A4 & A5 & _ & PA); try done.
  destruct (member_starts _ _ _ _ _ _ _ _ _ t0 plain msg mtuB _ (Public kA) epA cidB (replicate 1 (t0, rB)) nB [] HB Hdec Htype
              (Permutation_trans Hlist (Permutation_swap _ _ _)) IA) as (b1 & bb & S2 & B1 & B2 & B3 & B4 & B5 & _ & PB); try done.
  rewrite <- B5 in N3. rewrite <- A5 in N4, RA. rewrite <- B5 in N5, RB.
  destruct (datagram_to_peer _ _ _ _ _ _ extA epA _ _ _ PB D2 (eq_sym XA) RB N3) as (b2 & S3 & PB2 & R2 & _ & BB2).
  destruct (datagram_to_peer _ _ _ _ _ _ extB epB _ _ _ PA D1 (eq_sym XB) RA N4) as (a2 & S4 & PA2 & R3 & _ & BA2).
  rewrite <- R2 in N5, RB. rewrite <- R3 in RA.
  destruct (datagram_to_peer _ _ _ _ _ _ extA epA _ _ _ PB2 D3 (eq_sym XA) RB N5) as (b3 & S5 & PB3 & R4 & _ & BB3).
  rewrite <- R4 in RB. rewrite A1 in BA2. rewrite <- BB3 in BB2. rewrite B1 in BB2.
  rewrite emitted_direct in S1, S3, S4 by apply PA || apply PB.
  exists a1, a2, b1, b2, b3, f1, f2, f3, nA', nB''. split_and!; try done.
  - by apply (tunnel_up a2 b3 _ _ _ _ nA' nB'' (Public kA) (Public kB) epA epB extA dstB ba bb limit PA2 PB3); rewrite ?B3, ?A3.
  - by apply (tunnel_up b3 a2 _ _ _ _ nB'' nA' (Public kB) (Public kA) epB epA extB dstA bb ba limit PB3 PA2); rewrite ?B3, ?A3.
Qed.
End Overlay.

(** ** A witness: alice and bob *)

#[local] Existing Instances Toy.lib Toy.laws Toy.xx.

Module Demo.
Definition kA := PeerHandshake.Demo.kA.
Definition kB := PeerHandshake.Demo.kB.
Definition rA := PeerHandshake.Demo.rA.
Definition rB := PeerHandshake.Demo.rB.
Definition extA := PeerHandshake.Demo.epA.
Definition extB := PeerHandshake.Demo.epB.
(** As they read back: the IPv4 addresses in the sixteen-byte form. *)
Definition epA : UDPAddr := MkUDPAddr (v4InV6Prefix ++ [x0a; x00; x00; x01]) 1001 "".
Definition epB : UDPAddr := MkUDPAddr (v4InV6Prefix ++ [x0a; x00; x00; x02]) 1002 "".
Definition T : Time := 100 * Second.
Definition ipA : Tun.Addr := Tun.Addr4 x0a x3c x00 x01.
Definition ipB : Tun.Addr := Tun.Addr4 x0a x3c x00 x02.

Definition no_host : string -> option UDPAddr := fun _ => None.
Definition parse (s : string) : option Tun.Addr :=
  if bool_decide (s = "10.60.0.1"%string) then Some ipA
  else if bool_decide (s = "10.60.0.2"%string) then Some ipB else None.

Definition config (name ip peer peer_ip : string) : Config := MkConfig name "" "" "tun0" ip {[peer := peer_ip]}.
Definition cA : Config := config "alice" "10.60.0.1" "bob" "10.60.0.2".
Definition cB : Config := config "bob" "10.60.0.2" "alice" "10.60.0.1".
Definition fresh (c : Config) (k : Keypair) : Agent Toy.lib :=
  MkAgent c k None None None ∅ 0%nat ∅ ∅ ∅ None ∅ ∅ ∅ 0%nat ∅ ∅ ∅ ∅ None false.

(** The list the coordinator sends after both have registered. *)
Definition peer_list : Message :=
  MkMessage TypePeerList "" "" None
    (Some [announcement (fresh cB kB <| pub := Some extB |>) 1%nat;
           announcement (fresh cA kA <| pub := Some extA |>) 0%nat]) "" 0 0 0.

#[local] Instance json : Json := {
  Unmarshal l := if bool_decide (l = [x6c]) then Some peer_list else None
}.
#[local] Instance ping_json : PingJson := { UnmarshalPing l := None }.
#[local] Instance order : RangeOrder := {
  ranged A _ l := l;
  ranged_perm A _ l := reflexivity l
}.

Lemma configured (name ip peer peer_ip : string) dst :
  is_Some (parse ip) -> parse peer_ip = Some dst -> Tun.Is4 dst = true ->
  tun_config parse (config name ip peer peer_ip) peer dst.
Proof.
  intros Hip Hp H4. constructor; try done; [by right| |].
  - apply map_Forall_singleton. by exists dst.
  - exists peer_ip. split; [apply lookup_singleton_eq|done].
Qed.

Lemma joins (name ip peer peer_ip : string) (k : Keypair) ext ep from dst :
  genuine k -> is_Some (parse ip) -> parse peer_ip = Some dst -> Tun.Is4 dst = true ->
  resolves no_host ext ep ->
  member no_host parse (config name ip peer peer_ip) k "" (fresh (config name ip peer peer_ip) k) ext ep from peer dst.
Proof. intros. constructor; try done. by apply configured. Qed.
End Demo.
#[local] Existing Instances Demo.json Demo.ping_json Demo.order.

Example overlay_forms_witness :
  exists a2 b3 : Agent Toy.lib,
    tunnel a2 b3 Demo.ipB Demo.epB Demo.extA 0%nat 0%nat (MaxNonce + 1) 1000 /\
    tunnel b3 a2 Demo.ipA Demo.epA Demo.extB 0%nat 0%nat (MaxNonce + 1) 1000.
Proof.
  destruct (overlay_forms Demo.no_host Demo.parse Demo.cA Demo.cB Demo.kA Demo.kB "" ""
              (Demo.fresh Demo.cA Demo.kA) (Demo.fresh Demo.cB Demo.kB) Demo.extA Demo.extB Demo.epA Demo.epB
              Demo.ipA Demo.ipB [x6c] Demo.peer_list 0%nat 1%nat 1500 1500 1000 Demo.T Demo.T Demo.T Demo.T
              Demo.rA Demo.rB Demo.rA Demo.rB)
    as (a1 & a2 & b1 & b2 & b3 & f1 & f2 & f3 & nA & nB & _ & _ & _ & _ & _ & _ & _ & _ & _ & H1 & H2).
  - apply Demo.joins; try reflexivity; [by split|by eexists|by split; vm_compute].
  - apply Demo.joins; try reflexivity; [by split|by eexists|by split; vm_compute].
  - reflexivity.
  - reflexivity.
  - reflexivity.
  - apply Permutation_swap.
  - reflexivity.
  - reflexivity.
  - by vm_compute.
  - by vm_compute.
  - by vm_compute.
  - by exists a2, b3.
Defined.
