(* ===== verification/Fallback.v ===== *)
(** * The overlay over the relay (agent.go, peer.go and relay.go composed)

    Two agents whose direct datagrams do not get through: their loops try the direct path,
    give it up, and establish over the relay, which pins both names and forwards the three
    messages of the handshake. *)

From S2P Require Import Prelude GoBytes GoRuntime GoNet Framing Disco NoiseLib Noisework Protocol.
From S2P Require Import PeerLoop Agent AgentSafety AgentPeers Tunnel Overlay.
From S2P Require Replay Transport PeerSession PeerSafety PeerHandshake Tun Nat Relay AgentNet.

#[local] Existing Instance PeerSession.Peer_eta.

(** ** The loop gives the direct path up *)

Section Loop.
Context {L : NoiseLib} {W : NoiseLaws L} {XX : XXLaws L}.
Import PeerSession.
Implicit Types (n : Node L) (p : Peer L) (ra : option UDPAddr).

(** The relay attempt that a direct one becomes. *)
Definition switched p (now : Time) : Peer L :=
  resetHandshakeLocked (p <| mode := PathRelay |>) <| phaseStart := now |>.

(** The first attempt at [t0], a second at [t1], after which the direct path is given up,
    and one over the relay at [t2]. *)
Definition attempts (t0 t1 t2 : Time) (r0 r2 : list byte) : list event :=
  loops 6 t0 r0 ++ loops 5 t1 r0 ++ loops 4 t2 r2.

Lemma loop_falls_back rr p ep (t0 t1 t2 : Time) r0 r2 pa pb pd o1 o2 o3 :
  let p1 := p <| mode := PathDirect |> <| phaseStart := t0 |> in
  DirectEP p = Some ep -> established p = false -> responder p = None -> t0 + DirectAttempt < t1 ->
  punch (Some rr) p1 t0 r0 PathDirect = Some (Some (pa, Some o1)) ->
  punch (Some rr) pa t1 r0 PathDirect = Some (Some (pb, Some o2)) ->
  punch (Some rr) (switched pb t1) t2 r2 PathRelay = Some (Some (pd, Some o3)) ->
  exists c, node_run (Some rr) (MkNode p NotStarted) (attempts t0 t1 t2 r0 r2) = Some (MkNode pd c, [o1; o2; o3]).
Proof.
  intros p1 Hep He Hr Ht P1 P2 P3. pose proof (punch_same _ _ _ _ _ _ _ P1) as S1.
  pose proof (punch_same _ _ _ _ _ _ _ P2) as S2.
  assert (Ma : mode pa = PathDirect) by by rewrite (sa_mode _ _ S1).
  assert (Fa : phaseStart pa = t0) by by rewrite (sa_phase _ _ S1).
  assert (E0 : node_run (Some rr) (MkNode p NotStarted) (loops 6 t0 r0) = Some (MkNode pa Waiting, [o1])).
  { change (loops 6 t0 r0) with (loops 1 t0 r0 ++ loops 5 t0 r0).
    apply (node_run_after _ _ _ _ _ _ [] [o1] (loop_starts (Some rr) p ep t0 r0 Hep)).
    apply tick_punches; try done; [by apply tick_none|]. cbn. rewrite Z.sub_diag. done. }
  assert (E1 : node_run (Some rr) (MkNode pa Waiting) (loops 5 t1 r0) = Some (MkNode (switched pb t1) Waiting, [o2])).
  { change (loops 5 t1 r0) with (loops 4 t1 r0 ++ loops 1 t1 r0). eapply (node_run_after _ _ _ _ _ _ [o2] []).
    - apply loop_round; [by rewrite (sa_est _ _ S1)|apply tick_none; by rewrite (sa_resp _ _ S1)|by rewrite Ma].
    - rewrite loop_phase. change (s_phaseStart (snap pa)) with (phaseStart pa).
      change (s_mode (snap pa)) with (mode pa). rewrite Fa, Ma. change (attemptFor PathDirect) with DirectAttempt.
      rewrite Sub_gtb by done. rewrite (proj2 (Z.gtb_lt _ _)) by lia. done. }
  eexists. apply (node_run_after _ _ _ _ _ _ [o1] [o2; o3] E0).
  apply (node_run_after _ _ _ _ _ _ [o2] [o3] E1).
  apply loop_round; [|by apply tick_none|exact P3].
  cbn. by rewrite (sa_est _ _ S2), (sa_est _ _ S1).
Qed.

(** ** The attempts of the two sides *)

Lemma punch_relay ra p now r m i :
  initiator p = true -> HS1ResendInterval <= Sub now (lastHS1 p) -> hs1Frame p = None ->
  startInitiator p r = Some (m, i) ->
  exists f, Parse f = Ok (TypeHS1, m) /\
    punch ra p now r PathRelay =
      Some (Some (p <| initiatorHS := Some i |> <| hs1Frame := Some f |> <| lastHS1 := now |>,
                  Some (SendRelay (ID p) f))).
Proof.
  intros Hi Hl Hn Hs. unfold punch. rewrite Hi, (proj2 (Z.geb_le _ _)), Hn, Hs by done.
  destruct (PeerSafety.Frame_fits TypeHS1 m) as [f Hf]; [by eapply PeerSafety.startInitiator_len|].
  exists f. rewrite Hf. split; [by apply Parse_Ok_Frame|]. done.
Qed.

Lemma initiator_falls_back rr (idA idB : string) (key : list byte) ep k (t0 t1 t2 : Time) r0 r2 m0 i0 m i :
  let p := New (L := L) idA idB key (Some ep) k in
  RoleIsInitiator idA idB = true -> HS1ResendInterval <= t0 -> t0 + DirectAttempt < t1 -> t1 + HS1ResendInterval <= t2 ->
  (forall q, myKp q = k -> peerKey q = key -> startInitiator (L := L) q r0 = Some (m0, i0)) ->
  (forall q, myKp q = k -> peerKey q = key -> startInitiator (L := L) q r2 = Some (m, i)) ->
  exists n d f, Parse f = Ok (TypeHS1, m) /\
    node_run (Some rr) (MkNode p NotStarted) (attempts t0 t1 t2 r0 r2)
    = Some (n, [SendDirect (Some ep) d; SendDirect (Some ep) d; SendRelay idB f]) /\
    initiatorHS (peer n) = Some i /\ initiator (peer n) = true /\ sess (peer n) = None /\ sessions (peer n) = [] /\
    peerKey (peer n) = key /\ ID (peer n) = idB /\ DirectEP (peer n) = Some ep /\
    closed (peer n) = false /\ recvClosed (peer n) = false /\ recvQ (peer n) = [].
Proof.
  intros p Hrole H0 H1 H2 HS0 HS2. set (p1 := p <| mode := PathDirect |> <| phaseStart := t0 |>).
  assert (Hmax : HS1ResendInterval <= maxDuration) by done.
  destruct (PeerHandshake.punch_first (Some rr) p1 t0 r0 ep m0 i0) as (d & _ & P1); try done.
  { apply PeerHandshake.Sub_ge; [done|]. cbn. lia. }
  { by apply HS0. }
  set (pa := _ <| lastHS1 := t0 |>) in P1.
  assert (Hd : HS1ResendInterval < DirectAttempt) by done.
  pose proof (PeerHandshake.punch_again (Some rr) pa t1 r0 ep d Hrole) as P2. specialize (P2 ltac:(apply PeerHandshake.Sub_ge; [done|cbn; lia]) eq_refl eq_refl).
  set (pb := pa <| lastHS1 := t1 |>) in P2.
  destruct (punch_relay (Some rr) (switched pb t1) t2 r2 m i) as (f & Hf & P3); try done.
  { apply PeerHandshake.Sub_ge; [done|]. cbn. lia. }
  { by apply HS2. }
  destruct (loop_falls_back rr p ep t0 t1 t2 r0 r2 pa pb _ _ _ _ eq_refl eq_refl eq_refl H1 P1 P2 P3) as [c E].
  eexists _, d, f. split; [exact Hf|]. split; [exact E|]. by cbn.
Qed.

Lemma responder_falls_back rr (idB idA : string) (key : list byte) ep k (t0 t1 t2 : Time) r0 r2 :
  let p := New (L := L) idB idA key (Some ep) k in
  RoleIsInitiator idB idA = false -> t0 + DirectAttempt < t1 ->
  exists n, node_run (Some rr) (MkNode p NotStarted) (attempts t0 t1 t2 r0 r2)
    = Some (n, [SendDirect (Some ep) probe_frame; SendDirect (Some ep) probe_frame; SendRelay idA probe_frame]) /\
    peer n = switched (p <| mode := PathDirect |> <| phaseStart := t0 |>) t1.
Proof.
  intros p Hrole Ht.
  destruct (loop_falls_back rr p ep t0 t1 t2 r0 r2 (p <| mode := PathDirect |> <| phaseStart := t0 |>)
              (p <| mode := PathDirect |> <| phaseStart := t0 |>) (switched (p <| mode := PathDirect |> <| phaseStart := t0 |>) t1)
              (SendDirect (Some ep) probe_frame) (SendDirect (Some ep) probe_frame) (SendRelay idA probe_frame)
              eq_refl eq_refl eq_refl Ht) as [c E]; [by apply (punch_probe (Some rr))..|].
  eexists. split; [exact E|done].
Qed.

(** The attempts, and then the handshake over the relay. *)
Lemma peers_fall_back (ra rb : UDPAddr) (idA idB : string) (kA kB : Keypair) (epA epB srcA srcB : UDPAddr) (t0 t1 t2 t3 t4 t5 : Time)
    (r0 rA rB s0 r4 r5 : list byte) :
  let new x y k ep key := MkNode (New (L := L) x y key (Some ep) k) NotStarted in
  RoleIsInitiator idA idB = true -> genuine kA -> genuine kB ->
  len r0 = 32 -> len rA = 32 -> len rB = 32 ->
  HS1ResendInterval <= t0 -> t0 + DirectAttempt < t1 -> t1 + HS1ResendInterval <= t2 -> Second <= t3 ->
  framePath (Some rb) (Some srcB) = PathRelay -> framePath (Some ra) (Some srcA) = PathRelay ->
  exists nA nA' nB nB' nB'' d f1 f2 f3,
    node_run (Some ra) (new idA idB kA epB (Public kB)) (attempts t0 t1 t2 r0 rA)
      = Some (nA, [SendDirect (Some epB) d; SendDirect (Some epB) d; SendRelay idB f1]) /\
    node_run (Some rb) (new idB idA kB epA (Public kA)) (attempts t0 t1 t2 s0 s0)
      = Some (nB, [SendDirect (Some epA) probe_frame; SendDirect (Some epA) probe_frame; SendRelay idA probe_frame]) /\
    node_step (Some rb) nB (EvFrame t3 rB (Some srcB) f1) = Some (nB', [SendRelay idA f2]) /\
    node_step (Some ra) nA (EvFrame t4 r4 (Some srcA) f2) = Some (nA', [SendRelay idB f3]) /\
    node_step (Some rb) nB' (EvFrame t5 r5 (Some srcB) f3) = Some (nB'', []) /\
    PeerHandshake.up PathRelay (peer nA') (peer nB'') (Public kB) epB /\ PeerHandshake.up PathRelay (peer nB'') (peer nA') (Public kA) epA.
Proof.
  intros new Hrole HkA HkB Hr0 HrA HrB Ht0 Ht1 Ht2 Ht3 HsB HsA.
  pose proof (RoleIsInitiator_asym _ _ Hrole) as HroleB.
  pose proof (genuine_public _ HkA) as LA. pose proof (genuine_public _ HkB) as LB.
  destruct (PeerHandshake.machines_run kA kB r0 rB t4 t5 HkA HkB Hr0 HrB) as (m0 & i0 & _ & _ & _ & _ & _ & _ & _ & _ & _ & _ & M0 & _).
  destruct (PeerHandshake.machines_run kA kB rA rB t4 t5 HkA HkB HrA HrB)
    as (m1 & i1 & m2 & q0 & q1 & q2 & m3 & i2 & i3 & q3 & sA & sB & M1 & N0 & M2 & M3 & M4 & M5 &
        M6 & Hm3 & PA & PB & _ & AB & BA & CA & CB).
  destruct (initiator_falls_back ra idA idB (Public kB) epB kA t0 t1 t2 r0 rA m0 i0 m1 i1 Hrole Ht0 Ht1 Ht2
              ltac:(intros q Hk Hp; by apply M0) ltac:(intros q Hk Hp; by apply M1))
    as (nA & d & f1 & P1 & EA & A1 & A2 & A3 & A4 & A5 & A6 & A7 & A8 & A9 & A10).
  destruct (responder_falls_back rb idB idA (Public kA) epA kB t0 t1 t2 s0 s0 HroleB Ht1) as (nB & EB & HnB).
  set (b1 := peer nB) in *.
  assert (Hb1 : countHS1 b1 t3 = b1 <| hsBurstStart := t3 |> <| hsBurstCount := 1 |>)
    by (rewrite HnB; apply PeerHandshake.countHS1_fresh; cbn; lia).
  destruct (PeerHandshake.onHS1_path b1 t3 rB m1 m2 PathRelay (SendRelay (ID b1)) q0 q1 q2) as (f2 & P2 & E1);
    try (by rewrite HnB); try done; [by rewrite Hb1|].
  assert (IDb : ID b1 = idA) by by rewrite HnB. rewrite Hb1, IDb in E1. set (b2 := _ <| phaseStart := t3 |>) in E1.
  destruct (PeerHandshake.onHS2_path (peer nA) t4 m2 m3 PathRelay (SendRelay (ID (peer nA))) i1 i2 i3 0%nat
              [newSession DefaultRekeyEvery] [sA] sA)
    as (f3 & a3 & P3 & E2 & Q1 & Q2 & Q3 & Q4 & Q5 & Q6 & Q7 & Q8 & Q9 & Q10 & Q11 & Q12 & _);
    try done; try (by rewrite A5); [by rewrite A4|].
  rewrite A6 in E2.
  assert (Hb2 : sess b2 = None /\ sessions b2 = [] /\ peerKey b2 = Public kA /\ DirectEP b2 = Some epA /\
                closed b2 = false /\ recvClosed b2 = false /\ recvQ b2 = [] /\ initiator b2 = false /\ responder b2 = Some q2).
  { unfold b2. rewrite HnB. by cbn. }
  destruct Hb2 as (B1 & B2 & B3 & B4 & B5 & B6 & B7 & B8 & B9).
  destruct (PeerHandshake.onHS3_path b2 t5 m3 PathRelay q2 q3 0%nat [sB] sB)
    as (b3 & E3 & R1 & R2 & R3 & R4 & R5 & R6 & R7 & R8 & R9); try done; [by rewrite B2|by rewrite B3..|].
  exists nA, (MkNode a3 (pc nA)), nB, (MkNode b2 (pc nB)), (MkNode b3 (pc nB)), d, f1, f2, f3.
  split; [exact EA|]. split; [exact EB|]. cbn [node_step peer pc].
  change (peer nB) with b1.
  rewrite (PeerHandshake.HandleFrame_HS1 (Some rb) b1 t3 rB (Some srcB) f1 m1 _ P1 HsB), E1 by by rewrite HnB.
  rewrite (PeerHandshake.HandleFrame_HS2 (Some ra) (peer nA) t4 r4 (Some srcA) f2 m2 _ P2 HsA A2), E2.
  rewrite (PeerHandshake.HandleFrame_HS3 (Some rb) b2 t5 r5 (Some srcB) f3 m3 _ P3 HsB B8), E3.
  split_and!; try done.
  - apply (PeerHandshake.up_paired PathRelay a3 b3 sA sB); try done; congruence.
  - apply (PeerHandshake.up_paired PathRelay b3 a3 sB sA); try done; congruence.
Qed.
End Loop.

(** ** A relay without budgets *)

Section Relay.
Import Relay.
Implicit Types s : Server.

(** The configuration of a relay whose budgets are off: a negative cap disables one. *)
Record unmetered (c : Config) : Prop := {
  un_pps : MaxPPS c < 0;
  un_bytes : MaxBytesPS c < 0;
  un_name : NameQuotaBytes c < 0;
  un_gpps : GlobalMaxPPS c < 0;
  un_gbytes : GlobalMaxBytesPS c < 0;
  un_grace : 0 < PinGrace c < 2 ^ 62
}.

Lemma take_off m key amount cap now : cap < 0 -> take_key m key amount cap now = (true, m).
Proof. intros H. unfold take_key. destruct (cap <=? 0) eqn:E; [done|]. zbool. lia. Qed.
Lemma takeGlobal_off c amount cap now : cap < 0 -> takeGlobal c amount cap now = (true, c).
Proof. intros H. unfold takeGlobal. destruct (cap <=? 0) eqn:E; [done|]. zbool. lia. Qed.

Lemma draw_global_off s n now : unmetered (cfg s) -> exists s', draw_global s n now = (true, s') /\ pins s' = pins s /\ cfg s' = cfg s.
Proof.
  intros U. destruct (draw_global s n now) as [ok s'] eqn:E. pose proof (draw_global_pins _ _ _ _ _ E) as (P & C & _).
  unfold draw_global in E. rewrite takeGlobal_off in E by apply U. cbn in E. rewrite takeGlobal_off in E by apply U.
  injection E as <- <-. by eexists.
Qed.

Lemma draw_source_off s key n now : unmetered (cfg s) ->
  exists s', draw_source s key n now = (true, s') /\ pins s' = pins s /\ cfg s' = cfg s.
Proof.
  intros U. destruct (draw_source s key n now) as [ok s'] eqn:E. pose proof (draw_source_pins _ _ _ _ _ _ E) as (P & C & _).
  unfold draw_source in E. rewrite take_off in E by apply U. cbn in E. rewrite take_off in E by apply U.
  injection E as <- <-. by eexists.
Qed.

(** Nobody else holds the name. *)
Definition admits s (name : string) (src : option UDPAddr) : Prop :=
  forall q, pins s !! name = Some q -> addrEqual (addr q) src = true.

Lemma swept_pins s now n q : pins (maybeSweep s now) !! n = Some q -> pins s !! n = Some q.
Proof.
  unfold maybeSweep. repeat destr; try done. cbn. unfold sweep_pins. intros [H _]%map_lookup_filter_Some. done.
Qed.

Lemma check_pin_admits s id src now : admits s id src ->
  exists q, check_pin s id src now = Some (with_pins s (<[id := q]> (pins s))) /\ lastSeen q = now /\
    addrEqual (addr q) src = true.
Proof.
  intros H. unfold check_pin. destruct (pins s !! id) as [q|] eqn:E.
  - rewrite (H q E). eexists. split; [done|]. split; [done|]. exact (H q E).
  - eexists. split; [done|]. split; [done|]. apply addrEqual_refl.
Qed.

(** Packets on an unmetered relay: the source is pinned, the other names stay as they are,
    and the packet goes to where its destination is pinned, if it is. *)
Lemma relays s now pkt src id dst f :
  unmetered (cfg s) -> ParsePacket pkt = Ok (id, dst, f) -> admits s id src ->
  exists s' o, handlePacket s now true pkt src = (s', o) /\ cfg s' = cfg s /\
    (exists q, pins s' !! id = Some q /\ lastSeen q = now /\ addrEqual (addr q) src = true) /\
    (forall n q, n <> id -> pins s' !! n = Some q -> pins s !! n = Some q) /\
    (forall n q, n <> id -> pins s !! n = Some q -> Sub now (lastSeen q) <= i64 (2 * PinGrace (cfg s)) ->
       pins s' !! n = Some q) /\
    (forall q, pins s' !! dst = Some q -> o = Some (addr q, pkt)).
Proof.
  intros U Hp Ha. unfold handlePacket. rewrite Hp, cloneAddr_id.
  destruct (maybeSweep_same s now) as [C0 _]. set (s0 := maybeSweep s now) in *.
  destruct (draw_global_off s0 (len pkt) now) as (s1 & -> & P1 & C1); [by rewrite C0|]. cbn [negb].
  assert (Ha1 : admits s1 id src) by (intros q Hq; rewrite P1 in Hq; by apply Ha, (swept_pins s now)).
  destruct (check_pin_admits s1 id src now Ha1) as (q & -> & Hq1 & Hq2).
  set (s2 := with_pins s1 _).
  destruct (draw_source_off s2 (ptr_String src) (len pkt) now) as (s3 & -> & P3 & C3); [by rewrite <- C0, <- C1 in U|].
  cbn [negb]. change (pins (incWrapped s3)) with (pins s3).
  assert (Hpins : forall s' : Server, pins s' = pins s3 ->
    (exists q, pins s' !! id = Some q /\ lastSeen q = now /\ addrEqual (addr q) src = true) /\
    (forall n q, n <> id -> pins s' !! n = Some q -> pins s !! n = Some q) /\
    (forall n q, n <> id -> pins s !! n = Some q -> Sub now (lastSeen q) <= i64 (2 * PinGrace (cfg s)) ->
       pins s' !! n = Some q)).
  { intros s' E. rewrite E, P3. cbn [pins s2 with_pins]. rewrite P1. split_and!.
    - exists q. by rewrite lookup_insert_eq.
    - intros n q' Hn. rewrite lookup_insert_ne by done. apply swept_pins.
    - intros n q' Hn Hq' Hs. rewrite lookup_insert_ne by done. by apply maybeSweep_pin. }
  assert (C : cfg s3 = cfg s) by (rewrite C3; cbn; congruence).
  destruct (pins s3 !! dst) as [d|] eqn:Ed.
  - rewrite take_off by (cbn; rewrite C; apply U). cbn [negb].
    rewrite (proj1 (ParsePacket_Ok_Wrap _ _ _ _) Hp), cloneAddr_id. eexists _, _. split; [done|]. split; [exact C|].
    destruct (Hpins (incForwarded (with_nameBytes (incWrapped s3) (nameBytes (incWrapped s3)))) eq_refl) as (H1 & H2 & H3).
    split_and!; try done. intros q' Hq'. cbn in Hq'. rewrite Ed in Hq'. by injection Hq' as <-.
  - eexists _, _. split; [done|]. split; [exact C|].
    destruct (Hpins (incDropped (incWrapped s3)) eq_refl) as (H1 & H2 & H3). split_and!; try done.
    intros q' Hq'. cbn in Hq'. congruence.
Qed.

(** The probe that pins the responder, and the three messages of a handshake. *)
Lemma relays_handshake s (nA nB : string) xA xB (u0 u1 u2 u3 : Time) p0 p1 p2 p3 f0 f1 f2 f3 :
  unmetered (cfg s) -> nA <> nB -> admits s nA xA -> admits s nB xB ->
  ParsePacket p0 = Ok (nB, nA, f0) -> ParsePacket p1 = Ok (nA, nB, f1) ->
  ParsePacket p2 = Ok (nB, nA, f2) -> ParsePacket p3 = Ok (nA, nB, f3) ->
  u1 - u0 <= PinGrace (cfg s) -> u2 - u1 <= PinGrace (cfg s) -> u3 - u2 <= PinGrace (cfg s) ->
  exists s1 s2 s3 s4 o0 yB yA yB',
    handlePacket s u0 true p0 xB = (s1, o0) /\
    handlePacket s1 u1 true p1 xA = (s2, Some (yB, p1)) /\
    handlePacket s2 u2 true p2 xB = (s3, Some (yA, p2)) /\
    handlePacket s3 u3 true p3 xA = (s4, Some (yB', p3)) /\
    addrEqual yB xB = true /\ addrEqual yA xA = true /\ addrEqual yB' xB = true.
Proof.
  intros U Hne HA HB P0 P1 P2 P3 H01 H12 H23.
  assert (Hkeep : forall t u, t - u <= PinGrace (cfg s) -> Sub t u <= i64 (2 * PinGrace (cfg s))).
  { intros t u H. pose proof (un_grace _ U). rewrite i64_small by lia. unfold Sub, minDuration. lia. }
  destruct (relays s u0 p0 xB nB nA f0 U P0 HB) as (s1 & o0 & E0 & C1 & (q0 & Q0 & L0 & X0) & B0 & _ & _).
  assert (HA1 : admits s1 nA xA) by (intros q Hq; by apply HA, (B0 nA)).
  assert (U1 : unmetered (cfg s1)) by by rewrite C1.
  destruct (relays s1 u1 p1 xA nA nB f1 U1 P1 HA1) as (s2 & o1 & E1 & C2 & (qA & QA & LA & XA) & B1 & K1 & O1).
  rewrite C1 in K1. pose proof (K1 nB q0 (not_eq_sym Hne) Q0 ltac:(rewrite L0; by apply Hkeep)) as Q0'.
  specialize (O1 q0 Q0') as ->.
  assert (HB2 : admits s2 nB xB) by (intros q Hq; congruence).
  assert (U2 : unmetered (cfg s2)) by by rewrite C2.
  destruct (relays s2 u2 p2 xB nB nA f2 U2 P2 HB2) as (s3 & o2 & E2 & C3 & (q1 & Q1 & L1 & X1) & B2 & K2 & O2).
  rewrite C2, C1 in K2. pose proof (K2 nA qA Hne QA ltac:(rewrite LA; by apply Hkeep)) as QA'.
  specialize (O2 qA QA') as ->.
  assert (HA3 : admits s3 nA xA) by (intros q Hq; congruence).
  assert (U3 : unmetered (cfg s3)) by by rewrite C3.
  destruct (relays s3 u3 p3 xA nA nB f3 U3 P3 HA3) as (s4 & o3 & E3 & C4 & _ & _ & K3 & O3).
  rewrite C3, C2, C1 in K3. pose proof (K3 nB q1 (not_eq_sym Hne) Q1 ltac:(rewrite L1; by apply Hkeep)) as Q1'.
  specialize (O3 q1 Q1') as ->.
  by exists s1, s2, s3, s4, o0, (addr q0), (addr qA), (addr q1).
Qed.
End Relay.

(** ** Two agents and a relay *)

Section Agents.
Context {L : NoiseLib} {W : NoiseLaws L} {XX : XXLaws L} {J : Json} {PJ : PingJson} {RO : RangeOrder}.
Context (other : string -> option UDPAddr) (parse : string -> option Tun.Addr).
Implicit Types (a b : Agent L) (n : PeerSession.Node L).

Lemma emitted_three a o1 o2 o3 : emitted a [o1; o2; o3] = emitted a [o1] ++ emitted a [o2] ++ emitted a [o3].
Proof. unfold emitted. by rewrite <- !omap_app. Qed.

(** A frame to a peer over the relay, as it leaves. *)
Lemma emitted_relay a (rr : UDPAddr) id f :
  door a = None -> relay a = Some rr -> Relay.validateName (Name (cfg a)) = Ok () -> Relay.validateName id = Ok () ->
  exists pkt, Relay.ParsePacket pkt = Ok (Name (cfg a), id, f) /\ emitted a [PeerSession.SendRelay id f] = [Wire rr pkt].
Proof.
  intros Hd Hr Hn Hi.
  assert (HW : exists pkt, Relay.WrapPacket (Name (cfg a)) id f = Ok pkt).
  { unfold Relay.WrapPacket. rewrite Hn, Hi. by eexists. }
  destruct HW as [pkt HW]. exists pkt. split; [by apply Relay.ParsePacket_Ok_Wrap|].
  unfold emitted. cbn. unfold SendRelay. rewrite Hr, HW. unfold sendDatagram. by rewrite Hd.
Qed.

(** A packet from the relay reaches the peer it names. *)
Lemma relayed_to_peer a r id n now rnd src (rr : UDPAddr) to pkt f n' os :
  pair_state a r id n -> relay a = Some rr -> addr_String src = addr_String rr ->
  Relay.ParsePacket pkt = Ok (id, to, f) ->
  PeerSession.node_step (relay a) n (PeerSession.EvFrame now rnd (Some src) f) = Some (n', os) ->
  exists a', run other parse a [EvDatagram now rnd src pkt] = Some (a', emitted a os) /\
    pair_state a' r id n' /\ relay a' = relay a /\ cfg a' = cfg a /\ bridge a' = bridge a.
Proof.
  intros P Hr Hs Hp E. eexists. split.
  - cbn [run step]. unfold receive, unwrap. rewrite (ps_door _ _ _ _ P). unfold demux.
    rewrite Hr, bool_decide_eq_true_2, Hp, (ps_peers _ _ _ _ P), lookup_singleton_eq by done.
    cbn [fmap option_fmap option_map]. rewrite (on_peer_pair _ _ _ _ _ _ _ P E).
    cbn [mbind option_bind]. by rewrite app_nil_r.
  - split_and!; try done. apply (pair_heap a r id n); [done|apply lookup_insert_eq].
Qed.

(** The turns of [attempts]. *)
Definition tries (t0 t1 t2 : Time) (r0 r2 : list byte) : list (Time * list byte) :=
  replicate 6 (t0, r0) ++ replicate 5 (t1, r0) ++ replicate 4 (t2, r2).

(** [C5] The relay carries what cannot go directly: two configured agents of which nothing
    arrives directly, both with the same relay, try the direct path twice, give it up, and
    over a relay with its budgets off and neither name in other hands they establish: the responder's
    probe pins its name, the three messages of the handshake are forwarded to where the
    names are pinned, and both end authenticated under each other's key, over the relay,
    with linked sessions in both directions and every nonce left. *)
Theorem relay_establishes (cA cB : Config) (kA kB : Keypair) (relayA relayB : string) (a b : Agent L)
    (extA extB epA epB ra rb srcA srcB : UDPAddr) (dstA dstB : Tun.Addr) (plain : list byte) (msg : Message)
    (cidA cidB : Coordinator.conn) (mtuA mtuB : Z) (t0 t1 t2 t3 t4 t5 u0 u1 u2 u3 : Time)
    (r0 rA rB s0 r4 r5 : list byte) (s : Relay.Server) (xA xB : option UDPAddr)
    (HA : member other parse cA kA relayA a extA epA extB (Name cB) dstB)
    (HB : member other parse cB kB relayB b extB epB extA (Name cA) dstA)
    (Hrole : RoleIsInitiator (Name cA) (Name cB) = true)
    (Hdec : DecodeLine plain = Ok msg) (Htype : Type_ msg = TypePeerList)
    (Hlist : elems (Peers msg) ≡ₚ [announcement (a <| pub := Some extA |>) cidA;
                                  announcement (b <| pub := Some extB |>) cidB])
    (Hra : relay a = Some ra) (Hrb : relay b = Some rb)
    (HsrcA : addr_String srcA = addr_String ra) (HsrcB : addr_String srcB = addr_String rb)
    (HnA : Relay.validateName (Name cA) = Ok ()) (HnB : Relay.validateName (Name cB) = Ok ())
    (Hr0 : len r0 = 32) (HrA : len rA = 32) (HrB : len rB = 32)
    (Ht0 : HS1ResendInterval <= t0) (Ht1 : t0 + DirectAttempt < t1) (Ht2 : t1 + HS1ResendInterval <= t2)
    (Ht3 : Second <= t3)
    (Hs : unmetered (Relay.cfg s)) (HxA : admits s (Name cA) xA) (HxB : admits s (Name cB) xB)
    (Hu1 : u1 - u0 <= Relay.PinGrace (Relay.cfg s)) (Hu2 : u2 - u1 <= Relay.PinGrace (Relay.cfg s))
    (Hu3 : u3 - u2 <= Relay.PinGrace (Relay.cfg s)) :
  exists a1 a2 b1 b2 b3 s1 s2 s3 s4 o0 d p0 p1 p2 p3 yA yB yB' nA nB,
    run other parse a (startup t0 extA plain mtuA ++ loop_turns 0 (tries t0 t1 t2 r0 rA))
      = Some (a1, [Wire epB d; Wire epB d; Wire ra p1]) /\
    run other parse b (startup t0 extB plain mtuB ++ loop_turns 0 (tries t0 t1 t2 s0 s0))
      = Some (b1, [Wire epA probe_frame; Wire epA probe_frame; Wire rb p0]) /\
    Relay.handlePacket s u0 true p0 xB = (s1, o0) /\
    Relay.handlePacket s1 u1 true p1 xA = (s2, Some (yB, p1)) /\ Relay.addrEqual yB xB = true /\
    run other parse b1 [EvDatagram t3 rB srcB p1] = Some (b2, [Wire rb p2]) /\
    Relay.handlePacket s2 u2 true p2 xB = (s3, Some (yA, p2)) /\ Relay.addrEqual yA xA = true /\
    run other parse a1 [EvDatagram t4 r4 srcA p2] = Some (a2, [Wire ra p3]) /\
    Relay.handlePacket s3 u3 true p3 xA = (s4, Some (yB', p3)) /\ Relay.addrEqual yB' xB = true /\
    run other parse b2 [EvDatagram t5 r5 srcB p3] = Some (b3, []) /\
    pair_state a2 0%nat (Name cB) nA /\ pair_state b3 0%nat (Name cA) nB /\
    PeerHandshake.up PathRelay (PeerSession.peer nA) (PeerSession.peer nB) (Public kB) epB /\
    PeerHandshake.up PathRelay (PeerSession.peer nB) (PeerSession.peer nA) (Public kA) epA.
Proof.
  assert (Hne : Name cA <> Name cB).
  { intros E. pose proof (RoleIsInitiator_asym _ _ Hrole) as H. rewrite E in H, Hrole. congruence. }
  destruct (located_announcement other parse _ _ _ _ _ _ _ _ _ cidA HA) as (IA & KA & EA).
  destruct (located_announcement other parse _ _ _ _ _ _ _ _ _ cidB HB) as (IB & KB & EB).
  destruct (peers_fall_back ra rb (Name cA) (Name cB) kA kB epA epB srcA srcB t0 t1 t2 t3 t4 t5 r0 rA rB s0 r4 r5)
    as (nA & nA' & nB & nB' & nB'' & d & f1 & f2 & f3 & N1 & N2 & N3 & N4 & N5 & UA & UB); try done.
  { apply (mb_keys _ _ _ _ _ _ _ _ _ _ _ HA). }
  { apply (mb_keys _ _ _ _ _ _ _ _ _ _ _ HB). }
  { unfold PeerSession.framePath. by rewrite bool_decide_eq_true_2. }
  { unfold PeerSession.framePath. by rewrite bool_decide_eq_true_2. }
  rewrite <- Hra in N1. rewrite <- Hrb in N2.
  destruct (member_starts other parse _ _ _ _ _ _ _ _ _ t0 plain msg mtuA _ (Public kB) epB cidA (tries t0 t1 t2 r0 rA)
              nA _ HA Hdec Htype Hlist IB (not_eq_sym Hne) KB EB N1) as (a1 & ba & S1 & _ & _ & _ & _ & RA & CA & PA).
  destruct (member_starts other parse _ _ _ _ _ _ _ _ _ t0 plain msg mtuB _ (Public kA) epA cidB (tries t0 t1 t2 s0 s0)
              nB _ HB Hdec Htype (Permutation_trans Hlist (Permutation_swap _ _ _)) IA Hne KA EA N2)
    as (b1 & bb & S2 & _ & _ & _ & _ & RB & CB & PB).
  rewrite Hra in RA. rewrite Hrb in RB. rewrite <- CA in HnA. rewrite <- CB in HnB.
  destruct (emitted_relay a1 ra (Name cB) f1) as (p1 & Q1 & W1); [apply PA|done..|by rewrite <- CB|].
  destruct (emitted_relay b1 rb (Name cA) probe_frame) as (p0 & Q0 & W0); [apply PB|done..|by rewrite <- CA|].
  destruct (emitted_relay b1 rb (Name cA) f2) as (p2 & Q2 & W2); [apply PB|done..|by rewrite <- CA|].
  destruct (emitted_relay a1 ra (Name cB) f3) as (p3 & Q3 & W3); [apply PA|done..|by rewrite <- CB|].
  rewrite CA in Q1, Q3. rewrite CB in Q0, Q2.
  rewrite emitted_three, !emitted_direct, W1 in S1 by apply PA.
  rewrite emitted_three, !emitted_direct, W0 in S2 by apply PB.
  rewrite <- RB in N3, N5. rewrite <- RA in N4.
  destruct (relayed_to_peer b1 0%nat (Name cA) _ t3 rB srcB rb _ p1 f1 _ _ PB RB HsrcB Q1 N3)
    as (b2 & S3 & PB2 & RB2 & CB2 & _).
  destruct (relayed_to_peer a1 0%nat (Name cB) _ t4 r4 srcA ra _ p2 f2 _ _ PA RA HsrcA Q2 N4)
    as (a2 & S4 & PA2 & _).
  rewrite <- RB2 in N5. rewrite <- RB2 in RB.
  destruct (relayed_to_peer b2 0%nat (Name cA) _ t5 r5 srcB rb _ p3 f3 _ _ PB2 RB HsrcB Q3 N5)
    as (b3 & S5 & PB3 & _).
  rewrite W2 in S3. rewrite W3 in S4.
  destruct (relays_handshake s (Name cA) (Name cB) xA xB u0 u1 u2 u3 p0 p1 p2 p3 _ _ _ _ Hs Hne HxA HxB Q0 Q1 Q2 Q3 Hu1 Hu2 Hu3)
    as (s1 & s2 & s3 & s4 & o0 & yB & yA & yB' & F0 & F1 & F2 & F3 & Y1 & Y2 & Y3).
  exists a1, a2, b1, b2, b3, s1, s2, s3, s4, o0, d, p0, p1, p2, p3, yA, yB, yB', nA', nB''.
  by split_and!.
Qed.
End Agents.

(** ** A witness: alice and bob over an unmetered relay *)

#[local] Existing Instances Toy.lib Toy.laws Toy.xx.

Module Demo.
Import Overlay.Demo.

Definition relay_text : string := "127.0.0.1:9000".
Definition relay_at : UDPAddr := MkUDPAddr (v4InV6Prefix ++ [x7f; x00; x00; x01]) 9000 "".
Definition fresh_relayed (c : Config) (k : Keypair) : Agent Toy.lib :=
  MkAgent c k None (Some relay_at) None ∅ 0%nat ∅ ∅ ∅ None ∅ ∅ ∅ 0%nat ∅ ∅ ∅ ∅ None false.

Definition peer_list : Message :=
  MkMessage TypePeerList "" "" None
    (Some [announcement (fresh_relayed cB kB <| pub := Some extB |>) 1%nat;
           announcement (fresh_relayed cA kA <| pub := Some extA |>) 0%nat]) "" 0 0 0.

#[local] Instance json : Json := {
  Unmarshal l := if bool_decide (l = [x6c]) then Some peer_list else None
}.

Lemma joins_relayed (name ip peer peer_ip : string) (k : Keypair) ext ep from dst :
  genuine k -> is_Some (parse ip) -> parse peer_ip = Some dst -> Tun.Is4 dst = true ->
  resolves no_host ext ep -> addr_String from <> addr_String relay_at ->
  member no_host parse (config name ip peer peer_ip) k relay_text (fresh_relayed (config name ip peer peer_ip) k)
    ext ep from peer dst.
Proof. intros. constructor; try done; first [by apply configured | by vm_compute]. Qed.

Definition conf : Relay.Config := Relay.MkConfig (Some relay_at) 0 (-1) (-1) (-1) (-1) (-1).
Definition srv : Relay.Server :=
  match Relay.New (fun _ => Relay.ListenUDP) conf with
  | Ok s => s
  | Err _ => Relay.MkServer conf ∅ ∅ ∅ ∅ (Relay.MkCounter 0 0) (Relay.MkCounter 0 0) 0 Relay.emptyStats true
  end.
Definition T1 : Time := T + 4 * Second.
Definition T2 : Time := T + 5 * Second.
Definition T3 : Time := T + 6 * Second.
End Demo.
#[local] Existing Instances Demo.json Overlay.Demo.ping_json Overlay.Demo.order.

Example relay_establishes_witness :
  exists (nA nB : PeerSession.Node Toy.lib),
    PeerHandshake.up PathRelay (PeerSession.peer nA) (PeerSession.peer nB) (Public Overlay.Demo.kB) Overlay.Demo.epB /\
    PeerHandshake.up PathRelay (PeerSession.peer nB) (PeerSession.peer nA) (Public Overlay.Demo.kA) Overlay.Demo.epA.
Proof.
  destruct (relay_establishes Overlay.Demo.no_host Overlay.Demo.parse Overlay.Demo.cA Overlay.Demo.cB
              Overlay.Demo.kA Overlay.Demo.kB Demo.relay_text Demo.relay_text
              (Demo.fresh_relayed Overlay.Demo.cA Overlay.Demo.kA) (Demo.fresh_relayed Overlay.Demo.cB Overlay.Demo.kB)
              Overlay.Demo.extA Overlay.Demo.extB Overlay.Demo.epA Overlay.Demo.epB
              Demo.relay_at Demo.relay_at Demo.relay_at Demo.relay_at Overlay.Demo.ipA Overlay.Demo.ipB
              [x6c] Demo.peer_list 0%nat 1%nat 1500 1500
              Overlay.Demo.T Demo.T1 Demo.T2 Demo.T3 Demo.T3 Demo.T3 Demo.T2 Demo.T3 Demo.T3 Demo.T3
              Overlay.Demo.rA Overlay.Demo.rA Overlay.Demo.rB Overlay.Demo.rB Overlay.Demo.rA Overlay.Demo.rB
              Demo.srv (Some Overlay.Demo.extA) (Some Overlay.Demo.extB))
    as (a1 & a2 & b1 & b2 & b3 & s1 & s2 & s3 & s4 & o0 & d & p0 & p1 & p2 & p3 & yA & yB & yB' & nA & nB & H).
  - apply Demo.joins_relayed; try reflexivity; [by split|by eexists|by split; vm_compute|by vm_compute].
  - apply Demo.joins_relayed; try reflexivity; [by split|by eexists|by split; vm_compute|by vm_compute].
  - reflexivity.
  - reflexivity.
  - reflexivity.
  - apply Permutation_swap.
  - reflexivity.
  - reflexivity.
  - reflexivity.
  - reflexivity.
  - reflexivity.
  - reflexivity.
  - reflexivity.
  - reflexivity.
  - reflexivity.
  - by vm_compute.
  - by vm_compute.
  - by vm_compute.
  - by vm_compute.
  - by constructor; vm_compute.
  - intros q Hq. vm_compute in Hq. discriminate Hq.
  - intros q Hq. vm_compute in Hq. discriminate Hq.
  - by vm_compute.
  - by vm_compute.
  - by vm_compute.
  - exists nA, nB. destruct H as (_ & _ & _ & _ & _ & _ & _ & _ & _ & _ & _ & _ & _ & _ & H1 & H2). by split.
Defined.
