(* ===== verification/PingPong.v ===== *)
(** * A ping and its pong, between two agents

    [ProbeRTT] end to end: the ping one agent sends is answered by the other, and the
    round-trip time is measured and recorded. *)

From S2P Require Import Prelude GoBytes GoRuntime GoNet Framing Disco NoiseLib Noisework Protocol.
From S2P Require Import Agent AgentSafety Tunnel.
From S2P Require PeerSession PeerSafety PeerHandshake Tun Nat Relay.

#[local] Existing Instance PeerSession.Peer_eta.

(** A ping message is short. *)
Lemma len_Itoa z (n : nat) : - 2 ^ Z.of_nat n < z < 2 ^ Z.of_nat n -> (1 <= n)%nat ->
  slen (Itoa z) <= Z.of_nat n + 1.
Proof.
  intros Hz Hn. destruct (Z.neg_nonneg_cases z) as [Hneg|Hpos].
  - destruct z as [|p|p]; try lia. pose proof (slen_Itoa (Z.pos p) n ltac:(lia) Hn).
    change (Itoa (Z.neg p)) with ("-" +:+ Itoa (Z.pos p))%string. rewrite slen_app.
    change (slen "-") with 1. lia.
  - pose proof (slen_Itoa z n ltac:(lia) Hn). lia.
Qed.

Lemma len_MarshalPing c s t :
  c = "ping"%string \/ c = "pong"%string -> 0 <= s < 2 ^ 64 -> - 2 ^ 63 <= t < 2 ^ 63 ->
  len (MarshalPing (MkPing c s t)) <= 200.
Proof.
  intros Hc Hs Ht. unfold MarshalPing, json_object. cbn [map commas fst snd Cmd S_ Ts].
  rewrite !len_app. pose proof (len_Itoa s 64 ltac:(cbn; lia) ltac:(lia)) as H1.
  pose proof (len_Itoa t 64 ltac:(cbn; lia) ltac:(lia)) as H2. unfold slen in *.
  change (json_int ?z) with (bytes_of_string (Itoa z)).
  assert (len (json_string c) <= 20) by (destruct Hc as [-> | ->]; by vm_compute).
  change (len [x7b]) with 1. change (len [x7d]) with 1. change (len [x2c]) with 1.
  change (len [x3a]) with 1. change (len (json_string "cmd")) with 5. change (len (json_string "s")) with 3.
  change (len (json_string "ts")) with 4. unfold json_int in *. lia.
Qed.

Section PingPong.
Context {L : NoiseLib} {W : NoiseLaws L} {XX : XXLaws L} {J : Json} {PJ : PingJson} {RO : RangeOrder}.
Context (other : string -> option UDPAddr) (parse : string -> option Tun.Addr).
Implicit Types (a b : Agent L) (n : PeerSession.Node L).

Abbreviation direct n := (PeerSession.path (PeerSession.peer n) <> PathRelay).
Abbreviation ep_of n := (PeerSession.DirectEP (PeerSession.peer n)).
Abbreviation queue n := (PeerSession.recvQ (PeerSession.peer n)).

(** [a] and [b] hold each other as [rA] and [rB], on direct paths with linked sessions both
    ways, [ka] and [kb] nonces left, nothing on its way; [srcA] and [srcB] are the addresses
    the datagrams arrive from. *)
Record connected a b (epA epB srcA srcB : UDPAddr) (rA rB : ref) (ka kb : Z) : Prop := {
  c_doors : door a = None /\ door b = None;
  c_sources : sole_source b srcA rB /\ sole_source a srcB rA;
  c_idle : inhand a !! rA = None /\ inhand b !! rB = None;
  c_peers : exists nA nB, heap a !! rA = Some nA /\ heap b !! rB = Some nB /\
    (direct nA /\ ep_of nA = Some epB) /\ (direct nB /\ ep_of nB = Some epA) /\
    queue nA = [] /\ queue nB = [] /\
    (PeerHandshake.linked (PeerSession.peer nA) (PeerSession.peer nB) /\
     PeerHandshake.linked (PeerSession.peer nB) (PeerSession.peer nA)) /\
    PeerHandshake.can_send (PeerSession.peer nA) ka /\ PeerHandshake.can_send (PeerSession.peer nB) kb
}.

Lemma connected_sym a b epA epB srcA srcB rA rB ka kb :
  connected a b epA epB srcA srcB rA rB ka kb -> connected b a epB epA srcB srcA rB rA kb ka.
Proof.
  intros [[] [] [] (nA & nB & ? & ? & ? & ? & ? & ? & [] & ? & ?)]. constructor; try done.
  by exists nB, nA.
Qed.

(** What [connected] looks at. *)
Lemma connected_same a a' b epA epB srcA srcB rA rB ka kb :
  door a' = door a -> relay a' = relay a -> peers a' = peers a -> heap a' = heap a -> inhand a' = inhand a ->
  connected a b epA epB srcA srcB rA rB ka kb -> connected a' b epA epB srcA srcB rA rB ka kb.
Proof.
  intros E1 E2 E3 E4 E5 [? [H1 H2] ? ?]. constructor; rewrite ?E1, ?E4, ?E5; try done.
  split; [done|]. unfold sole_source. by rewrite E2, E3, E4.
Qed.

(** One payload from [a]'s peer into [b]'s hands: what [a]'s peer sends, and [b] after the
    datagram has arrived and its message loop has taken the payload. *)
Lemma hop a b epA epB srcA srcB rA rB ka kb d now now' rnd :
  connected a b epA epB srcA srcB rA rB ka kb -> 1 <= ka -> d <> [] -> len d <= maxPlaintextLen ->
  exists nA pA' f h,
    heap a !! rA = Some nA /\
    PeerSession.Send (PeerSession.peer nA) now d = Some (Ok (PeerSession.SendDirect (Some epB) f), pA') /\
    let a' := a <| heap := <[rA := PeerSession.MkNode pA' (PeerSession.pc nA)]> (heap a) |> in
    run other parse b [EvDatagram now' rnd srcA f; EvTake rB]
      = Some (b <| heap := h |> <| inhand := <[rB := d]> (inhand b) |>, []) /\
    connected a' (b <| heap := h |>) epA epB srcA srcB rA rB (ka - 1) kb.
Proof.
  intros [[DA DB] [SB SA] [IA IB] (nA & nB & HA & HB & [PA EA] & [PB EB] & QA & QB & [LA LB] & CA & CB)] Hk Hd Hlen.
  destruct (PeerHandshake.deliver_step (relay b) (PeerSession.peer nA) (PeerSession.peer nB) ka now now' rnd
              (Some srcA) d LA CA Hk Hd) as (o & pA' & pB' & HS & HF & Hq & L1 & C1 & P1 & L2 & C2 & Q2 & P2).
  { unfold PeerHandshake.payload_limit. by rewrite bool_decide_eq_false_2. }
  { by rewrite QB. }
  destruct (Send_direct _ _ _ _ _ HS PA) as (f & w & ep & -> & Hep & Hw & HepA).
  assert (ep = epB) as -> by congruence. cbn [PeerHandshake.out_frame] in HF.
  assert (HepB : PeerSession.DirectEP pB' = ep_of nB).
  { rewrite (PeerSafety.HandleFrame_data _ _ _ _ _ _ _ Hw) in HF. unfold PeerSession.quiet in HF.
    destruct (PeerSession.onData _ w) as [p|] eqn:E; [|done]. cbn in HF. injection HF as <-.
    by apply onData_ep in E. }
  rewrite QB in Hq. cbn [app] in Hq.
  set (nB1 := PeerSession.MkNode (pB' <| PeerSession.recvQ := [] |>) (PeerSession.pc nB)).
  exists nA, pA', f, (<[rB := nB1]> (heap b)). split; [done|]. split; [done|]. split.
  - cbn [run step]. unfold receive, unwrap. rewrite DB, (sole_source_demux b srcA rB now' f SB).
    unfold on_peer. rewrite HB. cbn [mbind option_bind PeerSession.node_step]. rewrite HF.
    cbn [mbind option_bind]. cbn [heap upd eta Agent_eta]. rewrite lookup_insert_eq.
    unfold take_payload. cbn [heap inhand upd eta Agent_eta]. rewrite IB, lookup_insert_eq.
    cbn [mbind option_bind PeerSession.peer]. rewrite Hq. unfold on_peer. cbn. rewrite lookup_insert_eq. cbn.
    by rewrite Hq, insert_insert_eq.
  - constructor; [done| |done|].
    + split; [|by apply (sole_source_upd a _ srcB rA nA (PeerSession.MkNode pA' (PeerSession.pc nA)))].
      by apply (sole_source_upd b _ srcA rB nB nB1).
    + exists (PeerSession.MkNode pA' (PeerSession.pc nA)), nB1. cbn. rewrite !lookup_insert_eq.
      split_and!; try done; cbn; try congruence; [by apply L2|by apply C2].
Qed.

Lemma run_app es es' : forall a,
  run other parse a (es ++ es') =
  ('(a, os) ← run other parse a es; '(a, os') ← run other parse a es'; Some (a, os ++ os')).
Proof.
  induction es as [|e es IH]; intros a; cbn [app run].
  - cbn [mbind option_bind]. by destruct (run other parse a es') as [[? ?]|].
  - destruct (step other parse a e) as [[a1 os1]|]; [|done]. cbn [mbind option_bind]. rewrite IH.
    destruct (run other parse a1 es) as [[a2 os2]|]; [|done]. cbn [mbind option_bind].
    destruct (run other parse a2 es') as [[a3 os3]|]; [|done]. cbn [mbind option_bind]. by rewrite app_assoc.
Qed.

(** A ping message is taken for one, with and without a TUN device. *)
Lemma handle_ping now (r : ref) m a :
  UnmarshalPing (MarshalPing m) = Some m -> Cmd m = "ping"%string \/ Cmd m = "pong"%string ->
  handlePeerPayload now r (MarshalPing m) a = dispatchPing now r m a.
Proof.
  intros Hu Hc. assert (Hd : decodePingMsg (MarshalPing m) = Some m).
  { unfold decodePingMsg. rewrite Hu. by destruct Hc as [-> | ->]. }
  unfold handlePeerPayload. rewrite Hd. unfold MarshalPing, json_object. cbn [app].
  rewrite bool_decide_eq_true_2 by done. by destruct (bridge a).
Qed.

Lemma emit_direct a epB f : door a = None ->
  emit a (PeerSession.SendDirect (Some epB) f) = Ok (Wire epB f).
Proof. intros H. cbn. unfold SendDirect, sendDatagram. by rewrite H. Qed.

(** The probe's side: its ping is sent, and its waiter registered. *)
Lemma probe_sends a i id (rA : ref) nA pA' f epB t1 t2 now :
  probes a !! i = Some (Ready id rA) -> heap a !! rA = Some nA -> door a = None ->
  let seq := u64 (UnixNano t1) in let ts := UnixNano t2 in
  PeerSession.Send (PeerSession.peer nA) now (MarshalPing (MkPing "ping" seq ts))
    = Some (Ok (PeerSession.SendDirect (Some epB) f), pA') ->
  run other parse a [EvProbeSend i t1 t2 now true; EvProbeRegister i] =
  Some (a <| heap := <[rA := PeerSession.MkNode pA' (PeerSession.pc nA)]> (heap a) |>
          <| probes := <[i := Waiting id seq ts (nextChan a)]> (probes a) |>
          <| nextChan := S (nextChan a) |> <| chans := <[nextChan a := None]> (chans a) |>
          <| pingOut := <[seq := nextChan a]> (pingOut a) |>, [Wire epB f]).
Proof.
  intros Hi HA Hd seq ts HS. cbn [run step]. unfold probe_send. rewrite Hi. unfold peerSend. rewrite HA.
  cbn [mbind option_bind]. fold seq ts. rewrite HS. cbn [mbind option_bind].
  rewrite emit_direct by done. cbn [mbind option_bind app]. unfold probe_register. cbn.
  rewrite lookup_insert_eq. cbn. by rewrite insert_insert_eq.
Qed.

(** The other side answers a ping on its own. *)
Lemma answers b (rB : ref) nB pB' f epA seq ts now :
  let m cmd := MkPing cmd seq ts in
  UnmarshalPing (MarshalPing (m "ping"%string)) = Some (m "ping"%string) ->
  inhand b !! rB = Some (MarshalPing (m "ping"%string)) -> heap b !! rB = Some nB -> door b = None ->
  PeerSession.Send (PeerSession.peer nB) now (MarshalPing (m "pong"%string))
    = Some (Ok (PeerSession.SendDirect (Some epA) f), pB') ->
  run other parse b [EvHandle now rB] =
  Some (b <| heap := <[rB := PeerSession.MkNode pB' (PeerSession.pc nB)]> (heap b) |>
          <| inhand := delete rB (inhand b) |>, [Wire epA f]).
Proof.
  intros m Hu Hh HB Hd HS. cbn [run step]. unfold handle_payload. rewrite Hh.
  rewrite handle_ping by (done || by left). unfold dispatchPing, m in *. cbn [Cmd S_ Ts].
  rewrite bool_decide_eq_true_2 by done. unfold on_peer. cbn [heap upd eta Agent_eta]. rewrite HB.
  cbn [mbind option_bind PeerSession.node_step]. rewrite HS. cbn [mbind option_bind].
  unfold emitted. cbn [omap list_omap]. by rewrite emit_direct.
Qed.

(** Its pong arrives. *)
Lemma probe_measures a i id (rA : ref) seq ts now (c : chan) :
  let pong := MkPing "pong" seq ts in
  UnmarshalPing (MarshalPing pong) = Some pong ->
  inhand a !! rA = Some (MarshalPing pong) -> probes a !! i = Some (Waiting id seq ts c) ->
  pingOut a !! seq = Some c -> chans a !! c = Some None ->
  let rtt := Sub now (Unix0 ts) in
  exists a', run other parse a [EvHandle now rA; EvProbeFinish i false] = Some (a', []) /\
    lastRTT a' !! id = Some rtt /\ rttHist a' !! id = Some (take 5 (rtt :: default [] (rttHist a !! id))) /\
    probes a' !! i = None /\ pingOut a' !! seq = None /\
    door a' = door a /\ relay a' = relay a /\ peers a' = peers a /\ heap a' = heap a /\
    inhand a' = delete rA (inhand a).
Proof.
  intros pong Hu Hh Hi Hp Hc rtt. cbn [run step]. unfold handle_payload. rewrite Hh.
  rewrite handle_ping by (done || by right). unfold dispatchPing, pong.
  cbn [Cmd S_ Ts pingOut upd eta Agent_eta].
  rewrite bool_decide_eq_false_2, bool_decide_eq_true_2 by done. rewrite Hp. unfold signal. cbn. rewrite Hc.
  cbn. unfold probe_finish. cbn. rewrite Hi, lookup_insert_eq. cbn.
  eexists. split; [reflexivity|]. cbn. rewrite !lookup_insert_eq, !lookup_delete_eq.
  split_and!; try done. f_equal. set (h := _ :: _).
  destruct (len h >? rttHistoryDepth) eqn:E; [done|]. zbool. unfold rttHistoryDepth, len in E.
  change (h = take 5 h). by rewrite take_ge by lia.
Qed.

(** [C18] A probe is answered: over linked sessions, the ping of a [ProbeRTT] call that has its
    peer ready reaches the other agent, which answers it on its own; the pong wakes the
    call, and the time from the ping to the pong's arrival is recorded as the peer's
    latest. Both agents stay connected, and the call leaves nothing behind. [encoding/json]
    decodes the two messages to what was encoded. *)
Theorem probe_answered (a b : Agent L) (epA epB srcA srcB : UDPAddr) (rA rB : ref) (ka kb : Z) (i : nat)
    (id : string) (t1 t2 now1 now2 now3 : Time) (rnd2 rnd3 : list byte)
    (Hconn : connected a b epA epB srcA srcB rA rB ka kb) (Hka : 1 <= ka) (Hkb : 1 <= kb)
    (Hready : probes a !! i = Some (Ready id rA))
    (Hjson : forall cmd, let m := MkPing cmd (u64 (UnixNano t1)) (UnixNano t2) in
       cmd = "ping"%string \/ cmd = "pong"%string -> UnmarshalPing (MarshalPing m) = Some m) :
  let rtt := Sub now3 (Unix0 (UnixNano t2)) in
  exists f1 f2 a1 a2 b1,
    run other parse a [EvProbeSend i t1 t2 now1 true; EvProbeRegister i] = Some (a1, [Wire epB f1]) /\
    run other parse b [EvDatagram now2 rnd2 srcA f1; EvTake rB; EvHandle now2 rB] = Some (b1, [Wire epA f2]) /\
    run other parse a1 [EvDatagram now3 rnd3 srcB f2; EvTake rA; EvHandle now3 rA; EvProbeFinish i false]
      = Some (a2, []) /\
    lastRTT a2 !! id = Some rtt /\ rttHist a2 !! id = Some (take 5 (rtt :: default [] (rttHist a !! id))) /\
    probes a2 !! i = None /\ pingOut a2 !! u64 (UnixNano t1) = None /\
    connected a2 b1 epA epB srcA srcB rA rB (ka - 1) (kb - 1).
Proof.
  intros rtt. set (seq := u64 (UnixNano t1)). set (ts := UnixNano t2).
  assert (Hlen : forall c, c = "ping"%string \/ c = "pong"%string ->
            MarshalPing (MkPing c seq ts) <> [] /\ len (MarshalPing (MkPing c seq ts)) <= maxPlaintextLen).
  { intros c Hc. pose proof (len_MarshalPing c seq ts Hc (u64_range _) (i64_range _)). split; [done|].
    unfold maxPlaintextLen, maxUDPPayload, frameHeader, nonceLen, aeadTag. lia. }
  destruct (hop a b epA epB srcA srcB rA rB ka kb (MarshalPing (MkPing "ping" seq ts)) now1 now2 rnd2 Hconn Hka)
    as (nA & pA' & f1 & h & HA & HS & Eb & Hc1); [by apply Hlen; left..|].
  pose proof (probe_sends a i id rA nA pA' f1 epB t1 t2 now1 Hready HA (proj1 (c_doors _ _ _ _ _ _ _ _ _ _ Hconn)) HS) as Ea.
  fold seq ts in Ea. match type of Ea with _ = Some (?x, _) => set (a1 := x) in * end.
  assert (Hc1' : connected a1 (b <| heap := h |>) epA epB srcA srcB rA rB (ka - 1) kb)
    by (by eapply connected_same; [..|exact Hc1]).
  destruct (hop (b <| heap := h |>) a1 epB epA srcB srcA rB rA kb (ka - 1)
              (MarshalPing (MkPing "pong" seq ts)) now2 now3 rnd3 (connected_sym _ _ _ _ _ _ _ _ _ _ Hc1') Hkb)
    as (nB & pB' & f2 & h2 & HB & HS2 & Ea2 & Hc2); [by apply Hlen; right..|].
  match type of Hc2 with connected ?x _ _ _ _ _ _ _ _ _ => set (b1' := x) in * end.
  set (b1 := b <| heap := <[rB := PeerSession.MkNode pB' (PeerSession.pc nB)]> h |>
               <| inhand := delete rB (<[rB := MarshalPing (MkPing "ping" seq ts)]> (inhand b)) |>).
  set (a1' := a1 <| heap := h2 |> <| inhand := <[rA := MarshalPing (MkPing "pong" seq ts)]> (inhand a1) |>) in *.
  destruct (probe_measures a1' i id rA seq ts now3 (nextChan a)) as (a2 & Ea3 & H1 & H2 & H3 & H4 & F1 & F2 & F3 & F4 & F5);
    [by apply Hjson; right|apply lookup_insert_eq..|].
  exists f1, f2, a1, a2, b1. split; [exact Ea|]. split_and!; try done.
  - change [EvDatagram now2 rnd2 srcA f1; EvTake rB; EvHandle now2 rB]
      with ([EvDatagram now2 rnd2 srcA f1; EvTake rB] ++ [EvHandle now2 rB]).
    rewrite run_app, Eb. cbn [mbind option_bind].
    rewrite (answers _ rB nB pB' f2 epA seq ts now2); [done|..]; try done;
      [by apply Hjson; left|apply lookup_insert_eq|apply (c_doors _ _ _ _ _ _ _ _ _ _ Hconn)].
  - change [EvDatagram now3 rnd3 srcB f2; EvTake rA; EvHandle now3 rA; EvProbeFinish i false]
      with ([EvDatagram now3 rnd3 srcB f2; EvTake rA] ++ [EvHandle now3 rA; EvProbeFinish i false]).
    rewrite run_app, Ea2. cbn [mbind option_bind]. by rewrite Ea3.
  - pose proof (c_idle _ _ _ _ _ _ _ _ _ _ Hc2) as [IB IA].
    assert (C : connected a2 b1' epA epB srcA srcB rA rB (ka - 1) (kb - 1)).
    { eapply connected_same; [..|exact (connected_sym _ _ _ _ _ _ _ _ _ _ Hc2)]; try done.
      rewrite F5. unfold a1'. cbn. by rewrite delete_insert_eq, delete_id. }
    apply connected_sym. eapply connected_same; [..|exact (connected_sym _ _ _ _ _ _ _ _ _ _ C)]; try done.
    unfold b1. cbn. by rewrite delete_insert_eq, delete_id.
Qed.
End PingPong.
