(* ===== verification/AgentDemo.v ===== *)
(** * The agent's theorems at concrete inputs

    alice, an agent over the concrete cipher: she is told about bob, completes the
    handshake with him over her data socket, and measures a round trip. Then an agent
    behind a NAT box, two over the relay, and two joined by a tunnel. *)

From S2P Require Import Prelude GoBytes GoRuntime GoNet Disco NoiseLib Noisework Protocol.
From S2P Require Import Agent AgentSafety AgentPeers AgentNet AgentCalls Tunnel PingPong.
From S2P Require PeerSession PeerHandshake Tun Nat NatTraffic Relay Coordinator.

#[local] Existing Instances Toy.lib Toy.laws Toy.xx.

Module Demo.
Import PeerHandshake.Demo.

Definition no_host : string -> option UDPAddr := fun _ => None.
(** [netip.ParseAddr] on the one address of the demo. *)
Definition parse (s : string) : option Tun.Addr :=
  if bool_decide (s = "10.60.0.2"%string) then Some (Tun.Addr4 x0a x3c x00 x02) else None.

Definition bob : PeerInfo :=
  MkPeerInfo "bob" (EncodeToString (Public kB)) (Some ["10.0.0.2:1002"%string]).
Definition peer_list : Message := MkMessage TypePeerList "" "" None (Some [bob]) "" 0 0 0.

(** The ping of the run: sent at [Tp], answered 20 ms later. (The clock of the handshake is
    not the ping's: the two are never compared.) *)
Definition Tp : Time := unixEpoch + T + Second.
Definition pong : pingMsg := MkPing "pong" (u64 (UnixNano Tp)) (UnixNano Tp).
Definition ping_msg : pingMsg := MkPing "ping" (u64 (UnixNano Tp)) (UnixNano Tp).
Definition ping_bytes : list byte := Eval vm_compute in MarshalPing ping_msg.
Definition pong_bytes : list byte := Eval vm_compute in MarshalPing pong.

#[local] Instance json : Json := {
  Unmarshal l := if bool_decide (l = [x6c]) then Some peer_list else None
}.
#[local] Instance ping_json : PingJson := {
  UnmarshalPing l :=
    if bool_decide (l = ping_bytes) then Some ping_msg
    else if bool_decide (l = pong_bytes) then Some pong else None
}.
#[local] Instance order : RangeOrder := {
  ranged A _ l := l;
  ranged_perm A _ l := reflexivity l
}.

(** bob's answer to the ping, from his side of the handshake. *)
Definition stepB1 := stepd nB0 (PeerSession.EvFrame T rB (Some epA) hs1).
Definition stepB2 := stepd stepB1.1 (PeerSession.EvFrame T rB (Some epA) hs3).
Definition pong_frame : list byte := Eval vm_compute in
  (stepd stepB2.1 (PeerSession.EvSend T pong_bytes)).2.

Definition config : Config := MkConfig "alice" "" "" "tun0" "" {["bob"%string := "10.60.0.2"%string]}.
Definition alice : Agent Toy.lib :=
  MkAgent config kA None None None ∅ 0%nat ∅ ∅ ∅ None ∅ ∅ ∅ 0%nat ∅ ∅ ∅ ∅ None false.

Lemma alice_New : New no_host config kA "" "" = Ok alice.
Proof. reflexivity. Qed.

Definition connect : list event :=
  [EvControl T [x6c]; EvBridge T (Some 1500)] ++ replicate 5 (EvLoop 0 T rA true) ++
  [EvDatagram T rA epB hs2].
Definition probing : list event :=
  [EvProbe 0 "bob"; EvProbeWait 0 false; EvProbeSend 0 Tp Tp Tp true; EvProbeRegister 0;
   EvDatagram (Tp + 20 * Millisecond) rA epB pong_frame; EvTake 0;
   EvHandle (Tp + 20 * Millisecond) 0; EvProbeFinish 0 false].
Definition story : list event := connect ++ probing.

(** What the run comes to: bob is tracked and established, routed, and his round trip
    measured. *)
Definition check (x : option (Agent Toy.lib * list out)) : bool :=
  match x with
  | Some (a, _) =>
      match peers a !! "bob"%string with
      | Some r =>
          match heap a !! r with
          | Some n => PeerSession.Established (PeerSession.peer n)
          | None => false
          end
      | None => false
      end &&
      match bridge a with
      | Some b => bool_decide (Tun.routes (router b) !! Tun.Addr4 x0a x3c x00 x02 = Some 0%nat)
      | None => false
      end &&
      bool_decide (rttHist a !! "bob"%string = Some [20 * Millisecond])
  | None => false
  end.

Lemma story_check : check (run no_host parse alice story) = true.
Proof. vm_compute. reflexivity. Qed.

Lemma story_runs : exists a os, run no_host parse alice story = Some (a, os).
Proof.
  pose proof story_check as H. destruct (run no_host parse alice story) as [[a os]|]; [|discriminate].
  by exists a, os.
Qed.

(** A [Ping] of one round. *)
Definition ping_at (br : branch) (t : Time) : event := EvPingStep 0 br t t t true.
Definition pinging : list event :=
  connect ++ EvPing 0 "bob" 1 0 :: replicate 5 (ping_at OnTimer Tp) ++
  [EvDatagram (Tp + 20 * Millisecond) rA epB pong_frame; EvTake 0;
   EvHandle (Tp + 20 * Millisecond) 0; ping_at OnChannel Tp; ping_at OnTimer Tp].
Definition pinged : ping :=
  MkPingCall "bob" 1 0 (PingReturned (Some (MkPingResult "bob" 1 1 (20 * Millisecond) "direct" true)) None).

Lemma pinging_check :
  match run no_host parse alice pinging with
  | Some (a, _) => pings a !! 0%nat
  | None => None
  end = Some pinged.
Proof. vm_compute. reflexivity. Qed.

(** The same pong, handled before the call has registered its waiter: the ping is
    reported lost although it was answered. *)
Definition early : list event :=
  connect ++ EvPing 0 "bob" 1 0 :: replicate 4 (ping_at OnTimer Tp) ++
  [EvDatagram (Tp + 20 * Millisecond) rA epB pong_frame; EvTake 0;
   EvHandle (Tp + 20 * Millisecond) 0; ping_at OnTimer Tp; ping_at OnChannel Tp;
   ping_at OnTimer Tp; ping_at OnTimer Tp].

Example early_pong_lost :
  match run no_host parse alice early with
  | Some (a, _) => pos <$> pings a !! 0%nat
  | None => None
  end = Some (PingReturned (Some (MkPingResult "bob" 1 0 0 "direct" true)) None).
Proof. vm_compute. reflexivity. Qed.

Lemma carol_unknown :
  match run no_host parse alice story with
  | Some (a, _) => peers a !! "carol"%string
  | None => None
  end = None.
Proof. vm_compute. reflexivity. Qed.
End Demo.
Import PeerHandshake.Demo Demo.
#[local] Existing Instances Demo.json Demo.ping_json Demo.order.

Example announced_keys_witness :
  exists a os, run no_host parse alice story = Some (a, os) /\
    forall id r, peers a !! id = Some r ->
      exists n key, heap a !! r = Some n /\ PeerSession.ID (PeerSession.peer n) = id /\
        (exists now plain msg info, EvControl now plain ∈ story /\ DecodeLine plain = Ok msg /\
           Type_ msg = TypePeerList /\ info ∈ elems (Peers msg) /\ pi_ID info = id /\
           ParsePublicKeyHex (pi_PubKey info) = Ok key) /\
        (PeerSession.Established (PeerSession.peer n) = true ->
         PeerSession.RemoteStatic (PeerSession.peer n) = Some key).
Proof. exact (announced_keys no_host parse config kA "" "" alice story alice_New). Defined.

Example agent_tables_witness :
  exists a os, run no_host parse alice story = Some (a, os) /\
    (forall id id' r, peers a !! id = Some r -> peers a !! id' = Some r -> id = id').
Proof.
  destruct story_runs as (a & os & E). exists a, os. split; [exact E|].
  exact (proj1 (proj2 (agent_tables no_host parse config kA "" "" alice a story os alice_New E))).
Defined.

(** Another list: bob has moved, and carol's key is no key. *)
Definition moved : list PeerInfo :=
  [MkPeerInfo "bob" "" (Some ["10.0.0.3:1003"%string]); MkPeerInfo "carol" "zz" None].

Example peer_list_applied_witness :
  exists a os a', run no_host parse alice story = Some (a, os) /\
    applyPeers no_host T moved a = Some a' /\ peers a' !! "carol"%string = None.
Proof.
  destruct story_runs as (a & os & E).
  destruct (peer_list_applied no_host parse config kA "" "" alice a story os T moved alice_New E)
    as (a' & Ea & Hp & _).
  exists a, os, a'. split; [exact E|]. split; [exact Ea|].
  apply eq_None_not_Some. rewrite Hp. intros (_ & _ & [[r Hr]|(info & Hin & Hid & k & Hk)]).
  - pose proof carol_unknown as Hn. rewrite E in Hn. by rewrite Hr in Hn.
  - unfold moved in Hin. rewrite !elem_of_cons, elem_of_nil in Hin.
    destruct Hin as [->|[->|[]]]; [done|]. vm_compute in Hk. done.
Defined.

Example datagram_isolated_witness :
  exists a os, run no_host parse alice story = Some (a, os) /\
  exists h outs, receive no_host T rA epA [x00] a = Some (a <| heap := h |>, outs) /\
    forall r n, heap a !! r = Some n ->
      h !! r = Some n \/
      exists ext frame id, unwrap no_host epA [x00] a = Some (ext, frame) /\ named a ext frame id r.
Proof.
  destruct story_runs as (a & os & E). exists a, os. split; [exact E|].
  exact (datagram_isolated no_host parse config kA "" "" alice a story os T rA epA [x00] alice_New E).
Defined.

Example rtt_history_witness :
  exists a os, run no_host parse alice story = Some (a, os) /\
    default [] (rttHist a !! "bob"%string)
      = take 5 (rtts (measurements no_host parse alice story) "bob").
Proof.
  destruct story_runs as (a & os & E). exists a, os. split; [exact E|].
  exact (proj1 (rtt_history no_host parse config kA "" "" alice a story os "bob" alice_New E)).
Defined.

Example ping_report_witness :
  exists a os, run no_host parse alice pinging = Some (a, os) /\ pings a !! 0%nat = Some pinged /\
    let ds := pongs no_host parse 0 alice pinging in
    1 = len ds /\ 20 * Millisecond = average ds.
Proof.
  pose proof pinging_check as H. destruct (run no_host parse alice pinging) as [[a os]|] eqn:E; [|done].
  exists a, os. split; [done|]. split; [done|].
  assert (Hi : Forall int_count pinging) by (repeat constructor).
  destruct (ping_report no_host parse config kA "" "" alice a pinging os 0 pinged _ None alice_New Hi E H eq_refl)
    as (_ & _ & H1 & _ & H2).
  split; [exact H1|exact (H2 eq_refl)].
Defined.

(** ** Behind a NAT box, over the relay, and through the tunnel *)

(** The host behind the demo's NAT box. *)
Definition natted : Agent Toy.lib :=
  alice <| cfg := MkConfig "a" "" "" "" "" ∅ |>
        <| door := Some (NatTraffic.Demo.v4_addr [x0a; x00; x00; x02] 7001) |>.

Example door_transparent_witness :
  let sent := NatTraffic.Demo.sent Nat.BehaviorSymmetric in
  Nat.to sent = NatTraffic.mapped_v4 NatTraffic.Demo.peer_addr [xc0; x00; x02; x02] /\
  Nat.bytes sent = [x01; x02].
Proof.
  intros sent.
  refine (proj1 (door_transparent no_host natted (NatTraffic.Demo.box Nat.BehaviorSymmetric)
            (NatTraffic.Demo.mid Nat.BehaviorSymmetric) _ 0 (Some 7100) true
            [xc0; x00; x02; x02] sent eq_refl)
            NatTraffic.Demo.peer_addr [x01; x02] NatTraffic.Demo.packet (Some NatTraffic.Demo.host)
            eq_refl eq_refl _ eq_refl (NatTraffic.Demo.first_ok Nat.BehaviorSymmetric)).
  by vm_compute.
Defined.

(** bob and alice over the relay of [Relay]'s demo. *)
Definition relayed (name peer : string) : Agent Toy.lib :=
  alice <| cfg := MkConfig name "" "" "" "" ∅ |> <| relay := Relay.Demo.lo 9000 |>
        <| peers := {[peer := 0%nat]} |>.

Definition relay_addr : UDPAddr := MkUDPAddr [x7f; x00; x00; x01] 9000 "".
Definition relay_srv : Relay.Server := (Relay.Run Relay.Demo.srv Relay.Demo.pre).1.

Example relay_path_witness :
  let alice := relayed "alice" "bob" in
  receive no_host T rA relay_addr (Relay.Demo.wrap "bob" "alice" [x04; x05]) alice
  = on_peer 0%nat (PeerSession.EvFrame T rA (Some relay_addr) [x04; x05]) alice.
Proof.
  intros alice'.
  destruct (Relay.handlePacket relay_srv Relay.Demo.T0 true (Relay.Demo.wrap "bob" "alice" [x04; x05])
              (Relay.Demo.lo 1002)) as [s' x] eqn:E.
  assert (Hx : x = Some (Relay.Demo.lo 1001, Relay.Demo.wrap "bob" "alice" [x04; x05])).
  { change x with (s', x).2. rewrite <- E. vm_compute. reflexivity. }
  rewrite Hx in E.
  apply (relay_path no_host (relayed "bob" "alice") alice' relay_srv s' "alice" 0%nat relay_addr
           relay_addr relay_addr [x04; x05] _ _ _ _ Relay.Demo.T0 T rA true eq_refl eq_refl eq_refl E
           eq_refl eq_refl eq_refl).
Defined.

(** alice and bob after their exchange, each with a device and a route to the other. *)
Definition tunnelled (peer : string) (dst : Tun.Addr) (p : PeerSession.Peer Toy.lib) : Agent Toy.lib :=
  alice <| heap := {[0%nat := PeerSession.MkNode p PeerSession.NotStarted]} |>
        <| peers := {[peer := 0%nat]} |>
        <| bridge := Some (MkBridge (Tun.SetRoute dst (Some 0%nat) Tun.NewRouter) ∅ 1500 false) |>.
Definition ipA : Tun.Addr := Tun.Addr4 x0a x3c x00 x01.
Definition ipB : Tun.Addr := Tun.Addr4 x0a x3c x00 x02.
Definition datagram (body : list byte) : list byte :=
  Tun.ipv4 5 x00 (replicate 8 x00) (Tun.quad ipA) (Tun.quad ipB) [] body [].

Lemma tunnelled_source (peer : string) (dst : Tun.Addr) (p : PeerSession.Peer Toy.lib) (src : UDPAddr) :
  PeerSession.DirectEP p = Some src -> sole_source (tunnelled peer dst p) src 0%nat.
Proof.
  intros Hp. split; [exact I|]. split; [exists peer; apply lookup_insert_eq|]. intros id r H.
  apply (lookup_singleton_Some peer id 0%nat r) in H as [_ <-]. split; [|done]. intros _.
  by exists (PeerSession.MkNode p PeerSession.NotStarted), src.
Qed.

Lemma can_send_less (p : PeerSession.Peer Toy.lib) (k m : Z) :
  PeerHandshake.can_send p k -> m <= k -> PeerHandshake.can_send p m.
Proof.
  intros [Hw (q & s & H1 & H2 & H3)] Hm. split; [exact Hw|]. exists q, s. split_and!; [done..|lia].
Qed.

Lemma datagram_ipv4 (body : list byte) :
  20 + len body < 65536 -> exists src, Tun.is_ipv4 src ipB (datagram body).
Proof.
  intros H. exists ipA, 5, x00, (replicate 8 x00), [], body, []. by split_and!.
Qed.

Example tunnel_delivers_witness :
  exists a b a' b' : Agent Toy.lib,
    tunnel a b ipB epB epA 0%nat 0%nat 2 1000 /\
    carry no_host parse a b epB epA 0%nat T rB [datagram [x01]; datagram [x02; x03]]
    = Some (a', b', [Device (datagram [x01]); Device (datagram [x02; x03])]).
Proof.
  destruct pair
    as (a & b & _ & [_ _ Pa Ea _ Hl Hc] & [_ _ _ Eb Hq _ _]).
  assert (Ht : tunnel (tunnelled "bob" ipB a) (tunnelled "alice" ipA b) ipB epB epA 0%nat 0%nat 2 1000).
  { constructor; try reflexivity.
    - eexists. split; reflexivity.
    - eexists. split; [reflexivity|]. split; [reflexivity|]. cbn. lia.
    - by apply tunnelled_source.
    - exists (PeerSession.MkNode a PeerSession.NotStarted), (PeerSession.MkNode b PeerSession.NotStarted).
      cbn [PeerSession.peer]. split_and!; try done;
        [by rewrite Pa|unfold PeerHandshake.payload_limit; by rewrite Pa|].
      by apply (can_send_less a (MaxNonce + 1)). }
  destruct (tunnel_delivers no_host parse _ _ ipB epB epA 0%nat 0%nat 1000 T rB
              [datagram [x01]; datagram [x02; x03]] Ht) as (a' & b' & E & _).
  - repeat constructor; first [apply datagram_ipv4; by vm_compute|by vm_compute].
  - by exists (tunnelled "bob" ipB a), (tunnelled "alice" ipA b), a', b'.
Defined.

Example probe_answered_witness :
  exists (a b : Agent Toy.lib) f1 f2 (a1 a2 b1 : Agent Toy.lib),
    run no_host parse a [EvProbeSend 0 Tp Tp T true; EvProbeRegister 0] = Some (a1, [Wire epB f1]) /\
    run no_host parse b [EvDatagram T rB epA f1; EvTake 0; EvHandle T 0] = Some (b1, [Wire epA f2]) /\
    run no_host parse a1 [EvDatagram (Tp + Second) rA epB f2; EvTake 0; EvHandle (Tp + Second) 0; EvProbeFinish 0 false]
      = Some (a2, []) /\
    lastRTT a2 !! "bob"%string = Some Second.
Proof.
  destruct pair
    as (a & b & _ & [_ _ Pa Ea Hqa Hl Hc] & [_ _ Pb Eb Hq Hl' Hc']).
  set (x := tunnelled "bob" ipB a <| probes := {[0%nat := Ready "bob" 0%nat]} |>).
  set (y := tunnelled "alice" ipA b).
  assert (Hx : connected x y epA epB epA epB 0%nat 0%nat 1 1).
  { constructor; [done| |done|].
    - split; [by apply tunnelled_source|]. by apply (tunnelled_source "bob" ipB).
    - exists (PeerSession.MkNode a PeerSession.NotStarted), (PeerSession.MkNode b PeerSession.NotStarted).
      cbn [PeerSession.peer]. split_and!; try done; rewrite ?Pa, ?Pb; try done;
        by eapply can_send_less. }
  destruct (probe_answered no_host parse x y epA epB epA epB 0%nat 0%nat 1 1 0 "bob" Tp Tp T T (Tp + Second) rB rA Hx)
    as (f1 & f2 & a1 & a2 & b1 & H1 & H2 & H3 & H4 & _); [done..|reflexivity| |].
  - by intros cmd m [-> | ->].
  - exists x, y, f1, f2, a1, a2, b1. split; [exact H1|]. split; [exact H2|]. split; [exact H3|].
    rewrite H4. reflexivity.
Defined.
