(* ===== verification/AgentControl.v ===== *)
(** * The agent's control connection and life (src/internal/agent/agent.go, status.go)

    [setup], [Run] and [Close] around the shared state of [Agent], and the control
    connection under [ctrlMu]: [register] replaces it, a [ctrlReaderLoop] per connection
    reads it, [QueryCoordinator] asks on it. A step of [Client] is what one goroutine does
    between two points where another may run; [register] keeps [ctrlMu] from its first
    step until the handshake is over.

    Connections are numbered as they are dialled; the context made for one bears its
    number. A [control.Conn] is read through the stream it is going to carry, as in
    [Control]; a connection closed here may still give what was buffered of it. *)

From S2P Require Import Prelude GoBytes GoRuntime GoNet NoiseLib Noisework Protocol Agent.
From S2P Require Control Stun Tun.

Abbreviation cid := nat.

Inductive register_err :=
| InvalidCoordKey (e : key_err) | Dial | ControlHandshake (e : Control.ctl_err)
| EncodeRegister (e : proto_err) | WriteRegister (e : Control.ctl_err).

Inductive setup_err :=
| StunFailed (e : option Stun.stun_err) | RegisterFailed (e : register_err) | SetupCancelled
| TunBridgeFailed (e : bridge_err).

Inductive query_err :=
| NoControlSession | EncodeQuery (e : proto_err) | SendQuery (e : Control.ctl_err) | QueryCancelled.

(** Where the call of [register] is. *)
Inductive reg_pos :=
| Idle
| Dialling (coordPub : list byte)                       (* holds [ctrlMu] *)
| Shaking (coordPub : list byte) (c : cid) (r : reader) (* holds [ctrlMu], in [control.Initiate] *)
| Announcing (c : cid).                                 (* before the registration is written *)

(** Where the call of [QueryCoordinator] that holds [queryMu] is. *)
Inductive query_pos :=
| NoQuery
| Draining (c : cid)
| Asking (c : cid)
| Awaiting.

(** Where [Run], or [Start], is; [daemon] tells them apart. *)
Inductive main_pos :=
| Fresh
| Locating (daemon : bool)     (* in [resolvePublicEndpoint] *)
| Enrolling (daemon : bool)    (* in the first [register] *)
| Settling (daemon : bool)     (* the 200 ms after it *)
| Bridging                     (* before [newTunBridge] *)
| Serving                      (* at [Run]'s select *)
| Returned (r : res setup_err ()).

Section Client.
Context {L : NoiseLib}.

Record Client := MkClient {
  agent : Agent L;
  sessions : gmap cid (Control.Conn L);  (* the [control.Conn] made on each connection *)
  hung : gset cid;                       (* the connections this side closed *)
  nextConn : cid;
  ctrl : option cid;
  ctrlConn : option cid;
  ctrlCancel : option cid;
  ended : gset cid;                      (* the contexts cancelled *)
  loops : gset cid;                      (* the reader loops running *)
  registering : reg_pos;
  query : query_pos;
  main : main_pos;
  receiving : bool                       (* [receiveLoop] runs *)
}.

#[export] Instance Client_eta : Eta Client := fun w =>
  MkClient (agent w) (sessions w) (hung w) (nextConn w) (ctrl w) (ctrlConn w) (ctrlCancel w)
    (ended w) (loops w) (registering w) (query w) (main w) (receiving w).

Implicit Types w : Client.

(** What leaves the agent besides [out]: the STUN request, what is written on a control
    connection, and what a query returned. *)
Inductive cout :=
| Data (o : out)
| StunRequest (o : out)
| Ctl (c : cid) (bs : list byte)
| Queried (r : res query_err Message).

(** ** Connections *)

Definition hangup (c : cid) w : Client := w <| hung := {[c]} ∪ hung w |>.

(** [a.ctrlCancel()] if there is one. *)
Definition cancel_ctrl w : Client :=
  match ctrlCancel w with Some x => w <| ended := {[x]} ∪ ended w |> | None => w end.

(** [ctrl.WriteMsg] on a connection; a closed one refuses it. *)
Definition ctl_write (c : cid) (line : list byte) (wrote : bool) w
    : res Control.ctl_err () * list cout * Client :=
  match sessions w !! c with
  | None => (Err Control.CtlWrite, [], w)                (* not reached *)
  | Some k =>
      let '(r, bs, k) := Control.WriteMsg k line (wrote && bool_decide (c ∉ hung w)) in
      (r, if is_ok r then [Ctl c bs] else [], w <| sessions := <[c := k]> (sessions w) |>)
  end.

(** What is left to read of a connection closed here: the next [k] bytes. *)
Definition cut (k : nat) (x : Control.Conn L) : Control.Conn L :=
  Control.MkConn (Reader (take k (pending (Control.br x))) (IOErr 0)) (Control.sess x).

(** ** [register] *)

(** It returns, to [setup] or to [Run]'s loop, which only logs an error. *)
Definition register_end (r : res register_err ()) w : Client :=
  w <| registering := Idle |>
    <| main := match main w, r with
               | Enrolling d, Ok _ => Settling d
               | Enrolling _, Err e => Returned (Err (RegisterFailed e))
               | m, _ => m
               end |>.

(** Up to the dial: the connection there is is closed, its context cancelled. *)
Definition register_begin w : Client :=
  match ParsePublicKeyHex (CoordKey (cfg (agent w))) with
  | Err e => register_end (Err (InvalidCoordKey e)) w
  | Ok coordPub =>
      let w := match ctrl w with
               | Some c => cancel_ctrl (hangup c w)
               | None => w
               end in
      w <| registering := Dialling coordPub |>
  end.

(** The dial; [dialled] is the stream of the new connection. *)
Definition register_dial (dialled : option reader) w : Client :=
  match registering w with
  | Dialling coordPub =>
      match dialled with
      | None => register_end (Err Dial) w
      | Some r =>
          let c := nextConn w in
          w <| nextConn := S c |> <| ctrl := Some c |> <| ctrlCancel := Some c |>
            <| registering := Shaking coordPub c r |>
      end
  | _ => w
  end.

(** The handshake, and what follows up to the unlock. *)
Definition register_shake (now : Time) (entropy : list byte) (w1 w3 : bool) w : Client * list cout :=
  match registering w with
  | Shaking coordPub c r =>
      match Control.Initiate now (kp (agent w)) coordPub entropy w1 w3 r with
      | (bs, Err e) =>
          (register_end (Err (ControlHandshake e))
             (hangup c (w <| ctrlCancel := None |> <| ctrl := None |>)), [Ctl c bs])
      | (bs, Ok k) =>
          (w <| sessions := <[c := k]> (sessions w) |> <| ctrlConn := Some c |>
             <| registering := Announcing c |>, [Ctl c bs])
      end
  | _ => (w, [])
  end.

(** The registration is written and the reader loop started. *)
Definition register_announce (wrote : bool) w : Client * list cout :=
  match registering w with
  | Announcing c =>
      match EncodeLine (registration (agent w)) with
      | Err e => (register_end (Err (EncodeRegister e)) w, [])
      | Ok line =>
          match ctl_write c line wrote w with
          | (Err e, os, w) => (register_end (Err (WriteRegister e)) w, os)
          | (Ok _, os, w) => (register_end (Ok tt) (w <| loops := {[c]} ∪ loops w |>), os)
          end
      end
  | _ => (w, [])
  end.

Section Steps.
Context `{Json, PingJson, RangeOrder}.
Context (other : string -> option UDPAddr) (parse : string -> option Tun.Addr).

(** ** [ctrlReaderLoop] *)

(** A turn of the loop on [c]: a message, handled, or the loop's end, which closes its own
    connection. [k] is how much a closed connection still gives. *)
Definition ctrlReaderLoop (now : Time) (k : nat) (c : cid) w : option Client :=
  if bool_decide (c ∈ loops w) then
    match sessions w !! c with
    | None => Some w                                     (* not reached *)
    | Some x =>
        let x := if bool_decide (c ∈ hung w) then cut k x else x in
        match Control.ReadMsg x with
        | (Err _, x) =>
            Some (hangup c (w <| sessions := <[c := x]> (sessions w) |>
                              <| loops := loops w ∖ {[c]} |>))
        | (Ok plain, x) =>
            a ← control_message other now plain (agent w);
            Some (w <| agent := a |> <| sessions := <[c := x]> (sessions w) |>)
        end
    end
  else Some w.

(** ** [QueryCoordinator] *)

(** Whether [ctrlMu] is free. *)
Definition ctrlMu_free w : bool :=
  match registering w with Dialling _ | Shaking _ _ _ => false | Idle | Announcing _ => true end.

(** The lookup of the session. *)
Definition query_begin w : Client * list cout :=
  match query w with
  | NoQuery =>
      if ctrlMu_free w then
        match ctrlConn w with
        | None => (w, [Queried (Err NoControlSession)])
        | Some c => (w <| query := Draining c |>, [])
        end
      else (w, [])
  | _ => (w, [])
  end.

(** The drain, the question, and the wait for the answer or the context. *)
Definition query_step (ctx wrote : bool) w : Client * list cout :=
  match query w with
  | NoQuery => (w, [])
  | Draining c =>
      match queryCh (agent w) with
      | Some _ => (w <| agent := query_drain (agent w) |>, [])
      | None => (w <| query := Asking c |>, [])
      end
  | Asking c =>
      match query_line with
      | Err e => (w <| query := NoQuery |>, [Queried (Err (EncodeQuery e))])
      | Ok line =>
          match ctl_write c line wrote w with
          | (Err e, os, w) => (w <| query := NoQuery |>, os ++ [Queried (Err (SendQuery e))])
          | (Ok _, os, w) => (w <| query := Awaiting |>, os)
          end
      end
  | Awaiting =>
      if ctx then (w <| query := NoQuery |>, [Queried (Err QueryCancelled)])
      else match query_take (agent w) with
           | (Some m, a) => (w <| agent := a |> <| query := NoQuery |>, [Queried (Ok m)])
           | (None, _) => (w, [])
           end
  end.

(** ** [Close], [setup] and [Run] *)

(** [Close]: the control connection and the rest; only the first call does anything. *)
Definition close (now : Time) w : option Client :=
  if closed (agent w) then Some w
  else
    a ← Close now (agent w);
    let w := cancel_ctrl w in
    let w := match ctrl w with Some c => hangup c w | None => w end in
    Some (w <| agent := a |>).

Definition start (daemon : bool) w : Client :=
  match main w with Fresh => w <| main := Locating daemon |> | _ => w end.

(** [setup]'s STUN exchange, once it is over. *)
Definition locate (stun : option UDPAddr) (txid : list byte) (wrote : bool)
    (reads : list (option (list byte))) w : Client * list cout :=
  match main w with
  | Locating d =>
      match resolvePublicEndpoint other stun txid wrote reads (agent w) with
      | (_, None) => (w, [])
      | (os, Some (Err e)) => (w <| main := Returned (Err (StunFailed e)) |>, map StunRequest os)
      | (os, Some (Ok ep)) =>
          (w <| agent := (agent w) <| pub := Some ep |> |> <| main := Enrolling d |>, map StunRequest os)
      end
  | _ => (w, [])
  end.

(** [setup] after the registration: it waits, and starts [receiveLoop]. *)
Definition settle (ctx : bool) w : Client :=
  match main w with
  | Settling d =>
      if ctx then w <| main := Returned (Err SetupCancelled) |>
      else w <| receiving := true |> <| main := if d : bool then Bridging else Returned (Ok tt) |>
  | _ => w
  end.

(** [Run]'s bridge. *)
Definition bridging (now : Time) (mtu : option Z) w : Client :=
  match main w with
  | Bridging =>
      match newTunBridge parse mtu (cfg (agent w)) with
      | Err e => w <| main := Returned (Err (TunBridgeFailed e)) |>
      | Ok _ => w <| agent := open_bridge parse now mtu (agent w) |> <| main := Serving |>
      end
  | _ => w
  end.

(** [register] is called by [setup], and by [Run] at a tick. *)
Definition may_register w : bool :=
  match registering w, main w with
  | Idle, Enrolling _ | Idle, Serving => true
  | _, _ => false
  end.

(** The context is done: [Run] closes the agent and returns. *)
Definition finish (now : Time) w : option Client :=
  match registering w, main w with
  | Idle, Serving => w ← close now w; Some (w <| main := Returned (Ok tt) |>)
  | _, _ => Some w
  end.

Inductive cevent :=
| EvStart (daemon : bool)
| EvLocate (stun : option UDPAddr) (txid : list byte) (wrote : bool) (reads : list (option (list byte)))
| EvRegister
| EvDial (dialled : option reader)
| EvShake (now : Time) (entropy : list byte) (w1 w3 : bool)
| EvAnnounce (wrote : bool)
| EvSettle (ctx : bool)
| EvBridging (now : Time) (mtu : option Z)
| EvReader (now : Time) (k : nat) (c : cid)
| EvQuery
| EvQueryStep (ctx wrote : bool)
| EvCloseCall (now : Time)
| EvFinish (now : Time)
| EvAgent (e : event).

(** The events of the other goroutines, which [Agent.step] models. *)
Definition elsewhere w (e : event) : bool :=
  match e with
  | EvEndpoint _ | EvControl _ _ | EvBridge _ _ | EvQueryDrain | EvQueryTake | EvClose _ => false
  | EvDatagram _ _ _ _ => receiving w
  | _ => true
  end.

Definition cquietly (x : option Client) : option (Client * list cout) := (fun w => (w, [])) <$> x.

Definition cstep w (e : cevent) : option (Client * list cout) :=
  match e with
  | EvStart d => Some (start d w, [])
  | EvLocate stun txid wrote reads => Some (locate stun txid wrote reads w)
  | EvRegister => Some (if may_register w then register_begin w else w, [])
  | EvDial dialled => Some (register_dial dialled w, [])
  | EvShake now entropy w1 w3 => Some (register_shake now entropy w1 w3 w)
  | EvAnnounce wrote => Some (register_announce wrote w)
  | EvSettle ctx => Some (settle ctx w, [])
  | EvBridging now mtu => Some (bridging now mtu w, [])
  | EvReader now k c => cquietly (ctrlReaderLoop now k c w)
  | EvQuery => Some (query_begin w)
  | EvQueryStep ctx wrote => Some (query_step ctx wrote w)
  | EvCloseCall now => if ctrlMu_free w then cquietly (close now w) else Some (w, [])
  | EvFinish now => cquietly (finish now w)
  | EvAgent e =>
      if elsewhere w e then
        '(a, os) ← step other parse (agent w) e; Some (w <| agent := a |>, map Data os)
      else Some (w, [])
  end.

Fixpoint crun w (es : list cevent) : option (Client * list cout) :=
  match es with
  | [] => Some (w, [])
  | e :: es => '(w, os) ← cstep w e; '(w, os') ← crun w es; Some (w, os ++ os')
  end.

(** An agent just made by [New]. *)
Definition client (a : Agent L) : Client :=
  MkClient a ∅ ∅ 0%nat None None None ∅ ∅ Idle NoQuery Fresh false.
End Steps.
End Client.

Arguments Client L : clear implicits.
