(* ===== verification/AgentControlSafety.v ===== *)
(** * What the agent's life keeps in every interleaving

    Every run of [Client] is, seen from the agent's shared state, a run of [Agent.step]:
    what holds there holds here. The control connection: at most one is open, the current
    one; a reader loop ends nothing but its own; whatever a reader loop acts on was
    decrypted in a session with the pinned coordinator. *)

From S2P Require Import Prelude GoBytes GoRuntime GoNet NoiseLib Noisework Protocol Agent.
From S2P Require Import AgentControl.
From S2P Require AgentSafety Control CoordinatorSafety PeerSession Stun Tun.

Section Safety.
Context {L : NoiseLib} {W : NoiseLaws L} {XX : XXLaws L} {J : Json} {PJ : PingJson} {RO : RangeOrder}.
Context (other : string -> option UDPAddr) (parse : string -> option Tun.Addr).
Implicit Types (w : Client L) (a : Agent L).

Abbreviation cstep := (cstep other parse).
Abbreviation crun := (crun other parse).

(** ** The agent inside *)

Definition agent_outs (os : list cout) : list out :=
  omap (fun o => match o with Data o => Some o | _ => None end) os.

Lemma agent_outs_app os os' : agent_outs (os ++ os') = agent_outs os ++ agent_outs os'.
Proof. apply omap_app. Qed.

Lemma agent_outs_data os : agent_outs (map Data os) = os.
Proof. induction os as [|o os IH]; [done|]. unfold agent_outs in *. cbn. by rewrite IH. Qed.

Lemma agent_outs_stun os : agent_outs (map StunRequest os) = [].
Proof. by induction os. Qed.

(** A message that comes out of a session of this client. *)
Definition received w (plain : list byte) : Prop :=
  exists c x x', sessions w !! c = Some x /\ Control.sess x' = Control.sess x /\
    (Control.ReadMsg x').1 = Ok plain.

(** What a step of the client is for the agent: nothing, or one step of its own, which for
    a control message is one that was received. *)
Definition projects w (os : list cout) a' : Prop :=
  (agent_outs os = [] /\ a' = agent w) \/
  exists e, step other parse (agent w) e = Some (a', agent_outs os) /\
    (forall now plain, e = EvControl now plain -> received w plain).

Lemma projects_same w os : agent_outs os = [] -> projects w os (agent w).
Proof. by left. Qed.

Lemma projects_step w os e a' :
  step other parse (agent w) e = Some (a', agent_outs os) ->
  (forall now plain, e <> EvControl now plain) -> projects w os a'.
Proof. intros H He. right. exists e. split; [done|]. intros now plain ->. by destruct (He now plain). Qed.

Lemma register_end_agent r w : agent (register_end r w) = agent w.
Proof. done. Qed.

Lemma ctl_write_agent c line wrote w r os w' :
  ctl_write c line wrote w = (r, os, w') -> agent w' = agent w /\ agent_outs os = [].
Proof.
  unfold ctl_write. destruct (sessions w !! c); [|by intros [= _ <- <-]].
  destruct (Control.WriteMsg _ _ _) as [[[] bs] k]; cbn; by intros [= _ <- <-].
Qed.

Lemma register_announce_agent wrote w w' os :
  register_announce wrote w = (w', os) -> agent w' = agent w /\ agent_outs os = [].
Proof.
  unfold register_announce. destruct (registering w); try by intros [= <- <-].
  destruct (EncodeLine _); [|by intros [= <- <-]].
  destruct (ctl_write _ _ _ _) as [[[] os'] w1] eqn:E; apply ctl_write_agent in E as [E ?];
    by intros [= <- <-].
Qed.

Lemma query_step_projects ctx wrote w w' os :
  query_step ctx wrote w = (w', os) -> projects w os (agent w').
Proof.
  unfold query_step. destruct (query w) as [|c|c|].
  - intros [= <- <-]. by apply projects_same.
  - destruct (queryCh (agent w)).
    + intros [= <- <-]. by apply (projects_step _ _ EvQueryDrain).
    + intros [= <- <-]. by apply (projects_same w).
  - destruct query_line; [|intros [= <- <-]; by apply (projects_same w)].
    destruct (ctl_write _ _ _ _) as [[[] os'] w1] eqn:E; apply ctl_write_agent in E as [E Eo];
      intros [= <- <-]; cbn; rewrite E; apply projects_same; [done|].
    by rewrite agent_outs_app, Eo.
  - destruct ctx; [intros [= <- <-]; by apply (projects_same w)|].
    destruct (query_take (agent w)) as [[m|] a] eqn:E.
    + intros [= <- <-]. apply (projects_step _ _ EvQueryTake); [|done]. cbn. by rewrite E.
    + intros [= <- <-]. by apply projects_same.
Qed.

Lemma close_projects now w w' :
  close now w = Some w' ->
  step other parse (agent w) (EvClose now) = Some (agent w', []) /\
  main w' = main w /\ registering w' = registering w.
Proof.
  unfold close. cbn [step]. destruct (closed (agent w)) eqn:Ec.
  - intros [= <-]. unfold Close. by rewrite Ec.
  - destruct (Close now (agent w)) as [a|]; [|done]. cbn [mbind option_bind]. intros [= <-].
    unfold cancel_ctrl. cbn. by destruct (ctrlCancel w), (ctrl w).
Qed.

(** The main lemma: every step of the client projects to the agent. *)
Lemma cstep_projects w e w' os : cstep w e = Some (w', os) -> projects w os (agent w').
Proof.
  destruct e; cbn [AgentControl.cstep].
  - intros [= <- <-]. unfold start. destruct (main w); by apply (projects_same w).
  - unfold locate. destruct (main w); try by (intros [= <- <-]; apply (projects_same w)).
    destruct (resolvePublicEndpoint _ _ _ _ _ _) as [os' [[ep|]|]]; intros [= <- <-].
    + apply (projects_step _ _ (EvEndpoint ep)); [|done]. by rewrite agent_outs_stun.
    + apply (projects_same w). apply agent_outs_stun.
    + by apply (projects_same w).
  - destruct (may_register w); [|intros [= <- <-]; by apply projects_same].
    unfold register_begin. destruct (ParsePublicKeyHex _); intros [= <- <-]; [|by apply (projects_same w)].
    unfold cancel_ctrl. destruct (ctrl w); cbn; [destruct (ctrlCancel w)|]; by apply (projects_same w).
  - intros [= <- <-]. unfold register_dial. destruct (registering w); try by apply projects_same.
    destruct dialled; by apply (projects_same w).
  - unfold register_shake. destruct (registering w); try by (intros [= <- <-]; apply projects_same).
    destruct (Control.Initiate _ _ _ _ _ _ _) as [bs []]; intros [= <- <-]; by apply (projects_same w).
  - intros [= H]. apply register_announce_agent in H as [-> ?]. by apply projects_same.
  - intros [= <- <-]. unfold settle. destruct (main w); try by apply projects_same.
    destruct ctx; by apply (projects_same w).
  - intros [= <- <-]. unfold bridging. destruct (main w); try by apply projects_same.
    destruct (newTunBridge _ _ _); [|by apply (projects_same w)].
    by apply (projects_step _ _ (EvBridge now mtu)).
  - unfold ctrlReaderLoop. case_bool_decide; [|intros [= <- <-]; by apply projects_same].
    destruct (sessions w !! c) as [x|] eqn:Ex; [|intros [= <- <-]; by apply projects_same].
    set (x1 := if bool_decide (c ∈ hung w) then cut k x else x).
    destruct (Control.ReadMsg x1) as [[plain|] x2] eqn:E; [|intros [= <- <-]; by apply (projects_same w)].
    destruct (control_message other now plain (agent w)) as [a|] eqn:Ea; [|done]. intros [= <- <-].
    right. exists (EvControl now plain). cbn [step]. rewrite Ea. split; [done|].
    intros _ ? [= _ <-]. exists c, x, x1. rewrite E. split_and!; [done| |done].
    unfold x1. by case_bool_decide.
  - unfold query_begin. repeat destr; intros [= <- <-]; by apply (projects_same w).
  - intros [= H]. by eapply query_step_projects.
  - destruct (ctrlMu_free w); [|intros [= <- <-]; by apply projects_same].
    destruct (close now w) as [w1|] eqn:E; [|done]. intros [= <- <-].
    apply close_projects in E as [E _]. by apply (projects_step _ _ (EvClose now)).
  - unfold finish. destruct (registering w), (main w); try by (intros [= <- <-]; apply projects_same).
    destruct (close now w) as [w1|] eqn:E; [|done]. intros [= <- <-].
    apply close_projects in E as [E _]. by apply (projects_step _ _ (EvClose now)).
  - destruct (elsewhere w e) eqn:Ee; [|intros [= <- <-]; by apply projects_same].
    destruct (step other parse (agent w) e) as [[a os']|] eqn:E; [|done]. intros [= <- <-].
    apply (projects_step _ _ e); [by rewrite agent_outs_data|]. by intros now plain ->.
Qed.

(** No step of the client panics, and the agent's own invariant is kept. *)
Lemma cstep_agent w e :
  AgentSafety.Inv (agent w) ->
  exists w' os, cstep w e = Some (w', os) /\ AgentSafety.Inv (agent w') /\
    cfg (agent w') = cfg (agent w) /\ kp (agent w') = kp (agent w).
Proof.
  intros I.
  assert (Hs : forall x, is_Some (step other parse (agent w) x)).
  { intros x. destruct (AgentSafety.step_Good other parse (agent w) x I) as (a & os & -> & _). by eexists. }
  assert (Hc : forall now, is_Some (close now w)).
  { intros now. unfold close. destruct (closed (agent w)) eqn:Ec; [by eexists|].
    destruct (Hs (EvClose now)) as [x E]. cbn [step] in E. destruct (Close now (agent w)); [by eexists|done]. }
  assert (He : is_Some (cstep w e)).
  { destruct e; cbn [AgentControl.cstep]; try by eexists.
    - unfold ctrlReaderLoop. case_bool_decide; [|by eexists]. destruct (sessions w !! c); [|by eexists].
      destruct (Control.ReadMsg _) as [[plain|] x]; [|by eexists].
      destruct (Hs (EvControl now plain)) as [y E]. cbn [step] in E.
      destruct (control_message _ _ _ _); [by eexists|done].
    - destruct (ctrlMu_free w); [|by eexists]. destruct (Hc now) as [x ->]. by eexists.
    - unfold finish. destruct (Hc now) as [x Ex].
      destruct (registering w), (main w); try rewrite Ex; by eexists.
    - destruct (elsewhere w e); [|by eexists]. destruct (Hs e) as [[a os] ->]. by eexists. }
  destruct He as [[w' os] E]. exists w', os. split; [done|].
  destruct (cstep_projects w e w' os E) as [[_ ->]|(x & Ex & _)]; [done|].
  destruct (AgentSafety.step_Good other parse (agent w) x I) as (a & os' & Ea & Ia & Xa).
  rewrite Ex in Ea. injection Ea as -> _. split; [done|]. split; apply Xa.
Qed.

(** ** The control connection *)

(** How the fields under [ctrlMu] and the reader loops hang together. [pin] is the
    coordinator's key as configured. *)
Record Links (pin : res key_err (list byte)) w : Prop := {
  lk_pin : ParsePublicKeyHex (CoordKey (cfg (agent w))) = pin;
  lk_bound c : is_Some (sessions w !! c) \/ ctrl w = Some c -> (c < nextConn w)%nat;
  lk_hung c : c ∈ hung w -> (c < nextConn w)%nat;
  lk_loops c : c ∈ loops w -> is_Some (sessions w !! c);
  lk_conn c : ctrlConn w = Some c -> is_Some (sessions w !! c);
  lk_query c : query w = Draining c \/ query w = Asking c -> is_Some (sessions w !! c);
  lk_static c x : sessions w !! c = Some x -> pin = Ok (PeerStatic (Control.sess x));
  lk_open c : (c < nextConn w)%nat -> c ∉ hung w -> ctrl w = Some c;
  lk_live c : c ∈ loops w ->
    ctrl w = Some c /\ ctrlCancel w = Some c /\ ctrlConn w = Some c \/ c ∈ hung w /\ c ∈ ended w;
  lk_reg : match registering w with
           | Idle => True
           | Dialling k => pin = Ok k /\ (forall c, (c < nextConn w)%nat -> c ∈ hung w) /\
                           (forall c, c ∈ loops w -> c ∈ ended w)
           | Shaking k c _ => pin = Ok k /\ ctrl w = Some c /\ ctrlCancel w = Some c /\
                              sessions w !! c = None
           | Announcing c => ctrl w = Some c /\ ctrlCancel w = Some c /\ ctrlConn w = Some c /\
                             is_Some (sessions w !! c) /\ c ∉ loops w
           end
}.

Section Links.
Context (pin : res key_err (list byte)).
Abbreviation Links := (Links pin).

Lemma Links_hangup c w : (c < nextConn w)%nat -> Links w -> Links (hangup c w).
Proof.
  intros Hc []. constructor; cbn; try done; [set_solver|set_solver|intros d Hd; destruct (lk_live0 d Hd) as [|[]]; set_solver|].
  destruct (registering w); try done. destruct lk_reg0 as (? & H & ?). split_and!; set_solver.
Qed.

Lemma Links_cancel w : Links w -> Links (cancel_ctrl w).
Proof.
  intros I. unfold cancel_ctrl. destruct (ctrlCancel w) as [x|] eqn:E; [|done].
  destruct I. constructor; cbn; try done; [intros d Hd; destruct (lk_live0 d Hd) as [|[]]; set_solver|].
  destruct (registering w); try done. destruct lk_reg0 as (? & H & ?). split_and!; set_solver.
Qed.

Lemma Links_end r w : Links w -> Links (register_end r w).
Proof. intros []. by constructor. Qed.

Lemma Links_agent a w : cfg a = cfg (agent w) -> Links w -> Links (w <| agent := a |>).
Proof. intros E []. constructor; cbn; rewrite ?E; done. Qed.

Lemma Links_main m b w : Links w -> Links (w <| receiving := b |> <| main := m |>).
Proof. intros []. by constructor. Qed.

Lemma Links_move m b a w :
  cfg a = cfg (agent w) -> Links w -> Links (w <| agent := a |> <| receiving := b |> <| main := m |>).
Proof. intros E I. by apply Links_main, Links_agent. Qed.

Lemma Links_query q w :
  (forall c, q = Draining c \/ q = Asking c -> is_Some (sessions w !! c)) ->
  Links w -> Links (w <| query := q |>).
Proof. intros H []. by constructor. Qed.

Lemma Links_session c x x' w :
  sessions w !! c = Some x -> PeerStatic (Control.sess x') = PeerStatic (Control.sess x) ->
  Links w -> Links (w <| sessions := <[c := x']> (sessions w) |>).
Proof.
  intros Hx Hs [].
  assert (Hk : forall d, is_Some (<[c := x']> (sessions w) !! d) <-> is_Some (sessions w !! d)).
  { intros d. destruct (decide (d = c)) as [->|]; [|by rewrite lookup_insert_ne].
    rewrite lookup_insert_eq, Hx. split; intros _; by eexists. }
  constructor; cbn; try done; try by (intros d Hd; rewrite Hk in *; eauto).
  - intros d y. destruct (decide (d = c)) as [->|]; [|rewrite lookup_insert_ne by done; apply lk_static0].
    rewrite lookup_insert_eq. intros [= <-]. rewrite Hs. by eapply lk_static0.
  - destruct (registering w); try done.
    + destruct lk_reg0 as (? & ? & ? & Hn). split_and!; try done.
      destruct (decide (c0 = c)) as [->|]; [by rewrite Hx in Hn|by rewrite lookup_insert_ne].
    + by rewrite Hk.
Qed.

Lemma Links_unloop c w : Links w -> Links (w <| loops := loops w ∖ {[c]} |>).
Proof.
  intros []. constructor; cbn; try done; try (intros d Hd; apply elem_of_difference in Hd as [Hd _]; eauto).
  destruct (registering w); try done; destruct lk_reg0; destruct_and?; split_and!; set_solver.
Qed.

Lemma Links_ctl_write c line wrote w r os w' :
  ctl_write c line wrote w = (r, os, w') -> Links w -> Links w'.
Proof.
  unfold ctl_write. destruct (sessions w !! c) as [x|] eqn:E; [|by intros [= _ _ <-]].
  pose proof (CoordinatorSafety.WriteMsg_static x line (wrote && bool_decide (c ∉ hung w))) as Hs.
  destruct (Control.WriteMsg _ _ _) as [[r' bs] x']. intros [= _ _ <-]. by apply (Links_session c x).
Qed.

Lemma ctl_write_frame c line wrote w r os w' :
  ctl_write c line wrote w = (r, os, w') ->
  ctrl w' = ctrl w /\ ctrlCancel w' = ctrlCancel w /\ ctrlConn w' = ctrlConn w /\ loops w' = loops w /\
  registering w' = registering w /\ query w' = query w /\ hung w' = hung w /\ ended w' = ended w /\
  nextConn w' = nextConn w /\ main w' = main w /\
  (forall d, is_Some (sessions w' !! d) <-> is_Some (sessions w !! d)).
Proof.
  unfold ctl_write. destruct (sessions w !! c) as [x|] eqn:E; [|by intros [= _ _ <-]].
  destruct (Control.WriteMsg _ _ _) as [[r' bs] x']. intros [= _ _ <-]. cbn. split_and!; try done.
  intros d. destruct (decide (d = c)) as [->|]; [|by rewrite lookup_insert_ne].
  rewrite lookup_insert_eq, E. split; intros _; by eexists.
Qed.

(** The session a handshake gives has the key it was asked to have. *)
Lemma Initiate_static now k key entropy b1 b3 r bs (x : Control.Conn L) :
  Control.Initiate now k key entropy b1 b3 r = (bs, Ok x) -> PeerStatic (Control.sess x) = key.
Proof.
  unfold Control.Initiate. intros E. unfold NewInitiator, Message1, ReadMessage2, WriteMessage3 in E.
  repeat (destr_in E; try done; simplify_eq/=).
  all: cbn; zbool; try match goal with H : HS_WriteMessage _ = (Some (_, Some _), _) |- _ => apply xx_write_peer in H end.
  all: try congruence.
Qed.

Lemma Links_begin w : Links w -> Links (register_begin w).
Proof.
  intros I. unfold register_begin. destruct (ParsePublicKeyHex _) as [k|e] eqn:Ek; [|by apply Links_end].
  set (w1 := match ctrl w with Some c => _ | None => w end).
  assert (I1 : Links w1).
  { unfold w1. destruct (ctrl w) eqn:Ec; [|done]. apply Links_cancel, Links_hangup; [|done].
    apply (lk_bound _ _ I). by right. }
  assert (Hw : hung w1 = match ctrl w with Some c => {[c]} ∪ hung w | None => hung w end /\
               ended w1 = match ctrl w, ctrlCancel w with Some _, Some x => {[x]} ∪ ended w | _, _ => ended w end /\
               ctrl w1 = ctrl w /\ loops w1 = loops w /\ nextConn w1 = nextConn w).
  { unfold w1, cancel_ctrl, hangup. destruct (ctrl w) eqn:E; cbn; [destruct (ctrlCancel w)|]; cbn;
      by rewrite ?E. }
  destruct Hw as (Hh & He & Hc & Hl & Hn).
  assert (Hpin : pin = Ok k) by (rewrite <- Ek; symmetry; apply (lk_pin _ _ I)).
  pose proof (lk_open _ _ I) as Ho. pose proof (lk_live _ _ I) as Hv.
  destruct I1. constructor; cbn; try done. split_and!; [done| |].
  - intros c Hcn. rewrite Hn in Hcn. rewrite Hh. destruct (decide (c ∈ hung w)) as [Hin|Hnin].
    + destruct (ctrl w); set_solver.
    + rewrite (Ho c Hcn Hnin). set_solver.
  - intros c Hin. rewrite Hl in Hin. rewrite He. destruct (Hv c Hin) as [(-> & -> & _)|[_ H]]; [set_solver|].
    destruct (ctrl w), (ctrlCancel w); set_solver.
Qed.

Lemma Links_dial dialled w : Links w -> Links (register_dial dialled w).
Proof.
  intros I. unfold register_dial. destruct (registering w) as [|k| |] eqn:Er; try done.
  destruct dialled as [r|]; [|by apply Links_end].
  pose proof (lk_reg _ _ I) as H. rewrite Er in H. destruct H as (Hk & Hh & He).
  assert (Hn : sessions w !! nextConn w = None).
  { destruct (sessions w !! nextConn w) eqn:E; [|done].
    pose proof (lk_bound _ _ I (nextConn w) ltac:(left; by eexists)). lia. }
  destruct I. constructor; cbn; try done.
  - intros c [Hc|[= <-]]; [|lia]. specialize (lk_bound0 c (or_introl Hc)). lia.
  - intros c Hc. specialize (lk_hung0 c Hc). lia.
  - intros c Hc Hnh. destruct (decide (c = nextConn w)) as [->|]; [done|].
    exfalso. apply Hnh, Hh. lia.
  - intros c Hc. right. split; [|by apply He]. apply Hh. apply lk_bound0. left. by apply lk_loops0.
Qed.

Lemma Links_shake now entropy b1 b3 w : Links w -> Links (register_shake now entropy b1 b3 w).1.
Proof.
  intros I. unfold register_shake. destruct (registering w) as [| |k c r|] eqn:Er; try done.
  pose proof (lk_reg _ _ I) as H. rewrite Er in H. destruct H as (Hk & Hc & Hx & Hs).
  assert (Hl : c ∉ loops w).
  { intros Hin. destruct (lk_loops _ _ I c Hin) as [x Hx']. congruence. }
  destruct (Control.Initiate _ _ _ _ _ _ _) as [bs [x|e]] eqn:E.
  - apply Initiate_static in E. destruct I. constructor; cbn; try done.
    + intros d [Hd|Hd]; [|by apply lk_bound0; right].
      destruct (decide (d = c)) as [->|]; [apply lk_bound0; by right|].
      rewrite lookup_insert_ne in Hd by done. apply lk_bound0. by left.
    + intros d Hd. rewrite lookup_insert_ne by set_solver. by apply lk_loops0.
    + intros d [= <-]. rewrite lookup_insert_eq. by eexists.
    + intros d Hd. destruct (decide (d = c)) as [->|]; [rewrite lookup_insert_eq; by eexists|].
      rewrite lookup_insert_ne by done. by apply lk_query0.
    + intros d y. destruct (decide (d = c)) as [->|]; [|rewrite lookup_insert_ne by done; apply lk_static0].
      rewrite lookup_insert_eq. intros [= <-]. by rewrite E.
    + intros d Hd. destruct (lk_live0 d Hd) as [(Hd' & _)|]; [|by right]. exfalso.
      rewrite Hc in Hd'. by injection Hd' as ->.
    + rewrite lookup_insert_eq. split_and!; try done.
  - destruct I. constructor; cbn; try done.
    + intros d [Hd|Hd]; [|done]. apply lk_bound0. by left.
    + intros d [Hd%elem_of_singleton|Hd]%elem_of_union; [subst d; apply lk_bound0; by right|by apply lk_hung0].
    + intros d Hd Hnh. exfalso. apply Hnh. assert (Hd' : d ∉ hung w) by set_solver.
      specialize (lk_open0 d Hd Hd'). rewrite Hc in lk_open0. injection lk_open0 as ->. set_solver.
    + intros d Hd. destruct (lk_live0 d Hd) as [(Hd' & _)|[]]; [|right; set_solver]. exfalso.
      rewrite Hc in Hd'. by injection Hd' as ->.
Qed.

Lemma Links_announce wrote w : Links w -> Links (register_announce wrote w).1.
Proof.
  intros I. unfold register_announce. destruct (registering w) as [| | |c] eqn:Er; try done.
  destruct (EncodeLine _) as [line|]; [|by apply Links_end].
  destruct (ctl_write c line wrote w) as [[[u|e] os] w1] eqn:E.
  2:{ apply Links_end. by eapply Links_ctl_write. }
  pose proof (ctl_write_frame _ _ _ _ _ _ _ E) as (F1 & F2 & F3 & F4 & F5 & _).
  assert (I1 : Links w1) by (by eapply Links_ctl_write).
  pose proof (lk_reg _ _ I1) as H. rewrite F5, Er in H. destruct H as (? & ? & ? & ? & ?).
  destruct I1. constructor; cbn; try done.
  - intros d Hd. destruct (decide (d = c)) as [->|]; [done|apply lk_loops0; set_solver].
  - intros d Hd. destruct (decide (d = c)) as [->|]; [by left|apply lk_live0; set_solver].
Qed.

Lemma Links_close now w w' :
  close now w = Some w' -> cfg (agent w') = cfg (agent w) -> Links w -> Links w'.
Proof.
  unfold close. destruct (closed (agent w)); [by intros [= <-]|].
  destruct (Close now (agent w)) as [a|]; [|done]. cbn [mbind option_bind]. intros [= <-] Hc I.
  assert (Hn : ctrl (cancel_ctrl w) = ctrl w /\ nextConn (cancel_ctrl w) = nextConn w).
  { unfold cancel_ctrl. by destruct (ctrlCancel w). }
  apply Links_agent.
  2:{ destruct (ctrl _) as [x|] eqn:Ec; [apply Links_hangup|]; try by apply Links_cancel.
      rewrite (proj2 Hn). apply (lk_bound _ _ I). right. by rewrite <- (proj1 Hn). }
  cbn in Hc. rewrite Hc. unfold cancel_ctrl. by destruct (ctrlCancel w); cbn; destruct (ctrl w).
Qed.

Lemma Links_reader now k c w w' :
  ctrlReaderLoop other now k c w = Some w' -> cfg (agent w') = cfg (agent w) -> Links w -> Links w'.
Proof.
  unfold ctrlReaderLoop. case_bool_decide as Hc; [|by intros [= <-]].
  destruct (sessions w !! c) as [x|] eqn:Ex; [|by intros [= <-]].
  set (x1 := if bool_decide (c ∈ hung w) then cut k x else x).
  assert (H1 : PeerStatic (Control.sess x1) = PeerStatic (Control.sess x)).
  { unfold x1. by case_bool_decide. }
  pose proof (CoordinatorSafety.ReadMsg_static x1) as H2.
  destruct (Control.ReadMsg x1) as [[plain|e] x2]; cbn [snd] in H2.
  - destruct (control_message other now plain (agent w)) as [a|] eqn:Ea; [|done].
    intros [= <-] Ha I. pose proof (Links_session c x x2 (w <| agent := a |>)) as HH. apply HH; [done|congruence|by apply Links_agent].
  - intros [= <-] _ I. apply Links_hangup; [apply (lk_bound _ _ I); left; by eexists|].
    pose proof (Links_unloop c (w <| sessions := <[c := x2]> (sessions w) |>)) as HH.
    apply HH, (Links_session c x); [done|congruence|done].
Qed.

Lemma Links_query_begin w : Links w -> Links (query_begin w).1.
Proof.
  intros I. unfold query_begin. destruct (query w); try done. destruct (ctrlMu_free w); [|done].
  destruct (ctrlConn w) as [c|] eqn:E; [|done]. apply Links_query; [|done].
  intros d [[= <-]|H]; [by apply (lk_conn _ _ I)|done].
Qed.

Lemma Links_query_step ctx wrote w w' os :
  query_step ctx wrote w = (w', os) -> cfg (agent w') = cfg (agent w) -> Links w -> Links w'.
Proof.
  unfold query_step. intros E Hc I. destruct (query w) as [|c|c|] eqn:Eq.
  - by injection E as <- _.
  - destruct (queryCh (agent w)); injection E as <- _; [by apply Links_agent|].
    apply Links_query; [|done]. intros d [H|[= <-]]; [done|]. apply (lk_query _ _ I). by left.
  - destruct query_line as [line|]; [|injection E as <- _; apply Links_query; [by intros d []|done]].
    destruct (ctl_write c line wrote w) as [[[u|e] os'] w1] eqn:Ew; injection E as <- _;
      (apply Links_query; [by intros d []|by eapply Links_ctl_write]).
  - destruct ctx; [injection E as <- _; apply Links_query; [by intros d []|done]|].
    destruct (query_take (agent w)) as [[m|] a] eqn:Et; injection E as <- _; [|done].
    pose proof (Links_query NoQuery (w <| agent := a |>)) as HH.
    apply HH; [by intros d []|by apply Links_agent].
Qed.

Lemma cstep_Links w e w' os :
  AgentSafety.Inv (agent w) -> Links w -> cstep w e = Some (w', os) -> Links w'.
Proof.
  intros Ia I E. destruct (cstep_agent w e Ia) as (w1 & os1 & E1 & _ & Hc & _).
  assert (w1 = w') as -> by congruence. clear E1. destruct e; cbn [AgentControl.cstep] in E.
  - injection E as <- _. unfold start. destruct (main w); try done. by apply (Links_main _ (receiving w)).
  - destruct (locate _ _ _ _ _ w) as [w2 os2] eqn:E2. injection E as -> _. unfold locate in E2.
    destruct (main w); try (by injection E2 as <- _).
    destruct (resolvePublicEndpoint _ _ _ _ _ _) as [o [[ep|]|]]; injection E2 as <- _; try done.
    + by apply (Links_move _ (receiving w)).
    + by apply (Links_main _ (receiving w)).
  - injection E as <- _. destruct (may_register w); [by apply Links_begin|done].
  - injection E as <- _. by apply Links_dial.
  - injection E as E. pose proof (Links_shake now entropy w1 w3 w I) as H. by rewrite E in H.
  - injection E as E. pose proof (Links_announce wrote w I) as H. by rewrite E in H.
  - injection E as <- _. unfold settle. destruct (main w); try done.
    destruct ctx; [by apply (Links_main _ (receiving w))|by apply Links_main].
  - injection E as <- _. unfold bridging in *. destruct (main w); try done.
    destruct (newTunBridge _ _ _); [|by apply (Links_main _ (receiving w))].
    by apply (Links_move _ (receiving w)).
  - destruct (ctrlReaderLoop _ _ _ _ _) as [w2|] eqn:E2; [|done]. injection E as -> _.
    by eapply Links_reader.
  - injection E as E. pose proof (Links_query_begin w I) as H. by rewrite E in H.
  - injection E as E. by eapply Links_query_step.
  - destruct (ctrlMu_free w); [|by injection E as <- _].
    destruct (close now w) as [w2|] eqn:E2; [|done]. injection E as -> _. by eapply Links_close.
  - unfold finish in E. destruct (registering w), (main w); try (by injection E as <- _).
    destruct (close now w) as [w2|] eqn:E2; [|done]. injection E as <- _.
    apply (Links_main _ (receiving w2)). by eapply Links_close.
  - destruct (elsewhere w e); [|by injection E as <- _].
    destruct (step other parse (agent w) e) as [[a os2]|]; [|done]. injection E as <- _.
    by apply Links_agent.
Qed.
End Links.

(** ** Runs *)

Lemma crun_kept pin es : forall w,
  AgentSafety.Inv (agent w) -> Links pin w ->
  exists w' os, crun w es = Some (w', os) /\ AgentSafety.Inv (agent w') /\ Links pin w' /\
    cfg (agent w') = cfg (agent w) /\ kp (agent w') = kp (agent w).
Proof.
  induction es as [|e es IH]; intros w Ia I; [by exists w, []|]. cbn [AgentControl.crun].
  destruct (cstep_agent w e Ia) as (w1 & os1 & E & Ia1 & Hc & Hk). rewrite E. cbn [mbind option_bind].
  destruct (IH w1 Ia1) as (w2 & os2 & -> & Ia2 & I2 & Hc2 & Hk2); [exact (cstep_Links pin w e w1 os1 Ia I E)|].
  exists w2, (os1 ++ os2). split_and!; try done; congruence.
Qed.

Lemma crun_app es1 es2 : forall w w' os,
  crun w (es1 ++ es2) = Some (w', os) <->
  exists w1 os1 os2, crun w es1 = Some (w1, os1) /\ crun w1 es2 = Some (w', os2) /\ os = os1 ++ os2.
Proof.
  induction es1 as [|e es1 IH]; intros w w' os; cbn [app AgentControl.crun].
  { split; [intros H; by exists w, [], os|]. by intros (? & ? & ? & [= <- <-] & ? & ->). }
  destruct (cstep w e) as [[w1 os1]|]; cbn [mbind option_bind]; [|split; [done|by intros (? & ? & ? & ? & _)]].
  destruct (crun w1 (es1 ++ es2)) as [[w2 os2]|] eqn:E.
  - apply IH in E as (w3 & os3 & os4 & -> & E4 & ->). cbn [mbind option_bind]. split.
    + intros [= <- <-]. exists w3, (os1 ++ os3), os4. by rewrite <- app_assoc.
    + intros (? & ? & ? & [= <- <-] & E' & ->). rewrite E4 in E'. injection E' as <- <-. by rewrite <- app_assoc.
  - split; [done|]. intros (w3 & os3 & os4 & E3 & E4 & _).
    destruct (crun w1 es1) as [[w4 os5]|] eqn:E5; [|done]. cbn [mbind option_bind] in E3. injection E3 as <- <-.
    assert (H : crun w1 (es1 ++ es2) = Some (w', os5 ++ os4)); [apply IH; by exists w4, os5, os4|congruence].
Qed.

(** A message decrypted on the way, in a session with the coordinator whose key is [pin]. *)
Definition heard (pin : res key_err (list byte)) w (es : list cevent) (plain : list byte) : Prop :=
  exists es1 es2 w1 os1 c x x',
    es = es1 ++ es2 /\ crun w es1 = Some (w1, os1) /\ sessions w1 !! c = Some x /\
    Control.sess x' = Control.sess x /\ (Control.ReadMsg x').1 = Ok plain /\
    pin = Ok (PeerStatic (Control.sess x)).

Lemma crun_projects pin es : forall w w' os,
  AgentSafety.Inv (agent w) -> Links pin w -> crun w es = Some (w', os) ->
  exists aes, run other parse (agent w) aes = Some (agent w', agent_outs os) /\
    forall now plain, EvControl now plain ∈ aes -> heard pin w es plain.
Proof.
  induction es as [|e es IH]; intros w w' os Ia I; cbn [AgentControl.crun].
  { intros [= <- <-]. exists []. split; [done|]. by intros ? ? ?%elem_of_nil. }
  destruct (cstep_agent w e Ia) as (w1 & os1 & E & Ia1 & _). rewrite E. cbn [mbind option_bind].
  destruct (crun w1 es) as [[w2 os2]|] eqn:E2; [|done]. cbn [mbind option_bind]. intros [= <- <-].
  pose proof (cstep_Links pin w e w1 os1 Ia I E) as I1.
  destruct (IH w1 w2 os2 Ia1 I1 E2) as (aes & Hr & Hh).
  assert (Hcons : forall plain, heard pin w1 es plain -> heard pin w (e :: es) plain).
  { intros plain (es1 & es2 & w3 & os3 & c & x & x' & -> & E3 & H).
    exists (e :: es1), es2, w3, (os1 ++ os3), c, x, x'. split; [done|]. split; [|done].
    cbn [AgentControl.crun]. rewrite E. cbn [mbind option_bind]. by rewrite E3. }
  rewrite agent_outs_app. destruct (cstep_projects w e w1 os1 E) as [[-> Ea]|(x & Ex & Hx)].
  - exists aes. rewrite <- Ea. split; [done|]. intros now plain H. by apply Hcons, (Hh now).
  - exists (x :: aes). split; [cbn [run]; rewrite Ex; cbn [mbind option_bind]; by rewrite Hr|].
    intros now plain [Hin|Hin]%elem_of_cons; [|by apply Hcons, (Hh now)].
    destruct (Hx now plain (eq_sym Hin)) as (c & y & y' & Hy & Hs & Hp).
    exists [], (e :: es), w, [], c, y, y'. split_and!; try done. by apply (lk_static _ _ I c).
Qed.

Lemma client_kept (c : Config) (k : Keypair) (natDoor relayAddr : string) (a0 : Agent L) :
  New other c k natDoor relayAddr = Ok a0 ->
  AgentSafety.Inv (agent (client a0)) /\ Links (ParsePublicKeyHex (CoordKey c)) (client a0) /\ cfg a0 = c /\ kp a0 = k.
Proof.
  intros Hnew. destruct (AgentSafety.agent_New_Inv other _ _ _ _ _ Hnew) as [I0 _].
  assert (Hc : cfg a0 = c /\ kp a0 = k).
  { unfold New in Hnew. repeat (destr_in Hnew; try done); by apply Ok_inj in Hnew as <-. }
  destruct Hc as [Hc Hk]. split_and!; try done. constructor; cbn; try done; try set_solver; try lia.
  - intros d [[y H]|H]; [|done]. by rewrite lookup_empty in H.
Qed.

(** What the coordinator said of a tracked peer: it was announced in a peer list decrypted on
    the way, under the key that any session established with it has. *)
Lemma peers_heard (c : Config) (k : Keypair) (natDoor relayAddr : string) (a0 : Agent L)
    (es : list cevent) w os id r :
  New other c k natDoor relayAddr = Ok a0 -> crun (client a0) es = Some (w, os) ->
  peers (agent w) !! id = Some r ->
  exists n key plain msg info, heap (agent w) !! r = Some n /\
    PeerSession.ID (PeerSession.peer n) = id /\
    heard (ParsePublicKeyHex (CoordKey c)) (client a0) es plain /\
    DecodeLine plain = Ok msg /\ Type_ msg = TypePeerList /\ info ∈ elems (Peers msg) /\
    pi_ID info = id /\ ParsePublicKeyHex (pi_PubKey info) = Ok key /\
    (PeerSession.Established (PeerSession.peer n) = true ->
     PeerSession.RemoteStatic (PeerSession.peer n) = Some key).
Proof.
  intros Hnew E Hr. destruct (client_kept _ _ _ _ _ Hnew) as (Ia & I & _).
  destruct (crun_projects _ es _ _ _ Ia I E) as (aes & Hrun & Hh).
  destruct (AgentSafety.tracked_announced other parse _ _ _ _ _ _ _ _ id r Hnew Hrun Hr)
    as (n & key & Hn & Hid & (now & plain & msg & info & Hin & Hd & Ht & Hi & Hp & Hk) & He).
  exists n, key, plain, msg, info. split_and!; try done. by apply (Hh now).
Qed.

(** [C8] Nobody but the coordinator adds peers: over the whole life of an agent (start,
    registrations that replace each other, queries, close, in any interleaving with
    everything else) nothing panics, and every peer it tracks, with the key any session
    established with it has, was announced in a peer list that was decrypted in a session
    whose remote static key is the coordinator's as configured. *)
Theorem coordinator_only (c : Config) (k : Keypair) (natDoor relayAddr : string) (a0 : Agent L)
    (es : list cevent) (Hnew : New other c k natDoor relayAddr = Ok a0) :
  exists w os, crun (client a0) es = Some (w, os) /\
    forall id r, peers (agent w) !! id = Some r ->
      exists n key plain msg info, heap (agent w) !! r = Some n /\
        PeerSession.ID (PeerSession.peer n) = id /\
        heard (ParsePublicKeyHex (CoordKey c)) (client a0) es plain /\
        DecodeLine plain = Ok msg /\ Type_ msg = TypePeerList /\ info ∈ elems (Peers msg) /\
        pi_ID info = id /\ ParsePublicKeyHex (pi_PubKey info) = Ok key /\
        (PeerSession.Established (PeerSession.peer n) = true ->
         PeerSession.RemoteStatic (PeerSession.peer n) = Some key).
Proof.
  destruct (client_kept _ _ _ _ _ Hnew) as (Ia & I & _).
  destruct (crun_kept _ es (client a0) Ia I) as (w & os & E & _). exists w, os. split; [exact E|].
  intros id r Hr. by apply (peers_heard c k natDoor relayAddr a0 es w os id r).
Qed.

(** The agent's shared state lives by [Agent.step] alone: whatever start, registrations,
    reader loops, queries and close do, in any interleaving, the agent inside goes through
    a run of its own steps from the same start, with the same datagrams and packets out. *)
Theorem life_refines (c : Config) (k : Keypair) (natDoor relayAddr : string) (a0 : Agent L)
    (es : list cevent) (w : Client L) (os : list cout)
    (Hnew : New other c k natDoor relayAddr = Ok a0) (Hrun : crun (client a0) es = Some (w, os)) :
  exists aes, run other parse a0 aes = Some (agent w, agent_outs os).
Proof.
  destruct (client_kept _ _ _ _ _ Hnew) as (Ia & I & _).
  destruct (crun_projects _ es _ _ _ Ia I Hrun) as (aes & H & _). by exists aes.
Qed.

(** ** One control session at a time *)

(** Dialled, and not closed on this side. *)
Definition is_open w (c : cid) : Prop := (c < nextConn w)%nat /\ c ∉ hung w.

Lemma ctl_write_open c line wrote w u os w' :
  ctl_write c line wrote w = (Ok u, os, w') -> is_Some (sessions w !! c) /\ c ∉ hung w.
Proof.
  unfold ctl_write. destruct (sessions w !! c) as [x|]; [|done]. unfold Control.WriteMsg.
  destruct (Encrypt _ _) as [[ct|] y]; [|done]. destruct (wrote && _) eqn:E; [|done].
  zbool. intros _. by split; [eexists|].
Qed.

Lemma ctl_write_ctl pin c line wrote w r os w' d bs :
  Links pin w -> ctl_write c line wrote w = (r, os, w') -> Ctl d bs ∈ os -> ctrl w = Some d.
Proof.
  intros I E Hin. assert (Hr : exists u, r = Ok u /\ d = c).
  { unfold ctl_write in E. destruct (sessions w !! c); [|injection E as <- <- <-; by apply elem_of_nil in Hin].
    destruct (Control.WriteMsg _ _ _) as [[[u|] b] y]; injection E as <- <- <-; [|by apply elem_of_nil in Hin].
    exists u. split; [done|]. apply list_elem_of_singleton in Hin. by injection Hin. }
  destruct Hr as (u & -> & ->). apply ctl_write_open in E as [Hs Hh].
  apply (lk_open _ _ I); [|done]. apply (lk_bound _ _ I). by left.
Qed.

Lemma cstep_ctl pin w e w' os d bs :
  Links pin w -> cstep w e = Some (w', os) -> Ctl d bs ∈ os -> ctrl w = Some d.
Proof.
  intros I E Hin.
  assert (Hq : forall r : res query_err Message, Ctl d bs ∉ [Queried r]).
  { by intros r ?%list_elem_of_singleton. }
  destruct e; cbn [AgentControl.cstep] in E; try by (injection E as _ <-; apply elem_of_nil in Hin).
  - injection E as E. unfold locate in E.
    assert (Hs : forall o, Ctl d bs ∉ map StunRequest o) by (intros o (? & ? & _)%list_elem_of_fmap; done).
    destruct (main w); try by (injection E as _ <-; apply elem_of_nil in Hin).
    destruct (resolvePublicEndpoint _ _ _ _ _ _) as [o [[ep|]|]]; injection E as _ <-; try (by destruct (Hs o)).
    by apply elem_of_nil in Hin.
  - injection E as E. unfold register_shake in E. destruct (registering w) as [| |k c r|] eqn:Er;
      try by (injection E as _ <-; apply elem_of_nil in Hin).
    pose proof (lk_reg _ _ I) as H. rewrite Er in H. destruct H as (_ & H & _).
    destruct (Control.Initiate _ _ _ _ _ _ _) as [b []]; injection E as _ <-;
      apply list_elem_of_singleton in Hin; by injection Hin as -> ->.
  - injection E as E. unfold register_announce in E. destruct (registering w) as [| | |c];
      try by (injection E as _ <-; apply elem_of_nil in Hin).
    destruct (EncodeLine _) as [line|]; [|injection E as _ <-; by apply elem_of_nil in Hin].
    destruct (ctl_write c line wrote w) as [[[u|x] o] w1] eqn:Ew; injection E as _ <-;
      by eapply ctl_write_ctl.
  - unfold cquietly in E. destruct (ctrlReaderLoop _ _ _ _ _); [|done]. injection E as _ <-.
    by apply elem_of_nil in Hin.
  - injection E as E. unfold query_begin in E. repeat (destr_in E; simplify_eq/=);
      try (by apply elem_of_nil in Hin); by destruct (Hq (Err NoControlSession)).
  - injection E as E. unfold query_step in E. destruct (query w) as [|c|c|].
    + injection E as _ <-. by apply elem_of_nil in Hin.
    + destruct (queryCh (agent w)); injection E as _ <-; by apply elem_of_nil in Hin.
    + destruct query_line as [line|x]; [|injection E as _ <-; by destruct (Hq (Err (EncodeQuery x)))].
      destruct (ctl_write c line wrote w) as [[[u|x] o] w1] eqn:Ew; injection E as _ <-;
        [by eapply ctl_write_ctl|]. apply elem_of_app in Hin as [Hin|Hin]; [by eapply ctl_write_ctl|].
      by destruct (Hq (Err (SendQuery x))).
    + destruct ctx; [injection E as _ <-; by destruct (Hq (Err QueryCancelled))|].
      destruct (query_take (agent w)) as [[m|] a]; injection E as _ <-; [by destruct (Hq (Ok m))|].
      by apply elem_of_nil in Hin.
  - destruct (ctrlMu_free w); [|injection E as _ <-; by apply elem_of_nil in Hin].
    destruct (close now w); [|done]. injection E as _ <-. by apply elem_of_nil in Hin.
  - unfold cquietly in E. destruct (finish now w); [|done]. injection E as _ <-. by apply elem_of_nil in Hin.
  - destruct (elsewhere w e); [|injection E as _ <-; by apply elem_of_nil in Hin].
    destruct (step other parse (agent w) e) as [[a o]|]; [|done]. injection E as _ <-.
    by apply list_elem_of_fmap in Hin as (? & ? & _).
Qed.

(** [C20] The agent talks to one coordinator session at a time, the current one: in every
    reachable state the connection that is open, if any, is the one [ctrl] names; a reader
    loop of another connection reads one that is closed, under a cancelled context; every
    session is with the coordinator whose key is configured; and nothing is written on any
    other connection than the current one. *)
Theorem control_sessions (c : Config) (k : Keypair) (natDoor relayAddr : string) (a0 : Agent L)
    (es : list cevent) (w : Client L) (os : list cout)
    (Hnew : New other c k natDoor relayAddr = Ok a0) (Hrun : crun (client a0) es = Some (w, os)) :
  (forall d, is_open w d -> ctrl w = Some d) /\
  (forall d, d ∈ loops w -> ctrl w = Some d \/ d ∈ hung w /\ d ∈ ended w) /\
  (forall d x, sessions w !! d = Some x ->
     ParsePublicKeyHex (CoordKey c) = Ok (PeerStatic (Control.sess x))) /\
  (forall e w' os' d bs, cstep w e = Some (w', os') -> Ctl d bs ∈ os' -> ctrl w = Some d).
Proof.
  destruct (client_kept _ _ _ _ _ Hnew) as (Ia & I & _).
  destruct (crun_kept _ es _ Ia I) as (w1 & os1 & E & _ & I1 & _). assert (w1 = w) as -> by congruence.
  split_and!.
  - intros d [H1 H2]. by apply (lk_open _ _ I1).
  - intros d Hd. destruct (lk_live _ _ I1 d Hd) as [[]|]; by auto.
  - intros d x. apply (lk_static _ _ I1).
  - intros e w' os' d bs. by apply (cstep_ctl _ _ _ _ _ _ _ I1).
Qed.

(** ** Reader loops *)

(** The events that may end a session from this side: a registration, [Close]. *)
Definition ends_session (e : cevent) : bool :=
  match e with EvRegister | EvCloseCall _ | EvFinish _ => true | _ => false end.

(** What an event that is none of them leaves of the control connection. *)
Record Calm w w' : Prop := {
  calm_reg : registering w' = Idle;
  calm_next : nextConn w' = nextConn w;
  calm_ctrl : ctrl w' = ctrl w;
  calm_conn : ctrlConn w' = ctrlConn w;
  calm_loops : loops w' ⊆ loops w;
  calm_hung d : d ∈ hung w' -> d ∈ hung w \/ d ∉ loops w'
}.

Lemma Calm_refl w : registering w = Idle -> Calm w w.
Proof. intros H. constructor; by auto. Qed.

Lemma ctl_write_calm c line wrote w r os w' q :
  registering w = Idle -> ctl_write c line wrote w = (r, os, w') -> Calm w (w' <| query := q |>).
Proof.
  intros Hr E. apply ctl_write_frame in E as (? & ? & ? & Hl & ? & ? & Hh & ? & ? & ? & _).
  constructor; cbn; rewrite ?Hl, ?Hh; first [congruence|by auto].
Qed.

Lemma cstep_calm w e w' os :
  registering w = Idle -> ends_session e = false -> cstep w e = Some (w', os) -> Calm w w'.
Proof.
  intros Hr He E. pose proof (Calm_refl w Hr) as Hw. destruct e; try done; cbn [AgentControl.cstep] in E.
  - injection E as <- _. unfold start. destruct (main w); by constructor; cbn; auto.
  - injection E as E. unfold locate in E. destruct (main w); try (by injection E as <- _).
    destruct (resolvePublicEndpoint _ _ _ _ _ _) as [o [[ep|]|]]; injection E as <- _; by constructor; cbn; auto.
  - injection E as <- _. unfold register_dial. by rewrite Hr.
  - injection E as E. unfold register_shake in E. rewrite Hr in E. by injection E as <- _.
  - injection E as E. unfold register_announce in E. rewrite Hr in E. by injection E as <- _.
  - injection E as <- _. unfold settle. destruct (main w), ctx; by constructor; cbn; auto.
  - injection E as <- _. unfold bridging. destruct (main w); try done.
    destruct (newTunBridge _ _ _); by constructor; cbn; auto.
  - unfold cquietly, ctrlReaderLoop in E. case_bool_decide; [|by injection E as <- _].
    destruct (sessions w !! c) as [x|]; [|by injection E as <- _].
    destruct (Control.ReadMsg _) as [[plain|x1] x2].
    + destruct (control_message _ _ _ _); [|done]. injection E as <- _. by constructor; cbn; auto.
    + injection E as <- _. constructor; cbn; try done; [set_solver|]. intros d Hd.
      destruct (decide (d = c)) as [->|]; [right|left]; set_solver.
  - injection E as E. unfold query_begin in E. repeat (destr_in E; simplify_eq/=); by constructor; cbn; auto.
  - injection E as E. unfold query_step in E. destruct (query w) as [|c|c|]; [by injection E as <- _| | |].
    + destruct (queryCh (agent w)); injection E as <- _; by constructor; cbn; auto.
    + destruct query_line as [line|x]; [|injection E as <- _; by constructor; cbn; auto].
      destruct (ctl_write c line wrote w) as [[[u|x] o] w1] eqn:Ew; injection E as <- _;
        by eapply ctl_write_calm.
    + destruct ctx; [injection E as <- _; by constructor; cbn; auto|].
      destruct (query_take (agent w)) as [[m|] a]; injection E as <- _; by constructor; cbn; auto.
  - destruct (elsewhere w e); [|by injection E as <- _].
    destruct (step other parse (agent w) e) as [[a o]|]; [|done]. injection E as <- _. by constructor; cbn; auto.
Qed.

Lemma crun_loops es : forall w w' os,
  registering w = Idle -> Forall (fun e => ends_session e = false) es ->
  crun w es = Some (w', os) -> loops w' ⊆ loops w.
Proof.
  induction es as [|e es IH]; intros w w' os Hr Hes E; [by injection E as -> _|].
  apply Forall_cons_1 in Hes as [He Hes]. cbn [AgentControl.crun] in E.
  destruct (cstep w e) as [[w1 os1]|] eqn:E1; [|done]. cbn [mbind option_bind] in E.
  destruct (crun w1 es) as [[w2 os2]|] eqn:E2; [|done]. injection E as -> _.
  destruct (cstep_calm _ _ _ _ Hr He E1) as [Dr _ _ _ Dl _].
  transitivity (loops w1); [by apply (IH w1 w' os2)|done].
Qed.

(** [C21] A new session is not torn down by an old one: once an agent has registered, its
    control connection stays open and current whatever the loops of earlier connections,
    queries and everything else do, up to the next registration, [Close], or the end of its
    own reader loop. *)
Theorem session_survives (c : cid) (es : list cevent) (w w' : Client L) (os : list cout)
    (Hreg : registering w = Idle) (Hctrl : ctrl w = Some c) (Hopen : is_open w c)
    (Hes : Forall (fun e => ends_session e = false) es)
    (Hrun : crun w es = Some (w', os)) (Hloop : c ∈ loops w') :
  ctrl w' = Some c /\ ctrlConn w' = ctrlConn w /\ is_open w' c /\ c ∈ loops w.
Proof.
  revert w os Hreg Hctrl Hopen Hrun. induction Hes as [|e es He Hes IH]; intros w os Hreg Hctrl Hopen Hrun.
  { by injection Hrun as -> _. }
  cbn [AgentControl.crun] in Hrun. destruct (cstep w e) as [[w1 os1]|] eqn:E; [|done].
  cbn [mbind option_bind] in Hrun. destruct (crun w1 es) as [[w2 os2]|] eqn:E2; [|done].
  injection Hrun as -> _. destruct (cstep_calm _ _ _ _ Hreg He E) as [Cr Cn Cc Cq Cl Ch].
  assert (Hl : c ∈ loops w1).
  { by apply (crun_loops es w1 w' os2). }
  assert (Ho1 : is_open w1 c).
  { destruct Hopen as [Hn Hh]. split; [by rewrite Cn|]. intros Hin. by destruct (Ch c Hin). }
  destruct (IH w1 os2) as (? & Hq & ? & _); [done|congruence|done|done|].
  split_and!; try done; [congruence|by apply Cl].
Qed.

(** A connection that is closed and will not be announced again; its loop, if it runs,
    takes less than [n] more turns. *)
Record Retired (c : cid) (n : nat) w : Prop := {
  rt_hung : c ∈ hung w;
  rt_old : (c < nextConn w)%nat;
  rt_reg : match registering w with Shaking _ d _ | Announcing d => d <> c | _ => True end;
  rt_left x : c ∈ loops w -> sessions w !! c = Some x -> (length (pending (Control.br x)) < n)%nat;
  rt_has : c ∈ loops w -> is_Some (sessions w !! c)
}.

Lemma ReadMsg_shorter (x x' : Control.Conn L) p :
  Control.ReadMsg x = (Ok p, x') -> (S (length (pending (Control.br x'))) <= length (pending (Control.br x)))%nat.
Proof.
  unfold Control.ReadMsg. destruct (ReadFull 4 (Control.br x)) as [[hdr|] r1] eqn:E1; [|done].
  destruct (_ || _); [done|]. destruct (ReadFull _ r1) as [[ct|] r2] eqn:E2; [|done].
  destruct (Decrypt _ _) as [[q|] y]; [|done]. intros [= _ <-]. cbn.
  apply ReadFull_Ok in E1 as (-> & H1 & _). apply ReadFull_Ok in E2 as (-> & H2 & _).
  rewrite !length_app. lia.
Qed.

Lemma WriteMsg_br (x : Control.Conn L) line b : Control.br (Control.WriteMsg x line b).2 = Control.br x.
Proof. unfold Control.WriteMsg. by destruct (Encrypt _ _) as [[] ?]. Qed.

Lemma ctl_write_retired d line wrote w r os w' c n :
  ctl_write d line wrote w = (r, os, w') -> Retired c n w -> Retired c n w'.
Proof.
  intros E R. pose proof (ctl_write_frame _ _ _ _ _ _ _ E) as (_ & _ & _ & Hl & Hr & _ & Hh & _ & Hn & _ & Hs).
  destruct R as [R1 R2 R3 R4 R5]. constructor; rewrite ?Hh, ?Hn, ?Hr, ?Hl, ?Hs; try done.
  intros x Hin Hx. unfold ctl_write in E. destruct (sessions w !! d) as [y|] eqn:Ey.
  2:{ injection E as _ _ <-. by apply R4. }
  pose proof (WriteMsg_br y line (wrote && bool_decide (d ∉ hung w))) as Hb.
  destruct (Control.WriteMsg _ _ _) as [[r1 bs] y']. injection E as _ _ <-. cbn in Hx, Hb.
  destruct (decide (d = c)) as [->|]; [|rewrite lookup_insert_ne in Hx by done; by apply R4].
  rewrite lookup_insert_eq in Hx. injection Hx as <-. rewrite Hb. by apply R4.
Qed.

Lemma Retired_frame c n w w' :
  hung w ⊆ hung w' -> (nextConn w <= nextConn w')%nat -> loops w' ⊆ loops w ->
  sessions w' = sessions w ->
  match registering w' with Shaking _ d _ | Announcing d => d <> c | _ => True end ->
  Retired c n w -> Retired c n w'.
Proof.
  intros Hh Hn Hl Hs Hr [R1 R2 R3 R4 R5]. constructor; rewrite ?Hs; try done; [set_solver|lia|..].
  - intros x Hin. apply R4. by apply Hl.
  - intros Hin. apply R5. by apply Hl.
Qed.

(** Whether an event is a turn of the loop of [c]. *)
Definition reads (c : cid) (e : cevent) : bool :=
  match e with EvReader _ _ d => bool_decide (d = c) | _ => false end.

Lemma Retired_query q c n w : Retired c n w -> Retired c n (w <| query := q |>).
Proof. intros []. by constructor. Qed.

Lemma Retired_end r c n w : Retired c n w -> Retired c n (register_end r w).
Proof. intros []. by constructor. Qed.

Lemma close_frame now w w' : close now w = Some w' ->
  hung w ⊆ hung w' /\ nextConn w' = nextConn w /\ loops w' = loops w /\ sessions w' = sessions w /\
  registering w' = registering w.
Proof.
  unfold close. destruct (closed (agent w)); [by intros [= <-]|]. destruct (Close _ _); [|done].
  cbn [mbind option_bind]. intros [= <-]. unfold cancel_ctrl. destruct (ctrlCancel w); cbn; destruct (ctrl w); cbn;
    split_and!; try done; set_solver.
Qed.

Lemma reader_retired c n now k d w w' :
  Retired c n w -> ctrlReaderLoop other now k d w = Some w' ->
  Retired c (if bool_decide (d = c) then pred n else n) w'.
Proof.
  intros [R1 R2 R3 R4 R5] E. unfold ctrlReaderLoop in E. case_bool_decide as Hd.
  2:{ injection E as <-. constructor; try done. intros x Hc Hx. specialize (R4 x Hc Hx).
      case_bool_decide; [by subst|done]. }
  destruct (sessions w !! d) as [x|] eqn:Ex.
  2:{ injection E as <-. constructor; try done. intros x Hc Hx. specialize (R4 x Hc Hx).
      case_bool_decide; [by subst; rewrite Ex in Hx|done]. }
  set (x1 := if bool_decide (d ∈ hung w) then cut k x else x) in E.
  assert (Hx1 : (length (pending (Control.br x1)) <= length (pending (Control.br x)))%nat).
  { unfold x1. case_bool_decide; [|done]. cbn. rewrite length_take. lia. }
  destruct (Control.ReadMsg x1) as [[plain|e] x2] eqn:Er.
  - apply ReadMsg_shorter in Er. destruct (control_message _ _ _ _); [|done]. injection E as <-.
    constructor; cbn; try done.
    + intros y Hc. case_bool_decide as Hdc.
      * subst d. rewrite lookup_insert_eq. intros [= <-]. specialize (R4 x Hc Ex). lia.
      * rewrite lookup_insert_ne by done. by apply R4.
    + intros Hc. destruct (decide (d = c)) as [->|]; [rewrite lookup_insert_eq; by eexists|].
      rewrite lookup_insert_ne by done. by apply R5.
  - injection E as <-. constructor; cbn; try done; [set_solver|..].
    + intros y [Hc Hn]%elem_of_difference. rewrite lookup_insert_ne, bool_decide_eq_false_2 by set_solver.
      by apply R4.
    + intros [Hc Hn]%elem_of_difference. rewrite lookup_insert_ne by set_solver. by apply R5.
Qed.

Lemma cstep_retired c n w e w' os :
  Retired c n w -> cstep w e = Some (w', os) -> Retired c (if reads c e then pred n else n) w'.
Proof.
  intros R E. pose proof R as [R1 R2 R3 R4 R5].
  assert (Hsame : forall w'', hung w ⊆ hung w'' -> nextConn w'' = nextConn w -> loops w'' = loops w ->
            sessions w'' = sessions w -> registering w'' = registering w \/ registering w'' = Idle -> Retired c n w'').
  { intros w'' Hh Hn Hl Hs Hr. apply (Retired_frame c n w); rewrite ?Hl, ?Hn; try done.
    by destruct Hr as [->| ->]. }
  destruct e; cbn [AgentControl.cstep reads] in *.
  - injection E as <- _. unfold start. destruct (main w); apply Hsame; by auto.
  - injection E as E. unfold locate in E. destruct (main w); try (by injection E as <- _).
    destruct (resolvePublicEndpoint _ _ _ _ _ _) as [o [[ep|]|]]; injection E as <- _; apply Hsame; by auto.
  - injection E as <- _. destruct (may_register w); [|done]. unfold register_begin.
    destruct (ParsePublicKeyHex _); [|by apply Retired_end].
    unfold cancel_ctrl. destruct (ctrl w); cbn; [destruct (ctrlCancel w)|];
      apply (Retired_frame c n w); cbn; try done; set_solver.
  - injection E as <- _. unfold register_dial. destruct (registering w) eqn:Er; try done.
    destruct dialled; [|by apply Retired_end]. apply (Retired_frame c n w); cbn; try done; lia.
  - injection E as E. unfold register_shake in E. destruct (registering w) as [| |key d r|] eqn:Er;
      try (by injection E as <- _).
    destruct (Control.Initiate _ _ _ _ _ _ _) as [bs [x|]]; injection E as <- _.
    + constructor; cbn; try done; intros *; by rewrite lookup_insert_ne; auto.
    + apply Retired_end, (Retired_frame c n w); cbn; try done; [set_solver|by rewrite Er].
  - injection E as E. unfold register_announce in E. destruct (registering w) as [| | |d] eqn:Er;
      try (by injection E as <- _).
    destruct (EncodeLine _) as [line|]; [|injection E as <- _; by apply Retired_end].
    destruct (ctl_write d line wrote w) as [[[u|x] o] w1] eqn:Ew; injection E as <- _; apply Retired_end;
      pose proof (ctl_write_retired _ _ _ _ _ _ _ _ _ Ew R) as R'; [|done].
    destruct R'. constructor; cbn; try done; intros *; rewrite elem_of_union, elem_of_singleton;
      intros [->|]; auto; done.
  - injection E as <- _. unfold settle. destruct (main w), ctx; apply Hsame; by auto.
  - injection E as <- _. unfold bridging. destruct (main w); try done.
    destruct (newTunBridge _ _ _); apply Hsame; by auto.
  - unfold cquietly in E. destruct (ctrlReaderLoop _ _ _ _ _) as [w1|] eqn:E1; [|done]. injection E as <- _.
    by apply (reader_retired c n now k c0 w).
  - injection E as E. unfold query_begin in E. repeat (destr_in E; simplify_eq/=); apply Hsame; by auto.
  - injection E as E. unfold query_step in E. destruct (query w) as [|d|d|]; [by injection E as <- _| | |].
    + destruct (queryCh (agent w)); injection E as <- _; apply Hsame; by auto.
    + destruct query_line as [line|x]; [|injection E as <- _; by apply Retired_query].
      destruct (ctl_write d line wrote w) as [[[u|x] o] w1] eqn:Ew; injection E as <- _; apply Retired_query;
        by eapply ctl_write_retired.
    + destruct ctx; [injection E as <- _; by apply Retired_query|].
      destruct (query_take (agent w)) as [[m|] a]; injection E as <- _; apply Hsame; by auto.
  - destruct (ctrlMu_free w); [|by injection E as <- _]. unfold cquietly in E.
    destruct (close now w) as [w1|] eqn:E1; [|done]. injection E as <- _.
    apply close_frame in E1 as (? & ? & ? & ? & ?). apply Hsame; by auto.
  - unfold cquietly, finish in E. destruct (registering w) eqn:Er, (main w); try (by injection E as <- _).
    destruct (close now w) as [w1|] eqn:E1; [|done]. injection E as <- _.
    apply close_frame in E1 as (? & ? & ? & ? & ?). apply Hsame; cbn; auto; left; congruence.
  - destruct (elsewhere w e); [|by injection E as <- _].
    destruct (step other parse (agent w) e) as [[a o]|]; [|done]. injection E as <- _. apply Hsame; by auto.
Qed.

Lemma crun_retired c es : forall n w w' os,
  Retired c n w -> crun w es = Some (w', os) -> Retired c (n - length (filter (fun e => reads c e) es)) w'.
Proof.
  induction es as [|e es IH]; intros n w w' os R E; cbn [AgentControl.crun] in E.
  { injection E as <- _. cbn. by rewrite Nat.sub_0_r. }
  destruct (cstep w e) as [[w1 os1]|] eqn:E1; [|done]. cbn [mbind option_bind] in E.
  destruct (crun w1 es) as [[w2 os2]|] eqn:E2; [|done]. injection E as <- _.
  pose proof (IH _ _ _ _ (cstep_retired c n w e w1 os1 R E1) E2) as R'. rewrite filter_cons.
  destruct (reads c e); cbn in *; [|done]. set (m := length _) in R'.
  change (Retired c (n - S m) w2). by replace (n - S m)%nat with (pred n - m)%nat by lia.
Qed.

(** The loop of a connection that was replaced or closed ends: whatever happens meanwhile,
    after as many of its turns as the connection had bytes left to read, and one more, it
    has returned, and it is not started again. *)
Theorem old_loop_ends (c : Config) (k : Keypair) (natDoor relayAddr : string) (a0 : Agent L)
    (es es' : list cevent) (w w' : Client L) (os os' : list cout) (d : cid) (x : Control.Conn L)
    (Hnew : New other c k natDoor relayAddr = Ok a0) (Hrun : crun (client a0) es = Some (w, os))
    (Hloop : d ∈ loops w) (Hhung : d ∈ hung w) (Hx : sessions w !! d = Some x)
    (Hes' : (length (pending (Control.br x)) < length (filter (fun e => reads d e) es'))%nat)
    (Hrun' : crun w es' = Some (w', os')) :
  d ∉ loops w'.
Proof.
  destruct (client_kept _ _ _ _ _ Hnew) as (Ia & I & _).
  destruct (crun_kept _ es _ Ia I) as (w1 & os1 & E & _ & I1 & _). assert (w1 = w) as -> by congruence.
  assert (R : Retired d (S (length (pending (Control.br x)))) w).
  { constructor; try done.
    - apply (lk_bound _ _ I1). left. by eexists.
    - pose proof (lk_reg _ _ I1) as H. destruct (registering w); try done; intros ->.
      + destruct H as (_ & _ & _ & H). congruence.
      + by destruct H as (_ & _ & _ & _ & H).
    - intros y _ Hy. rewrite Hx in Hy. injection Hy as <-. lia. }
  pose proof (crun_retired d es' _ w w' os' R Hrun') as [_ _ _ R4 R5]. intros Hd.
  destruct (R5 Hd) as [y Hy]. specialize (R4 y Hd Hy). lia.
Qed.
End Safety.
