(* ===== verification/Enrolment.v ===== *)
(** * An agent and its coordinator (agent.go and coordinator.go over control.go)

    Both ends of the control connection composed: a registration from the dial to the
    coordinator's registry, a query and its answer, and a broadcast peer list that the
    agent's reader loop applies. The two sides share only the bytes of the streams. *)

From S2P Require Import Prelude GoBytes GoRuntime GoNet NoiseLib Noisework Transport Protocol Agent.
From S2P Require Import AgentControl AgentControlSafety AgentNet.
From S2P Require Control Coordinator Tun.

#[local] Existing Instance Coordinator.Server_eta.

Section Enrolment.
Context {L : NoiseLib} {W : NoiseLaws L} {XX : XXLaws L} {J : Json} {PJ : PingJson} {RO : RangeOrder}.
Context (other : string -> option UDPAddr) (parse : string -> option Tun.Addr).
Implicit Types (w : Client L) (s : Coordinator.Server L) (sA sB : Session L).

Abbreviation crun := (AgentControl.crun other parse).

(** A line both sides can send and read. *)
Definition carries (m : Message) (line : list byte) : Prop :=
  EncodeLine m = Ok line /\ DecodeLine line = Ok m /\ len line + tagLen <= Control.maxMsgLen.

(** The current control session of an agent that has registered and is not registering
    again, with what its stream still carries. *)
Definition session_up w (c : cid) (r : reader) sA : Prop :=
  ctrlConn w = Some c /\ c ∉ hung w /\ c ∈ loops w /\ registering w = Idle /\
  sessions w !! c = Some (Control.MkConn r sA).

(** The coordinator's handler of a client, waiting for its next message. *)
Definition attends s (d : Coordinator.conn) (st : list byte) (r : reader) sB : Prop :=
  Coordinator.handlers s !! d = Some (Coordinator.Reading st) /\ d ∈ Coordinator.ctrlConns s /\
  d ∉ Coordinator.sockets s /\ Coordinator.sessions s !! d = Some (Control.MkConn r sB).

(** ** Turns of the two sides *)

Lemma ctl_write_up w c r sA sA' line bs wrote :
  sessions w !! c = Some (Control.MkConn r sA) -> c ∉ hung w -> wrote = true ->
  Control.WriteMsg (Control.MkConn r sA) line true = (Ok (), bs, Control.MkConn r sA') ->
  ctl_write c line wrote w = (Ok (), [Ctl c bs], w <| sessions := <[c := Control.MkConn r sA']> (sessions w) |>).
Proof.
  intros Hs Hh -> E. unfold ctl_write. rewrite Hs, bool_decide_eq_true_2 by done. cbn [andb]. by rewrite E.
Qed.

Lemma reader_turn w c r r' sA sA' plain now k a :
  c ∈ loops w -> c ∉ hung w -> sessions w !! c = Some (Control.MkConn r sA) ->
  Control.ReadMsg (Control.MkConn r sA) = (Ok plain, Control.MkConn r' sA') ->
  control_message other now plain (agent w) = Some a ->
  ctrlReaderLoop other now k c w
  = Some (w <| agent := a |> <| sessions := <[c := Control.MkConn r' sA']> (sessions w) |>).
Proof.
  intros Hl Hh Hs E Ea. unfold ctrlReaderLoop.
  rewrite bool_decide_eq_true_2, Hs, bool_decide_eq_false_2 by done. cbn zeta. by rewrite E, Ea.
Qed.

Lemma server_reads s d st r r' sB sB' plain now i :
  Coordinator.fails i = false -> Coordinator.handlers s !! d = Some (Coordinator.Reading st) ->
  Coordinator.sessions s !! d = Some (Control.MkConn r sB) ->
  Control.ReadMsg (Control.MkConn r sB) = (Ok plain, Control.MkConn r' sB') ->
  Coordinator.handleClient now i d s
  = Coordinator.goto d (Coordinator.dispatch st plain)
      (s <| Coordinator.sessions := <[d := Control.MkConn r' sB']> (Coordinator.sessions s) |>).
Proof. intros Hf Hh Hs E. unfold Coordinator.handleClient. by rewrite Hh, Hf, Hs, E. Qed.

Lemma server_writes s d r sB sB' line bs :
  Coordinator.sessions s !! d = Some (Control.MkConn r sB) -> d ∉ Coordinator.sockets s ->
  Control.WriteMsg (Control.MkConn r sB) line true = (Ok (), bs, Control.MkConn r sB') ->
  Coordinator.write d line true s
  = (true, s <| Coordinator.sessions := <[d := Control.MkConn r sB']> (Coordinator.sessions s) |>).
Proof.
  intros Hs Hd E. unfold Coordinator.write. rewrite Hs, bool_decide_eq_false_2 by done. cbn. by rewrite E.
Qed.

(** ** Registration *)

(** The environment of a coordinator's handler that is never disturbed. *)
Definition fine (entropy : list byte) : Coordinator.input := Coordinator.MkInput false true entropy false.

Lemma crun_cons w w1 w2 e es os1 os2 :
  cstep other parse w e = Some (w1, os1) -> crun w1 es = Some (w2, os2) -> crun w (e :: es) = Some (w2, os1 ++ os2).
Proof. intros E1 E2. cbn [AgentControl.crun]. rewrite E1. cbn [mbind option_bind]. by rewrite E2. Qed.

Lemma shake_turn w k c r bs x now entropy :
  registering w = Shaking k c r -> Control.Initiate now (kp (agent w)) k entropy true true r = (bs, Ok x) ->
  register_shake now entropy true true w
  = (w <| sessions := <[c := x]> (sessions w) |> <| ctrlConn := Some c |> <| registering := Announcing c |>, [Ctl c bs]).
Proof. intros Hr E. unfold register_shake. by rewrite Hr, E. Qed.

Lemma announce_turn w c line os w1 :
  registering w = Announcing c -> EncodeLine (registration (agent w)) = Ok line ->
  ctl_write c line true w = (Ok (), os, w1) ->
  register_announce true w = (register_end (Ok tt) (w1 <| loops := {[c]} ∪ loops w1 |>), os).
Proof. intros Hr E Ew. unfold register_announce. by rewrite Hr, E, Ew. Qed.

(** The agent's four turns. *)
Lemma register_turns pin w line hello msg reply sA sA' kB tA eA rest e :
  Links pin w -> may_register w = true ->
  ParsePublicKeyHex (CoordKey (cfg (agent w))) = Ok (Public kB) ->
  EncodeLine (registration (agent w)) = Ok line ->
  (forall rest e, Control.Initiate tA (kp (agent w)) (Public kB) eA true true (Reader (reply ++ rest) e)
                  = (hello, Ok (Control.MkConn (Reader rest e) sA))) ->
  (forall r, Control.WriteMsg (Control.MkConn r sA) line true = (Ok (), msg, Control.MkConn r sA')) ->
  exists w',
    crun w [EvRegister; EvDial (Some (Reader (reply ++ rest) e)); EvShake tA eA true true; EvAnnounce true]
      = Some (w', [Ctl (nextConn w) hello; Ctl (nextConn w) msg]) /\
    agent w' = agent w /\ ctrl w' = Some (nextConn w) /\
    session_up w' (nextConn w) (Reader rest e) sA'.
Proof.
  intros I Hmay Hpin Henc HI HW. pose proof (Links_begin pin w I) as I1.
  assert (H1 : registering (register_begin w) = Dialling (Public kB) /\ agent (register_begin w) = agent w /\
               nextConn (register_begin w) = nextConn w).
  { unfold register_begin. rewrite Hpin. cbn. unfold cancel_ctrl, hangup.
    destruct (ctrl w); cbn; [destruct (ctrlCancel w)|]; done. }
  assert (E1 : cstep other parse w EvRegister = Some (register_begin w, [])) by (cbn; by rewrite Hmay).
  set (w1 := register_begin w) in *. clearbody w1. destruct H1 as (Hr1 & Ha1 & Hn1).
  assert (Hh1 : nextConn w ∉ hung w1) by (intros Hin; apply (lk_hung _ _ I1) in Hin; lia).
  rewrite <- Hn1 in *. set (r := Reader (reply ++ rest) e).
  set (w2 := w1 <| nextConn := S (nextConn w1) |> <| ctrl := Some (nextConn w1) |>
               <| ctrlCancel := Some (nextConn w1) |> <| registering := Shaking (Public kB) (nextConn w1) r |>).
  assert (E2 : cstep other parse w1 (EvDial (Some r)) = Some (w2, [])).
  { cbn. unfold register_dial. by rewrite Hr1. }
  set (x := Control.MkConn (Reader rest e) sA).
  set (w3 := w2 <| sessions := <[nextConn w1 := x]> (sessions w2) |> <| ctrlConn := Some (nextConn w1) |>
               <| registering := Announcing (nextConn w1) |>).
  assert (E3 : cstep other parse w2 (EvShake tA eA true true) = Some (w3, [Ctl (nextConn w1) hello])).
  { cbn [cstep]. f_equal. apply (shake_turn w2 (Public kB) (nextConn w1) r); [done|].
    change (agent w2) with (agent w1). rewrite Ha1. apply HI. }
  set (w4 := w3 <| sessions := <[nextConn w1 := Control.MkConn (Reader rest e) sA']> (sessions w3) |>).
  assert (Ew : ctl_write (nextConn w1) line true w3 = (Ok (), [Ctl (nextConn w1) msg], w4)).
  { apply (ctl_write_up _ _ (Reader rest e) sA); [apply lookup_insert_eq|done|done|apply HW]. }
  assert (E4 : cstep other parse w3 (EvAnnounce true)
    = Some (register_announce true w3)) by done.
  rewrite (announce_turn w3 (nextConn w1) line [Ctl (nextConn w1) msg] w4) in E4;
    [|done|change (agent w3) with (agent w1); by rewrite Ha1|exact Ew].
  eexists. split.
  - apply (crun_cons _ _ _ _ _ _ _ E1), (crun_cons _ _ _ _ _ _ _ E2),
      (crun_cons _ _ _ _ _ _ [Ctl (nextConn w1) msg] E3), (crun_cons _ _ _ _ _ _ [] E4).
    reflexivity.
  - split; [exact Ha1|]. split; [done|]. split_and!; try done; cbn; [set_solver|].
    apply lookup_insert_eq.
Qed.

(** The coordinator's three. *)
Lemma accept_turns s d kB tB eB hello reply msg line rest e sB sB' (kA : list byte) :
  Coordinator.kp s = kB ->
  Coordinator.handlers s !! d = Some (Coordinator.Handshaking (Reader (hello ++ msg ++ rest) e)) ->
  (forall rest e, Control.Accept tB kB eB true (Reader (hello ++ rest) e)
                  = (reply, Ok (kA, Control.MkConn (Reader rest e) sB))) ->
  (forall rest e, Control.ReadMsg (Control.MkConn (Reader (msg ++ rest) e) sB)
                  = (Ok line, Control.MkConn (Reader rest e) sB')) ->
  let s' := Coordinator.run s (replicate 3 (Coordinator.EvClient tB (fine eB) d)) in
  Coordinator.handlers s' !! d = Some (Coordinator.dispatch kA line) /\ d ∈ Coordinator.ctrlConns s' /\
  Coordinator.sessions s' !! d = Some (Control.MkConn (Reader rest e) sB').
Proof.
  intros Hk Hh HA HR. unfold Coordinator.run. cbn [replicate fold_left Coordinator.step].
  set (s1 := Coordinator.goto d (Coordinator.Authenticated kA)
    (s <| Coordinator.sessions := <[d := Control.MkConn (Reader (msg ++ rest) e) sB]> (Coordinator.sessions s) |>)).
  assert (E1 : Coordinator.handleClient tB (fine eB) d s = s1).
  { unfold Coordinator.handleClient. rewrite Hh. cbn [Coordinator.fails fine Coordinator.entropy Coordinator.wrote].
    by rewrite Hk, HA. }
  set (s2 := Coordinator.goto d (Coordinator.Reading kA)
    (s1 <| Coordinator.ctrlConns := {[d]} ∪ Coordinator.ctrlConns s1 |>)).
  assert (E2 : Coordinator.handleClient tB (fine eB) d s1 = s2).
  { unfold Coordinator.handleClient. assert (Coordinator.handlers s1 !! d = Some (Coordinator.Authenticated kA)) as ->;
      [exact (lookup_insert_eq _ _ _)|done]. }
  rewrite E1, E2, (server_reads s2 d kA (Reader (msg ++ rest) e) (Reader rest e) sB sB' line tB (fine eB));
    [|done|exact (lookup_insert_eq _ _ _)|exact (lookup_insert_eq _ _ _)|apply HR].
  split; [exact (lookup_insert_eq _ _ _)|]. split; [|exact (lookup_insert_eq _ _ _)].
  assert (Hin : d ∈ {[d]} ∪ Coordinator.ctrlConns s1) by set_solver. exact Hin.
Qed.

(** [C7] Registration works end to end: an agent whose configuration pins the
    coordinator's key, both with key pairs as they are generated and loaded, dials,
    completes the handshake and announces itself, and the coordinator, on the bytes the agent wrote, authenticates the agent's key and is
    about to enter the registration into its registry; the agent's session is then its
    current one, read by a loop of its own, and the two sessions are linked. *)
Theorem enrols (c : Config) (k : Keypair) (natDoor relayAddr : string) (a0 : Agent L) (es : list cevent)
    (os : list cout) (w : Client L) (d : Coordinator.conn) (kB : Keypair) (tA tB : Time) (eA eB line : list byte)
    (Hnew : New other c k natDoor relayAddr = Ok a0) (Hrun : crun (client a0) es = Some (w, os))
    (Hmay : may_register w = true)
    (Hpin : ParsePublicKeyHex (CoordKey c) = Ok (Public kB))
    (HkA : genuine k) (HkB : genuine kB)
    (HeA : len eA = 32) (HeB : len eB = 32)
    (Hline : carries (registration (agent w)) line)
    (Hname : 0 < slen (Name (cfg (agent w))) <= Coordinator.maxIDLen)
    (Hpub : slen (Relay.ptr_String (pub (agent w))) <= Coordinator.maxEndpointLen)
    (Hrelay : forall r, relay (agent w) = Some r -> slen (addr_String r) <= Coordinator.maxEndpointLen) :
  exists hello reply msg sA sB, Control.linked sA sB /\ PeerStatic sA = Public kB /\
    PeerStatic sB = Public k /\
    (forall rest e, exists w',
       crun w [EvRegister; EvDial (Some (Reader (reply ++ rest) e)); EvShake tA eA true true; EvAnnounce true]
         = Some (w', [Ctl (nextConn w) hello; Ctl (nextConn w) msg]) /\
       agent w' = agent w /\ ctrl w' = Some (nextConn w) /\
       session_up w' (nextConn w) (Reader rest e) sA) /\
    (forall s rest e, Coordinator.kp s = kB ->
       Coordinator.handlers s !! d = Some (Coordinator.Handshaking (Reader (hello ++ msg ++ rest) e)) ->
       let s' := Coordinator.run s (replicate 3 (Coordinator.EvClient tB (fine eB) d)) in
       Coordinator.handlers s' !! d
         = Some (Coordinator.Registering (Public k) (registration (agent w))) /\
       d ∈ Coordinator.ctrlConns s' /\
       Coordinator.sessions s' !! d = Some (Control.MkConn (Reader rest e) sB)).
Proof.
  destruct Hline as (Henc & Hdec & Hlen).
  destruct (client_kept other parse _ _ _ _ _ Hnew) as (Ia & I & Hc & Hk).
  destruct (crun_kept other parse _ es _ Ia I) as (w1 & os1 & E & _ & I1 & Hc1 & Hk1).
  assert (w1 = w) as -> by congruence. cbn [agent client] in Hc1, Hk1. rewrite Hk in Hk1. rewrite <- Hk1 in HkA |- *.
  destruct (Control.handshake_connects tA tB (kp (agent w)) kB eA eB HkA HkB HeA HeB)
    as (hello & reply & sA & sB & HI & HA & HpA & HL & HnA & HnB).
  destruct (Control.message_crosses sA sB line HL) as (msg & sA' & sB' & HW & HR & HL' & _); [|done|].
  { rewrite HnA. unfold MaxNonce. lia. }
  assert (HsA : PeerStatic sA' = Public kB).
  { pose proof (CoordinatorSafety.WriteMsg_static (Control.MkConn (Reader [] EOF) sA) line true) as H.
    rewrite HW in H. cbn in H. by rewrite H. }
  assert (HsB : PeerStatic sB' = Public (kp (agent w))).
  { pose proof (CoordinatorSafety.ReadMsg_static (Control.MkConn (Reader (msg ++ []) EOF) sB)) as H.
    rewrite HR in H. cbn in H. rewrite H. by apply (CoordinatorSafety.Accept_static tB kB eB true
      (Reader (hello ++ []) EOF) reply _ (Control.MkConn (Reader [] EOF) sB)). }
  exists hello, reply, msg, sA', sB'. split_and!; try done.
  - intros rest e. apply (register_turns _ w line hello msg reply sA sA' kB tA eA rest e I1); try done.
    by rewrite Hc1, Hc.
  - intros s rest e HkB' Hh.
    destruct (accept_turns s d kB tB eB hello reply msg line rest e sB sB' _ HkB' Hh HA HR) as (H1 & H2 & H3).
    split_and!; try done. rewrite H1. f_equal. by apply registration_accepted.
Qed.

(** ** A query *)

Definition queryMessage : Message := MkMessage TypeQuery "" "" None None "" 0 0 0.

(** The turns of [QueryCoordinator] up to its wait: the lookup, the drain, the question. *)
Definition asking w : list cevent :=
  EvQuery :: replicate (match queryCh (agent w) with Some _ => 3 | None => 2 end) (EvQueryStep false true).

(** What the next write of [line] puts on the connection of [d]. *)
Definition sent s (d : Coordinator.conn) (line : list byte) : list byte :=
  match Coordinator.sessions s !! d with
  | Some k => (Control.WriteMsg k line true).1.2
  | None => []
  end.

Lemma asks_turns w c r sA sA' qline question :
  session_up w c r sA -> query w = NoQuery -> EncodeLine queryMessage = Ok qline ->
  (forall r, Control.WriteMsg (Control.MkConn r sA) qline true = (Ok (), question, Control.MkConn r sA')) ->
  exists w1, crun w (asking w) = Some (w1, [Ctl c question]) /\
    agent w1 = agent w <| queryCh := None |> /\ query w1 = Awaiting /\ session_up w1 c r sA'.
Proof.
  intros (Hc & Hh & Hl & Hr & Hs) Hq Henc HW.
  set (w1 := w <| query := Draining c |>).
  assert (E1 : cstep other parse w EvQuery = Some (w1, [])).
  { cbn. unfold query_begin, ctrlMu_free. by rewrite Hq, Hr, Hc. }
  set (w2 := w1 <| agent := (agent w) <| queryCh := None |> |>).
  assert (E2 : queryCh (agent w) = None -> w2 = w1).
  { intros E. unfold w2. replace (agent w <| queryCh := None |>) with (agent w); [unfold w1; by destruct w|].
    destruct (agent w). cbn in E. by subst. }
  set (w3 := w2 <| query := Asking c |>).
  assert (E3 : cstep other parse w2 (EvQueryStep false true) = Some (w3, [])) by done.
  assert (Ew : ctl_write c qline true w3 = (Ok (), [Ctl c question],
            w3 <| sessions := <[c := Control.MkConn r sA']> (sessions w3) |>)).
  { by apply (ctl_write_up _ _ r sA). }
  set (w4 := w3 <| sessions := <[c := Control.MkConn r sA']> (sessions w3) |>) in *.
  assert (E4 : cstep other parse w3 (EvQueryStep false true) = Some (w4 <| query := Awaiting |>, [Ctl c question])).
  { cbn [cstep]. unfold query_step. change (query w3) with (Asking c). cbn [upd].
    change query_line with (EncodeLine queryMessage). rewrite Henc, Ew. done. }
  exists (w4 <| query := Awaiting |>). split; [|split; [done|]; split; [done|];
    split_and!; try done; exact (lookup_insert_eq _ _ _)].
  unfold asking. apply (crun_cons _ _ _ _ _ [] [Ctl c question] E1).
  assert (E34 : crun w2 (replicate 2 (EvQueryStep false true)) = Some (w4 <| query := Awaiting |>, [Ctl c question])).
  { apply (crun_cons _ _ _ _ _ [] [Ctl c question] E3), (crun_cons _ _ _ _ _ [Ctl c question] [] E4). done. }
  destruct (queryCh (agent w)) as [m|] eqn:Em; [|by rewrite <- E2].
  apply (crun_cons w1 w2 _ (EvQueryStep false true) (replicate 2 (EvQueryStep false true)) [] [Ctl c question]);
    [|exact E34].
  cbn [cstep]. unfold query_step. change (query w1) with (Draining c). change (agent w1) with (agent w).
  by rewrite Em.
Qed.

Lemma answer_turns w1 c rest e sA sA' answer mline m now k :
  session_up w1 c (Reader (answer ++ rest) e) sA -> query w1 = Awaiting -> queryCh (agent w1) = None ->
  DecodeLine mline = Ok m -> Type_ m = TypeQueryResult ->
  (forall rest e, Control.ReadMsg (Control.MkConn (Reader (answer ++ rest) e) sA)
                  = (Ok mline, Control.MkConn (Reader rest e) sA')) ->
  exists w2, crun w1 [EvReader now k c; EvQueryStep false true] = Some (w2, [Queried (Ok m)]) /\
    agent w2 = agent w1 /\ query w2 = NoQuery /\ session_up w2 c (Reader rest e) sA'.
Proof.
  intros (Hc & Hh & Hl & Hr & Hs) Hq Hch Hdec Ht HR.
  assert (Ea : control_message other now mline (agent w1) = Some (agent w1 <| queryCh := Some m |>)).
  { unfold control_message. rewrite Hdec, Ht. by rewrite Hch. }
  pose proof (reader_turn w1 c _ _ sA sA' mline now k _ Hl Hh Hs (HR rest e) Ea) as E1.
  set (w2 := w1 <| agent := _ |> <| sessions := _ |>) in E1.
  set (w3 := w2 <| agent := agent w1 |> <| query := NoQuery |>).
  assert (E2 : cstep other parse w2 (EvQueryStep false true) = Some (w3, [Queried (Ok m)])).
  { cbn [cstep]. unfold query_step. change (query w2) with (query w1). rewrite Hq.
    change (agent w2) with (agent w1 <| queryCh := Some m |>). cbn.
    unfold w3. do 4 f_equal. destruct (agent w1). cbn in Hch. by subst. }
  exists w3. split; [|split; [done|]; split; [done|]; split_and!; try done; exact (lookup_insert_eq _ _ _)].
  apply (crun_cons w1 w2 _ (EvReader now k c) _ [] [Queried (Ok m)]); [cbn [cstep]; by rewrite E1|].
  by apply (crun_cons w2 w3 w3 _ [] [Queried (Ok m)] [] E2).
Qed.

(** The coordinator's four turns: it reads the question, takes the snapshot, looks the
    session up and writes. *)
Lemma replies_turns s d st rest e sB sB1 sB' qline mline question answer m now entropy :
  attends s d st (Reader (question ++ rest) e) sB -> DecodeLine qline = Ok queryMessage ->
  Coordinator.registrySnapshot now s = m -> EncodeLine m = Ok mline ->
  (forall rest e, Control.ReadMsg (Control.MkConn (Reader (question ++ rest) e) sB)
                  = (Ok qline, Control.MkConn (Reader rest e) sB1)) ->
  (forall r, Control.WriteMsg (Control.MkConn r sB1) mline true = (Ok (), answer, Control.MkConn r sB')) ->
  let turns n := Coordinator.run s (replicate n (Coordinator.EvClient now (fine entropy) d)) in
  Coordinator.handlers (turns 3%nat) !! d = Some (Coordinator.Writing st mline) /\
  sent (turns 3%nat) d mline = answer /\
  attends (turns 4%nat) d st (Reader rest e) sB' /\
  Coordinator.registrations (turns 4%nat) = Coordinator.registrations s.
Proof.
  intros (Hh & Hcc & Hsk & Hs) Hdec Hm Henc HR HW turns.
  set (i := fine entropy). set (x1 := Control.MkConn (Reader rest e) sB1).
  set (s1 := Coordinator.goto d (Coordinator.Querying st)
               (s <| Coordinator.sessions := <[d := x1]> (Coordinator.sessions s) |>)).
  set (s2 := Coordinator.goto d (Coordinator.Replying st m) s1).
  set (s3 := Coordinator.goto d (Coordinator.Writing st mline) s2).
  set (s4 := Coordinator.goto d (Coordinator.Reading st)
               (s3 <| Coordinator.sessions := <[d := Control.MkConn (Reader rest e) sB']> (Coordinator.sessions s3) |>)).
  assert (E1 : Coordinator.handleClient now i d s = s1).
  { rewrite (server_reads s d st _ _ sB sB1 qline now i eq_refl Hh Hs (HR rest e)). unfold s1. f_equal.
    unfold Coordinator.dispatch. by rewrite Hdec. }
  assert (E2 : Coordinator.handleClient now i d s1 = s2).
  { unfold Coordinator.handleClient.
    assert (Coordinator.handlers s1 !! d = Some (Coordinator.Querying st)) as -> by exact (lookup_insert_eq _ _ _).
    by change (Coordinator.registrySnapshot now s1) with (Coordinator.registrySnapshot now s); rewrite Hm. }
  assert (E3 : Coordinator.handleClient now i d s2 = s3).
  { unfold Coordinator.handleClient.
    assert (Coordinator.handlers s2 !! d = Some (Coordinator.Replying st m)) as -> by exact (lookup_insert_eq _ _ _).
    unfold Coordinator.writeMsg. rewrite Henc.
    change (Coordinator.ctrlConns s2) with (Coordinator.ctrlConns s). by rewrite bool_decide_eq_true_2. }
  assert (Hs3 : Coordinator.sessions s3 !! d = Some x1) by exact (lookup_insert_eq _ _ _).
  assert (E4 : Coordinator.handleClient now i d s3 = s4).
  { unfold Coordinator.handleClient.
    assert (Coordinator.handlers s3 !! d = Some (Coordinator.Writing st mline)) as -> by exact (lookup_insert_eq _ _ _).
    cbn [Coordinator.wrote i fine].
    by rewrite (server_writes s3 d (Reader rest e) sB1 sB' mline answer Hs3 Hsk (HW _)). }
  assert (T3 : turns 3%nat = s3).
  { unfold turns, Coordinator.run. cbn [replicate fold_left Coordinator.step]. fold i. by rewrite E1, E2, E3. }
  assert (T4 : turns 4%nat = s4).
  { unfold turns, Coordinator.run. cbn [replicate fold_left Coordinator.step]. fold i. by rewrite E1, E2, E3, E4. }
  rewrite T3, T4. split; [exact (lookup_insert_eq _ _ _)|]. split; [unfold sent; rewrite Hs3; unfold x1; by rewrite HW|].
  split; [|done]. split; [exact (lookup_insert_eq _ _ _)|]. split; [exact Hcc|]. split; [exact Hsk|].
  exact (lookup_insert_eq _ _ _).
Qed.

(** [C22] A query is answered with the registry: over linked sessions [QueryCoordinator] gets
    exactly the snapshot the coordinator took for it, whatever was left in the agent's
    query channel from an earlier call, and both ends are as ready as before. *)
Theorem query_answered (sA sB : Session L) (m : Message) (qline mline : list byte)
    (HL : Control.linked sA sB) (HnA : 1 <= Control.writes_left sA) (HnB : 1 <= Control.writes_left sB)
    (Hq : carries queryMessage qline) (Hm : carries m mline) (Ht : Type_ m = TypeQueryResult) :
  exists question answer sA1 sA' sB', Control.linked sA' sB' /\
    (forall w c rest e, session_up w c (Reader (answer ++ rest) e) sA -> query w = NoQuery ->
     exists w1, crun w (asking w) = Some (w1, [Ctl c question]) /\ agent w1 = agent w <| queryCh := None |> /\
       session_up w1 c (Reader (answer ++ rest) e) sA1 /\
       forall now k, exists w2,
         crun w1 [EvReader now k c; EvQueryStep false true] = Some (w2, [Queried (Ok m)]) /\
         agent w2 = agent w1 /\ query w2 = NoQuery /\ session_up w2 c (Reader rest e) sA') /\
    (forall s d st rest e now entropy, attends s d st (Reader (question ++ rest) e) sB ->
     Coordinator.registrySnapshot now s = m ->
     let turns n := Coordinator.run s (replicate n (Coordinator.EvClient now (fine entropy) d)) in
     Coordinator.handlers (turns 3%nat) !! d = Some (Coordinator.Writing st mline) /\
     sent (turns 3%nat) d mline = answer /\
     attends (turns 4%nat) d st (Reader rest e) sB' /\
     Coordinator.registrations (turns 4%nat) = Coordinator.registrations s).
Proof.
  destruct Hq as (Hq1 & Hq2 & Hq3), Hm as (Hm1 & Hm2 & Hm3).
  destruct (Control.message_crosses sA sB qline HL HnA Hq3)
    as (question & sA1 & sB1 & HW1 & HR1 & HL1 & _ & HnB1).
  destruct (Control.message_crosses sB1 sA1 mline (Control.linked_sym _ _ HL1))
    as (answer & sB' & sA' & HW2 & HR2 & HL2 & _); [lia|done|].
  exists question, answer, sA1, sA', sB'. split; [by apply Control.linked_sym|]. split.
  - intros w c rest e Hup Hn.
    destruct (asks_turns w c (Reader (answer ++ rest) e) sA sA1 qline question Hup Hn Hq1 HW1)
      as (w1 & E1 & Ha & Hw & Hup1).
    exists w1. split; [done|]. split; [done|]. split; [done|]. intros now k.
    by apply (answer_turns w1 c rest e sA1 sA' answer mline m now k); rewrite ?Ha.
  - intros s d st rest e now entropy Hat Hsnap.
    by apply (replies_turns s d st rest e sB sB1 sB' qline mline question answer m now entropy).
Qed.

(** ** A broadcast *)

(** A peer list reaches the agent's tables: what the coordinator writes to a client in a
    broadcast, the client's reader loop reads, and applies exactly that list to its peers;
    the broadcast goes on to the next client, and the sessions stay linked. *)
Theorem broadcast_applied (sA sB : Session L) (m : Message) (line : list byte)
    (HL : Control.linked sA sB) (HnB : 1 <= Control.writes_left sB)
    (Hm : carries m line) (Ht : Type_ m = TypePeerList) :
  exists bs sA' sB', Control.linked sA' sB' /\
    (forall s d h st ds r now entropy,
     Coordinator.handlers s !! h = Some (Coordinator.Sending st line (d :: ds)) ->
     Coordinator.sessions s !! d = Some (Control.MkConn r sB) -> d ∉ Coordinator.sockets s ->
     let s' := Coordinator.handleClient now (fine entropy) h s in
     sent s d line = bs /\ Coordinator.handlers s' !! h = Some (Coordinator.Sending st line ds) /\
     Coordinator.sessions s' !! d = Some (Control.MkConn r sB')) /\
    (forall w c rest e now k a, session_up w c (Reader (bs ++ rest) e) sA ->
     applyPeers other now (elems (Peers m)) (agent w) = Some a ->
     exists w', crun w [EvReader now k c] = Some (w', []) /\ agent w' = a /\
       session_up w' c (Reader rest e) sA').
Proof.
  destruct Hm as (Hm1 & Hm2 & Hm3).
  destruct (Control.message_crosses sB sA line (Control.linked_sym _ _ HL) HnB Hm3)
    as (bs & sB' & sA' & HW & HR & HL' & _).
  exists bs, sA', sB'. split; [by apply Control.linked_sym|]. split.
  - intros s d h st ds r now entropy Hh Hs Hd s'.
    assert (E : s' = Coordinator.goto h (Coordinator.Sending st line ds)
      (s <| Coordinator.sessions := <[d := Control.MkConn r sB']> (Coordinator.sessions s) |>)).
    { unfold s', Coordinator.handleClient. rewrite Hh. cbn [Coordinator.wrote fine].
      by rewrite (server_writes s d r sB sB' line bs Hs Hd (HW _)). }
    rewrite E. split; [unfold sent; by rewrite Hs, HW|]. split; exact (lookup_insert_eq _ _ _).
  - intros w c rest e now k a (Hc & Hh & Hl & Hr & Hs) Ha.
    assert (Ea : control_message other now line (agent w) = Some a).
    { unfold control_message. by rewrite Hm2, Ht. }
    pose proof (reader_turn w c _ _ sA sA' line now k a Hl Hh Hs (HR rest e) Ea) as E1.
    eexists. split; [cbn; rewrite E1; reflexivity|]. split; [done|].
    split_and!; try done. exact (lookup_insert_eq _ _ _).
Qed.
End Enrolment.
