(* ===== verification/EnrolmentDemo.v ===== *)
(** * The control connection's theorems at concrete inputs

    alice over the concrete cipher: she learns her address, registers, gets a peer list,
    and registers again, which leaves the reader loop of her first connection to end. *)

From S2P Require Import Prelude GoBytes GoRuntime GoNet NoiseLib Noisework Transport Protocol Agent.
From S2P Require Import AgentControl AgentControlSafety Enrolment.
From S2P Require AgentDemo Control Coordinator PeerHandshake Stun Tun.

#[local] Existing Instances Toy.lib Toy.laws Toy.xx.
#[local] Existing Instance Coordinator.Server_eta.

Module Demo.
Definition no_host : string -> option UDPAddr := fun _ => None.
Definition parse : string -> option Tun.Addr := fun _ => None.

Definition kA := MkKeypair (replicate 32 x0a) (replicate 32 x1a).
Definition kS := MkKeypair (replicate 32 x0b) (replicate 32 x1b).
Definition eA := replicate 32 x33.
Definition eS := replicate 32 x44.
Definition T : Time := 1000 * Second.

Definition config : Config := MkConfig "alice" (PublicHex kS) "127.0.0.1:19200" "" "" ∅.
Definition alice : Agent Toy.lib :=
  MkAgent config kA None None None ∅ 0%nat ∅ ∅ ∅ None ∅ ∅ ∅ 0%nat ∅ ∅ ∅ ∅ None false.
Definition located : Agent Toy.lib := Eval vm_compute in alice <| pub := Some Stun.Demo.src |>.

(** The messages on the connection. *)
Definition reg : Message := registration located.
Definition bob : PeerInfo := MkPeerInfo "bob" (EncodeToString (replicate 32 x1c)) None.
Definition peer_list : Message := MkMessage TypePeerList "" "" None (Some [bob]) "" 0 0 0.
Definition snapshot : Message := MkMessage TypeQueryResult "" "" None (Some []) "" 0 0 0.

(** A codec for them. *)
Definition known : list (list byte * Message) :=
  Eval vm_compute in map (fun m => (Marshal m, m)) [reg; queryMessage; peer_list; snapshot].
#[local] Instance json : Json := {
  Unmarshal l := snd <$> List.find (fun x : list byte * Message => bool_decide (x.1 = l)) known
}.
#[local] Instance ping_json : PingJson := { UnmarshalPing l := None }.
#[local] Instance order : RangeOrder := {
  ranged A _ l := l;
  ranged_perm A _ l := reflexivity l
}.

Definition line (m : Message) : list byte := Marshal m ++ [x0a].
Lemma carried m : m ∈ [reg; queryMessage; peer_list; snapshot] -> carries m (line m).
Proof.
  rewrite !elem_of_cons, elem_of_nil. intros [->|[->|[->|[->|[]]]]]; (split; [done|]);
    split; vm_compute; done.
Qed.

(** What the coordinator puts on a connection of alice's: the handshake and a peer list. *)
Definition hello : list byte := Eval vm_compute in
  (Control.Initiate (L := Toy.lib) T kA (Public kS) eA true true (Reader [] EOF)).1.
Definition reply : list byte := Eval vm_compute in
  (Control.Accept (L := Toy.lib) T kS eS true (Reader hello EOF)).1.
Definition full : list byte := Eval vm_compute in
  (Control.Initiate (L := Toy.lib) T kA (Public kS) eA true true (Reader reply EOF)).1.
Definition stream : list byte := Eval vm_compute in
  match Control.Accept (L := Toy.lib) T kS eS true (Reader full EOF) with
  | (out, Ok (_, k)) => out ++ (Control.write_msgs k [line peer_list]).1
  | _ => []
  end.

Definition setup : list cevent :=
  [EvStart true; EvLocate (Some (MkUDPAddr [x7f; x00; x00; x01] 19201 "")) Stun.Demo.txid true [Some Stun.Demo.resp]].
Definition registering : list cevent :=
  [EvRegister; EvDial (Some (Reader stream EOF)); EvShake T eA true true; EvAnnounce true].
Definition life : list cevent :=
  setup ++ registering ++ [EvSettle false; EvBridging T None; EvReader T 0 0] ++ registering.

Notation crun := (AgentControl.crun no_host parse).

Lemma alice_New_control : New no_host config kA "" "" = Ok alice.
Proof. reflexivity. Qed.

(** What her life comes to: bob is tracked, the second connection is current, the first one
    closed and its context cancelled, both reader loops still running. *)
Definition check (x : option (Client Toy.lib * list cout)) : bool :=
  match x with
  | Some (w, _) =>
      bool_decide (peers (agent w) !! "bob"%string = Some 0%nat) && bool_decide (ctrl w = Some 1%nat) &&
      bool_decide (0%nat ∈ loops w) && bool_decide (0%nat ∈ hung w) && bool_decide (0%nat ∈ ended w) &&
      bool_decide (1%nat ∉ hung w) && bool_decide (nextConn w = 2%nat) &&
      match AgentControl.registering w, query w with Idle, NoQuery => true | _, _ => false end &&
      match sessions w !! 0%nat with Some x => bool_decide (pending (Control.br x) = []) | None => false end
  | None => false
  end.

Lemma life_check : check (crun (client alice) life) = true.
Proof. vm_compute. reflexivity. Qed.

Lemma life_runs : exists w os, crun (client alice) life = Some (w, os) /\
  peers (agent w) !! "bob"%string = Some 0%nat /\ ctrl w = Some 1%nat /\
  0%nat ∈ loops w /\ 0%nat ∈ hung w /\ 0%nat ∈ ended w /\ is_open w 1 /\
  AgentControl.registering w = Idle /\
  exists x, sessions w !! 0%nat = Some x /\ pending (Control.br x) = [].
Proof.
  pose proof life_check as H. destruct (crun (client alice) life) as [[w os]|]; [|discriminate].
  unfold check in H. zbool. exists w, os. split_and!; try done.
  { split; [lia|done]. }
  { by destruct (AgentControl.registering w). }
  destruct (sessions w !! 0%nat) as [x|]; [|done]. zbool. by exists x.
Qed.

Definition check_setup (x : option (Client Toy.lib * list cout)) : bool :=
  match x with
  | Some (w, _) =>
      may_register w && bool_decide (pub (agent w) = Some Stun.Demo.src) && bool_decide (relay (agent w) = None)
  | None => false
  end.

Lemma setup_check : check_setup (crun (client alice) setup) = true.
Proof. vm_compute. reflexivity. Qed.

Lemma setup_runs : exists w os, crun (client alice) setup = Some (w, os) /\ may_register w = true /\
  cfg (agent w) = config /\ kp (agent w) = kA /\ pub (agent w) = Some Stun.Demo.src /\ relay (agent w) = None.
Proof.
  destruct (client_kept no_host parse _ _ _ _ _ alice_New_control) as (Ia & I & _).
  destruct (crun_kept no_host parse _ setup _ Ia I) as (w & os & E & _ & _ & Hc & Hk).
  pose proof setup_check as H. rewrite E in H. unfold check_setup in H. zbool. by exists w, os.
Qed.

Definition after (x : option (Client Toy.lib * list cout)) : bool :=
  match x with
  | Some (w, _) => bool_decide (1%nat ∈ loops w) && bool_decide (0%nat ∉ loops w)
  | None => false
  end.

Lemma after_check : after (crun (client alice) (life ++ [EvReader T 0 0; EvQuery])) = true.
Proof. vm_compute. reflexivity. Qed.

Lemma after_life w w' os os' :
  crun (client alice) life = Some (w, os) -> crun w [EvReader T 0 0; EvQuery] = Some (w', os') ->
  1%nat ∈ loops w' /\ 0%nat ∉ loops w'.
Proof.
  intros E E'. pose proof after_check as H.
  assert (Ea : crun (client alice) (life ++ [EvReader T 0 0; EvQuery]) = Some (w', os ++ os')).
  { apply crun_app. exists w, os, os'. split; [exact E|]. split; [exact E'|reflexivity]. }
  rewrite Ea in H. unfold after in H. apply andb_prop in H as [H1 H2].
  split; eapply bool_decide_eq_true_1; eassumption.
Qed.

Lemma same_run {A B} (x : option (A * B)) a a' b b' : x = Some (a, b) -> x = Some (a', b') -> a = a'.
Proof. congruence. Qed.

(** Two linked sessions. *)
Lemma control_pair : exists sA sB : Session Toy.lib, Control.linked sA sB /\
  1 <= Control.writes_left sA /\ 1 <= Control.writes_left sB.
Proof.
  destruct (Control.handshake_connects (L := Toy.lib) T T kA kS eA eS ltac:(by split) ltac:(by split) eq_refl eq_refl)
    as (_ & _ & sA & sB & _ & _ & _ & H & HA & HB).
  exists sA, sB. split; [done|]. rewrite HA, HB. by vm_compute.
Qed.
End Demo.
Import Demo.
#[local] Opaque AgentControl.crun.
#[local] Existing Instances Demo.json Demo.ping_json Demo.order.

Example coordinator_only_witness :
  exists w os, crun (client alice) life = Some (w, os) /\
    exists n key plain msg info, heap (agent w) !! 0%nat = Some n /\
      PeerSession.ID (PeerSession.peer n) = "bob"%string /\
      heard no_host parse (ParsePublicKeyHex (CoordKey config)) (client alice) life plain /\
      DecodeLine plain = Ok msg /\ Type_ msg = TypePeerList /\ info ∈ elems (Peers msg) /\
      pi_ID info = "bob"%string /\ ParsePublicKeyHex (pi_PubKey info) = Ok key.
Proof.
  destruct (coordinator_only no_host parse config kA "" "" alice life alice_New_control) as (w & os & E & H).
  exists w, os. split; [exact E|]. destruct life_runs as (w1 & os1 & E1 & Hb & _).
  pose proof (same_run _ _ _ _ _ E1 E) as Hw. subst w1.
  destruct (H "bob"%string 0%nat Hb) as (n & key & plain & msg & info & Hn & H1 & H2 & H3 & H4 & H5 & H6 & H7 & _).
  exists n, key, plain, msg, info. repeat (split; [assumption|]). assumption.
Defined.

Example life_refines_witness :
  exists w os aes, crun (client alice) life = Some (w, os) /\
    run no_host parse alice aes = Some (agent w, agent_outs os).
Proof.
  destruct life_runs as (w & os & E & _).
  destruct (life_refines no_host parse config kA "" "" alice life w os alice_New_control E) as (aes & H).
  exists w, os, aes. split; [exact E|exact H].
Defined.

Example control_sessions_witness :
  exists w os, crun (client alice) life = Some (w, os) /\ 0%nat ∈ loops w /\ ctrl w = Some 1%nat /\
    (forall d, is_open w d -> ctrl w = Some d) /\ (0%nat ∈ hung w /\ 0%nat ∈ ended w).
Proof.
  destruct life_runs as (w & os & E & _ & Hc & Hl & _). exists w, os. split; [exact E|].
  destruct (control_sessions no_host parse config kA "" "" alice life w os alice_New_control E) as (H1 & H2 & _).
  split; [exact Hl|]. split; [exact Hc|]. split; [exact H1|].
  destruct (H2 0%nat Hl) as [H|H]; [rewrite Hc in H; discriminate|exact H].
Defined.

(** The second connection outlives the end of the first one's loop. *)
Example session_survives_witness :
  exists w os w' os', crun (client alice) life = Some (w, os) /\
    crun w [EvReader T 0 0; EvQuery] = Some (w', os') /\ 0%nat ∉ loops w' /\
    ctrl w' = Some 1%nat /\ is_open w' 1.
Proof.
  destruct life_runs as (w & os & E & _ & Hctrl & _ & _ & _ & Ho & Hr & _).
  destruct (client_kept no_host parse _ _ _ _ _ alice_New_control) as (Ia & I & _).
  destruct (crun_kept no_host parse _ life _ Ia I) as (w1 & os1 & E1 & Ia1 & I1 & _).
  pose proof (same_run _ _ _ _ _ E1 E) as Hw. subst w1.
  destruct (crun_kept no_host parse _ [EvReader T 0 0; EvQuery] _ Ia1 I1) as (w' & os' & E' & _).
  exists w, os, w', os'. split; [exact E|]. split; [exact E'|].
  pose proof (after_life _ _ _ _ E E') as Hl.
  assert (Hes : Forall (fun e => ends_session e = false) [EvReader T 0 0; EvQuery]) by (repeat constructor).
  destruct (session_survives no_host parse 1 _ w w' os' Hr Hctrl Ho Hes E' (proj1 Hl)) as (H1 & _ & H2 & _).
  split; [exact (proj2 Hl)|]. split; [exact H1|exact H2].
Defined.

Example old_loop_ends_witness :
  exists w os w' os', crun (client alice) life = Some (w, os) /\ 0%nat ∈ loops w /\
    crun w [EvReader T 0 0] = Some (w', os') /\ 0%nat ∉ loops w'.
Proof.
  destruct life_runs as (w & os & E & _ & _ & Hl & Hh & _ & _ & _ & x & Hx & Hp).
  destruct (client_kept no_host parse _ _ _ _ _ alice_New_control) as (Ia & I & _).
  destruct (crun_kept no_host parse _ life _ Ia I) as (w1 & os1 & E1 & Ia1 & I1 & _).
  pose proof (same_run _ _ _ _ _ E1 E) as Hw. subst w1.
  destruct (crun_kept no_host parse _ [EvReader T 0 0] _ Ia1 I1) as (w' & os' & E' & _).
  exists w, os, w', os'. split; [exact E|]. split; [exact Hl|]. split; [exact E'|].
  apply (old_loop_ends no_host parse config kA "" "" alice life [EvReader T 0 0] w w' os os' 0 x alice_New_control E Hl Hh Hx); [|exact E'].
  rewrite Hp. vm_compute. lia.
Defined.

Example enrols_witness :
  exists w os hello reply msg sA sB,
    crun (client alice) setup = Some (w, os) /\ Control.linked (L := Toy.lib) sA sB /\
    exists w', crun w [EvRegister; EvDial (Some (Reader (reply ++ []) EOF)); EvShake T eA true true; EvAnnounce true]
      = Some (w', [Ctl (nextConn w) hello; Ctl (nextConn w) msg]) /\ ctrl w' = Some (nextConn w).
Proof.
  destruct setup_runs as (w & os & E & Hmay & Hc & Hk & Hp & Hr).
  assert (Hreg : registration (agent w) = reg).
  { unfold registration, publicEndpoints. rewrite Hc, Hk, Hp, Hr. reflexivity. }
  destruct (enrols no_host parse config kA "" "" alice setup os w 0 kS T T eA eS (line reg) alice_New_control E Hmay)
    as (hello & reply & msg & sA & sB & HL & _ & _ & HA & _).
  - reflexivity.
  - by split.
  - by split.
  - reflexivity.
  - reflexivity.
  - rewrite Hreg. apply carried. by left.
  - rewrite Hc. by vm_compute.
  - rewrite Hp. by vm_compute.
  - intros r Hr'. rewrite Hr in Hr'. discriminate.
  - destruct (HA [] EOF) as (w' & E' & _ & Hctrl & _).
    exists w, os, hello, reply, msg, sA, sB. split; [exact E|]. split; [exact HL|].
    exists w'. split; [exact E'|exact Hctrl].
Defined.

(** alice and the coordinator with these sessions and streams. *)
Definition up (sA : Session Toy.lib) (r : reader) : Client Toy.lib :=
  MkClient located {[0%nat := Control.MkConn r sA]} ∅ 1%nat (Some 0%nat) (Some 0%nat) (Some 0%nat) ∅ {[0%nat]}
    Idle NoQuery Serving true.
Definition server (sB : Session Toy.lib) (p : Coordinator.pc) (r : reader) : Coordinator.Server Toy.lib :=
  Coordinator.MkServer Toy.lib kS ∅ ∅ {[0%nat]} 0 T false {[0%nat := Control.MkConn r sB]} ∅ {[0%nat := p]}.

Lemma up_session sA r : session_up (up sA r) 0 r sA.
Proof. by split_and!. Qed.

Example query_answered_witness :
  exists sA sB question answer w1 w2 s,
    crun (up sA (Reader (answer ++ []) EOF)) (asking (up sA (Reader (answer ++ []) EOF))) = Some (w1, [Ctl 0 question]) /\
    crun w1 [EvReader T 0 0; EvQueryStep false true] = Some (w2, [Queried (Ok snapshot)]) /\
    s = Coordinator.run (server sB (Coordinator.Reading []) (Reader (question ++ []) EOF))
          (replicate 3 (Coordinator.EvClient T (fine eS) 0%nat)) /\
    sent s 0 (line snapshot) = answer.
Proof.
  destruct control_pair as (sA & sB & HL & HA & HB).
  destruct (query_answered no_host parse sA sB snapshot (line queryMessage) (line snapshot) HL HA HB)
    as (question & answer & sA1 & sA' & sB' & _ & H1 & H2).
  - apply carried. right. by left.
  - apply carried. do 3 right. by left.
  - reflexivity.
  - destruct (H1 (up sA (Reader (answer ++ []) EOF)) 0%nat [] EOF (up_session _ _) eq_refl)
      as (w1 & E1 & _ & _ & Hw). destruct (Hw T 0%nat) as (w2 & E2 & _).
    destruct (H2 (server sB (Coordinator.Reading []) (Reader (question ++ []) EOF)) 0%nat [] [] EOF T eS) as (_ & Hs & _).
    { split_and!; [exact (lookup_insert_eq _ _ _)|by apply elem_of_singleton|done|exact (lookup_insert_eq _ _ _)]. }
    { reflexivity. }
    exists sA, sB, question, answer, w1, w2. eexists. split; [exact E1|]. split; [exact E2|]. split; [reflexivity|exact Hs].
Defined.

Example broadcast_applied_witness :
  exists sA bs a w',
    applyPeers no_host T [bob] located = Some a /\ peers a !! "bob"%string = Some 0%nat /\
    crun (up sA (Reader (bs ++ []) EOF)) [EvReader T 0 0] = Some (w', []) /\ agent w' = a.
Proof.
  destruct control_pair as (sA & sB & HL & HA & HB).
  destruct (broadcast_applied no_host parse sA sB peer_list (line peer_list) HL HB) as (bs & sA' & sB' & _ & _ & H).
  - apply carried. do 2 right. by left.
  - reflexivity.
  - assert (Ha : match applyPeers no_host T [bob] located with
                 | Some a => bool_decide (peers a !! "bob"%string = Some 0%nat)
                 | None => false
                 end = true) by (vm_compute; reflexivity).
    destruct (applyPeers no_host T [bob] located) as [a|] eqn:Ea; [|discriminate].
    apply bool_decide_eq_true_1 in Ha.
    destruct (H (up sA (Reader (bs ++ []) EOF)) 0%nat [] EOF T 0%nat a (up_session _ _) Ea) as (w' & E & Hw & _).
    exists sA, bs, a, w'. split; [reflexivity|]. split; [exact Ha|]. split; [exact E|exact Hw].
Defined.
