(* ===== verification/CommandLine.v ===== *)
(** * The commands (src/cmd/agent/main.go, src/cmd/relay, coordinator and natbox/main.go)

    What each program does with its arguments before its server or client runs: package
    flag's parser, the flags each command defines, and the checks of [main]. [Parse] is
    [FlagSet.Parse]; a flag is what its [Set] does to the values parsed so far. The
    programs' [main] functions end in an [outcome]: they exit, or start the component with
    the configuration built, which is then [Agent.New], [Relay.New] and so on. *)

From Stdlib Require Import Ascii.
From S2P Require Import Prelude GoBytes GoRuntime GoNet GoText.
From S2P Require Import NoiseLib Noisework Protocol.
From S2P Require Agent AgentSafety AgentCalls AgentControl AgentControlSafety Relay Coordinator Nat.

(** ** Package flag *)

Record flag (C : Type) := MkFlag { is_bool : bool; set : string -> C -> option C }.
Arguments MkFlag {C}.
Arguments is_bool {C}.
Arguments set {C}.

Inductive flag_err := BadSyntax | NotDefined | Help | InvalidValue | NeedsArgument.

(** How [parseOne] sees the next argument. *)
Inductive arg := Positional | Terminator | Malformed | Named (name : string) (value : option string).

Definition named (name : string) : arg :=
  match name with
  | EmptyString => Malformed
  | String.String c _ =>
      if Ascii.eqb c "-" || Ascii.eqb c "=" then Malformed
      else match Cut "=" name with
           | Some (n, v) => Named n (Some v)
           | None => Named name None
           end
  end.

Definition classify (s : string) : arg :=
  match s with
  | String.String "-" (String.String c s') =>
      if Ascii.eqb c "-" then (if bool_decide (s' = ""%string) then Terminator else named s')
      else named (String.String c s')
  | _ => Positional
  end.

Section Parse.
Context {C : Type} (formal : list (string * flag C)).

Definition lookup_flag (name : string) : option (flag C) :=
  snd <$> List.find (fun f => bool_decide (f.1 = name)) formal.

(** [Parse]: the values, and the arguments left. *)
Fixpoint Parse (args : list string) (c : C) : res flag_err (C * list string) :=
  match args with
  | [] => Ok (c, [])
  | s :: rest =>
      match classify s with
      | Positional => Ok (c, s :: rest)
      | Terminator => Ok (c, rest)
      | Malformed => Err BadSyntax
      | Named name value =>
          match lookup_flag name with
          | None =>
              if bool_decide (name = "help"%string) || bool_decide (name = "h"%string)
              then Err Help else Err NotDefined
          | Some f =>
              if is_bool f then
                match set f (default "true"%string value) c with
                | Some c => Parse rest c
                | None => Err InvalidValue
                end
              else
                match value, rest with
                | Some v, _ =>
                    match set f v c with Some c => Parse rest c | None => Err InvalidValue end
                | None, v :: rest =>
                    match set f v c with Some c => Parse rest c | None => Err InvalidValue end
                | None, [] => Err NeedsArgument
                end
          end
      end
  end.
End Parse.

(** [StringVar], [IntVar] on a 64-bit machine, [BoolVar], [DurationVar] and [Func]. *)
Definition StringVar {C} (put : string -> C -> C) : flag C := MkFlag false (fun s c => Some (put s c)).
Definition IntVar {C} (put : Z -> C -> C) : flag C :=
  MkFlag false (fun s c => match ParseInt s 0 with Ok n => Some (put n c) | Err _ => None end).
Definition BoolVar {C} (put : bool -> C -> C) : flag C :=
  MkFlag true (fun s c => b ← ParseBool s; Some (put b c)).
Definition DurationVar {C} (put : Duration -> C -> C) : flag C :=
  MkFlag false (fun s c => d ← ParseDuration s; Some (put d c)).
Definition Func {C} (f : string -> C -> option C) : flag C := MkFlag false f.

(** How a program ends before it starts anything: the status of [os.Exit], or [log.Fatal]. *)
Inductive fatal :=
| FlagsRequired | TunOnlyUp | BadAddr | BadBehavior
| RelayNew (e : Relay.relay_err) | NatNew (e : Nat.nat_err) | CoordinatorNew (e : Coordinator.new_err).

Inductive outcome (A : Type) := Exit (status : Z) | Fatal (e : fatal) | Started (x : A).
Arguments Exit {A}.
Arguments Fatal {A}.
Arguments Started {A}.

(** [flag.ExitOnError], which the default set has too. *)
Definition parse_or_exit {C A} (formal : list (string * flag C)) (args : list string) (c : C)
    (k : C -> outcome A) : outcome A :=
  match Parse formal args c with
  | Ok (c, _) => k c
  | Err Help => Exit 0
  | Err _ => Exit 2
  end.

(** ** The agent *)

Inductive mode := Up | PingMode | StatusMode | TuiMode.
#[export] Instance mode_eq_dec : EqDecision mode.
Proof. solve_decision. Defined.

(** The fields of [agent.Config], and the flags of the single modes. *)
Record Options := MkOptions {
  Name : string; Keyfile : string; Coordinator : string; CoordKey : string; StunAddr : string;
  RelayAddr : string; DataAddr : string; NatDoor : string; TunName : string; TunIP : string;
  TunMTU : Z; TunPeers : gmap string string;
  LogStderr : bool;                                   (* [cfg.LogWriter] is [os.Stderr] *)
  asJSON : bool; probePeer : string;                  (* status *)
  peerID : string; count : Z; interval : Duration     (* ping *)
}.
#[export] Instance Options_eta : Eta Options := fun o =>
  MkOptions (Name o) (Keyfile o) (Coordinator o) (CoordKey o) (StunAddr o) (RelayAddr o) (DataAddr o)
    (NatDoor o) (TunName o) (TunIP o) (TunMTU o) (TunPeers o) (LogStderr o) (asJSON o) (probePeer o)
    (peerID o) (count o) (interval o).

(** [tun-peer]: peerID=ipv4. *)
Definition tun_peer (s : string) (o : Options) : option Options :=
  '(id, ip) ← Cut "=" s; Some (o <| TunPeers := <[id := ip]> (TunPeers o) |>).

Definition configFlags : list (string * flag Options) :=
  [("name", StringVar (fun s o => o <| Name := s |>));
   ("keyfile", StringVar (fun s o => o <| Keyfile := s |>));
   ("coordinator", StringVar (fun s o => o <| Coordinator := s |>));
   ("coord-pubkey", StringVar (fun s o => o <| CoordKey := s |>));
   ("stun", StringVar (fun s o => o <| StunAddr := s |>));
   ("relay", StringVar (fun s o => o <| RelayAddr := s |>));
   ("data", StringVar (fun s o => o <| DataAddr := s |>));
   ("nat", StringVar (fun s o => o <| NatDoor := s |>));
   ("tun", StringVar (fun s o => o <| TunName := s |>));
   ("tun-ip", StringVar (fun s o => o <| TunIP := s |>));
   ("tun-mtu", IntVar (fun n o => o <| TunMTU := n |>));
   ("tun-peer", Func tun_peer)]%string.

(** The flags one mode adds. *)
Definition mode_flags (m : mode) : list (string * flag Options) :=
  match m with
  | StatusMode =>
      [("json", BoolVar (fun b o => o <| asJSON := b |>));
       ("probe-peer", StringVar (fun s o => o <| probePeer := s |>))]
  | PingMode =>
      [("peer", StringVar (fun s o => o <| peerID := s |>));
       ("count", IntVar (fun n o => o <| count := n |>));
       ("interval", DurationVar (fun d o => o <| interval := d |>))]
  | Up | TuiMode => []
  end%string.

(** The values before any flag is read. *)
Definition defaults (m : mode) : Options :=
  {| Name := ""; Keyfile := ""; Coordinator := "127.0.0.1:19200"; CoordKey := "";
     StunAddr := "127.0.0.1:19201"; RelayAddr := "127.0.0.1:19205"; DataAddr := "127.0.0.1:19501";
     NatDoor := ""; TunName := ""; TunIP := ""; TunMTU := 1500; TunPeers := ∅;
     LogStderr := bool_decide (m = TuiMode) || bool_decide (m = StatusMode);
     asJSON := false; probePeer := "";
     peerID := ""; count := if bool_decide (m = PingMode) then 3 else 0; interval := 0 |}%string.

Definition mode_of (s : string) : option mode :=
  if bool_decide (s = "up"%string) then Some Up
  else if bool_decide (s = "ping"%string) then Some PingMode
  else if bool_decide (s = "status"%string) then Some StatusMode
  else if bool_decide (s = "tui"%string) then Some TuiMode
  else None.

(** [main], up to [agent.New]; [args] is [os.Args] without the program's name. *)
Definition agent_main (args : list string) : outcome (mode * Options) :=
  match args with
  | [] => Exit 2
  | m :: args =>
      match mode_of m with
      | None => Exit 2
      | Some m =>
          parse_or_exit (configFlags ++ mode_flags m) args (defaults m) (fun o =>
            if bool_decide (Name o = ""%string) || bool_decide (Keyfile o = ""%string) ||
               bool_decide (CoordKey o = ""%string)
            then Fatal FlagsRequired
            else if negb (bool_decide (m = Up)) &&
                    (negb (bool_decide (TunName o = ""%string)) || negb (bool_decide (TunIP o = ""%string)) ||
                     negb (bool_decide (TunPeers o = ∅)))
            then Fatal TunOnlyUp
            else Started (m, o))
      end
  end.

(** The part of the configuration [Agent] keeps. *)
Definition agent_config (o : Options) : Agent.Config :=
  Agent.MkConfig (Name o) (CoordKey o) (Coordinator o) (TunName o) (TunIP o) (TunPeers o).

(** What [run] does first: [Run], [Start], or the error of a ping without its peer. *)
Definition first_call (m : mode) (o : Options) : option AgentControl.cevent :=
  match m with
  | Up => Some (AgentControl.EvStart true)
  | StatusMode | TuiMode => Some (AgentControl.EvStart false)
  | PingMode => if bool_decide (peerID o = ""%string) then None else Some (AgentControl.EvStart false)
  end.

(** ** The relay *)

Section Servers.
Context (other : string -> option UDPAddr).

Record RelayOptions := MkRelayOptions { r_addr : string; r_pps : Z; r_bytes : Z }.
#[export] Instance RelayOptions_eta : Eta RelayOptions := fun o => MkRelayOptions (r_addr o) (r_pps o) (r_bytes o).

Definition relay_flags : list (string * flag RelayOptions) :=
  [("addr", StringVar (fun s o => o <| r_addr := s |>));
   ("global-max-pps", IntVar (fun n o => o <| r_pps := n |>));
   ("global-max-bytes-ps", IntVar (fun n o => o <| r_bytes := n |>))]%string.

(** [mustUDPAddr]. *)
Definition mustUDPAddr {A} (s : string) (k : UDPAddr -> outcome A) : outcome A :=
  match ResolveUDPAddr other s with Some a => k a | None => Fatal BadAddr end.

Definition relay_main (listen : string -> Relay.listen_result) (args : list string) : outcome Relay.Server :=
  parse_or_exit relay_flags args (MkRelayOptions "127.0.0.1:19205" 0 0) (fun o =>
    mustUDPAddr (r_addr o) (fun a =>
      match Relay.New listen (Relay.MkConfig (Some a) 0 0 0 0 (r_pps o) (r_bytes o)) with
      | Err e => Fatal (RelayNew e)
      | Ok s => Started s
      end)).

(** ** The coordinator *)

Definition coordinator_flags : list (string * flag Coordinator.Config) :=
  [("ctrl", StringVar (fun s o => Coordinator.MkConfig s (Coordinator.StunAddr o) (Coordinator.Keyfile o)));
   ("stun", StringVar (fun s o => Coordinator.MkConfig (Coordinator.CtrlAddr o) s (Coordinator.Keyfile o)));
   ("keyfile", StringVar (fun s o => Coordinator.MkConfig (Coordinator.CtrlAddr o) (Coordinator.StunAddr o) s))]%string.

Definition coordinator_main {L : NoiseLib} (now : Time)
    (load : string -> option Keypair) (ctrl_ok stun_ok : string -> bool) (args : list string)
    : outcome (Coordinator.Server L) :=
  parse_or_exit coordinator_flags args
    (Coordinator.MkConfig "127.0.0.1:19200" "127.0.0.1:19201" "coordinator.key") (fun o =>
    match Coordinator.New now load ctrl_ok stun_ok o with
    | Err e => Fatal (CoordinatorNew e)
    | Ok s => Started s
    end).

(** ** The NAT box *)

Record NatOptions := MkNatOptions {
  n_name : string; n_behavior : string; n_public : string; n_door : string; n_host : string }.
#[export] Instance NatOptions_eta : Eta NatOptions := fun o =>
  MkNatOptions (n_name o) (n_behavior o) (n_public o) (n_door o) (n_host o).

Definition natbox_flags : list (string * flag NatOptions) :=
  [("name", StringVar (fun s o => o <| n_name := s |>));
   ("behavior", StringVar (fun s o => o <| n_behavior := s |>));
   ("public", StringVar (fun s o => o <| n_public := s |>));
   ("door", StringVar (fun s o => o <| n_door := s |>));
   ("host", StringVar (fun s o => o <| n_host := s |>))]%string.

Definition natbox_main (listen : string -> option Z) (args : list string) : outcome Nat.Box :=
  parse_or_exit natbox_flags args
    (MkNatOptions "nat1" "fullcone" "127.0.0.1:19301" "127.0.0.1:19401" "127.0.0.1:19501") (fun o =>
    match Nat.ParseBehavior (n_behavior o) with
    | None => Fatal BadBehavior
    | Some beh =>
        mustUDPAddr (n_public o) (fun pub =>
        mustUDPAddr (n_door o) (fun door =>
        mustUDPAddr (n_host o) (fun host =>
          match Nat.New listen (Nat.MkConfig (n_name o) beh (Some pub) (Some door) (Some host) 0) with
          | Err e => Fatal (NatNew e)
          | Ok b => Started b
          end)))
    end).
End Servers.

Example agent_examples :
  match agent_main ["up"; "--name"; "a"; "-keyfile=k"; "-coord-pubkey"; "00"; "-tun-peer"; "b=10.0.0.2"]%string with
  | Started (Up, o) => Name o = "a"%string /\ TunPeers o = {["b"%string := "10.0.0.2"%string]} /\ TunMTU o = 1500
  | _ => False
  end /\
  agent_main ["status"; "-name=a"; "-keyfile=k"; "-coord-pubkey=00"; "-tun=utun9"]%string = Fatal TunOnlyUp /\
  agent_main ["ping"; "-help"]%string = Exit 0 /\ agent_main ["ping"; "-count"]%string = Exit 2 /\
  agent_main ["tui"; "--"; "-name=a"]%string = Fatal FlagsRequired /\ agent_main ["down"]%string = Exit 2.
Proof. vm_compute. done. Qed.

(** ** Giving a configuration on the command line *)

Definition mode_name (m : mode) : string :=
  match m with Up => "up" | PingMode => "ping" | StatusMode => "status" | TuiMode => "tui" end.

(** [-name=value]. *)
Definition given (name value : string) : string := ("-" +:+ name +:+ "=" +:+ value)%string.

Definition tun_peer_args (l : list (string * string)) : list string :=
  map (fun p => given "tun-peer" (p.1 +:+ "=" +:+ p.2)) l.

Definition mode_args (m : mode) (o : Options) : list string :=
  match m with
  | StatusMode => [given "json" (if asJSON o then "true" else "false"); given "probe-peer" (probePeer o)]
  | PingMode =>
      [given "peer" (peerID o); given "count" (Itoa (count o)); given "interval" (Itoa (interval o) +:+ "ns")]
  | Up | TuiMode => []
  end%string.

(** The arguments that give [o]. *)
Definition args_of (m : mode) (o : Options) : list string :=
  [given "name" (Name o); given "keyfile" (Keyfile o); given "coordinator" (Coordinator o);
   given "coord-pubkey" (CoordKey o); given "stun" (StunAddr o); given "relay" (RelayAddr o);
   given "data" (DataAddr o); given "nat" (NatDoor o); given "tun" (TunName o); given "tun-ip" (TunIP o);
   given "tun-mtu" (Itoa (TunMTU o))]%string ++ tun_peer_args (map_to_list (TunPeers o)) ++ mode_args m o.

#[local] Arguments Ascii.eqb : simpl never.

Lemma Cut_app c s k : has c s = false -> Cut c (s +:+ String.String c EmptyString +:+ k) = Some (s, k).
Proof.
  induction s as [|a s IH]; cbn [has Cut]; intros H.
  { change (Cut c (String.String c k) = Some (EmptyString, k)). cbn [Cut]. by rewrite Ascii.eqb_refl. }
  apply orb_false_elim in H as [Ha Hs]. change (String.String a s +:+ ?x) with (String.String a (s +:+ x)).
  cbn [Cut]. by rewrite Ha, (IH Hs).
Qed.

Lemma Parse_given {C} (formal : list (string * flag C)) (f : flag C) name c0 s value rest (c c' : C) :
  name = String.String c0 s -> Ascii.eqb c0 "-" = false -> has "=" name = false ->
  lookup_flag formal name = Some f -> set f value c = Some c' ->
  Parse formal (given name value :: rest) c = Parse formal rest c'.
Proof.
  intros -> Hc He Hf Hset. assert (Hcl : classify (given (String.String c0 s) value) = Named (String.String c0 s) (Some value)).
  { change (given _ value) with (String.String "-" (String.String c0 (s +:+ "=" +:+ value))).
    cbn [classify]. rewrite Hc. unfold named. rewrite Hc.
    assert (He0 : Ascii.eqb c0 "=" = false) by (cbn [has] in He; by apply orb_false_elim in He as [? _]).
    rewrite He0. cbn [orb].
    change (String.String c0 (s +:+ "=" +:+ value)) with (String.String c0 s +:+ "=" +:+ value).
    by rewrite Cut_app. }
  cbn [Parse]. rewrite Hcl, Hf. cbn [default from_option id]. rewrite Hset. by destruct (is_bool f).
Qed.

Lemma foldl_insert (l : list (string * string)) : forall m : gmap string string,
  NoDup l.*1 -> foldl (fun m p => <[p.1 := p.2]> m) m l = list_to_map l ∪ m.
Proof.
  induction l as [|[k v] l IH]; intros m Hd; cbn [foldl]; [by rewrite list_to_map_nil, (left_id_L ∅ (∪))|].
  apply list.NoDup_cons in Hd as [Hk Hd]. rewrite IH by done. cbn.
  rewrite <- insert_union_r by by apply not_elem_of_list_to_map_1. by rewrite insert_union_l.
Qed.

Lemma Parse_tun_peers (formal : list (string * flag Options)) rest l : forall o,
  lookup_flag formal "tun-peer" = Some (Func tun_peer) -> Forall (fun p => has "=" p.1 = false) l ->
  Parse formal (tun_peer_args l ++ rest) o =
  Parse formal rest (o <| TunPeers := foldl (fun m p => <[p.1 := p.2]> m) (TunPeers o) l |>).
Proof.
  induction l as [|[k v] l IH]; intros o Hf Hl; [by destruct o|].
  apply list.Forall_cons in Hl as [Hk Hl]. cbn [tun_peer_args map app foldl fst snd] in *.
  rewrite (Parse_given formal (Func tun_peer) _ "t" "un-peer" _ _ o (o <| TunPeers := <[k := v]> (TunPeers o) |>));
    [by rewrite IH by done|done|done|done|done|].
  cbn [set Func]. unfold tun_peer. by rewrite Cut_app.
Qed.

(** The options of the other modes have their defaults. *)
Definition fits (m : mode) (o : Options) : Prop :=
  LogStderr o = LogStderr (defaults m) /\
  (m <> StatusMode -> asJSON o = false /\ probePeer o = ""%string) /\
  (m <> PingMode -> peerID o = ""%string /\ count o = 0 /\ interval o = 0).

Definition int64 (z : Z) : Prop := - 2 ^ 63 < z < 2 ^ 63.

Ltac given_step :=
  erewrite Parse_given;
    [|reflexivity|reflexivity|reflexivity|reflexivity|
     cbn [snd set StringVar IntVar BoolVar DurationVar]; rewrite ?ParseInt_Itoa, ?ParseDuration_ns by auto; reflexivity].

Lemma Parse_args_of (m : mode) (o : Options) :
  fits m o -> map_Forall (fun id _ => has "=" id = false) (TunPeers o) ->
  int64 (TunMTU o) -> int64 (count o) -> int64 (interval o) ->
  Parse (configFlags ++ mode_flags m) (args_of m o) (defaults m) = Ok (o, []).
Proof.
  intros (Hlog & Hst & Hpi) Hkeys Hmtu Hcount Hint. unfold args_of. cbn [app].
  do 11 given_step. rewrite Parse_tun_peers; [|reflexivity|].
  2:{ apply list.Forall_forall. intros [k v] Hin. apply elem_of_map_to_list in Hin. by apply (Hkeys k v). }
  rewrite foldl_insert by apply NoDup_fst_map_to_list. rewrite list_to_map_to_list.
  replace (TunPeers o ∪ _) with (TunPeers o) by (symmetry; apply (right_id_L ∅ (∪))).
  destruct m; cbn [mode_args].
  - destruct (Hst ltac:(done)) as [E1 E2], (Hpi ltac:(done)) as (E3 & E4 & E5). destruct o; cbn in *; by subst.
  - destruct (Hst ltac:(done)) as [E1 E2]. do 3 given_step. destruct o; cbn in *; by subst.
  - destruct (Hpi ltac:(done)) as (E3 & E4 & E5).
    erewrite (Parse_given _ _ _ _ _ _ _ _ (_ <| asJSON := asJSON o |>));
      [|reflexivity|reflexivity|reflexivity|reflexivity|by destruct (asJSON o)].
    given_step. destruct o; cbn in *; by subst.
  - destruct (Hst ltac:(done)) as [E1 E2], (Hpi ltac:(done)) as (E3 & E4 & E5). destruct o; cbn in *; by subst.
Qed.

(** [C30] Every configuration can be given on the command line: options that fit their mode, with
    peer names without an equals sign, a name, a keyfile and a coordinator's key, and TUN
    settings only for the daemon, are exactly what the agent's [main] starts with when they
    are spelled as flags, whatever the strings hold. *)
Theorem config_given (m : mode) (o : Options) :
  fits m o -> map_Forall (fun id _ => has "=" id = false) (TunPeers o) ->
  int64 (TunMTU o) -> int64 (count o) -> int64 (interval o) ->
  Name o <> ""%string -> Keyfile o <> ""%string -> CoordKey o <> ""%string ->
  (m <> Up -> TunName o = ""%string /\ TunIP o = ""%string /\ TunPeers o = ∅) ->
  agent_main (mode_name m :: args_of m o) = Started (m, o).
Proof.
  intros Hfit Hkeys H1 H2 H3 Hn Hk Hc Htun. unfold agent_main.
  assert (mode_of (mode_name m) = Some m) as -> by by destruct m.
  unfold parse_or_exit. rewrite Parse_args_of by done. cbv iota beta.
  rewrite !(bool_decide_eq_false_2 (_ = ""%string)) by done. cbn [orb].
  destruct (decide (m = Up)) as [->|Hm]; [done|].
  destruct (Htun Hm) as (-> & -> & ->). by rewrite (bool_decide_eq_false_2 (m = Up)) by done.
Qed.

(** [C29] What an agent is started with has been checked, and a TUN device is the daemon's alone:
    whatever the arguments, an agent that [main] starts has a name, a keyfile and a
    coordinator's key; and one that it starts in another mode than [up] never has a TUN
    bridge, in any run of its life. *)
Theorem started_checked {L : NoiseLib} {W : NoiseLaws L} {XX : XXLaws L} {J : Json} {PJ : Agent.PingJson}
    {RO : RangeOrder} (other : string -> option UDPAddr) (parse : string -> option Tun.Addr)
    (args : list string) (m : mode) (o : Options) (Hstart : agent_main args = Started (m, o)) :
  Name o <> ""%string /\ Keyfile o <> ""%string /\ CoordKey o <> ""%string /\
  (m <> Up -> forall k a0 es w os,
     Agent.New other (agent_config o) k (NatDoor o) (RelayAddr o) = Ok a0 ->
     AgentControl.crun other parse (AgentControl.client a0) es = Some (w, os) ->
     Agent.bridge (AgentControl.agent w) = None).
Proof.
  unfold agent_main in Hstart. destruct args as [|s args]; [done|].
  destruct (mode_of s) as [m'|]; [|done]. unfold parse_or_exit in Hstart.
  destruct (Parse _ _ _) as [[o' rest]|[]]; try done. destr_in Hstart; [done|]. destr_in Hstart; [done|].
  injection Hstart as -> ->. zbool. split_and!; try done. intros Hm k a0 es w os Hnew Hrun.
  rewrite (bool_decide_eq_false_2 (m = Up)) in Heqb0 by done. cbn [negb andb] in Heqb0. zbool.
  destruct (AgentControlSafety.client_kept other parse _ _ _ _ _ Hnew) as (Ia & I & Hcfg & _).
  destruct (AgentControlSafety.crun_projects other parse _ es _ _ _ Ia I Hrun) as (aes & Ha & _).
  eapply AgentCalls.run_no_tun in Ha as [_ Hb]; [exact Hb|]. cbn. split; [by rewrite Hcfg|].
  unfold Agent.New in Hnew. repeat (destr_in Hnew; try done); by apply Ok_inj in Hnew as <-.
Qed.

(** The relay's budgets are what its help says: whatever address it is given, the budget of
    packets or bytes in effect is the flag's, 5000 packets or 8 MiB a second when the flag is
    zero or absent, and with a negative one everything is within the budget. *)
Theorem relay_budget_flags (other : string -> option UDPAddr) (listen : string -> Relay.listen_result)
    (addr : string) (pps bytes : Z) (s : Relay.Server) :
  int64 pps -> int64 bytes ->
  relay_main other listen [given "addr" addr; given "global-max-pps" (Itoa pps);
                           given "global-max-bytes-ps" (Itoa bytes)]%string = Started s ->
  (exists a, ResolveUDPAddr other addr = Some a /\ Relay.Addr (Relay.cfg s) = Some a) /\
  Relay.GlobalMaxPPS (Relay.cfg s) = (if pps =? 0 then 5000 else pps) /\
  Relay.GlobalMaxBytesPS (Relay.cfg s) = (if bytes =? 0 then 8 * 2 ^ 20 else bytes) /\
  (pps < 0 -> bytes < 0 -> forall n now, (Relay.draw_global s n now).1 = true).
Proof.
  intros H1 H2. unfold relay_main, parse_or_exit. do 3 given_step. cbn [Parse].
  cbn. unfold mustUDPAddr. cbn. destruct (ResolveUDPAddr other addr) as [a|]; [|done].
  unfold Relay.New. cbn. destruct (listen _); try done. intros [= <-]. cbn.
  split; [by exists a|]. split; [done|]. split; [done|]. intros Hp Hb n now.
  unfold Relay.draw_global, Relay.takeGlobal. cbn.
  destruct (pps =? 0) eqn:E1; zbool; [lia|]. destruct (pps <=? 0) eqn:E2; zbool; [|lia]. cbn.
  destruct (bytes =? 0) eqn:E3; zbool; [lia|]. destruct (bytes <=? 0) eqn:E4; zbool; [done|lia].
Qed.
