(* ===== verification/HttpTest.v ===== *)
(** * The transfer endpoint (src/cmd/httptest/main.go)

    The size a payload is asked for, the file that is made once and then kept, the handler
    that serves it, the certificate that is generated for it, and [main] around them, over
    the files on the disk.

    The outcome of every access to the disk, the randomness, the listener and hashing are
    arguments, and so is [filepath.Join]; key generation, X.509, PEM, TLS and [net.ParseIP]
    are the class [X509]. Of [http.ServeFile] the checks on the request's path are modelled,
    and a file that is served is served whole. *)

From Stdlib Require Import Ascii DecimalString.
From S2P Require Import Prelude GoBytes GoRuntime GoNet GoText Noisework CommandLine.
From S2P Require Import Agent.

(** ** [parseSize] *)

Inductive size_err := EmptySize | BadSize | SizeNumber (e : num_err).

(** [s[len(s)-1]]. *)
Fixpoint last_char (s : string) : option ascii :=
  match s with
  | EmptyString => None
  | String.String c EmptyString => Some c
  | String.String _ s => last_char s
  end.

Definition multiplier (last : ascii) : option Z :=
  if Ascii.eqb last "k" || Ascii.eqb last "K" then Some (2 ^ 10)
  else if Ascii.eqb last "m" || Ascii.eqb last "M" then Some (2 ^ 20)
  else if Ascii.eqb last "g" || Ascii.eqb last "G" then Some (2 ^ 30)
  else if is_digit last then Some 1
  else None.

Definition parseSize (s : string) : res size_err Z :=
  let s := string_of_bytes (TrimSpace (bytes_of_string s)) in
  match last_char s with
  | None => Err EmptySize
  | Some last =>
      match multiplier last with
      | None => Err BadSize
      | Some mult =>
          let s := if mult =? 1 then s else str_take (String.length s - 1) s in
          match ParseInt s 10 with
          | Err e => Err (SizeNumber e)
          | Ok n => Ok (i64 (n * mult))
          end
      end
  end.

(** ** [ensureFile] *)

Inductive fill_err := OpenFailed | NoRandomness | WriteFailed.

Definition chunk : Z := 2 ^ 20.

Section Fill.
(** [n] random bytes for the [i]-th chunk, if the source gives them; and the outcome of
    writing it: [None], or how much of it was written before the error. *)
Context (rnd : nat -> Z -> option (list byte)) (wr : nat -> Z -> option Z).

(** The loop, [None] when the fuel runs out; the file has [file] so far. *)
Fixpoint fill (fuel i : nat) (sz written : Z) (file : list byte) : option (option fill_err * list byte) :=
  if written <? sz then
    match fuel with
    | O => None
    | S fuel =>
        let n := if i64 (sz - written) <? chunk then i64 (sz - written) else chunk in
        match rnd i n with
        | None => Some (Some NoRandomness, file)
        | Some bs =>
            match wr i n with
            | Some k => Some (Some WriteFailed, file ++ take (Z.to_nat k) bs)
            | None => fill fuel (S i) sz (i64 (written + n)) (file ++ bs)
            end
        end
    end
  else Some (None, file).

(** [ensureFile]: the error, and the file it leaves. [opens] is whether a file that is not
    there can be made. *)
Definition ensureFile (opens : bool) (file : option (list byte)) (sz : Z)
    : option (option fill_err * option (list byte)) :=
  match file with
  | Some _ => Some (None, file)
  | None =>
      if opens then '(e, bs) ← fill (Z.to_nat (sz / chunk + 1)) 0 sz 0 []; Some (e, Some bs)
      else Some (Some OpenFailed, None)
  end.
End Fill.

(** [fileSize]. *)
Definition fileSize (file : option (list byte)) : Z :=
  match file with Some bs => len bs | None => -1 end.

(** [sha256File]: the file's hash in hex, if it can be read. *)
Definition sha256File (sha256 : list byte -> list byte) (readable : bool) (file : option (list byte)) : option string :=
  match file with
  | Some bs => if readable then Some (EncodeToString (sha256 bs)) else None
  | None => None
  end.

(** ** [genCert] *)

Inductive cert_err := NoKey | NoCertificate | NoKeyBytes | NotWritten | NoPair.

(** What [os.WriteFile] does: everything is written, or an error; then the file could not be
    opened, or holds so many of the bytes. *)
Inductive write_result := Written | NotOpened | Partly (k : Z).

(** The template: what the program sets in an [x509.Certificate] (the usages aside). *)
Record template {IPAddr : Type} := MkTemplate {
  SerialNumber : Z;
  CommonName : string;
  Organization : list string;
  NotBefore : Time;
  NotAfter : Time;
  IsCA : bool;
  IPAddresses : list IPAddr;
  DNSNames : list string
}.
Arguments template : clear implicits.

(** crypto/ecdsa, crypto/x509, encoding/pem and crypto/tls, and [net.ParseIP]. *)
Class X509 (IPAddr Key TLSCert : Type) := {
  ParseIP : string -> option IPAddr;
  GenerateKey : list byte -> option Key;
  CreateCertificate : template IPAddr -> Key -> list byte -> option (list byte);
  MarshalECPrivateKey : Key -> option (list byte);
  EncodeToMemory : string -> list byte -> list byte;
  X509KeyPair : list byte -> list byte -> option TLSCert;
  LoadX509KeyPair : string -> string -> option TLSCert
}.

Section Cert.
Context {IPAddr Key TLSCert : Type} {X : X509 IPAddr Key TLSCert}.

Fixpoint add_names (es : list string) (ips : list IPAddr) (dns : list string) : list IPAddr * list string :=
  match es with
  | [] => (ips, dns)
  | e :: es =>
      let e := string_of_bytes (TrimSpace (bytes_of_string e)) in
      if bool_decide (e = ""%string) then add_names es ips dns
      else match ParseIP e with
           | Some ip => add_names es (ips ++ [ip]) dns
           | None => add_names es ips (dns ++ [e])
           end
  end.

(** The addresses and the names in the certificate; [sanExtra] is the flag. *)
Definition sans (sanExtra : string) : list IPAddr * list string :=
  add_names (split_on "," sanExtra) (omap ParseIP ["127.0.0.1"; "::1"]%string) ["localhost"%string].

Definition template_of (now : Time) (sanExtra : string) : template IPAddr :=
  let '(ips, dns) := sans sanExtra in
  MkTemplate IPAddr (UnixNano now) "meshlink-httptest" ["meshlink"%string] (now - Hour) (now + 24 * Hour)
    true ips dns.

(** [genCert]: the certificate or an error, and what it leaves at its path, [None] when it
    does not touch it. [e1] and [e2] are the randomness of the key and the signature. *)
Definition genCert (now : Time) (e1 e2 : list byte) (wf : write_result) (sanExtra : string)
    : res cert_err TLSCert * option (list byte) :=
  match GenerateKey e1 with
  | None => (Err NoKey, None)
  | Some key =>
      match CreateCertificate (template_of now sanExtra) key e2 with
      | None => (Err NoCertificate, None)
      | Some der =>
          let certPEM := EncodeToMemory "CERTIFICATE" der in
          match MarshalECPrivateKey key with
          | None => (Err NoKeyBytes, None)
          | Some keyDER =>
              let keyPEM := EncodeToMemory "EC PRIVATE KEY" keyDER in
              match wf with
              | NotOpened => (Err NotWritten, None)
              | Partly k => (Err NotWritten, Some (take (Z.to_nat k) certPEM))
              | Written =>
                  (match X509KeyPair certPEM keyPEM with Some c => Ok c | None => Err NoPair end, Some certPEM)
              end
          end
      end
  end.
End Cert.

(** ** The handler *)

Record fileServer := MkFileServer { filePath : string; name : string; sha : string }.

Inductive response :=
| Page (text : string)
| NotFound
| BadPath                       (* 400: a dot-dot element *)
| Redirect                      (* to the directory of an index page *)
| Contents (bs : list byte)
| Unreadable.

(** [containsDotDot]. *)
Definition containsDotDot (path : string) : bool :=
  bool_decide (".."%string ∈ mjoin (map (split_on "\") (split_on "/" path))).

(** [http.ServeFile] on a regular file. *)
Definition ServeFile (path : string) (file : option (list byte)) : response :=
  if containsDotDot path then BadPath
  else if HasSuffix path "/index.html" then Redirect
  else match file with Some bs => Contents bs | None => Unreadable end.

Definition newline : string := String.String "010" EmptyString.

Definition ServeHTTP (s : fileServer) (file : option (list byte)) (path : string) : response :=
  if bool_decide (path = "/"%string) then
    Page ("meshlink httptest" +:+ newline +:+ "file: " +:+ name s +:+ newline +:+ "size: " +:+
          Itoa (fileSize file) +:+ newline +:+ "sha256: " +:+ sha s +:+ newline)
  else if negb (bool_decide (path = ("/" +:+ name s)%string)) then NotFound
  else ServeFile path file.

(** ** [main] *)

Record Flags := MkFlags {
  f_addr : string; f_dir : string; f_fileName : string; f_size : string; f_plain : bool; f_forceH1 : bool;
  f_certFile : string; f_keyFile : string; f_sanExtra : string }.
#[export] Instance Flags_eta : Eta Flags := fun o =>
  MkFlags (f_addr o) (f_dir o) (f_fileName o) (f_size o) (f_plain o) (f_forceH1 o) (f_certFile o)
    (f_keyFile o) (f_sanExtra o).

Definition httptest_flags : list (string * flag Flags) :=
  [("addr", StringVar (fun s o => o <| f_addr := s |>));
   ("dir", StringVar (fun s o => o <| f_dir := s |>));
   ("file", StringVar (fun s o => o <| f_fileName := s |>));
   ("size", StringVar (fun s o => o <| f_size := s |>));
   ("plain", BoolVar (fun b o => o <| f_plain := b |>));
   ("h1", BoolVar (fun b o => o <| f_forceH1 := b |>));
   ("cert", StringVar (fun s o => o <| f_certFile := s |>));
   ("key", StringVar (fun s o => o <| f_keyFile := s |>));
   ("san", StringVar (fun s o => o <| f_sanExtra := s |>))]%string.

Definition httptest_defaults : Flags :=
  MkFlags "127.0.0.1:0" "." "a.bin" "2m" false false "" "" "".

Section Main.
Context {IPAddr Key TLSCert : Type} {X : X509 IPAddr Key TLSCert}.

(** Where the certificate comes from. *)
Inductive cert := NoCert | LoadedCert (c : TLSCert) | FreshCert (c : TLSCert).

(** A server that has started: its handler, and what its line on the standard output says. *)
Record serving := MkServing { handler : fileServer; scheme : string; h2 : bool; certPath : string; tls : cert }.

(** What [main] finds: can the directory be made, the payload file; the randomness and the
    writes that fill it; can it be read back; the listener; the clock, the randomness and
    the write of a fresh certificate. *)
Record world := MkWorld {
  mkdir : bool;
  opens : bool;
  rnd : nat -> Z -> option (list byte);
  wr : nat -> Z -> option Z;
  readable : bool;
  listens : string -> bool;
  now_ : Time;
  e1 : list byte;
  e2 : list byte;
  wf : write_result
}.

Context (Join : string -> string -> string) (sha256 : list byte -> list byte).

Abbreviation disk := (gmap string (list byte)).

Definition put (path : string) (file : option (list byte)) (d : disk) : disk :=
  match file with Some bs => <[path := bs]> d | None => d end.

(** The payload: its file is there, and the disk as it is then; or the exit with status 1. *)
Definition payload (w : world) (f : Flags) (d : disk) : bool * disk :=
  if negb (mkdir w) then (false, d)
  else
    match parseSize (f_size f) with
    | Err _ => (false, d)
    | Ok sz =>
        let path := Join (f_dir f) (f_fileName f) in
        match ensureFile (rnd w) (wr w) (opens w) (d !! path) sz with
        | None => (false, d)                         (* not reached *)
        | Some (Some _, file) => (false, put path file d)
        | Some (None, file) => (true, put path file d)
        end
    end.

(** The certificate, its path, and the disk. *)
Definition certificate (w : world) (f : Flags) (d : disk) : option (cert * string) * disk :=
  if f_plain f then (Some (NoCert, ""%string), d)
  else if negb (bool_decide (f_certFile f = ""%string)) && negb (bool_decide (f_keyFile f = ""%string))
  then ((fun c => (LoadedCert c, f_certFile f)) <$> LoadX509KeyPair (f_certFile f) (f_keyFile f), d)
  else
    let p := Join (f_dir f) "cert.pem" in
    let '(r, file) := genCert (now_ w) (e1 w) (e2 w) (wf w) (f_sanExtra f) in
    (match r with Ok c => Some (FreshCert c, p) | Err _ => None end, put p file d).

(** [None] is the exit with status 1, with the disk as it was left. *)
Definition httptest_main (w : world) (f : Flags) (d : disk) : option serving * disk :=
  let '(ok, d) := payload w f d in
  if negb ok then (None, d)
  else
    let path := Join (f_dir f) (f_fileName f) in
    match sha256File sha256 (readable w) (d !! path) with
    | None => (None, d)
    | Some sha =>
        if negb (listens w (f_addr f)) then (None, d)
        else
          match certificate w f d with
          | (None, d) => (None, d)
          | (Some (c, p), d) =>
              (Some (MkServing (MkFileServer path (f_fileName f) sha)
                       (if f_plain f then "http" else "https")%string
                       (negb (f_plain f) && negb (f_forceH1 f)) p c), d)
          end
    end.

(** The line's url, and the line; [host] and [port] are the listener's. *)
Definition url (s : serving) (host : string) : string :=
  (scheme s +:+ "://" +:+ host +:+ "/" +:+ name (handler s))%string.

Definition announcement_line (s : serving) (host : string) (port : Z) (d : disk) : string :=
  ("httptest addr=" +:+ host +:+ " port=" +:+ Itoa port +:+ " url=" +:+ url s host +:+
   " file=" +:+ filePath (handler s) +:+ " size=" +:+ Itoa (fileSize (d !! filePath (handler s))) +:+
   " sha256=" +:+ sha (handler s) +:+ " cert=" +:+ certPath s +:+
   " h2=" +:+ (if h2 s then "true" else "false") +:+ newline)%string.

(** What [Serve] returns in the end, and the exit status. *)
Inductive serve_err := ServerClosed | ServeFailed.
Definition exit_status (e : option serve_err) : Z :=
  match e with Some ServeFailed => 1 | _ => 0 end.
End Main.

Example sizes :
  map parseSize ["2m"; " 512K "; "1g"; "7"; ""; "x"; "k"; "-3k"; "8589934592g"; "1_0"]%string
  = [Ok 2097152; Ok 524288; Ok 1073741824; Ok 7; Err EmptySize; Err BadSize; Err (SizeNumber NumSyntax);
     Ok (-3072); Ok (- 2 ^ 63); Err (SizeNumber NumSyntax)].
Proof. vm_compute. reflexivity. Qed.

(** ** Sizes *)

Lemma bytes_app s t : bytes_of_string (s +:+ t) = bytes_of_string s ++ bytes_of_string t.
Proof.
  unfold bytes_of_string. induction s as [|c s IH]; [done|].
  change (String.String c s +:+ t) with (String.String c (s +:+ t)). unfold String.list_byte_of_string in *.
  cbn [String.list_ascii_of_string map]. by rewrite IH.
Qed.

Lemma graphic_uint d : Forall graphic (bytes_of_string (NilZero.string_of_uint d)).
Proof.
  assert (H : Forall graphic (bytes_of_string (NilEmpty.string_of_uint d))).
  { induction d; constructor; done. }
  destruct d; [by apply list.Forall_singleton|exact H..].
Qed.

Lemma graphic_Itoa z : Forall graphic (bytes_of_string (Itoa z)).
Proof.
  unfold Itoa. destruct (Z.to_int z) as [d|d]; cbn [NilZero.string_of_int]; [apply graphic_uint|].
  constructor; [done|apply graphic_uint].
Qed.

Lemma last_char_snoc s c : last_char (s +:+ String.String c EmptyString) = Some c.
Proof.
  induction s as [|a s IH]; [done|]. change (String.String a s +:+ ?x) with (String.String a (s +:+ x)).
  cbn [last_char]. destruct (s +:+ _) eqn:E; [by destruct s|]. by rewrite IH.
Qed.

Lemma str_take_snoc s c :
  str_take (String.length (s +:+ String.String c EmptyString) - 1) (s +:+ String.String c EmptyString) = s.
Proof.
  assert (Hl : String.length (s +:+ String.String c EmptyString) = S (String.length s)).
  { induction s as [|a s IH]; [done|]. change (String.String a s +:+ ?x) with (String.String a (s +:+ x)).
    cbn [String.length]. by rewrite IH. }
  rewrite Hl. replace (S (String.length s) - 1)%nat with (String.length s) by lia. clear Hl.
  induction s as [|a s IH]; [done|]. change (String.String a s +:+ ?x) with (String.String a (s +:+ x)).
  cbn [String.length str_take]. by rewrite IH.
Qed.

Lemma suffix_graphic c mult : multiplier c = Some mult -> mult <> 1 ->
  Forall graphic (bytes_of_string (String.String c EmptyString)).
Proof.
  intros Hm H1. constructor; [|constructor].
  destruct c as [[] [] [] [] [] [] [] []]; vm_compute in Hm; try done; by injection Hm as <-.
Qed.

(** A number with a suffix is that number of units, wrapped around to 64 bits: exact up to
    2^63, and another size, possibly a negative one, from there on. *)
Theorem parseSize_units (n mult : Z) (c : ascii) :
  - 2 ^ 63 < n < 2 ^ 63 -> multiplier c = Some mult -> mult <> 1 ->
  parseSize (Itoa n +:+ String.String c EmptyString) = Ok (i64 (n * mult)) /\
  (- 2 ^ 63 <= n * mult < 2 ^ 63 -> parseSize (Itoa n +:+ String.String c EmptyString) = Ok (n * mult)).
Proof.
  intros Hn Hm Hm1.
  assert (H : parseSize (Itoa n +:+ String.String c EmptyString) = Ok (i64 (n * mult))).
  { unfold parseSize. rewrite TrimSpace_graphic, string_bytes.
    2:{ rewrite bytes_app. apply Forall_app_2; [apply graphic_Itoa|by eapply suffix_graphic]. }
    rewrite last_char_snoc, Hm. destruct (mult =? 1) eqn:E; zbool; [done|].
    by rewrite str_take_snoc, ParseInt_Itoa by (done || lia || by right). }
  split; [exact H|]. intros Hr. rewrite H. by rewrite i64_small.
Qed.

(** ** The file *)

(** A source of randomness that gives what it is asked for, and a disk that reports an error
    when it writes less. *)
Definition gives (rnd : nat -> Z -> option (list byte)) : Prop := forall i n bs, rnd i n = Some bs -> len bs = n.
Definition reports (wr : nat -> Z -> option Z) : Prop := forall i n k, wr i n = Some k -> 0 <= k < n.

Lemma fill_spec rnd wr sz (Hr : gives rnd) (Hw : reports wr) : sz < 2 ^ 63 ->
  forall fuel i written file, len file = written -> sz - written <= chunk * Z.of_nat fuel ->
  exists e bs, fill rnd wr fuel i sz written file = Some (e, bs) /\
    (e = None -> len bs = Z.max written sz) /\ (e <> None -> len bs < sz) /\ exists l, bs = file ++ l.
Proof.
  intros Hsz. induction fuel as [|fuel IH]; intros i written file Hf Hfuel; cbn [fill];
    pose proof (len_nonneg file) as H0; destruct (written <? sz) eqn:E; zbool.
  - lia.
  - exists None, file. split_and!; [done|lia|done|by exists []; rewrite app_nil_r].
  - rewrite i64_small by lia. set (n := if sz - written <? chunk then sz - written else chunk).
    assert (Hn : 0 < n <= sz - written /\ n <= chunk).
    { subst n. destruct (_ <? _) eqn:En; zbool; [lia|]. unfold chunk in *. lia. }
    destruct (rnd i n) as [bs|] eqn:Er.
    2:{ exists (Some NoRandomness), file. split_and!; [done|done|lia|by exists []; rewrite app_nil_r]. }
    pose proof (Hr _ _ _ Er) as Hbs. destruct (wr i n) as [k|] eqn:Ew.
    + pose proof (Hw _ _ _ Ew) as Hk. exists (Some WriteFailed), (file ++ take (Z.to_nat k) bs).
      split_and!; [done|done| |by eexists]. intros _. rewrite len_app, len_take by lia. lia.
    + rewrite i64_small by lia.
      destruct (IH (S i) (written + n) (file ++ bs)) as (e & bs' & E' & H1 & H2 & l & ->).
      * rewrite len_app. lia.
      * subst n. destruct (_ <? _) eqn:En; zbool; unfold chunk in *; lia.
      * exists e, ((file ++ bs) ++ l). split; [exact E'|]. split; [intros He; rewrite (H1 He); lia|].
        split; [exact H2|]. exists (bs ++ l). by rewrite app_assoc.
  - exists None, file. split_and!; [done|lia|done|by exists []; rewrite app_nil_r].
Qed.

Lemma ensureFile_spec (rnd : nat -> Z -> option (list byte)) (wr : nat -> Z -> option Z) (opens : bool)
    (file : option (list byte)) (sz : Z) (Hr : gives rnd) (Hw : reports wr) (Hsz : sz < 2 ^ 63) :
  exists e file', ensureFile rnd wr opens file sz = Some (e, file') /\
    (forall bs, file = Some bs -> e = None /\ file' = file) /\
    (file = None -> e = None -> fileSize file' = Z.max 0 sz) /\
    (forall bs, file = None -> e <> None -> file' = Some bs ->
       len bs < sz /\ forall rnd wr opens, ensureFile rnd wr opens file' sz = Some (None, file')).
Proof.
  unfold ensureFile. destruct file as [bs|]; [by eexists _, _; split_and!|].
  destruct opens; [|by eexists _, _; split_and!].
  destruct (fill_spec rnd wr sz Hr Hw Hsz (Z.to_nat (sz / chunk + 1)) 0 0 []) as (e & bs & -> & H1 & H2 & _).
  - done.
  - pose proof (Z.mul_succ_div_gt sz chunk ltac:(done)). destruct (decide (0 <= sz / chunk + 1)).
    + rewrite Z2Nat.id by done. unfold chunk in *. lia.
    + replace (Z.to_nat (sz / chunk + 1)) with 0%nat by lia. unfold chunk in *. lia.
  - exists e, (Some bs). split; [done|]. split; [done|]. split; [done|].
    intros bs' _ He [= <-]. by split; [apply H2|].
Qed.

(** ** The handler *)

(** The server gives out its file and nothing else, and only under its name: a request gets
    contents exactly when its path is the file's name behind a slash, without a dot-dot
    element and not an index page's, and it gets those of the file as it is by then. *)
Theorem serves_only_file (s : fileServer) (file : option (list byte)) (path : string) (bs : list byte) :
  ServeHTTP s file path = Contents bs <->
  path = ("/" +:+ name s)%string /\ name s <> ""%string /\ containsDotDot path = false /\
  HasSuffix path "/index.html" = false /\ file = Some bs.
Proof.
  unfold ServeHTTP, ServeFile. split.
  - destruct (bool_decide (path = "/"%string)) eqn:E; [done|].
    destruct (bool_decide (path = ("/" +:+ name s)%string)) eqn:E1; [|by intros [=]]. cbn [negb]. zbool.
    destruct (containsDotDot path) eqn:E2; [done|]. destruct (HasSuffix _ _) eqn:E3; [done|].
    destruct file as [l|]; [|done]. intros [= <-]. split_and!; try done. intros Hn. apply E. by rewrite E1, Hn.
  - intros (-> & Hn & E2 & E3 & ->). rewrite bool_decide_eq_false_2.
    2:{ intros [= E]. by destruct (name s). }
    rewrite bool_decide_eq_true_2 by done. cbn [negb]. by rewrite E2, E3.
Qed.

(** A file that is called like an index page is announced but never served: every request
    for it is redirected to the directory, which shows the information page. *)
Theorem index_page_redirected (s : fileServer) (file : option (list byte)) :
  name s = "index.html"%string -> ServeHTTP s file ("/" +:+ name s) = Redirect.
Proof. intros H. unfold ServeHTTP, ServeFile. rewrite H. reflexivity. Qed.

(** ** The certificate *)

Section Names.
Context {IPAddr Key TLSCert : Type} {X : X509 IPAddr Key TLSCert}.

(** An entry of the flag that is not empty is in the certificate. *)
Definition covered (r : list IPAddr * list string) (e : string) : Prop :=
  match ParseIP e with Some ip => ip ∈ r.1 | None => e ∈ r.2 end.

Lemma add_names_spec es : forall (ips : list IPAddr) dns,
  ips ⊆ (add_names es ips dns).1 /\ dns ⊆ (add_names es ips dns).2 /\
  forall e, e ∈ es -> let t := string_of_bytes (TrimSpace (bytes_of_string e)) in
    t <> ""%string -> covered (add_names es ips dns) t.
Proof.
  induction es as [|e es IH]; intros ips dns; cbn [add_names]; [by split_and!; try done; intros e ?%elem_of_nil|].
  set (t := string_of_bytes (TrimSpace (bytes_of_string e))).
  destruct (bool_decide (t = ""%string)) eqn:Et; zbool.
  { destruct (IH ips dns) as (H1 & H2 & H3). split_and!; try done. intros e' [->|Hin]%elem_of_cons; [done|by apply H3]. }
  destruct (ParseIP t) as [ip|] eqn:Ep.
  - destruct (IH (ips ++ [ip]) dns) as (H1 & H2 & H3). split_and!; [set_solver|done|].
    intros e' [Heq|Hin]%elem_of_cons; [subst e'|by apply H3]. intros _. unfold covered. fold t. rewrite Ep. set_solver.
  - destruct (IH ips (dns ++ [t])) as (H1 & H2 & H3). split_and!; [done|set_solver|].
    intros e' [Heq|Hin]%elem_of_cons; [subst e'|by apply H3]. intros _. unfold covered. fold t. rewrite Ep. set_solver.
Qed.

(** The certificate is good for localhost, for the loopback addresses, and for everything
    the flag lists. *)
Theorem certificate_covers (now : Time) (sanExtra : string) :
  let t := template_of now sanExtra in
  let r := (IPAddresses t, DNSNames t) in
  "localhost"%string ∈ DNSNames t /\
  (forall s ip, s ∈ ["127.0.0.1"; "::1"]%string -> ParseIP s = Some ip -> ip ∈ IPAddresses t) /\
  forall e, e ∈ split_on "," sanExtra -> string_of_bytes (TrimSpace (bytes_of_string e)) <> ""%string ->
    covered r (string_of_bytes (TrimSpace (bytes_of_string e))).
Proof.
  unfold template_of, sans.
  destruct (add_names_spec (split_on "," sanExtra) (omap ParseIP ["127.0.0.1"; "::1"]%string) ["localhost"%string])
    as (H1 & H2 & H3).
  destruct (add_names _ _ _) as [ips dns]. cbn [fst snd IPAddresses DNSNames] in *. split_and!; [set_solver| |exact H3].
  intros s ip Hs Hp. apply H1, list_elem_of_omap. by exists s.
Qed.
End Names.

(** ** [main] *)

Section Serving.
Context {IPAddr Key TLSCert : Type} {X : X509 IPAddr Key TLSCert}.
Context (Join : string -> string -> string) (sha256 : list byte -> list byte).

Definition is_fresh (c : cert (TLSCert := TLSCert)) : bool := match c with FreshCert _ => true | _ => false end.

Lemma parseSize_range s sz : parseSize s = Ok sz -> - 2 ^ 63 <= sz < 2 ^ 63.
Proof.
  unfold parseSize. destruct (last_char _); [|done]. destruct (multiplier _); [|done].
  destruct (ParseInt _ _) as [n|]; [|done]. intros <-%Ok_inj. apply i64_range.
Qed.

Lemma payload_spec (w : world) f d d' : gives (rnd w) -> reports (wr w) -> payload Join w f d = (true, d') ->
  exists sz bs, parseSize (f_size f) = Ok sz /\ d' = <[Join (f_dir f) (f_fileName f) := bs]> d /\
    (forall bs0, d !! Join (f_dir f) (f_fileName f) = Some bs0 -> bs = bs0) /\
    (d !! Join (f_dir f) (f_fileName f) = None -> len bs = Z.max 0 sz).
Proof.
  intros Hg Hr. unfold payload. destruct (mkdir w); [|done]. cbn [negb].
  destruct (parseSize (f_size f)) as [sz|] eqn:Es; [|done]. set (path := Join _ _).
  destruct (ensureFile_spec (rnd w) (wr w) (opens w) (d !! path) sz Hg Hr (proj2 (parseSize_range _ _ Es)))
    as (e & file & -> & H1 & H2 & _).
  destruct e as [e|]; [done|]. intros [= <-]. destruct (d !! path) as [bs0|] eqn:Ed.
  - destruct (H1 bs0 eq_refl) as [_ ->]. exists sz, bs0. cbn [put]. split_and!; try done. by intros ? [= ->].
  - specialize (H2 eq_refl eq_refl). destruct file as [bs|]; [|cbn in H2; lia]. by exists sz, bs.
Qed.

Lemma certificate_disk (w : world) f d c p d' q : certificate Join w f d = (Some (c, p), d') ->
  d' !! q = d !! q \/ (q = Join (f_dir f) "cert.pem" /\ is_fresh c = true).
Proof.
  unfold certificate. destruct (f_plain f); [intros [= <- <- <-]; by left|].
  destruct (_ && _).
  { destruct (LoadX509KeyPair _ _); [|done]. intros [= <- <- <-]. by left. }
  destruct (genCert _ _ _ _ _) as [[c'|e] file]; [|done]. intros [= <- <- <-].
  destruct file as [bs|]; cbn [put]; [|by left]. destruct (decide (q = Join (f_dir f) "cert.pem")) as [->|Hne];
    [by right|left]. by rewrite lookup_insert_ne.
Qed.

(** [C40] What the endpoint announces is what it serves: when [main] starts its server, the file
    behind its handler is the one that was there before, or one made with exactly the bytes
    asked for (none when the size is negative); the hash it shows is that file's, as it is
    still on the disk unless a certificate was generated into a file of its name; and nothing
    else on the disk has changed but that certificate. *)
Theorem serves_announced (w : world) (f : Flags) (d d' : gmap string (list byte)) (sv : serving (TLSCert := TLSCert))
    (Hg : gives (rnd w)) (Hr : reports (wr w)) (Hmain : httptest_main Join sha256 w f d = (Some sv, d')) :
  let path := Join (f_dir f) (f_fileName f) in
  let pem := Join (f_dir f) "cert.pem" in
  filePath (handler sv) = path /\ name (handler sv) = f_fileName f /\
  exists sz bs, parseSize (f_size f) = Ok sz /\
    (forall bs0, d !! path = Some bs0 -> bs = bs0) /\ (d !! path = None -> len bs = Z.max 0 sz) /\
    sha (handler sv) = EncodeToString (sha256 bs) /\
    (is_fresh (tls sv) = false \/ path <> pem -> d' !! path = Some bs) /\
    (forall q, q <> path -> d' !! q = d !! q \/ (q = pem /\ is_fresh (tls sv) = true)).
Proof.
  intros path pem. unfold httptest_main in Hmain. destruct (payload Join w f d) as [ok d1] eqn:Ep.
  destruct ok; [|done]. cbn [negb] in Hmain. fold path in Hmain.
  destruct (payload_spec w f d d1 Hg Hr Ep) as (sz & bs & Hsz & -> & Hold & Hnew). fold path in Hold, Hnew, Hmain.
  rewrite lookup_insert_eq in Hmain. cbn [sha256File] in Hmain. destruct (readable w); [|done].
  destruct (listens w _); [|done]. cbn [negb] in Hmain.
  destruct (certificate _ _ _ _) as [[[c p]|] d2] eqn:Ec; [|done]. injection Hmain as <- <-. cbn [handler filePath name sha tls].
  split; [done|]. split; [done|]. exists sz, bs. split_and!; try done.
  - intros Hor. destruct (certificate_disk w f _ c p d2 path Ec) as [-> |[Hq Hf]]; [by rewrite lookup_insert_eq|].
    destruct Hor; [congruence|done].
  - intros q Hq. destruct (certificate_disk w f _ c p d2 q Ec) as [-> |]; [left|by right]. by rewrite lookup_insert_ne.
Qed.
End Serving.
