(* ===== verification/Report.v ===== *)
(** * The status command (src/cmd/agent/status.go)

    [collectStatus] drives an agent through its start, the wait for peers, one probe each
    and the query, while the agent's goroutines run: [collect_step] is what it does between
    two points where it may block, [Background] is an event of the rest of the client. What
    it gathers is rendered as text or as the document handed to the JSON encoder. *)

From Stdlib Require Import Floats.SpecFloat.
From S2P Require Import Prelude GoBytes GoRuntime GoNet GoText NoiseLib Noisework Protocol Agent.
From S2P Require Import AgentControl.
From S2P Require Tun Relay.

(** ** [agent.Status] *)

Record CoordinatorStatus := MkRegistry { reg_Count : Z; reg_Total : Z; reg_Up : Z }.

Record Snapshot := MkSnapshot {
  s_Name : string; s_PubKey : string; s_PublicEP : string; s_Relay : string; s_Coordinator : string;
  s_Registry : CoordinatorStatus; s_Peers : list PeerStatus }.
#[export] Instance Snapshot_eta : Eta Snapshot := fun s =>
  MkSnapshot (s_Name s) (s_PubKey s) (s_PublicEP s) (s_Relay s) (s_Coordinator s) (s_Registry s) (s_Peers s).

Definition no_registry : CoordinatorStatus := MkRegistry 0 0 0.
Definition emptySnapshot : Snapshot := MkSnapshot "" "" "" "" "" no_registry [].

Inductive collect_err := StartFailed (e : setup_err) | QueryFailed (e : query_err).

(** Where [collectStatus] is. *)
Inductive collect_pos :=
| Begin
| Starting                                           (* in [a.Start] *)
| AwaitingPeers                                      (* in [a.WaitPeers] *)
| Warming (j : nat)                                  (* in [a.Ping], call [j] *)
| Polling                                            (* in [waitEstablished] *)
| Sampling (rest : list PeerStatus)                  (* at the loop over the peers *)
| Probing (i : nat) (rest : list PeerStatus)         (* in [a.ProbeRTT], call [i] *)
| Questioning                                        (* in [a.QueryCoordinator] *)
| Closing (st : Snapshot) (err : option collect_err) (* before the deferred [a.Close] *)
| Collected (st : Snapshot) (err : option collect_err).

Section Report.
Context {L : NoiseLib} `{Json, PingJson, RangeOrder}.
Context (other : string -> option UDPAddr) (parse : string -> option Tun.Addr).

(** [Agent.Status]. *)
Definition Status (now : Time) (a : Agent L) : Snapshot :=
  MkSnapshot (Name (cfg a)) (PublicHex (kp a))
    (match pub a with Some ep => addr_String ep | None => "" end)
    (match relay a with Some r => addr_String r | None => "" end)
    (Coordinator (cfg a)) no_registry (Agent.Status now a).

(** ** [collectStatus] *)

(** [asked] is what [QueryCoordinator] returned; [moves] is the history of the client's
    events, which nothing reads. *)
Record Collector := MkCollector {
  at_ : collect_pos;
  cl : Client L;
  asked : option (res query_err Message);
  moves : list cevent
}.
#[export] Instance Collector_eta : Eta Collector := fun c => MkCollector (at_ c) (cl c) (asked c) (moves c).
Implicit Types c : Collector.

(** What a query returned among what a step put out. *)
Definition queried (os : list cout) : option (res query_err Message) :=
  list.last (omap (fun o => match o with Queried r => Some r | _ => None end) os).

(** The client makes a step. *)
Definition advanced (e : cevent) (w : Client L) (os : list cout) c : Collector :=
  c <| cl := w |> <| asked := match queried os with Some r => Some r | None => asked c end |>
    <| moves := moves c ++ [e] |>.

Definition perform (e : cevent) c : option Collector :=
  '(w, os) ← cstep other parse (cl c) e; Some (advanced e w os c).

(** [waitEstablished]'s look at the peers. *)
Definition allEst (ps : list PeerStatus) : bool := forallb ps_Established ps.

(** What the answer adds to the snapshot. *)
Definition with_registry (r : res query_err Message) (st : Snapshot) : Snapshot * option collect_err :=
  match r with
  | Ok m => (st <| s_Registry := MkRegistry (Count m) (Total m) (Up m) |>, None)
  | Err e => (st, Some (QueryFailed e))
  end.

(** A step. [ctx] is whether the context of the wait it is in is done; [k] numbers a call it
    makes. *)
Definition collect_step (probePeer : string) (now : Time) (ctx : bool) (k : nat) c : option Collector :=
  let a := agent (cl c) in
  let goto p := Some (c <| at_ := p |>) in
  match at_ c with
  | Begin => c ← perform (EvStart false) c; Some (c <| at_ := Starting |>)
  | Starting =>
      match main (cl c) with
      | Returned (Err e) => goto (Collected emptySnapshot (Some (StartFailed e)))
      | Returned (Ok _) => goto AwaitingPeers
      | _ => Some c
      end
  | AwaitingPeers =>
      match WaitPeers ctx a with
      | None => Some c
      | Some _ =>
          if bool_decide (probePeer = ""%string) then goto Polling
          else match pings a !! k with
               | Some _ => Some c
               | None => c ← perform (EvAgent (EvPing k probePeer 1 0)) c; Some (c <| at_ := Warming k |>)
               end
      end
  | Warming j =>
      match pos <$> pings a !! j with
      | Some (PingReturned _ _) => goto (Sampling (s_Peers (Status now a)))
      | _ => Some c
      end
  | Polling =>
      if allEst (s_Peers (Status now a)) || ctx then goto (Sampling (s_Peers (Status now a))) else Some c
  | Sampling [] => c ← perform EvQuery (c <| asked := None |>); Some (c <| at_ := Questioning |>)
  | Sampling (ps :: rest) =>
      if negb (ps_Established ps) then goto (Sampling rest)
      else match probes a !! k with
           | Some _ => Some c
           | None => c ← perform (EvAgent (EvProbe k (ps_ID ps))) c; Some (c <| at_ := Probing k rest |>)
           end
  | Probing i rest =>
      match probes a !! i with None => goto (Sampling rest) | Some _ => Some c end
  | Questioning =>
      match asked c with
      | Some r => let '(st, err) := with_registry r (Status now a) in goto (Closing st err)
      | None => match query (cl c) with NoQuery => perform EvQuery c | _ => Some c end
      end
  | Closing st err =>
      if ctrlMu_free (cl c) then c ← perform (EvCloseCall now) c; Some (c <| at_ := Collected st err |>)
      else Some c
  | Collected _ _ => Some c
  end.

(** The events of the rest of the program: everything but the calls above. *)
Definition background (e : cevent) : bool :=
  match e with
  | EvStart _ | EvQuery | EvCloseCall _ | EvFinish _ | EvAgent (EvPing _ _ _ _) | EvAgent (EvProbe _ _) => false
  | _ => true
  end.

Inductive revent := Collect (now : Time) (ctx : bool) (k : nat) | Background (e : cevent).

Definition rstep (probePeer : string) c (e : revent) : option Collector :=
  match e with
  | Collect now ctx k => collect_step probePeer now ctx k c
  | Background e => if background e then perform e c else Some c
  end.

Fixpoint rrun (probePeer : string) c (es : list revent) : option Collector :=
  match es with [] => Some c | e :: es => c ← rstep probePeer c e; rrun probePeer c es end.

(** A call of [collectStatus]. *)
Definition collector (a : Agent L) : Collector := MkCollector Begin (client a) None [].
End Report.

Arguments Collector L : clear implicits.

(** ** Rendering *)

(** [fmtDur]. *)
Definition fmtDur (d : Duration) : string :=
  if d =? 0 then "-"%string
  else if d <? Second then Duration_String (Round d Microsecond)
  else Duration_String (Round d Millisecond).

(** [joinDurs]. *)
Fixpoint joinDurs (ds : list Duration) : string :=
  match ds with
  | [] => ""%string
  | [d] => fmtDur d
  | d :: ds => (fmtDur d +:+ "," +:+ joinDurs ds)%string
  end.

Section Rendering.
(** The text of an error. *)
Context (Error : collect_err -> string).

Definition bool_text (b : bool) : string := if b then "true" else "false".

Definition peer_line (p : PeerStatus) : string :=
  ("peer " +:+ ps_ID p +:+ ": established=" +:+ bool_text (ps_Established p) +:+ " path=" +:+ ps_Path p +:+
   " rtt=" +:+ fmtDur (ps_LastRTT p) +:+ " rekeys=" +:+ Itoa (ps_RekeyCount p) +:+
   " age=" +:+ fmtDur (ps_SessionAge p) +:+ " endpoint=" +:+ ps_DirectEP p +:+
   (if len (ps_RTTHistory p) >? 0 then " rtt_hist=" +:+ joinDurs (ps_RTTHistory p) else ""))%string.

(** The lines of [renderStatusText]. *)
Definition renderStatusText (st : Snapshot) (qerr : option collect_err) : list string :=
  ["name: " +:+ s_Name st; "pubkey: " +:+ s_PubKey st; "public_endpoint: " +:+ s_PublicEP st;
   "relay: " +:+ s_Relay st; "coordinator: " +:+ s_Coordinator st;
   "registry_count: " +:+ Itoa (reg_Count (s_Registry st));
   "registry_total: " +:+ Itoa (reg_Total (s_Registry st));
   "registry_up_s: " +:+ Itoa (reg_Up (s_Registry st))]%string ++
  match qerr with Some e => ["registry_error: " +:+ Error e]%string | None => [] end ++
  map peer_line (s_Peers st).

(** The document. A field marked omitempty is left out when it is empty. *)
Record registryJSON := MkRegistryJSON { j_Count : Z; j_Total : Z; j_UpS : Z }.
Record peerJSON := MkPeerJSON {
  j_ID : string; j_Established : bool; j_Path : string; j_RTTMs : option spec_float;
  j_RTTHistoryMs : list spec_float; j_Rekeys : Z; j_AgeS : spec_float; j_BytesSent : Z; j_BytesRecv : Z;
  j_Endpoint : string }.
Record statusJSON := MkStatusJSON {
  j_Name : string; j_PubKey : string; j_PublicEP : string; j_Relay : string; j_Coordinator : string;
  j_Registry : registryJSON; j_RegistryErr : string; j_Peers : list peerJSON }.

Definition ms (d : Duration) : spec_float := fdiv (float_of_int d) (float_of_int Millisecond).

(** [msOf]. *)
Definition msOf (d : Duration) : option spec_float := if d =? 0 then None else Some (ms d).

(** [Duration.Seconds]. *)
Definition Seconds (d : Duration) : spec_float :=
  fadd (float_of_int (Z.quot d Second)) (fdiv (float_of_int (Z.rem d Second)) (float_of_int Second)).

Definition peer_json (p : PeerStatus) : peerJSON :=
  MkPeerJSON (ps_ID p) (ps_Established p) (ps_Path p) (msOf (ps_LastRTT p)) (map ms (ps_RTTHistory p))
    (ps_RekeyCount p) (Seconds (ps_SessionAge p)) (ps_BytesSent p) (ps_BytesRecv p) (ps_DirectEP p).

(** What [renderStatusJSON] encodes. *)
Definition renderStatusJSON (st : Snapshot) (qerr : option collect_err) : statusJSON :=
  MkStatusJSON (s_Name st) (s_PubKey st) (s_PublicEP st) (s_Relay st) (s_Coordinator st)
    (MkRegistryJSON (reg_Count (s_Registry st)) (reg_Total (s_Registry st)) (reg_Up (s_Registry st)))
    (match qerr with Some e => Error e | None => "" end)
    (map peer_json (s_Peers st)).

(** [runStatus], once the status is collected: what is printed, and its error. *)
Definition runStatus (asJSON : bool) (st : Snapshot) (qerr : option collect_err)
    : (list string + statusJSON) * option collect_err :=
  (if asJSON then inr (renderStatusJSON st qerr) else inl (renderStatusText st qerr), None).
End Rendering.

Example fmtDur_examples :
  map fmtDur [0; 400; 1234567; 999999600; 61000499999] = ["-"; "0s"; "1.235ms"; "1s"; "1m1s"]%string.
Proof. vm_compute. reflexivity. Qed.

(** 1.5 ms and a whole second, as floats. *)
Example floats : msOf 1500000 = Some (S754_finite false 6755399441055744 (-52)) /\ msOf 0 = None /\
  Seconds 1000000000 = S754_finite false 4503599627370496 (-52).
Proof. vm_compute. done. Qed.

(** What is shown of a duration is close: a dash for none, and otherwise the text of the
    nearest whole microsecond below a second, or the nearest whole millisecond from there
    on, half a unit away at most. *)
Theorem fmtDur_precision (d : Duration) :
  - 2 ^ 62 < d < 2 ^ 62 ->
  (d = 0 -> fmtDur d = "-"%string) /\
  (d <> 0 -> exists r, fmtDur d = Duration_String r /\
     let unit := if d <? Second then Microsecond else Millisecond in
     r mod unit = 0 /\ 2 * Z.abs (r - d) <= unit).
Proof.
  intros Hd. unfold fmtDur. split; [by intros ->|]. intros Hne. destruct (d =? 0) eqn:E; zbool; [done|].
  destruct (d <? Second).
  - exists (Round d Microsecond). destruct (Round_nearest d Microsecond) as (H1 & H2 & _); [done|done|by split_and!].
  - exists (Round d Millisecond). destruct (Round_nearest d Millisecond) as (H1 & H2 & _); [done|done|by split_and!].
Qed.
