(* ===== verification/ReportSafety.v ===== *)
(** * What the status command reports *)

From S2P Require Import Prelude GoBytes GoRuntime GoNet NoiseLib Noisework Protocol Agent.
From S2P Require Import AgentControl AgentControlSafety Report.
From S2P Require AgentSafety AgentCalls PeerSession Tun Control.

Section Reports.
Context {L : NoiseLib} {W : NoiseLaws L} {XX : XXLaws L} {J : Json} {PJ : PingJson} {RO : RangeOrder}.
Context (other : string -> option UDPAddr) (parse : string -> option Tun.Addr).
Context (c : Config) (k : Keypair) (natDoor relayAddr : string) (a0 : Agent L).
Context (Hnew : New other c k natDoor relayAddr = Ok a0).
Implicit Types col : Collector L.
#[local] Notation crun := (crun other parse).
#[local] Notation cstep := (cstep other parse).

Context (probePeer : string).
#[local] Notation rrun := (rrun other parse probePeer).
#[local] Notation rstep := (rstep other parse probePeer).

(** Among the client's events [es] there is one in which a query returned [r]. *)
Definition query_returned (es : list cevent) (r : res query_err Message) : Prop :=
  exists es1 e es2 w os w' os', es = es1 ++ e :: es2 /\
    crun (client a0) es1 = Some (w, os) /\ cstep w e = Some (w', os') /\ Queried r ∈ os'.

(** [collectStatus] took the snapshot in the run [es]: at the step where it stood at the
    query, which had returned [r], with the state [col1]. *)
Definition snapped (es : list revent) (st : Snapshot) (err : option collect_err) : Prop :=
  exists es1 now ctx i es2 col1 r, es = es1 ++ Collect now ctx i :: es2 /\
    rrun (collector a0) es1 = Some col1 /\ at_ col1 = Questioning /\ asked col1 = Some r /\
    with_registry r (Status now (agent (cl col1))) = (st, err).

Definition done_ok (es : list revent) col : Prop :=
  match at_ col with
  | Closing st err => snapped es st err
  | Collected st err =>
      (exists e, err = Some (StartFailed e) /\ st = emptySnapshot) \/
      snapped es st err /\ closed (agent (cl col)) = true
  | _ => True
  end.

(** The client went through the events of the history, and no others. *)
Record Rep col : Prop := {
  rep_run : exists os, crun (client a0) (moves col) = Some (cl col, os);
  rep_asked r : asked col = Some r -> query_returned (moves col) r
}.

Lemma query_returned_snoc es e r : query_returned es r -> query_returned (es ++ [e]) r.
Proof.
  intros (es1 & e1 & es2 & w & os & w' & os' & -> & H). exists es1, e1, (es2 ++ [e]), w, os, w', os'.
  split; [|done]. by rewrite <- app_assoc.
Qed.

Lemma snapped_snoc es e st err : snapped es st err -> snapped (es ++ [e]) st err.
Proof.
  intros (es1 & now & ctx & i & es2 & col1 & r & -> & H). exists es1, now, ctx, i, (es2 ++ [e]), col1, r.
  split; [|done]. by rewrite <- app_assoc.
Qed.

Lemma cstep_closed w e w' os : cstep w e = Some (w', os) -> closed (agent w) = true -> closed (agent w') = true.
Proof.
  intros E Hc. destruct (cstep_projects other parse w e w' os E) as [[_ ->]|(x & Ex & _)]; [done|].
  by eapply AgentCalls.step_closed.
Qed.

Lemma queried_elem os r : queried os = Some r -> Queried r ∈ os.
Proof.
  unfold queried. intros E. apply last_Some_elem_of in E. apply list_elem_of_omap in E as (o & Ho & E).
  destruct o; try done. by injection E as ->.
Qed.

Lemma crun_snoc w es w1 os1 e w2 os2 :
  crun w es = Some (w1, os1) -> cstep w1 e = Some (w2, os2) -> crun w (es ++ [e]) = Some (w2, os1 ++ os2).
Proof.
  intros E1 E2. apply crun_app. exists w1, os1, os2. split; [done|]. split; [|done].
  cbn [AgentControl.crun]. rewrite E2. cbn. by rewrite app_nil_r.
Qed.

Lemma perform_Rep e col col' : Rep col -> perform other parse e col = Some col' -> Rep col' /\ at_ col' = at_ col.
Proof.
  intros R H. unfold perform in H. destruct (AgentControl.cstep _ _ _ _) as [[w os]|] eqn:E; [|done].
  cbn [mbind option_bind] in H. injection H as <-. split; [|done].
  destruct (rep_run _ R) as (os1 & Hr). constructor; cbn.
  - exists (os1 ++ os). by eapply crun_snoc.
  - intros r Hq. destruct (queried os) as [r'|] eqn:Eq; [|by apply query_returned_snoc, (rep_asked _ R)].
    injection Hq as ->. exists (moves col), e, [], (cl col), os1, w, os. split_and!; [done..|by apply queried_elem].
Qed.

Lemma Rep_goto p col : Rep col -> Rep (col <| at_ := p |>).
Proof. intros []. by constructor. Qed.

Lemma Rep_ask col : Rep col -> Rep (col <| asked := None |>).
Proof. intros []. by constructor. Qed.

Lemma rstep_Rep e col col' : Rep col -> rstep col e = Some col' -> Rep col'.
Proof.
  intros R H.
  assert (Hcall : forall e p col0, Rep col0 -> (c ← perform other parse e col0; Some (c <| at_ := p |>)) = Some col' -> Rep col').
  { intros e1 p col0 R0 Hc. destruct (perform _ _ e1 col0) as [c1|] eqn:E; [|done]. cbn in Hc. injection Hc as <-.
    apply perform_Rep in E as [R1 _]; [|done]. by apply Rep_goto. }
  destruct e as [now ctx i|e]; cbn [Report.rstep] in H;
    [|destruct (background e); [by apply perform_Rep in H as [? _]|by injection H as <-]].
  unfold collect_step in H. destruct (at_ col) as [| | |j| |rest|j rest| |st err|st err];
    repeat match type of H with
    | context [perform _ _ EvQuery (_ <| asked := None |>)] => apply Hcall in H; [done|by apply Rep_ask]
    | _ => first [by apply Hcall in H | by apply perform_Rep in H as [? _]
                 | by (injection H as <-; try by apply Rep_goto) | destr_in H]
    end.
Qed.

Lemma perform_close now col col' : ctrlMu_free (cl col) = true ->
  perform other parse (EvCloseCall now) col = Some col' -> closed (agent (cl col')) = true.
Proof.
  intros Hf H. unfold perform in H. cbn [AgentControl.cstep] in H. rewrite Hf in H.
  destruct (close now (cl col)) as [w|] eqn:E; [|done]. cbn in H. injection H as <-. cbn.
  unfold close in E. destruct (closed (agent (cl col))) eqn:Ec; [by injection E as <-|].
  destruct (Close now (agent (cl col))) as [a|] eqn:Ea; [|done]. cbn in E. injection E as <-.
  by apply AgentCalls.Close_rtt in Ea as [_ Ha].
Qed.

(** A step keeps what has been taken, takes the snapshot, or closes the agent. *)
Lemma step_done es e col col' :
  rrun (collector a0) es = Some col -> done_ok es col -> rstep col e = Some col' -> done_ok (es ++ [e]) col'.
Proof.
  intros Hrun Hd H. unfold done_ok in *.
  assert (Hcall : forall e p col0, (match p with Closing _ _ | Collected _ _ => False | _ => True end) ->
            (c ← perform other parse e col0; Some (c <| at_ := p |>)) = Some col' ->
            match at_ col' with Closing _ _ | Collected _ _ => False | _ => True end).
  { intros e1 p col0 Hp Hc. destruct (perform _ _ e1 col0) as [c1|]; [|done]. cbn in Hc. by injection Hc as <-. }
  assert (Hmove : forall e1, perform other parse e1 col = Some col' ->
            at_ col' = at_ col /\ (closed (agent (cl col)) = true -> closed (agent (cl col')) = true)).
  { intros e1 Hp. unfold perform in Hp. destruct (AgentControl.cstep _ _ _ _) as [[w os]|] eqn:E; [|done].
    cbn in Hp. injection Hp as <-. split; [done|]. cbn. by eapply cstep_closed. }
  assert (Hstay : at_ col' = at_ col -> (closed (agent (cl col)) = true -> closed (agent (cl col')) = true) ->
            match at_ col' with
            | Closing st err => snapped (es ++ [e]) st err
            | Collected st err => (exists x, err = Some (StartFailed x) /\ st = emptySnapshot) \/
                snapped (es ++ [e]) st err /\ closed (agent (cl col')) = true
            | _ => True
            end).
  { intros -> Hc. destruct (at_ col); try done; [by apply snapped_snoc|].
    destruct Hd as [?|[? ?]]; [by left|right]. split; [by apply snapped_snoc|by apply Hc]. }
  destruct e as [now ctx i|e]; cbn [Report.rstep] in H.
  2:{ destruct (background e); [|injection H as <-; by apply Hstay]. destruct (Hmove _ H). by apply Hstay. }
  unfold collect_step in H. destruct (at_ col) as [| | |j| |rest|j rest| |st err|st err] eqn:Ep.
  - apply Hcall in H; [|done]. by destruct (at_ col').
  - destruct (main (cl col)) as [| | | | | |[u|x]]; injection H as <-; cbn; try by rewrite ?Ep. left. by exists x.
  - destruct (WaitPeers _ _); [|injection H as <-; by rewrite Ep].
    destruct (bool_decide _); [by injection H as <-|].
    destruct (pings _ !! i); [injection H as <-; by rewrite Ep|]. apply Hcall in H; [|done]. by destruct (at_ col').
  - destruct (pos <$> _) as [[]|]; injection H as <-; cbn; by rewrite ?Ep.
  - destruct (_ || ctx); injection H as <-; cbn; by rewrite ?Ep.
  - destruct rest as [|ps rest]; [apply Hcall in H; [|done]; by destruct (at_ col')|].
    destruct (negb _); [by injection H as <-|].
    destruct (probes _ !! i); [injection H as <-; by rewrite Ep|]. apply Hcall in H; [|done]. by destruct (at_ col').
  - destruct (probes _ !! j); injection H as <-; cbn; by rewrite ?Ep.
  - destruct (asked col) as [r|] eqn:Er.
    + destruct (with_registry r _) as [st err] eqn:Ew. injection H as <-. cbn.
      by exists es, now, ctx, i, [], col, r.
    + destruct (query (cl col)); try (injection H as <-; by rewrite Ep). destruct (Hmove _ H) as [-> _]. done.
  - destruct (ctrlMu_free (cl col)) eqn:Ef; [|injection H as <-; rewrite Ep; by apply snapped_snoc].
    destruct (perform _ _ _ col) as [c1|] eqn:E; [|done]. cbn in H. injection H as <-. cbn. right.
    split; [by apply snapped_snoc|]. by apply (perform_close now col c1).
  - injection H as <-. by apply Hstay.
Qed.

Lemma rrun_snoc es : forall col e, rrun col (es ++ [e]) = c1 ← rrun col es; rstep c1 e.
Proof.
  induction es as [|x es IH]; intros col e; cbn [app Report.rrun].
  - cbn. by destruct (Report.rstep _ _ _ _ _).
  - destruct (Report.rstep _ _ _ col x); [|done]. cbn. apply IH.
Qed.

Lemma collector_runs es : forall col, rrun (collector a0) es = Some col -> Rep col /\ done_ok es col.
Proof.
  induction es as [|e es IH] using rev_ind; intros col H.
  { injection H as <-. split; [|done]. constructor; [by exists []|done]. }
  rewrite rrun_snoc in H. destruct (Report.rrun _ _ _ _ es) as [c1|] eqn:E; [|done]. cbn in H.
  destruct (IH c1 eq_refl) as [R Hd]. split; [by eapply rstep_Rep|by eapply step_done].
Qed.

(** [C23] The status is authentic, and leaves nothing running: when [collectStatus] returns,
    whatever went on meanwhile, it either failed to start, with an empty snapshot, or the
    agent is closed and the snapshot was taken in this very run, of its own agent: in the
    state [col1] that it was in when its query had returned [r], to which the client had come
    by the events of its history. The snapshot has the configured name and coordinator and
    the public key, the counters of the answer that was returned among those events (or
    none, with its error), and the peers of that state: each was announced in a peer list
    heard, among those events, in a session with the coordinator configured, and one shown as
    established had there a session whose remote static key is the one announced. *)
Theorem status_authentic (es : list revent) (col : Collector L)
    (st : Snapshot) (err : option collect_err)
    (Hrun : rrun (collector a0) es = Some col) (Hat : at_ col = Collected st err) :
  (exists e, err = Some (StartFailed e) /\ st = emptySnapshot) \/
  closed (agent (cl col)) = true /\
  exists es1 now ctx i es2 col1 os r,
    es = es1 ++ Collect now ctx i :: es2 /\ rrun (collector a0) es1 = Some col1 /\
    at_ col1 = Questioning /\ asked col1 = Some r /\
    crun (client a0) (moves col1) = Some (cl col1, os) /\ query_returned (moves col1) r /\
    match r with
    | Ok m => err = None /\ s_Registry st = MkRegistry (Count m) (Total m) (Up m)
    | Err e => err = Some (QueryFailed e) /\ s_Registry st = no_registry
    end /\
    s_Name st = Name c /\ s_PubKey st = PublicHex k /\ s_Coordinator st = Coordinator c /\
    s_Peers st = Agent.Status now (agent (cl col1)) /\
    forall ps, ps ∈ s_Peers st ->
      exists q n key plain msg info,
        peers (agent (cl col1)) !! ps_ID ps = Some q /\ heap (agent (cl col1)) !! q = Some n /\
        heard other parse (ParsePublicKeyHex (CoordKey c)) (client a0) (moves col1) plain /\
        DecodeLine plain = Ok msg /\ Type_ msg = TypePeerList /\ info ∈ elems (Peers msg) /\
        pi_ID info = ps_ID ps /\ ParsePublicKeyHex (pi_PubKey info) = Ok key /\
        (ps_Established ps = true -> PeerSession.RemoteStatic (PeerSession.peer n) = Some key).
Proof.
  destruct (collector_runs es col Hrun) as [_ Hd]. unfold done_ok in Hd.
  rewrite Hat in Hd. destruct Hd as [Hd|[(es1 & now & ctx & i & es2 & col1 & r & Hes & Hr1 & Hq & Ha & Hst) Hc]]; [by left|right].
  split; [exact Hc|]. destruct (collector_runs es1 col1 Hr1) as [R _]. destruct (rep_run _ R) as (os & Hr).
  destruct (client_kept other parse c k natDoor relayAddr a0 Hnew) as (Ia & I & Hcfg & Hkp).
  destruct (crun_kept other parse _ (moves col1) _ Ia I) as (w' & os' & E & _ & _ & Hc' & Hk').
  rewrite Hr in E. injection E as <- <-. cbn in Hc', Hk'.
  assert (Hs : s_Name st = Name c /\ s_PubKey st = PublicHex k /\ s_Coordinator st = Coordinator c /\
               s_Peers st = Agent.Status now (agent (cl col1))).
  { destruct r; injection Hst as <- _; cbn; by rewrite Hc', Hk', Hcfg, Hkp. }
  destruct Hs as (H1 & H2 & H3 & H4).
  exists es1, now, ctx, i, es2, col1, os, r. do 5 (split; [done|]). split; [by apply (rep_asked _ R)|].
  split; [destruct r; by injection Hst as <- <-|]. do 4 (split; [done|]).
  intros ps Hps. rewrite H4 in Hps. unfold Agent.Status in Hps.
  apply list_elem_of_omap in Hps as (id & _ & Hps). unfold peerStatus in Hps.
  destruct (peers (agent (cl col1)) !! id) as [q|] eqn:Eq; [|done]. cbn [mbind option_bind] in Hps.
  destruct (peers_heard other parse c k natDoor relayAddr a0 (moves col1) (cl col1) os id q Hnew Hr Eq)
    as (n & key & plain & msg & info & Hn & Hid & Hh & Hd & Ht & Hi & Hpi & Hk & He).
  rewrite Hn in Hps. cbn in Hps. injection Hps as <-. cbn.
  exists q, n, key, plain, msg, info. by rewrite Hid.
Qed.
End Reports.
