(* ===== verification/ReportReturns.v ===== *)
(** * The status command returns

    Each wait of [collectStatus] has a deadline. [expire] is what happens next when nothing
    arrives any more and every deadline passes: the step of the call it is in that its
    context ends, or its own next step. From every state it may be in that leads to its end. *)

From stdpp Require Import fin_maps.
From S2P Require Import Prelude GoBytes GoRuntime GoNet NoiseLib Noisework Protocol Agent.
From S2P Require Import AgentControl AgentControlSafety Report.
From S2P Require AgentSafety AgentCalls PeerSession Tun Control.

Section Returns.
Context {L : NoiseLib} {W : NoiseLaws L} {XX : XXLaws L} {J : Json} {PJ : PingJson} {RO : RangeOrder}.
Context (other : string -> option UDPAddr) (parse : string -> option Tun.Addr).
Implicit Types (col : Collector L) (w : Client L).

(** A registration under way fails: the dial, a write of the handshake, the announcement. *)
Definition fail_register (now : Time) (p : reg_pos) : cevent :=
  match p with
  | Idle => EvRegister
  | Dialling _ => EvDial None
  | Shaking _ _ _ => EvShake now [] false false
  | Announcing _ => EvAnnounce false
  end.

Definition unused col : nat := fresh (dom (pings (agent (cl col))) ∪ dom (probes (agent (cl col)))).

Definition expire (now : Time) col : revent :=
  let own := Collect now true (unused col) in
  match at_ col with
  | Starting =>
      match main (cl col) with
      | Locating _ => Background (EvLocate None [] false [])
      | Enrolling _ => Background (fail_register now (registering (cl col)))
      | Settling _ => Background (EvSettle true)
      | _ => own
      end
  | Warming j =>
      match pos <$> pings (agent (cl col)) !! j with
      | Some (PingReturned _ _) | None => own
      | Some _ => Background (EvAgent (EvPingStep j OnContext now now now false))
      end
  | Probing i _ =>
      match probes (agent (cl col)) !! i with
      | None => own
      | Some (Found _ _) => Background (EvAgent (EvProbeWait i true))
      | Some (Ready _ _) => Background (EvAgent (EvProbeSend i now now now false))
      | Some (Sent _ _ _) => Background (EvAgent (EvProbeRegister i))
      | Some (Waiting _ _ _ _) => Background (EvAgent (EvProbeFinish i true))
      end
  | Questioning =>
      match asked col, query (cl col) with
      | Some _, _ => own
      | None, NoQuery =>
          if ctrlMu_free (cl col) then own else Background (fail_register now (registering (cl col)))
      | None, _ => Background (EvQueryStep true false)
      end
  | Closing _ _ =>
      if ctrlMu_free (cl col) then own else Background (fail_register now (registering (cl col)))
  | _ => own
  end.

(** [n] times in a row. *)
Fixpoint expires (probePeer : string) (now : Time) (n : nat) col : option (Collector L) :=
  match n with
  | O => Some col
  | S n => col ← rstep other parse probePeer col (expire now col); expires probePeer now n col
  end.

Definition returned col : bool := match at_ col with Collected _ _ => true | _ => false end.

(** ** What every state has *)

Definition starting (m : main_pos) : Prop :=
  match m with Locating false | Enrolling false | Settling false | Returned _ => True | _ => False end.

Record Live col : Prop := {
  lv_inv : AgentSafety.Inv (agent (cl col));
  lv_pos : match at_ col with
           | Begin => main (cl col) = Fresh
           | Starting => starting (main (cl col))
           | Warming j => is_Some (pings (agent (cl col)) !! j)
           | _ => True
           end
}.

(** How a background event moves [main] on. *)
Definition moved w w' : Prop :=
  (main w = Fresh -> main w' = Fresh) /\ (starting (main w) -> starting (main w')).

Lemma moved_same w w' : main w' = main w -> moved w w'.
Proof. unfold moved. by intros ->. Qed.

Lemma moved_end r w w0 : main w0 = main w -> moved w (register_end r w0).
Proof.
  intros E. unfold moved, register_end. cbn. rewrite E.
  destruct (main w) as [|[]|[]|[]| | |]; cbn; try done; by destruct r.
Qed.
#[local] Hint Resolve moved_same moved_end : core.

Lemma ctl_write_main c line wrote w r os w' : ctl_write c line wrote w = (r, os, w') ->
  main w' = main w /\ agent w' = agent w /\ registering w' = registering w /\ query w' = query w.
Proof. unfold ctl_write. destruct (sessions w !! c); [destruct (Control.WriteMsg _ _ _) as [[? ?] ?]|]; by intros [= <- <- <-]. Qed.

Lemma background_main w e w' os : cstep other parse w e = Some (w', os) -> background e = true -> moved w w'.
Proof.
  intros H Hb. destruct e; cbn [AgentControl.cstep] in H; try done.
  - injection H as E. unfold locate in E. destruct (main w) as [|d| | | | |] eqn:Em; try by (injection E as <- _; auto).
    destruct (resolvePublicEndpoint _ _ _ _ _ _) as [o [[ep|x]|]]; injection E as <- _; [..|auto];
      split; cbn; rewrite Em; by destruct d.
  - injection H as <- _. destruct (may_register w); [|auto]. unfold register_begin.
    destruct (ParsePublicKeyHex _); [|auto]. apply moved_same. unfold cancel_ctrl. cbn.
    destruct (ctrl w); [|done]. cbn. by destruct (ctrlCancel w).
  - injection H as <- _. unfold register_dial. destruct (registering w); auto. destruct dialled; auto.
  - injection H as E. unfold register_shake in E. destruct (registering w); try by (injection E as <- _; auto).
    destruct (Control.Initiate _ _ _ _ _ _ _) as [bs [x|x]]; injection E as <- _; [by apply moved_same|].
    by apply moved_end.
  - injection H as E. unfold register_announce in E. destruct (registering w); try by (injection E as <- _; auto).
    destruct (EncodeLine _) as [line|]; [|injection E as <- _; auto].
    destruct (ctl_write c line wrote w) as [[[] o] w1] eqn:Ew; apply ctl_write_main in Ew as [Ew _];
      injection E as <- _; by apply moved_end.
  - injection H as <- _. unfold settle. destruct (main w) as [| | |d| | |] eqn:Em; auto.
    destruct ctx; split; cbn; rewrite Em; by destruct d.
  - injection H as <- _. unfold bridging. destruct (main w) eqn:Em; auto.
    destruct (newTunBridge _ _ _); split; cbn; by rewrite Em.
  - unfold ctrlReaderLoop in H. destruct (bool_decide _); [|injection H as <- _; auto].
    destruct (sessions w !! c) as [x|]; [|injection H as <- _; auto].
    destruct (Control.ReadMsg _) as [[m|er] y]; [|injection H as <- _; by apply moved_same].
    destruct (control_message _ _ _ _); [|done]. injection H as <- _. by apply moved_same.
  - injection H as E. unfold query_step in E. destruct (query w) as [|c|c|]; try by (injection E as <- _; auto).
    + destruct (queryCh _); injection E as <- _; by apply moved_same.
    + destruct query_line as [line|]; [|injection E as <- _; by apply moved_same].
      destruct (ctl_write c line wrote w) as [[[] o] w1] eqn:Ew; apply ctl_write_main in Ew as [Ew _];
        injection E as <- _; by apply moved_same.
    + destruct ctx; [injection E as <- _; by apply moved_same|].
      destruct (query_take _) as [[m|] a]; injection E as <- _; by apply moved_same.
  - destruct (elsewhere w e) eqn:Ee; [|injection H as <- _; auto].
    destruct (step _ _ _ _) as [[a o]|]; [|done]. cbn in H. injection H as <- _. by apply moved_same.
Qed.

Lemma ping_step_keeps j br t1 t2 now wrote (a a' : Agent L) os i :
  ping_step j br t1 t2 now wrote a = Some (a', os) -> is_Some (pings a !! i) -> is_Some (pings a' !! i).
Proof.
  intros H Hi. assert (Hset : forall g p (b : Agent L), pings b = pings a -> is_Some (pings (set_pos j g p b) !! i)).
  { intros g p b E. cbn. rewrite E. destruct (decide (i = j)) as [->|]; [by rewrite lookup_insert_eq|].
    by rewrite lookup_insert_ne. }
  unfold ping_step in H. destruct (pings a !! j) as [g|]; [|by injection H as <- _].
  destruct (pos g) as [| |r|x|x seq ts|x seq ts ch|x|]; try by injection H as <- _.
  - destruct (WaitPeers _ a) as [[]|]; injection H as <- _; auto.
  - injection H as <- _. by apply Hset.
  - destruct (heap a !! r); [|done]. cbn [mbind option_bind] in H.
    destruct (PeerSession.WaitEstablished _ _) as [[|]|]; injection H as <- _; auto.
  - destruct (_ <? _).
    + destruct (peerSend _ _ _ _ _) as [[ok [a1 outs]]|] eqn:E; [|done]. apply AgentCalls.peerSend_rtt in E as [_ E].
      cbn in H. injection H as <- _. by apply Hset.
    + destruct (heap a !! g_peer x); [|done]. cbn in H. injection H as <- _. by apply Hset.
  - injection H as <- _. by apply Hset.
  - injection H as <- _. destruct br; [destruct (chans a !! ch) as [[|]|]|..]; auto.
  - destruct br; [injection H as <- _; auto..|]. destruct (heap a !! g_peer x); [|done].
    injection H as <- _. by apply Hset.
Qed.

Lemma cstep_pings w e w' os i : cstep other parse w e = Some (w', os) ->
  is_Some (pings (agent w) !! i) -> is_Some (pings (agent w') !! i).
Proof.
  intros E Hi. destruct (cstep_projects other parse w e w' os E) as [[_ ->]|(x & Ex & _)]; [done|].
  destruct (AgentCalls.is_call x) eqn:Ec.
  2:{ destruct (AgentCalls.step_books other parse _ x _ _ Ex Ec) as [_ ->]. done. }
  destruct x; try done; cbn [step] in Ex.
  - injection Ex as <- _. unfold probe_finish, recordRTT. by repeat destr.
  - injection Ex as <- _. unfold ping_start. destruct (pings (agent w) !! j) eqn:Ej; [done|]. cbn.
    rewrite lookup_insert_ne; [done|]. intros ->. rewrite Ej in Hi. by destruct Hi.
  - by eapply ping_step_keeps.
Qed.

Lemma perform_live e col : AgentSafety.Inv (agent (cl col)) ->
  exists w os, cstep other parse (cl col) e = Some (w, os) /\ AgentSafety.Inv (agent w) /\
    perform other parse e col =
      Some (advanced e w os col).
Proof.
  intros I. destruct (cstep_agent other parse (cl col) e I) as (w & os & E & I' & _).
  exists w, os. split; [done|]. split; [done|]. unfold perform. by rewrite E.
Qed.

(** ** The calls end *)

Lemma Initiate_unwritten now (k : Keypair) pub entropy wrote3 r :
  exists bs e, Control.Initiate (L := L) now k pub entropy false wrote3 r = (bs, Err e).
Proof.
  unfold Control.Initiate. destruct (NewInitiator _ _ _ _) as [init|]; [|by eexists _, _].
  destruct (Message1 init) as [[|] ?]; by eexists _, _.
Qed.

Lemma ctl_write_unwritten c line w : exists e os w', ctl_write c line false w = (Err e, os, w') /\ os = [].
Proof.
  unfold ctl_write. destruct (sessions w !! c) as [x|]; [|by eexists _, _, _].
  unfold Control.WriteMsg. destruct (Encrypt _ _) as [[ct|e] y]; by eexists _, _, _.
Qed.

(** A registration fails in one step, or two from its start. *)
Lemma register_fails now w : registering w <> Idle ->
  exists w' os r, cstep other parse w (fail_register now (registering w)) = Some (w', os) /\
    queried os = None /\ query w' = query w /\ registering w' = Idle /\
    main w' = match main w with Enrolling _ => Returned (Err (RegisterFailed r)) | m => m end.
Proof.
  intros Hr. destruct (registering w) as [|pub|pub c r|c] eqn:Er; [done|..]; cbn [fail_register AgentControl.cstep].
  - eexists _, _, Dial. split; [done|]. unfold register_dial, register_end. rewrite Er. cbn. split_and!; first [done|by destruct (main w)].
  - unfold register_shake. rewrite Er.
    destruct (Initiate_unwritten now (kp (agent w)) pub [] false r) as (bs & e & ->).
    eexists _, _, (ControlHandshake e). split; [done|]. split_and!; first [done|cbn; by destruct (main w)].
  - unfold register_announce. rewrite Er. destruct (EncodeLine _) as [line|e].
    + destruct (ctl_write_unwritten c line w) as (e & os & w' & E & ->). rewrite E.
      apply ctl_write_main in E as (Em & _ & _ & Eq). eexists _, _, (WriteRegister e). split; [done|].
      split; [done|]. cbn. rewrite Em. split_and!; first [done|by destruct (main w)].
    + eexists _, _, (EncodeRegister e). split; [done|]. split_and!; first [done|cbn; by destruct (main w)].
Qed.

Lemma register_starts now w d : registering w = Idle -> main w = Enrolling d ->
  exists w' os, cstep other parse w (fail_register now Idle) = Some (w', os) /\ queried os = None /\
    ((main w' = Enrolling d /\ registering w' <> Idle) \/ exists e, main w' = Returned (Err e)).
Proof.
  intros Hr Hm. cbn [fail_register AgentControl.cstep]. unfold may_register. rewrite Hr, Hm.
  eexists _, _. split; [done|]. split; [done|]. unfold register_begin.
  destruct (ParsePublicKeyHex _).
  - left. cbn. split; [|done]. unfold cancel_ctrl. destruct (ctrl w); cbn; [|done]. by destruct (ctrlCancel w).
  - right. unfold register_end. cbn. rewrite Hm. by eexists.
Qed.

(** ** From every position to the end *)

Section From.
Context (probePeer : string) (now : Time).

Definition Reaches col : Prop :=
  exists n col', expires probePeer now n col = Some col' /\ returned col' = true.

Lemma Reaches_now col : returned col = true -> Reaches col.
Proof. intros H. by exists 0%nat, col. Qed.

Lemma Reaches_step col col1 :
  rstep other parse probePeer col (expire now col) = Some col1 -> Reaches col1 -> Reaches col.
Proof.
  intros E (n & col' & H & Hr). exists (S n), col'. split; [|done]. cbn [expires]. by rewrite E.
Qed.

(** A step of the client between the collector's own. *)
Lemma Reaches_client e col :
  AgentSafety.Inv (agent (cl col)) -> expire now col = Background e -> background e = true ->
  (forall w os, cstep other parse (cl col) e = Some (w, os) -> AgentSafety.Inv (agent w) ->
     Reaches (col <| cl := w |> <| asked := match queried os with Some r => Some r | None => asked col end |>
                <| moves := moves col ++ [e] |>)) ->
  Reaches col.
Proof.
  intros I He Hb H. destruct (perform_live e col I) as (w & os & E & I' & Ep).
  eapply Reaches_step; [|by apply (H w os)]. rewrite He. cbn [rstep]. by rewrite Hb.
Qed.

(** A step of the collector, and a call it makes. *)
Lemma Reaches_goto p col :
  expire now col = Collect now true (unused col) ->
  collect_step other parse probePeer now true (unused col) col = Some (col <| at_ := p |>) ->
  Reaches (col <| at_ := p |>) -> Reaches col.
Proof. intros He E H. eapply Reaches_step; [|exact H]. rewrite He. exact E. Qed.

Lemma Reaches_call e p col col0 :
  AgentSafety.Inv (agent (cl col0)) -> expire now col = Collect now true (unused col) ->
  collect_step other parse probePeer now true (unused col) col =
    (c ← perform other parse e col0; Some (c <| at_ := p |>)) ->
  (forall w os, cstep other parse (cl col0) e = Some (w, os) -> AgentSafety.Inv (agent w) ->
     Reaches (col0 <| cl := w |> <| asked := match queried os with Some r => Some r | None => asked col0 end |>
                <| moves := moves col0 ++ [e] |> <| at_ := p |>)) ->
  Reaches col.
Proof.
  intros I He E H. destruct (perform_live e col0 I) as (w & os & E1 & I' & Ep).
  eapply Reaches_step; [|by apply (H w os)]. rewrite He. cbn [rstep]. rewrite E, Ep. done.
Qed.

(** The lock of the control connection becomes free. *)
Lemma Reaches_freed col :
  AgentSafety.Inv (agent (cl col)) ->
  (ctrlMu_free (cl col) = false -> expire now col = Background (fail_register now (registering (cl col)))) ->
  (forall col1, at_ col1 = at_ col -> asked col1 = asked col -> query (cl col1) = query (cl col) ->
     AgentSafety.Inv (agent (cl col1)) -> ctrlMu_free (cl col1) = true -> Reaches col1) ->
  Reaches col.
Proof.
  intros I He H. destruct (ctrlMu_free (cl col)) eqn:Ef; [by apply H|].
  assert (Hr : registering (cl col) <> Idle) by (intros E; unfold ctrlMu_free in Ef; by rewrite E in Ef).
  destruct (register_fails now (cl col) Hr) as (w' & os' & r & E' & Hq & Hqu & Hi & _).
  apply (Reaches_client (fail_register now (registering (cl col))) col I (He eq_refl)).
  { by destruct (registering (cl col)). }
  intros w os E I'. rewrite E in E'. injection E' as <- <-. rewrite Hq. apply H; try done.
  unfold ctrlMu_free. cbn. by rewrite Hi.
Qed.

Lemma from_closing st err col : at_ col = Closing st err -> AgentSafety.Inv (agent (cl col)) -> Reaches col.
Proof.
  intros Ha I. apply (Reaches_freed col I).
  { intros Ef. unfold expire. by rewrite Ha, Ef. }
  intros col1 Ha1 _ _ I1 Ef. rewrite Ha in Ha1. eapply (Reaches_call (EvCloseCall now) (Collected st err) _ col1); [done| | |].
  - unfold expire. by rewrite Ha1, Ef.
  - unfold collect_step. by rewrite Ha1, Ef.
  - intros w1 os _ _. by apply Reaches_now.
Qed.

Lemma from_answered r col : at_ col = Questioning -> asked col = Some r -> AgentSafety.Inv (agent (cl col)) -> Reaches col.
Proof.
  intros Ha Hr I. destruct (with_registry r (Status now (agent (cl col)))) as [st err] eqn:E.
  apply (Reaches_goto (Closing st err)).
  - unfold expire. by rewrite Ha, Hr.
  - unfold collect_step. by rewrite Ha, Hr, E.
  - by eapply from_closing.
Qed.

(** How many steps a query is from its end. *)
Definition query_rank w : nat :=
  match query w with
  | NoQuery => 0 | Awaiting | Asking _ => 1
  | Draining _ => match queryCh (agent w) with Some _ => 3 | None => 2 end
  end.

Lemma from_asking n : forall col, at_ col = Questioning -> asked col = None -> query (cl col) <> NoQuery ->
  query_rank (cl col) = n -> AgentSafety.Inv (agent (cl col)) -> Reaches col.
Proof.
  induction n as [n IH] using lt_wf_ind. intros col Ha Hn Hq Hrk I.
  apply (Reaches_client (EvQueryStep true false) col I); [|done|].
  { unfold expire. rewrite Ha, Hn. by destruct (query (cl col)). }
  intros w os E I'. cbn [AgentControl.cstep] in E. injection E as E. unfold query_step in E.
  unfold query_rank in Hrk. destruct (query (cl col)) as [|c|c|] eqn:Eq; [done|..].
  - destruct (queryCh (agent (cl col))) eqn:Ech; injection E as <- <-; cbn [queried omap list_omap list.last];
      rewrite Hn; (eapply IH; [|done|done|cbn; by rewrite ?Eq|reflexivity|done]);
      unfold query_rank; cbn; rewrite ?Eq, ?Ech; lia.
  - destruct query_line as [line|e].
    + destruct (ctl_write_unwritten c line (cl col)) as (e & os' & w' & Ew & ->). rewrite Ew in E.
      injection E as <- <-. by apply (from_answered (Err (SendQuery e))).
    + injection E as <- <-. by apply (from_answered (Err (EncodeQuery e))).
  - injection E as <- <-. by apply (from_answered (Err QueryCancelled)).
Qed.

Lemma from_questioning col : at_ col = Questioning -> AgentSafety.Inv (agent (cl col)) -> Reaches col.
Proof.
  intros Ha I. destruct (asked col) as [r|] eqn:Hr; [by apply (from_answered r)|].
  assert (Hq : query (cl col) = NoQuery \/ query (cl col) <> NoQuery) by (destruct (query (cl col)); auto).
  destruct Hq as [Hq|Hq]; [|by eapply from_asking].
  apply (Reaches_freed col I). { intros Ef. unfold expire. by rewrite Ha, Hr, Hq, Ef. }
  intros col1 Ha1 Hr1 Hq1 I1 Ef. rewrite Ha in Ha1. rewrite Hr in Hr1. rewrite Hq in Hq1.
  destruct (perform_live EvQuery col1 I1) as (w1 & os & E & I2 & Ep). eapply (Reaches_step col1).
  { assert (He : expire now col1 = Collect now true (unused col1)) by (unfold expire; by rewrite Ha1, Hr1, Hq1, Ef).
    rewrite He. cbn [rstep]. unfold collect_step. rewrite Ha1, Hr1, Hq1. exact Ep. }
  cbn [AgentControl.cstep] in E. injection E as E. unfold query_begin in E. rewrite Hq1, Ef in E.
  destruct (ctrlConn (cl col1)) as [c|]; injection E as <- <-.
  - unfold advanced. cbn [queried omap list_omap list.last]. rewrite Hr1. by eapply from_asking.
  - by apply (from_answered (Err NoControlSession)).
Qed.

(** How many steps a probe is from its end. *)
Definition probe_rank (p : option probe) : nat :=
  match p with
  | None => 0 | Some (Waiting _ _ _ _) => 1 | Some (Sent _ _ _) => 2 | Some (Ready _ _) => 3 | Some (Found _ _) => 4
  end.

(** The step of the probe brings it nearer. *)
Definition probe_event (i : nat) (p : probe) : event :=
  match p with
  | Found _ _ => EvProbeWait i true
  | Ready _ _ => EvProbeSend i now now now false
  | Sent _ _ _ => EvProbeRegister i
  | Waiting _ _ _ _ => EvProbeFinish i true
  end.

Lemma probe_nearer i p (a a' : Agent L) os : probes a !! i = Some p ->
  step other parse a (probe_event i p) = Some (a', os) ->
  (probe_rank (probes a' !! i) < probe_rank (Some p))%nat.
Proof.
  intros Hp H. destruct p as [id r|id r|id seq ts|id seq ts ch]; cbn [probe_event step] in H.
  - unfold quietly, probe_wait in H. rewrite Hp in H. destruct (heap a !! r) as [n|]; [|done]. cbn [mbind option_bind] in H.
    destruct (PeerSession.WaitEstablished _ _) as [[|]|] eqn:E; injection H as <- _; cbn.
    + rewrite lookup_insert_eq. cbn. lia.
    + rewrite lookup_delete_eq. cbn. lia.
    + unfold PeerSession.WaitEstablished in E. by destruct (PeerSession.Established _).
  - unfold probe_send in H. rewrite Hp in H. destruct (peerSend _ _ _ _ _) as [[ok [a1 outs]]|]; [|done].
    cbn in H. injection H as <- _. destruct ok; cbn; [rewrite lookup_insert_eq|rewrite lookup_delete_eq]; cbn; lia.
  - injection H as <- _. unfold probe_register. rewrite Hp. cbn. rewrite lookup_insert_eq. cbn. lia.
  - injection H as <- _. unfold probe_finish. rewrite Hp. cbn. rewrite lookup_delete_eq. cbn. lia.
Qed.

Lemma from_probing rest i (Hrest : forall col, at_ col = Sampling rest -> AgentSafety.Inv (agent (cl col)) -> Reaches col) :
  forall n col, at_ col = Probing i rest -> probe_rank (probes (agent (cl col)) !! i) = n ->
  AgentSafety.Inv (agent (cl col)) -> Reaches col.
Proof.
  induction n as [n IH] using lt_wf_ind. intros col Ha Hn I.
  destruct (probes (agent (cl col)) !! i) as [p|] eqn:Ep.
  - apply (Reaches_client (EvAgent (probe_event i p)) col I).
    { unfold expire. rewrite Ha, Ep. by destruct p. }
    { by destruct p. }
    intros w os E I'. cbn [AgentControl.cstep] in E.
    assert (Hel : elsewhere (cl col) (probe_event i p) = true) by by destruct p. rewrite Hel in E.
    destruct (step other parse (agent (cl col)) (probe_event i p)) as [[a o]|] eqn:Es; [|done].
    cbn in E. injection E as <- <-. apply (probe_nearer i p) in Es; [|done].
    eapply (IH (probe_rank (probes a !! i))); [by rewrite <- Hn|done|done|done].
  - apply (Reaches_goto (Sampling rest)).
    + unfold expire. by rewrite Ha, Ep.
    + unfold collect_step. by rewrite Ha, Ep.
    + by apply Hrest.
Qed.

Lemma unused_new col : pings (agent (cl col)) !! unused col = None /\ probes (agent (cl col)) !! unused col = None.
Proof.
  pose proof (is_fresh (dom (pings (agent (cl col))) ∪ dom (probes (agent (cl col))))) as H. unfold unused.
  split; apply not_elem_of_dom; set_solver.
Qed.

Lemma from_sampling rest : forall col, at_ col = Sampling rest -> AgentSafety.Inv (agent (cl col)) -> Reaches col.
Proof.
  induction rest as [|ps rest IH]; intros col Ha I.
  - apply (Reaches_call EvQuery Questioning col (col <| asked := None |>)); [done| | |].
    + unfold expire. by rewrite Ha.
    + unfold collect_step. by rewrite Ha.
    + intros w os _ I'. by apply from_questioning.
  - destruct (ps_Established ps) eqn:Ee.
    + apply (Reaches_call (EvAgent (EvProbe (unused col) (ps_ID ps))) (Probing (unused col) rest) col col); [done| | |].
      * unfold expire. by rewrite Ha.
      * unfold collect_step. rewrite Ha, Ee. cbn [negb]. by rewrite (proj2 (unused_new col)).
      * intros w os _ I'. by eapply from_probing.
    + apply (Reaches_goto (Sampling rest)).
      * unfold expire. by rewrite Ha.
      * unfold collect_step. by rewrite Ha, Ee.
      * by apply IH.
Qed.

Lemma from_polling col : at_ col = Polling -> AgentSafety.Inv (agent (cl col)) -> Reaches col.
Proof.
  intros Ha I. eapply (Reaches_goto (Sampling _)).
  - unfold expire. by rewrite Ha.
  - unfold collect_step. rewrite Ha, orb_true_r. reflexivity.
  - by eapply from_sampling.
Qed.

(** How many steps a cancelled [Ping] is from its end. *)
Definition ping_rank (p : ping_pos) : nat :=
  match p with
  | WaitingPeers => 6 | LookingUp => 5 | Establishing _ => 4 | AtRound _ => 3 | PingSent _ _ _ => 2
  | PingWaiting _ _ _ _ | Pausing _ => 1 | PingReturned _ _ => 0
  end.

Lemma ping_nearer j g (a a' : Agent L) os : pings a !! j = Some g -> ping_rank (pos g) <> 0%nat ->
  step other parse a (EvPingStep j OnContext now now now false) = Some (a', os) ->
  exists g', pings a' !! j = Some g' /\ (ping_rank (pos g') < ping_rank (pos g))%nat.
Proof.
  intros Hg Hr H. cbn [step] in H. unfold ping_step in H. rewrite Hg in H.
  assert (Hset : forall p b, (ping_rank p < ping_rank (pos g))%nat ->
            exists g', pings (set_pos j g p b) !! j = Some g' /\ (ping_rank (pos g') < ping_rank (pos g))%nat).
  { intros p b Hp. cbn. rewrite lookup_insert_eq. by eexists. }
  destruct (pos g) as [| |r|x|x seq ts|x seq ts ch|x|] eqn:Eg; cbn [ping_rank] in *; [..|done].
  - unfold WaitPeers in H. cbn [on_context] in H. destruct (negb _); injection H as <- _; apply Hset; cbn; lia.
  - injection H as <- _. apply Hset. destruct (peers a !! target g); cbn; lia.
  - destruct (heap a !! r); [|done]. cbn [mbind option_bind on_context] in H.
    unfold PeerSession.WaitEstablished in H. destruct (PeerSession.Established _); injection H as <- _; apply Hset; cbn; lia.
  - destruct (_ <? _).
    + destruct (peerSend _ _ _ _ _) as [[ok [a1 outs]]|]; [|done]. cbn in H. injection H as <- _. apply Hset. cbn. lia.
    + destruct (heap a !! g_peer x); [|done]. cbn in H. injection H as <- _. apply Hset. cbn. lia.
  - injection H as <- _. apply Hset. cbn. lia.
  - injection H as <- _. apply Hset. cbn. lia.
  - destruct (heap a !! g_peer x); [|done]. injection H as <- _. apply Hset. cbn. lia.
Qed.

Lemma from_warming j : forall n g col, at_ col = Warming j -> pings (agent (cl col)) !! j = Some g ->
  ping_rank (pos g) = n -> AgentSafety.Inv (agent (cl col)) -> Reaches col.
Proof.
  induction n as [n IH] using lt_wf_ind. intros g col Ha Hg Hn I.
  destruct (decide (n = 0%nat)) as [->|Hn0].
  - eapply (Reaches_goto (Sampling _)).
    + unfold expire. rewrite Ha, Hg. cbn. by destruct (pos g).
    + unfold collect_step. rewrite Ha, Hg. cbn [fmap option_fmap option_map]. destruct (pos g); try done; reflexivity.
    + by eapply from_sampling.
  - apply (Reaches_client (EvAgent (EvPingStep j OnContext now now now false)) col I); [|done|].
    { unfold expire. rewrite Ha, Hg. cbn. by destruct (pos g). }
    intros w os E I'. cbn [AgentControl.cstep elsewhere] in E.
    destruct (step other parse (agent (cl col)) _) as [[a o]|] eqn:Es; [|done].
    cbn in E. injection E as <- <-. apply (ping_nearer j g) in Es as (g' & Hg' & Hlt); [|done|lia].
    eapply (IH (ping_rank (pos g'))); [lia|done|exact Hg'|done|done].
Qed.

Lemma from_awaiting col : at_ col = AwaitingPeers -> AgentSafety.Inv (agent (cl col)) -> Reaches col.
Proof.
  intros Ha I. assert (Hw : is_Some (WaitPeers true (agent (cl col)))) by (unfold WaitPeers; destruct (negb _); by eexists).
  destruct Hw as [x Hw]. destruct (bool_decide (probePeer = ""%string)) eqn:Ep.
  - apply (Reaches_goto Polling).
    + unfold expire. by rewrite Ha.
    + unfold collect_step. by rewrite Ha, Hw, Ep.
    + by apply from_polling.
  - apply (Reaches_call (EvAgent (EvPing (unused col) probePeer 1 0)) (Warming (unused col)) col col); [done| | |].
    + unfold expire. by rewrite Ha.
    + unfold collect_step. by rewrite Ha, Hw, Ep, (proj1 (unused_new col)).
    + intros w os E I'. cbn in E. injection E as <- <-. eapply from_warming; [done| |reflexivity|done].
      cbn. unfold ping_start. rewrite (proj1 (unused_new col)). cbn. by rewrite lookup_insert_eq.
Qed.

(** How many steps a failing start is from its end. *)
Definition start_rank w : nat :=
  match main w with
  | Locating _ => 4
  | Enrolling _ => match registering w with Idle => 3 | _ => 2 end
  | Settling _ => 1 | _ => 0
  end.

Lemma start_nearer w w' os e : starting (main w) -> start_rank w <> 0%nat ->
  e = match main w with
      | Locating _ => EvLocate None [] false []
      | Enrolling _ => fail_register now (registering w)
      | _ => EvSettle true
      end ->
  cstep other parse w e = Some (w', os) -> starting (main w') /\ (start_rank w' < start_rank w)%nat.
Proof.
  unfold start_rank. intros Hs Hr -> H. destruct (main w) as [|[]|[]|[]| | |r] eqn:Em; try done.
  - cbn in H. unfold locate in H. rewrite Em in H. cbn in H. injection H as <- <-. cbn. split; [done|lia].
  - destruct (registering w) as [|pub|pub c r|c] eqn:Er.
    + destruct (register_starts now w false Er Em) as (w1 & os1 & E & _ & Hx). rewrite H in E. injection E as <- <-.
      destruct Hx as [[Hm Hi]|[x Hm]]; rewrite Hm; [|by split; [|lia]]. split; [done|]. by destruct (registering w'); [|lia..].
    + destruct (register_fails now w ltac:(by rewrite Er)) as (w1 & os1 & r1 & E & _ & _ & _ & Hm).
      rewrite Er, H in E. injection E as <- <-. rewrite Hm, Em. cbn. split; [done|lia].
    + destruct (register_fails now w ltac:(by rewrite Er)) as (w1 & os1 & r1 & E & _ & _ & _ & Hm).
      rewrite Er, H in E. injection E as <- <-. rewrite Hm, Em. cbn. split; [done|lia].
    + destruct (register_fails now w ltac:(by rewrite Er)) as (w1 & os1 & r1 & E & _ & _ & _ & Hm).
      rewrite Er, H in E. injection E as <- <-. rewrite Hm, Em. cbn. split; [done|lia].
  - cbn in H. unfold settle in H. rewrite Em in H. injection H as <- <-. cbn. split; [done|lia].
Qed.

Lemma from_starting : forall n col, at_ col = Starting -> starting (main (cl col)) -> start_rank (cl col) = n ->
  AgentSafety.Inv (agent (cl col)) -> Reaches col.
Proof.
  induction n as [n IH] using lt_wf_ind. intros col Ha Hs Hn I.
  destruct (decide (n = 0%nat)) as [->|Hn0].
  - assert (Hm : exists r, main (cl col) = Returned r).
    { unfold start_rank in Hn. destruct (main (cl col)); try done; [by destruct (registering (cl col))|by eexists]. }
    destruct Hm as [[u|e] Hm].
    + apply (Reaches_goto AwaitingPeers); [unfold expire; by rewrite Ha, Hm|unfold collect_step; by rewrite Ha, Hm|].
      by apply from_awaiting.
    + eapply (Reaches_goto (Collected _ _)); [unfold expire; by rewrite Ha, Hm|unfold collect_step; rewrite Ha, Hm; reflexivity|].
      by apply Reaches_now.
  - eapply (Reaches_client (match main (cl col) with
                            | Locating _ => EvLocate None [] false []
                            | Enrolling _ => fail_register now (registering (cl col))
                            | _ => EvSettle true
                            end) col I); [| |intros w os E I'].
    + unfold expire. rewrite Ha. unfold start_rank in Hn. destruct (main (cl col)); try (by subst n); reflexivity.
    + destruct (main (cl col)); try done. by destruct (registering (cl col)).
    + eapply start_nearer in E as [Hs' Hlt]; [|done|lia|done].
      eapply (IH (start_rank w)); [by rewrite <- Hn|done|done|done|done].
Qed.

Lemma from_begin col : at_ col = Begin -> main (cl col) = Fresh -> AgentSafety.Inv (agent (cl col)) -> Reaches col.
Proof.
  intros Ha Hm I. apply (Reaches_call (EvStart false) Starting col col); [done| | |].
  - unfold expire. by rewrite Ha.
  - unfold collect_step. by rewrite Ha.
  - intros w os E I'. cbn [AgentControl.cstep] in E. unfold start in E. rewrite Hm in E. injection E as <- <-.
    by eapply from_starting.
Qed.

Lemma from_live col : Live col -> Reaches col.
Proof.
  intros [I Hp]. destruct (at_ col) as [| | |j| |rest|i rest| |st err|st err] eqn:Ha.
  - by apply from_begin.
  - by eapply from_starting.
  - by apply from_awaiting.
  - destruct Hp as [g Hg]. by eapply from_warming.
  - by apply from_polling.
  - by eapply from_sampling.
  - eapply from_probing; [intros col1 H1 I1; by eapply from_sampling|done|done|done].
  - by apply from_questioning.
  - by eapply from_closing.
  - apply Reaches_now. unfold returned. by rewrite Ha.
Qed.
End From.

(** ** Every state *)

Lemma background_Live e col col' :
  Live col -> background e = true -> perform other parse e col = Some col' -> Live col'.
Proof.
  intros [I Hp] Hb H. destruct (perform_live e col I) as (w & os & E & I' & Ep). rewrite Ep in H. injection H as <-.
  constructor; [exact I'|]. cbn. pose proof (background_main _ _ _ _ E Hb) as [M1 M2].
  destruct (at_ col); try done; auto. by eapply cstep_pings.
Qed.

Lemma Live_goto p col : Live col -> (match p with Begin | Starting | Warming _ => False | _ => True end) -> Live (col <| at_ := p |>).
Proof. intros [I _] Hp. constructor; [exact I|]. by destruct p. Qed.

Lemma collect_Live probePeer now ctx k col col' :
  Live col -> collect_step other parse probePeer now ctx k col = Some col' -> Live col'.
Proof.
  intros V H. pose proof (lv_inv _ V) as I. unfold collect_step in H.
  assert (Hcall : forall e p col0, AgentSafety.Inv (agent (cl col0)) ->
            (match p with Begin | Starting | Warming _ => False | _ => True end) ->
            (c ← perform other parse e col0; Some (c <| at_ := p |>)) = Some col' -> Live col').
  { intros e p col0 I0 Hp Hc. destruct (perform_live e col0 I0) as (w & os & _ & I' & Ep). rewrite Ep in Hc.
    cbn in Hc. injection Hc as <-. constructor; [exact I'|]. by destruct p. }
  destruct (at_ col) as [| | |j| |rest|j rest| |st err|st err] eqn:Ep.
  - destruct (perform_live (EvStart false) col I) as (w & os & E & I' & Epf). rewrite Epf in H. cbn in H. injection H as <-.
    constructor; [exact I'|]. cbn. pose proof (lv_pos _ V) as Hm. rewrite Ep in Hm.
    cbn [AgentControl.cstep] in E. unfold start in E. rewrite Hm in E. by injection E as <- _.
  - destruct (main (cl col)) as [| | | | | |[u|e]]; injection H as <-; try done; by apply Live_goto.
  - destruct (WaitPeers _ _); [|by injection H as <-]. destruct (bool_decide _); [injection H as <-; by apply Live_goto|].
    destruct (pings _ !! k) eqn:Ek; [by injection H as <-|].
    destruct (perform_live (EvAgent (EvPing k probePeer 1 0)) col I) as (w & os & E & I' & Epf). rewrite Epf in H.
    cbn in H. injection H as <-. constructor; [exact I'|]. cbn in E |- *. injection E as <- _. cbn. unfold ping_start.
    rewrite Ek. cbn. by rewrite lookup_insert_eq.
  - destruct (pos <$> _) as [[]|]; injection H as <-; first [done|by apply Live_goto].
  - destruct (_ || ctx); injection H as <-; [by apply Live_goto|done].
  - destruct rest as [|ps rest]; [by apply Hcall in H|].
    destruct (negb _); [injection H as <-; by apply Live_goto|].
    destruct (probes _ !! k); [by injection H as <-|]. by apply Hcall in H.
  - destruct (probes _ !! j); injection H as <-; [done|by apply Live_goto].
  - destruct (asked col) as [r|] eqn:Er.
    + destruct (with_registry r _) as [st err] eqn:Ew. injection H as <-. by apply Live_goto.
    + destruct (query (cl col)); try by injection H as <-. destruct (perform_live EvQuery col I) as (w & os & _ & I' & Epf).
      rewrite Epf in H. injection H as <-. constructor; [exact I'|]. cbn. by rewrite Ep.
  - destruct (ctrlMu_free (cl col)); [by apply Hcall in H|by injection H as <-].
  - by injection H as <-.
Qed.

Lemma rstep_Live probePeer e col col' : Live col -> rstep other parse probePeer col e = Some col' -> Live col'.
Proof.
  intros V H. destruct e as [now ctx i|e]; cbn [rstep] in H; [by eapply collect_Live|].
  destruct (background e) eqn:Eb; [by eapply background_Live|by injection H as <-].
Qed.

Lemma rstep_total probePeer e col : Live col -> is_Some (rstep other parse probePeer col e).
Proof.
  intros V. pose proof (lv_inv _ V) as I.
  assert (Hp : forall e col0, AgentSafety.Inv (agent (cl col0)) -> is_Some (perform other parse e col0)).
  { intros e' col0 I0. destruct (perform_live e' col0 I0) as (w & os & _ & _ & ->). by eexists. }
  assert (Hc : forall e col0 p, AgentSafety.Inv (agent (cl col0)) ->
             is_Some (c ← perform other parse e col0; Some (c <| at_ := p |>))).
  { intros e' col0 p I0. destruct (Hp e' col0 I0) as [x ->]. by eexists. }
  destruct e as [now ctx i|e]; cbn [rstep]; [|by destruct (background e); [apply Hp|eexists]].
  unfold collect_step. destruct (at_ col) as [| | |j| |rest|j rest| |st err|st err].
  - by apply Hc.
  - destruct (main (cl col)) as [| | | | | |[|]]; by eexists.
  - destruct (WaitPeers _ _); [|by eexists]. destruct (bool_decide _); [by eexists|].
    destruct (pings _ !! i); [by eexists|by apply Hc].
  - destruct (pos <$> _) as [[]|]; by eexists.
  - destruct (_ || ctx); by eexists.
  - destruct rest as [|ps rest]; [by apply Hc|]. destruct (negb _); [by eexists|].
    destruct (probes _ !! i); [by eexists|by apply Hc].
  - destruct (probes _ !! j); by eexists.
  - destruct (asked col) as [r|]; [destruct (with_registry r _); by eexists|].
    destruct (query (cl col)); try by eexists. by apply Hp.
  - destruct (ctrlMu_free (cl col)); [by apply Hc|by eexists].
  - by eexists.
Qed.

(** [C24] The status command always returns: in every state [collectStatus] may be in, whatever
    has happened so far, when nothing arrives any more and each wait ends with its deadline
    it is over after finitely many steps. (And nothing that can happen makes it panic.) *)
Theorem status_returns (c : Config) (k : Keypair) (natDoor relayAddr : string) (a0 : Agent L)
    (probePeer : string) (es : list revent) (now : Time) (Hnew : New other c k natDoor relayAddr = Ok a0) :
  exists col, rrun other parse probePeer (collector a0) es = Some col /\
    exists n col', expires probePeer now n col = Some col' /\ returned col' = true.
Proof.
  assert (V : Live (collector a0)).
  { constructor; [|done]. exact (proj1 (client_kept other parse c k natDoor relayAddr a0 Hnew)). }
  revert V. generalize (collector a0). induction es as [|e es IH]; intros col V; cbn [rrun].
  { exists col. split; [done|]. by apply from_live. }
  destruct (rstep_total probePeer e col V) as [col1 E]. rewrite E. cbn [mbind option_bind].
  apply IH. by eapply rstep_Live.
Qed.
End Returns.
