(* ===== verification/Dashboard.v ===== *)
(** * The terminal dashboard (src/cmd/agent/tui.go)

    [tuiLoop] and the goroutines it starts, around a running client: a tick looks at the
    peers one by one and starts a probe for each established one that has none in flight; a
    probe is a goroutine of its own, in [a.ProbeRTT] and then in its deferred function. The
    header and the table are what the screen is given; tview's cells are their text and
    their colours. *)

From S2P Require Import Prelude GoBytes GoRuntime GoNet GoText NoiseLib Noisework Protocol Agent.
From S2P Require Import AgentControl Report.
From S2P Require Tun.

(** ** What is shown *)

(** [renderHeader]'s key: its first 16 bytes and an ellipsis. *)
Definition ellipsis : string := string_of_bytes [xe2; x80; xa6].
Definition short_key (key : string) : string :=
  if slen key >? 16 then str_take 16 key +:+ ellipsis else key.

Definition dot : string := string_of_bytes [x20; xc2; xb7; x20].
Definition lf : string := string_of_bytes [x0a].

Definition renderHeader (snap : Snapshot) (reg : CoordinatorStatus) (regOK : bool) : string :=
  let registry :=
    if regOK then
      ("coordinator registry: " +:+ Itoa (reg_Count reg) +:+ " peers registered (" +:+ Itoa (reg_Total reg) +:+
       " served, up " +:+ Itoa (reg_Up reg) +:+ "s)")%string
    else "coordinator registry: unknown"%string in
  ("[lime]meshlink [-:-:-]name=[aqua]" +:+ s_Name snap +:+ "[-]" +:+ dot +:+ "key=" +:+
   short_key (s_PubKey snap) +:+ lf +:+
   "public endpoint=[aqua]" +:+ s_PublicEP snap +:+ "[-]" +:+ dot +:+ "relay=[aqua]" +:+ s_Relay snap +:+
   "[-]" +:+ dot +:+ "coordinator=[aqua]" +:+ s_Coordinator snap +:+ "[-]" +:+ lf +:+ registry)%string.

Inductive colour := Default | White | Gray | Green | Yellow | Red.
Record cell := MkCell { text : string; fg : colour; bg : colour; selectable : bool }.
#[export] Instance cell_eq_dec : EqDecision cell.
Proof. intros [] []. unfold Decision. repeat decide equality. Defined.

(** tview's table: the cells that were set. *)
Abbreviation table := (gmap (nat * nat) cell).

Definition headers : list string :=
  ["Peer"; "Direct EP"; "Est."; "Path"; "RTT"; "RTT history"; "Rekeys"; "Age"]%string.

Definition plain (s : string) (c : colour) : cell := MkCell s c Default false.

Definition path_colour (path : string) : colour :=
  if bool_decide (path = "direct"%string) then Green
  else if bool_decide (path = "relay"%string) then Yellow else Red.

Definition peer_cells (p : PeerStatus) : list cell :=
  [plain (ps_ID p) Default; plain (ps_DirectEP p) Default;
   if ps_Established p then plain "yes" Green else plain "no" Red;
   plain (ps_Path p) (path_colour (ps_Path p)); plain (fmtDur (ps_LastRTT p)) Default;
   plain (joinDurs (ps_RTTHistory p)) Default; plain (Itoa (ps_RekeyCount p)) Default;
   plain (fmtDur (ps_SessionAge p)) Default].

(** The calls of [SetCell] along a row, from column [col] on. *)
Fixpoint set_row (row col : nat) (cs : list cell) (t : table) : table :=
  match cs with [] => t | c :: cs => set_row row (S col) cs (<[(row, col) := c]> t) end.

Fixpoint set_rows (row : nat) (ps : list PeerStatus) (t : table) : table :=
  match ps with [] => t | p :: ps => set_rows (S row) ps (set_row row 0 (peer_cells p) t) end.

Definition renderTable (t : table) (snap : Snapshot) : table :=
  let t := ∅ in                                        (* [table.Clear] *)
  let t := set_row 0 0 (map (fun h => MkCell h White Gray false) headers) t in
  match s_Peers snap with
  | [] => <[(1%nat, 0%nat) := plain "no known peers yet (waiting for the coordinator peer list)" Gray]> t
  | ps => set_rows 1 ps t
  end.

(** ** The loop and its probes *)

Section Dashboard.
Context {L : NoiseLib} `{Json, PingJson, RangeOrder}.
Context (other : string -> option UDPAddr) (parse : string -> option Tun.Addr).

(** A probe's goroutine: its peer, and whether [ProbeRTT] has been called. *)
Record flight := MkFlight { f_id : string; f_called : bool }.

(** [tuiState], the goroutines, and the rest of the loop over the peers. *)
Record Dashboard := MkDashboard {
  client_ : Client L;
  registry : CoordinatorStatus;
  registryOK : bool;
  probing : gmap string bool;
  flights : gmap nat flight;
  todo : list PeerStatus
}.
#[export] Instance Dashboard_eta : Eta Dashboard := fun d =>
  MkDashboard (client_ d) (registry d) (registryOK d) (probing d) (flights d) (todo d).
Implicit Types d : Dashboard.

Definition setRegistry (r : CoordinatorStatus) d : Dashboard := d <| registry := r |> <| registryOK := true |>.

Definition snapshot d : CoordinatorStatus * bool := (registry d, registryOK d).

(** The client makes a step; an answer to the query is kept. *)
Definition tui_perform (e : cevent) d : option Dashboard :=
  '(w, os) ← cstep other parse (client_ d) e;
  let d := d <| client_ := w |> in
  Some (match queried os with
        | Some (Ok m) => setRegistry (MkRegistry (Count m) (Total m) (Up m)) d
        | _ => d
        end).

(** A tick: the peers are taken from the agent. *)
Definition tick (now : Time) d : Dashboard :=
  match todo d with
  | [] => d <| todo := s_Peers (Status now (agent (client_ d))) |>
  | _ => d
  end.

(** The next peer of the tick; a probe is goroutine [i]. *)
Definition gate (i : nat) d : Dashboard :=
  match todo d with
  | [] => d
  | p :: ps =>
      let d := d <| todo := ps |> in
      if negb (ps_Established p) then d
      else if default false (probing d !! ps_ID p) then d
      else d <| probing := <[ps_ID p := true]> (probing d) |>
             <| flights := <[i := MkFlight (ps_ID p) false]> (flights d) |>
  end.

(** The goroutine calls [ProbeRTT], as call [i]. *)
Definition launch (i : nat) d : option Dashboard :=
  match flights d !! i with
  | Some (MkFlight id false) =>
      d ← tui_perform (EvAgent (EvProbe i id)) d;
      Some (d <| flights := <[i := MkFlight id true]> (flights d) |>)
  | _ => Some d
  end.

(** [ProbeRTT] has returned: the deferred function. *)
Definition land (i : nat) d : Dashboard :=
  match flights d !! i, probes (agent (client_ d)) !! i with
  | Some (MkFlight id true), None =>
      d <| probing := delete id (probing d) |> <| flights := delete i (flights d) |>
  | _, _ => d
  end.

(** Goroutine numbers are new. *)
Definition new_number (i : nat) d : bool :=
  bool_decide (flights d !! i = None) && bool_decide (probes (agent (client_ d)) !! i = None).

Inductive tevent := Tick (now : Time) | Gate (i : nat) | Launch (i : nat) | Land (i : nat) | TuiClient (e : cevent).

(** The probes are the dashboard's own. *)
Definition others (e : cevent) : bool := match e with EvAgent (EvProbe _ _) => false | _ => true end.

Definition tstep d (e : tevent) : option Dashboard :=
  match e with
  | Tick now => Some (tick now d)
  | Gate i => Some (if new_number i d then gate i d else d)
  | Launch i => launch i d
  | Land i => Some (land i d)
  | TuiClient e => if others e then tui_perform e d else Some d
  end.

Fixpoint trun d (es : list tevent) : option Dashboard :=
  match es with [] => Some d | e :: es => d ← tstep d e; trun d es end.

(** [runTUI] on a client that has started. *)
Definition dashboard (w : Client L) : Dashboard := MkDashboard w no_registry false ∅ ∅ [].

(** What is on the screen at a redraw. *)
Definition render (now : Time) (t : table) d : string * table :=
  let '(reg, regOK) := snapshot d in
  let snap := Status now (agent (client_ d)) in
  (renderHeader snap reg regOK, renderTable t snap).
End Dashboard.

Arguments Dashboard L : clear implicits.

(** ** The table *)

Lemma set_row_lookup row cs : forall col t r c,
  set_row row col cs t !! (r, c) =
  if decide (r = row /\ (col <= c)%nat /\ (c < col + length cs)%nat) then cs !! (c - col)%nat else t !! (r, c).
Proof.
  induction cs as [|x cs IH]; intros col t r c; cbn [set_row length].
  { destruct (decide _); [lia|done]. }
  rewrite IH. destruct (decide (r = row /\ (S col <= c)%nat /\ (c < S col + length cs)%nat)) as [(-> & H1 & H2)|Hn].
  - rewrite decide_True by lia. by replace (c - col)%nat with (S (c - S col)) by lia.
  - destruct (decide (r = row /\ c = col)) as [[-> ->]|Hd].
    + rewrite lookup_insert_eq, decide_True by lia. by rewrite Nat.sub_diag.
    + rewrite lookup_insert_ne by (intros [= <- <-]; by apply Hd). rewrite decide_False; [done|]. intros (-> & ? & ?).
      apply Hn. split; [done|]. assert (c <> col) by (intros ->; by apply Hd). lia.
Qed.

Lemma set_rows_lookup ps : forall row t r c,
  set_rows row ps t !! (r, c) =
  match (if decide (row <= r)%nat then ps !! (r - row)%nat else None) with
  | Some p => if decide (c < 8)%nat then peer_cells p !! c else t !! (r, c)
  | None => t !! (r, c)
  end.
Proof.
  induction ps as [|p ps IH]; intros row t r c; cbn [set_rows].
  { destruct (decide _); [|done]. by rewrite lookup_nil. }
  rewrite IH. destruct (decide (S row <= r)%nat) as [Hr|Hr].
  - rewrite decide_True by lia. replace (r - row)%nat with (S (r - S row)) by lia. cbn [lookup list_lookup].
    assert (Hs : set_row row 0 (peer_cells p) t !! (r, c) = t !! (r, c)).
    { rewrite set_row_lookup, decide_False by lia. done. }
    by rewrite Hs.
  - rewrite set_row_lookup. destruct (decide (r = row)) as [->|Hne].
    + rewrite (decide_True (P := (row <= row)%nat)) by lia. rewrite Nat.sub_diag. cbn [lookup list_lookup].
      change (length (peer_cells p)) with 8%nat. destruct (decide (c < 8)%nat).
      * rewrite decide_True by lia. by rewrite Nat.sub_0_r.
      * by rewrite decide_False by lia.
    + rewrite (decide_False (P := (row <= r)%nat)) by lia. rewrite decide_False by lia. done.
Qed.

(** What the table shows is the snapshot alone: whatever it held before, row 0 has the
    headings, row i + 1 the eight cells of the i-th peer, there is no other cell, and
    without peers there is one line that says so. *)
Theorem table_exact (t : table) (snap : Snapshot) (r c : nat) :
  renderTable t snap !! (r, c) =
  match r with
  | O => (fun h => MkCell h White Gray false) <$> headers !! c
  | S i =>
      match s_Peers snap with
      | [] => if decide (r = 1%nat /\ c = 0%nat)
              then Some (plain "no known peers yet (waiting for the coordinator peer list)" Gray) else None
      | ps => p ← ps !! i; peer_cells p !! c
      end
  end.
Proof.
  assert (H0 : forall r c, set_row 0 0 (map (fun h => MkCell h White Gray false) headers) (∅ : table) !! (r, c) =
            if decide (r = 0%nat) then (fun h => MkCell h White Gray false) <$> headers !! c else None).
  { clear. intros r c. rewrite set_row_lookup, lookup_empty. destruct (decide (r = 0%nat)) as [->|Hr].
    - destruct (decide _) as [H|H]; [by rewrite Nat.sub_0_r, list_lookup_fmap|].
      symmetry. apply fmap_None, lookup_ge_None_2. change (length headers) with 8%nat.
      change (length (map _ headers)) with 8%nat in H. lia.
    - rewrite decide_False by lia. done. }
  unfold renderTable. destruct (s_Peers snap) as [|p ps].
  - destruct (decide (r = 1%nat /\ c = 0%nat)) as [[-> ->]|Hn]; [by rewrite lookup_insert_eq|].
    rewrite lookup_insert_ne by (intros [= <- <-]; by apply Hn). rewrite H0. by destruct r.
  - rewrite set_rows_lookup, H0. destruct r as [|i]; [done|]. rewrite decide_True by lia.
    rewrite (decide_False (P := S i = 0%nat)) by lia. replace (S i - 1)%nat with i by lia.
    destruct ((p :: ps) !! i) as [q|]; [|done]. cbn [mbind option_bind]. destruct (decide (c < 8)%nat); [done|].
    symmetry. apply lookup_ge_None_2. change (length (peer_cells q)) with 8%nat. lia.
Qed.

(** ** The probes *)

Section Gate.
Context {L : NoiseLib} {J : Json} {PJ : PingJson} {RO : RangeOrder}.
Context (other : string -> option UDPAddr) (parse : string -> option Tun.Addr).
Implicit Types d : Dashboard L.

(** The gate and the goroutines agree. *)
Record Gated d : Prop := {
  g_open id : is_Some (probing d !! id) -> probing d !! id = Some true /\ exists i, f_id <$> flights d !! i = Some id;
  g_closed i f : flights d !! i = Some f -> probing d !! f_id f = Some true;
  g_once i j f g : flights d !! i = Some f -> flights d !! j = Some g -> f_id f = f_id g -> i = j
}.

Lemma tui_perform_frame e d d' : tui_perform other parse e d = Some d' ->
  probing d' = probing d /\ flights d' = flights d /\ todo d' = todo d.
Proof.
  unfold tui_perform. destruct (cstep _ _ _ _) as [[w os]|]; [|done]. cbn [mbind option_bind].
  intros [= <-]. by destruct (queried os) as [[]|].
Qed.

Lemma Gated_frame d d' : probing d' = probing d -> flights d' = flights d -> Gated d -> Gated d'.
Proof. intros E1 E2 [H1 H2 H3]. constructor; rewrite ?E1, ?E2; assumption. Qed.

Lemma Gated_gate i d : flights d !! i = None -> Gated d -> Gated (gate i d).
Proof.
  intros Hi G. unfold gate. destruct (todo d) as [|p ps]; [done|].
  destruct (negb _); [by apply (Gated_frame d)|]. cbn. destruct (probing d !! ps_ID p) as [b|] eqn:E.
  { destruct (g_open _ G (ps_ID p) ltac:(by rewrite E)) as [E' _]. rewrite E in E'. injection E' as ->.
    by apply (Gated_frame d). }
  cbn. assert (Hno : forall j f, flights d !! j = Some f -> f_id f <> ps_ID p).
  { intros j f Hf Hid. apply (g_closed _ G) in Hf. by rewrite Hid, E in Hf. }
  destruct G as [G1 G2 G3]. constructor; cbn.
  - intros id H. destruct (decide (id = ps_ID p)) as [->|Hne].
    + split; [by rewrite lookup_insert_eq|]. exists i. by rewrite lookup_insert_eq.
    + rewrite lookup_insert_ne in H |- * by done. destruct (G1 id H) as [Hp (j & Hj)]. split; [done|].
      exists j. rewrite lookup_insert_ne; [done|]. intros ->. by rewrite Hi in Hj.
  - intros j f [[<- <-]|[Hne Hf]]%lookup_insert_Some; [by rewrite lookup_insert_eq|].
    rewrite lookup_insert_ne; [by apply (G2 j)|]. intros Hid. by apply (Hno j f Hf).
  - intros j1 j2 f g [[<- <-]|[Hn1 Hf]]%lookup_insert_Some [[<- <-]|[Hn2 Hg]]%lookup_insert_Some Hid; try done.
    + by destruct (Hno j2 g Hg).
    + by destruct (Hno j1 f Hf).
    + by apply (G3 j1 j2 f g).
Qed.

Lemma Gated_step d e d' : Gated d -> tstep other parse d e = Some d' -> Gated d'.
Proof.
  intros G H. destruct e as [now|i|i|i|e]; cbn [tstep] in H.
  - injection H as <-. unfold tick. destruct (todo d); [by apply (Gated_frame d)|done].
  - injection H as <-. unfold new_number. destruct (bool_decide _) eqn:E; cbn [andb]; [|done]. zbool.
    destruct (bool_decide _); [by apply Gated_gate|done].
  - unfold launch in H. destruct (flights d !! i) as [[id []]|] eqn:E; try by injection H as <-.
    destruct (tui_perform _ _ _ d) as [d1|] eqn:E1; [|done]. cbn in H. injection H as <-.
    apply tui_perform_frame in E1 as (E1 & E2 & _).
    assert (Hf : forall j, f_id <$> flights (d1 <| flights := <[i := MkFlight id true]> (flights d1) |>) !! j
                   = f_id <$> flights d !! j).
    { intros j. cbn. rewrite E2. destruct (decide (i = j)) as [->|Hne]; [by rewrite lookup_insert_eq, E|].
      by rewrite lookup_insert_ne. }
    assert (Hs : forall j f, flights (d1 <| flights := <[i := MkFlight id true]> (flights d1) |>) !! j = Some f ->
                   exists g, flights d !! j = Some g /\ f_id g = f_id f).
    { intros j f Hj. pose proof (Hf j) as H. rewrite Hj in H. cbn in H. symmetry in H.
      apply fmap_Some in H as (g & Hg & ->). by exists g. }
    constructor.
    + cbn. rewrite E1. intros x Hx. destruct (g_open _ G x Hx) as [Hp (j & Hj)]. split; [done|].
      exists j. by rewrite <- Hj, <- (Hf j).
    + cbn. rewrite E1. intros j f Hj. destruct (Hs j f Hj) as (g & Hg & <-). by apply (g_closed _ G j).
    + intros j1 j2 f g H1 H2 Hid. destruct (Hs _ _ H1) as (f' & H1' & Hf'), (Hs _ _ H2) as (g' & H2' & Hg').
      apply (g_once _ G j1 j2 f' g'); [done..|congruence].
  - injection H as <-. unfold land. destruct (flights d !! i) as [[id []]|] eqn:E; try done.
    destruct (probes _ !! i); [done|]. destruct G as [G1 G2 G3]. constructor; cbn.
    + intros x Hx. destruct (decide (x = id)) as [->|Hne]; [by rewrite lookup_delete_eq in Hx; destruct Hx|].
      rewrite lookup_delete_ne in Hx |- * by done. destruct (G1 x Hx) as [Hp (j & Hj)]. split; [done|].
      exists j. rewrite lookup_delete_ne; [done|]. intros ->. rewrite E in Hj. by injection Hj as <-.
    + intros j f [Hne Hf]%lookup_delete_Some. rewrite lookup_delete_ne; [by apply (G2 j)|].
      intros Hid. by apply Hne, (G3 i j (MkFlight id true) f).
    + intros j1 j2 f g [_ H1]%lookup_delete_Some [_ H2]%lookup_delete_Some. by apply (G3 j1 j2).
  - destruct (others e); [|by injection H as <-]. apply tui_perform_frame in H as (E1 & E2 & _).
    by apply (Gated_frame d).
Qed.

(** One probe a peer: in every state of the dashboard no two probes are in flight for one
    peer, the gate is closed exactly for the peers with one in flight, and so the next tick
    starts a probe for each established peer whose last one has ended, and for no other. *)
Theorem one_probe_per_peer (w : Client L) (es : list tevent) (d : Dashboard L)
    (Hrun : trun other parse (dashboard w) es = Some d) :
  (forall i j f g, flights d !! i = Some f -> flights d !! j = Some g -> f_id f = f_id g -> i = j) /\
  (forall id, probing d !! id = Some true <-> exists i, f_id <$> flights d !! i = Some id) /\
  (forall i p ps, todo d = p :: ps -> flights d !! i = None ->
     flights (gate i d) =
       if ps_Established p && negb (bool_decide (map_Exists (fun _ f => f_id f = ps_ID p) (flights d)))
       then <[i := MkFlight (ps_ID p) false]> (flights d) else flights d).
Proof.
  assert (G : Gated d).
  { assert (G0 : Gated (dashboard w)).
    { constructor; cbn; intros *; rewrite ?lookup_empty; try done. }
    revert G0 Hrun. generalize (dashboard w). induction es as [|e es IH]; intros d0 G0 Hrun; cbn [trun] in Hrun.
    { by injection Hrun as <-. }
    destruct (tstep other parse d0 e) as [d1|] eqn:E; [|done]. apply (IH d1); [by eapply Gated_step|done]. }
  assert (Hiff : forall id, probing d !! id = Some true <-> exists i, f_id <$> flights d !! i = Some id).
  { intros id. split; [intros H; by apply (g_open _ G)|]. intros (i & H). apply fmap_Some in H as (f & Hf & ->).
    by apply (g_closed _ G i). }
  split; [apply (g_once _ G)|]. split; [exact Hiff|]. intros i p ps Ht Hi. unfold gate. rewrite Ht.
  destruct (ps_Established p); cbn [negb andb]; [|done]. cbn.
  destruct (bool_decide (map_Exists _ _)) eqn:E; zbool.
  - destruct E as (j & f & Hf & Hid). assert (Hp : probing d !! ps_ID p = Some true).
    { apply Hiff. exists j. rewrite Hf. cbn. by f_equal. }
    by rewrite Hp.
  - destruct (probing d !! ps_ID p) as [b|] eqn:Ep; [|done].
    destruct (g_open _ G (ps_ID p) ltac:(by rewrite Ep)) as [_ (j & Hj)]. exfalso. apply E.
    apply fmap_Some in Hj as (f & Hf & Hid). by exists j, f.
Qed.
End Gate.
