(* ===== verification/CommandsDemo.v ===== *)
(** * The commands' theorems at concrete inputs

    Command lines of the agent, a status command of alice's that sees bob in the peer list
    and gets no answer to its query, a dashboard with one probe in flight, and a payload
    whose second chunk cannot be written. *)

From S2P Require Import Prelude GoBytes GoRuntime GoNet NoiseLib Noisework Protocol Agent.
From S2P Require Import AgentControl CommandLine HttpTest Report ReportSafety ReportReturns Dashboard.
From S2P Require AgentDemo AgentControlSafety EnrolmentDemo PeerHandshake Stun.

#[local] Existing Instances Toy.lib Toy.laws Toy.xx.

(** ** Command lines *)

Module Lines.
Import EnrolmentDemo.Demo.

Definition daemon : Options := {|
  Name := "alice"; Keyfile := "a=b key"; Coordinator := ""; CoordKey := "00"; StunAddr := "-x"; RelayAddr := "";
  DataAddr := ":0"; NatDoor := ""; TunName := "tun0"; TunIP := "10.60.0.1"; TunMTU := -1;
  TunPeers := {["bob"%string := "10.60.0.2"%string; "carol"%string := "a=b"%string]};
  LogStderr := false; asJSON := false; probePeer := ""; peerID := ""; count := 0; interval := 0 |}%string.

Definition status_line : list string :=
  ["status"; "-name"; "alice"; "--keyfile=k"; "-coord-pubkey"; PublicHex kS; "-relay="; "-json"]%string.
Definition status_options : Options := Eval vm_compute in
  match agent_main status_line with Started (_, o) => o | _ => daemon end.
End Lines.

Example config_given_witness : agent_main (mode_name Up :: args_of Up Lines.daemon) = Started (Up, Lines.daemon).
Proof.
  apply config_given; try (vm_compute; done).
  eapply bool_decide_eq_true_1. vm_compute. reflexivity.
Defined.

(** ** The status command *)

Import EnrolmentDemo.Demo.
#[local] Existing Instances EnrolmentDemo.Demo.json EnrolmentDemo.Demo.ping_json EnrolmentDemo.Demo.order.

Example started_checked_witness :
  agent_main Lines.status_line = Started (StatusMode, Lines.status_options) /\
  exists a0 w os, New no_host (agent_config Lines.status_options) kA "" "" = Ok a0 /\
    AgentControl.crun no_host parse (client a0) life = Some (w, os) /\ bridge (agent w) = None.
Proof.
  assert (Hs : agent_main Lines.status_line = Started (StatusMode, Lines.status_options)) by (vm_compute; reflexivity).
  split; [exact Hs|]. destruct life_runs as (w & os & E & _).
  exists alice, w, os. split; [exact alice_New_control|]. split; [exact E|].
  destruct (started_checked no_host parse _ _ _ Hs) as (_ & _ & _ & H).
  apply (H ltac:(discriminate) kA alice life w os); [exact alice_New_control|exact E].
Defined.

Definition turn (ctx : bool) : revent := Collect T ctx 0.
Definition starting_up : list revent :=
  turn false :: map Background (tail setup ++ registering ++ [EvSettle false; EvReader T 0 0]).
Definition reporting : list revent :=
  starting_up ++ replicate 2 (turn false) ++ replicate 4 (turn true) ++
  map Background [EvQueryStep false true; EvQueryStep false true; EvQueryStep true true] ++ replicate 2 (turn true).

Definition is_reported (x : option (Collector Toy.lib)) : bool :=
  match x with
  | Some col =>
      match at_ col with
      | Collected st (Some (QueryFailed QueryCancelled)) =>
          bool_decide (s_Name st = "alice"%string) && bool_decide (map ps_ID (s_Peers st) = ["bob"%string])
      | _ => false
      end
  | None => false
  end.

Lemma reporting_check : is_reported (rrun no_host parse "" (collector alice) reporting) = true.
Proof. vm_compute. reflexivity. Qed.

Lemma reporting_runs : exists col st, rrun no_host parse "" (collector alice) reporting = Some col /\
  at_ col = Collected st (Some (QueryFailed QueryCancelled)) /\ map ps_ID (s_Peers st) = ["bob"%string].
Proof.
  pose proof reporting_check as H. destruct (rrun _ _ _ _ _) as [col|]; [|discriminate].
  unfold is_reported in H. exists col. destruct (at_ col) as [| | | | | | | | |st [[e|[]]|]]; try discriminate.
  zbool. by exists st.
Qed.

#[local] Opaque Report.rrun AgentControl.crun.

Example status_authentic_witness : exists col st,
  rrun no_host parse "" (collector alice) reporting = Some col /\
  at_ col = Collected st (Some (QueryFailed QueryCancelled)) /\
  closed (agent (cl col)) = true /\ map ps_ID (s_Peers st) = ["bob"%string] /\
  exists es1 now ctx i es2 col1, reporting = es1 ++ Collect now ctx i :: es2 /\
    rrun no_host parse "" (collector alice) es1 = Some col1 /\ s_PubKey st = PublicHex kA /\
    forall ps, ps ∈ s_Peers st -> exists plain,
      AgentControlSafety.heard no_host parse (ParsePublicKeyHex (Agent.CoordKey config)) (client alice) (moves col1) plain.
Proof.
  destruct reporting_runs as (col & st & E & Hat & Hb). exists col, st. split; [exact E|]. split; [exact Hat|].
  destruct (status_authentic no_host parse config kA "" "" alice alice_New_control "" reporting col st _ E Hat)
    as [(e & He & _)|(Hc & es1 & now & ctx & i & es2 & col1 & os & r & Hes & Hr1 & _ & _ & _ & _ & _ & _ & Hk & _ & _ & Hps)];
    [discriminate|].
  split; [exact Hc|]. split; [exact Hb|]. exists es1, now, ctx, i, es2, col1.
  split; [exact Hes|]. split; [exact Hr1|]. split; [exact Hk|].
  intros ps Hin. destruct (Hps ps Hin) as (q & n & key & plain & msg & info & _ & _ & Hh & _). exists plain. exact Hh.
Defined.

(** Interrupted after its start, it returns. *)
Example status_returns_witness : exists col n col',
  rrun no_host parse "bob" (collector alice) (starting_up ++ [turn false; turn false]) = Some col /\
  expires no_host parse "bob" T n col = Some col' /\ returned col' = true.
Proof.
  destruct (status_returns no_host parse config kA "" "" alice "bob" (starting_up ++ [turn false; turn false]) T
              alice_New_control) as (col & E & n & col' & E' & H).
  exists col, n, col'. split; [exact E|]. split; [exact E'|exact H].
Defined.

(** ** The transfer endpoint *)

Definition zeros (_ : nat) (n : Z) : option (list byte) :=
  if 0 <=? n then Some (replicate (Z.to_nat n) x00) else None.
Definition full_disk (i : nat) (n : Z) : option Z := if (Nat.eqb i 1 && (3 <? n))%bool then Some 3 else None.

Lemma zeros_gives : gives zeros.
Proof.
  intros i n bs H. unfold zeros in H. destruct (0 <=? n) eqn:E; [|discriminate]. injection H as <-.
  apply Z.leb_le in E. unfold len. rewrite length_replicate. lia.
Qed.
Lemma full_disk_reports : reports full_disk.
Proof.
  intros i n k H. unfold full_disk in H. destruct (_ && _)%bool eqn:E; [|discriminate]. injection H as <-.
  apply andb_prop in E as [_ E]. apply Z.ltb_lt in E. lia.
Qed.

(** When the disk fills up, 1 MiB and 3 bytes are written; that is the payload from then on. *)
Example half_payload :
  match ensureFile zeros full_disk true None (2 * chunk) with
  | Some (e, Some bs) => (e, len bs) = (Some WriteFailed, chunk + 3)
  | _ => False
  end.
Proof. vm_compute. reflexivity. Qed.

Module Endpoint.
#[local] Instance x509 : X509 string () (list byte * list byte) := {
  ParseIP s := if bool_decide (s = "127.0.0.1"%string) then Some s else None;
  GenerateKey _ := Some ();
  CreateCertificate t _ _ := Some (bytes_of_string (CommonName t));
  MarshalECPrivateKey _ := Some [x30];
  EncodeToMemory label bs := bytes_of_string label ++ bs;
  X509KeyPair c k := Some (c, k);
  LoadX509KeyPair _ _ := None
}.
Definition join (a b : string) : string := if bool_decide (a = "."%string) then b else (a +:+ "/" +:+ b)%string.
Definition world : world := MkWorld true true zeros (fun _ _ => None) true (fun _ => true) T [] [] Written.
Definition flags : Flags := httptest_defaults <| f_size := "3"%string |>.
Definition started (f : Flags) := httptest_main join (fun bs => bs) world f ∅.

Definition line (f : Flags) : option (string * option response) :=
  match started f with
  | (Some sv, d) =>
      Some (announcement_line sv "127.0.0.1:4433" 4433 d,
            Some (ServeHTTP (handler sv) (d !! filePath (handler sv)) ("/" +:+ name (handler sv))))
  | (None, _) => None
  end.

Definition printed (l : string) : string := (l +:+ newline)%string.
Example a_bin : line flags =
  Some (printed "httptest addr=127.0.0.1:4433 port=4433 url=https://127.0.0.1:4433/a.bin file=a.bin size=3 sha256=000000 cert=cert.pem h2=true",
        Some (Contents (replicate 3 x00))).
Proof. vm_compute. reflexivity. Qed.

(** A payload called cert.pem: the certificate is written over it, and the hash that is
    announced is not that of the file that is served. *)
Example cert_clobbers :
  match started (flags <| f_fileName := "cert.pem"%string |>) with
  | (Some sv, d) =>
      sha (handler sv) = "000000"%string /\
      ServeHTTP (handler sv) (d !! filePath (handler sv)) "/cert.pem"
      = Contents (bytes_of_string "CERTIFICATEmeshlink-httptest")
  | (None, _) => False
  end.
Proof. vm_compute. by split. Qed.
End Endpoint.
#[local] Existing Instance Endpoint.x509.

Example serves_announced_witness : exists sv d,
  Endpoint.started Endpoint.flags = (Some sv, d) /\ filePath (handler sv) = "a.bin"%string /\
  d !! "a.bin"%string = Some (replicate 3 x00).
Proof.
  destruct (Endpoint.started Endpoint.flags) as [o d] eqn:E.
  assert (Hs : o <> None) by (change o with (o, d).1; rewrite <- E; by vm_compute).
  destruct o as [sv|]; [|contradiction]. exists sv, d. split; [reflexivity|].
  destruct (serves_announced Endpoint.join (fun bs => bs) Endpoint.world Endpoint.flags ∅ d sv zeros_gives
              ltac:(intros ? ? ? H; discriminate H) E) as (H1 & _ & sz & bs & Hz & _ & Hl & _ & Hd & _).
  split; [exact H1|]. assert (Hp : Endpoint.join (f_dir Endpoint.flags) (f_fileName Endpoint.flags) = "a.bin"%string) by reflexivity.
  rewrite Hp in Hd. assert (Hn : "a.bin"%string <> Endpoint.join (f_dir Endpoint.flags) "cert.pem") by discriminate.
  rewrite (Hd (or_intror Hn)). pose proof (f_equal (fun p => p.2 !! "a.bin"%string) E) as H2.
  cbn [snd] in H2. rewrite (Hd (or_intror Hn)) in H2. rewrite <- H2. vm_compute. reflexivity.
Defined.

(** ** The dashboard *)

Module Screen.
#[local] Existing Instances AgentDemo.Demo.json AgentDemo.Demo.ping_json AgentDemo.Demo.order.
Definition no_host := AgentDemo.Demo.no_host.
Definition parse := AgentDemo.Demo.parse.

Definition connected : option (Agent Toy.lib) :=
  fst <$> run no_host parse AgentDemo.Demo.alice AgentDemo.Demo.connect.
Definition ticks : list tevent :=
  [Tick T; Gate 0; Launch 0; TuiClient (EvAgent (EvProbeWait 0 false)); Tick T; Gate 1].

Definition check_screen (x : option (Dashboard Toy.lib)) : bool :=
  match x with
  | Some d => bool_decide (f_id <$> flights d !! 0%nat = Some "bob"%string) &&
              bool_decide (f_id <$> flights d !! 1%nat = None) && bool_decide (todo d = [])
  | None => false
  end.
Lemma screen_check :
  check_screen (a ← connected; trun no_host parse (dashboard (client a)) ticks) = true.
Proof. vm_compute. reflexivity. Qed.

Lemma screen_runs : exists w d, trun no_host parse (dashboard w) ticks = Some d /\
  f_id <$> flights d !! 0%nat = Some "bob"%string.
Proof.
  pose proof screen_check as H. destruct connected as [a|]; [|discriminate]. cbn [mbind option_bind] in H.
  exists (client a). destruct (trun _ _ _ _) as [d|]; [|discriminate]. exists d. split; [reflexivity|].
  unfold check_screen in H. by zbool.
Qed.
End Screen.
#[local] Existing Instances AgentDemo.Demo.json AgentDemo.Demo.ping_json AgentDemo.Demo.order.

Example one_probe_per_peer_witness : exists w d,
  trun Screen.no_host Screen.parse (dashboard w) Screen.ticks = Some d /\
  probing d !! "bob"%string = Some true.
Proof.
  destruct Screen.screen_runs as (w & d & E & Hb). exists w, d. split; [exact E|].
  destruct (one_probe_per_peer Screen.no_host Screen.parse w Screen.ticks d E) as (_ & H & _).
  apply H. exists 0%nat. exact Hb.
Defined.
